(** * DatabaseKit: the transactional repository engine

    A shallow embedding of the two adapters of the package
    ([PostgresAdapter] over a Knex query builder and [MongoAdapter] over a
    Mongoose model): the filter merge and filter compiler, the page-result
    shaper, the timestamp and soft-delete overlays, the hook pipeline, the
    repositories built by [createRepository], and the retry loop of
    [withTransaction].

    JavaScript objects are entry lists in insertion order; asynchronous
    repository methods are state transformers over a world holding the
    table, the clock and the log of driver calls, and return either a value
    or the thrown error. *)

From Stdlib Require Import ZArith List String Ascii Bool Lia DecimalString.
Import ListNotations.
Local Open Scope string_scope.
Local Open Scope Z_scope.
Local Open Scope list_scope.

(* ================================================================== *)
(** * JavaScript values and objects *)
(* ================================================================== *)

(** Field values of payloads, rows and filter literals.  A [Date] is kept
    as its epoch milliseconds. *)
Inductive Scalar : Type :=
| SNull
| SBool (b : bool)
| SNum (n : Z)
| SStr (s : string)
| SDate (t : Z).

Inductive JsVal : Type :=
| JScalar (s : Scalar)
| JArr (items : list Scalar).

Definition scalar_eqb (a b : Scalar) : bool :=
  match a, b with
  | SNull, SNull => true
  | SBool x, SBool y => Bool.eqb x y
  | SNum x, SNum y => Z.eqb x y
  | SStr x, SStr y => String.eqb x y
  | SDate x, SDate y => Z.eqb x y
  | _, _ => false
  end.

Definition is_null (s : Scalar) : bool :=
  match s with SNull => true | _ => false end.

(** JavaScript truthiness ([if (v)], [a && b], [a || b]). *)
Definition truthy_scalar (s : Scalar) : bool :=
  match s with
  | SNull => false
  | SBool b => b
  | SNum n => negb (n =? 0)
  | SStr s => negb (String.eqb s "")
  | SDate _ => true
  end.

Definition truthy (v : JsVal) : bool :=
  match v with
  | JScalar s => truthy_scalar s
  | JArr _ => true
  end.

(** [typeof v === 'object']: null, dates and arrays. *)
Definition typeof_object (v : JsVal) : bool :=
  match v with
  | JScalar SNull | JScalar (SDate _) | JArr _ => true
  | JScalar _ => false
  end.

Definition isArray (v : JsVal) : bool :=
  match v with JArr _ => true | JScalar _ => false end.

(** [Number.MAX_SAFE_INTEGER]: up to it the integers of the model are the
    numbers of JavaScript. *)
Definition MAX_SAFE_INTEGER : Z := 9007199254740991.

(** [String(v)] and [`${v}`] for a scalar whose print is the same
    everywhere: a safe integer prints its digits.  A date prints in the
    local time zone, which the model does not have. *)
Definition print_scalar (v : Scalar) : option string :=
  match v with
  | SNull => Some "null"
  | SBool true => Some "true"
  | SBool false => Some "false"
  | SNum n =>
      if Z.abs n <=? MAX_SAFE_INTEGER
      then Some (NilZero.string_of_int (Z.to_int n))
      else None
  | SStr s => Some s
  | SDate _ => None
  end.

(** An array prints its elements with commas between them, a null element
    as nothing. *)
Definition print_item (v : Scalar) : option string :=
  match v with
  | SNull => Some EmptyString
  | _ => print_scalar v
  end.

Fixpoint print_items (items : list Scalar) : option string :=
  match items with
  | [] => Some EmptyString
  | [v] => print_item v
  | v :: rest =>
      match print_item v, print_items rest with
      | Some a, Some b => Some (a ++ "," ++ b)%string
      | _, _ => None
      end
  end.

Definition print (v : JsVal) : option string :=
  match v with
  | JScalar s => print_scalar s
  | JArr items => print_items items
  end.

(** An object is the list of its entries.  The list is read the way an
    object literal is: a key written twice keeps its first position and its
    last value. *)
Abbreviation obj V := (list (string * V)) (only parsing).

Section Objects.
Context {V : Type}.

Fixpoint obj_get (k : string) (o : obj V) : option V :=
  match o with
  | [] => None
  | (k', v) :: rest =>
      match obj_get k rest with
      | Some w => Some w
      | None => if String.eqb k k' then Some v else None
      end
  end.

Definition has_key (k : string) (o : obj V) : bool :=
  match obj_get k o with Some _ => true | None => false end.

Fixpoint obj_replace (k : string) (v : V) (o : obj V) : obj V :=
  match o with
  | [] => []
  | (k', v') :: rest =>
      (k', if String.eqb k k' then v else v') :: obj_replace k v rest
  end.

(** [o[k] = v]: overwrite in place, or append a new key at the end. *)
Definition obj_set (k : string) (v : V) (o : obj V) : obj V :=
  if has_key k o then obj_replace k v o else o ++ [(k, v)].

(** [{ ...base, ...src }] continued from an object under construction. *)
Definition spread (base src : obj V) : obj V :=
  fold_left (fun acc kv => obj_set (fst kv) (snd kv) acc) src base.

(** [{ ...a, ...b, ...c }]. *)
Definition obj_literal (parts : list (obj V)) : obj V :=
  fold_left spread parts [].

Definition keys (o : obj V) : list string := map fst o.

End Objects.

(* ================================================================== *)
(** * Pagination shaper *)
(* ================================================================== *)

Record PageResult (T : Type) : Type := mkPageResult {
  pr_data : list T;
  pr_page : Z;
  pr_limit : Z;
  pr_total : Z;
  pr_pages : Z
}.
Arguments mkPageResult {T}.
Arguments pr_data {T}.
Arguments pr_page {T}.
Arguments pr_limit {T}.
Arguments pr_total {T}.
Arguments pr_pages {T}.

(** [x || d] on numbers: zero is the falsy number. *)
Definition num_or (x d : Z) : Z := if x =? 0 then d else x.

(** [Math.ceil(a / b)] for integers and a non-zero divisor. *)
Definition ceil_quot (a b : Z) : Z := - ((- a) / b).

(** Both adapters define the same helper:
    [const pages = Math.max(1, Math.ceil((total || 0) / (limit || 1)));
     return { data, page, limit, total, pages };] *)
Definition shapePage {T : Type} (data : list T) (page limit total : Z)
  : PageResult T :=
  let pages := Z.max 1 (ceil_quot (num_or total 0) (num_or limit 1)) in
  mkPageResult data page limit total pages.

(** [q] is the ceiling of the exact quotient [a / b]. *)
Definition is_ceiling (a b q : Z) : Prop :=
  (0 < b -> (q - 1) * b < a <= q * b) /\
  (b < 0 -> q * b <= a < (q - 1) * b).

(* ================================================================== *)
(** * Thrown values, results and the effect monad *)
(* ================================================================== *)

(** What a [catch] clause can receive: an error object (with the optional
    [code] property and [hasErrorLabel] method the classifiers probe) or a
    thrown primitive, [null] included.  [undefined] is not among the
    scalars: what the drivers make of a callback that rejects with
    [undefined] is outside this development. *)
Record ErrorObject : Type := mkErrorObject {
  err_message : string;
  err_code : option Scalar;
  err_hasErrorLabel : option (string -> bool)
}.

Inductive Thrown : Type :=
| ThrownPrimitive (v : Scalar)
| ThrownObject (e : ErrorObject).

(** [new Error(message)]. *)
Definition new_Error (message : string) : Thrown :=
  ThrownObject (mkErrorObject message None None).

Inductive Result (A : Type) : Type :=
| Ok (a : A)
| Throw (e : Thrown).
Arguments Ok {A}.
Arguments Throw {A}.

(** An asynchronous method over a world [W]: it resolves or rejects, and
    leaves a new world either way. *)
Definition M (W A : Type) : Type := W -> Result A * W.

Definition ret {W A : Type} (a : A) : M W A := fun w => (Ok a, w).

Definition throw {W A : Type} (e : Thrown) : M W A := fun w => (Throw e, w).

Definition bind {W A B : Type} (c : M W A) (k : A -> M W B) : M W B :=
  fun w =>
    match c w with
    | (Ok a, w') => k a w'
    | (Throw e, w') => (Throw e, w')
    end.

(** [try { c } catch (error) { handler error }]. *)
Definition try_catch {W A : Type} (c : M W A) (handler : Thrown -> M W A)
  : M W A :=
  fun w =>
    match c w with
    | (Ok a, w') => (Ok a, w')
    | (Throw e, w') => handler e w'
    end.

(** [try { c } finally { cleanup }]: the cleanup runs on both exits, and an
    error of the cleanup replaces the outcome. *)
Definition try_finally {W A : Type} (c : M W A) (cleanup : M W unit)
  : M W A :=
  fun w =>
    match c w with
    | (r, w') =>
        match cleanup w' with
        | (Ok _, w'') => (r, w'')
        | (Throw e, w'') => (Throw e, w'')
        end
    end.

Declare Scope effect_scope.
Delimit Scope effect_scope with effect.
Notation "x <- c ;; k" := (bind c (fun x => k))
  (at level 61, c at next level, right associativity) : effect_scope.
Notation "c ;;; k" := (bind c (fun _ => k))
  (at level 61, right associativity) : effect_scope.
Local Open Scope effect_scope.

(** Sequential [for ... of] / [map] with an effectful body. *)
Fixpoint mapM {W A B : Type} (f : A -> M W B) (l : list A) : M W (list B) :=
  match l with
  | [] => ret []
  | x :: rest => y <- f x ;; ys <- mapM f rest ;; ret (y :: ys)
  end.

(** The double-quote character used in error messages. *)
Definition dquote : string := String (ascii_of_nat 34) EmptyString.

(* ================================================================== *)
(** * Transactions: options, events and the client's behaviour *)
(* ================================================================== *)

Inductive TransactionIsolationLevel : Type :=
| ReadUncommitted
| ReadCommitted
| RepeatableRead
| Serializable.

Record TransactionOptions : Type := mkTransactionOptions {
  isolationLevel : option TransactionIsolationLevel;
  timeout : option Z;
  retries : option Z
}.

Definition DEFAULT_TRANSACTION_TIMEOUT : Z := 30000.

(** [opt ?? d] and destructuring defaults. *)
Definition or_default {A : Type} (o : option A) (d : A) : A :=
  match o with Some a => a | None => d end.

(** Calls that leave the coordinator, in order.  Handles are numbered as
    the driver hands them out. *)
Inductive TxEvent : Type :=
| EvConnect
| EvBegin (trx : nat) (level : TransactionIsolationLevel)
| EvRaw (trx : nat) (statement_timeout : Z)
| EvStartSession (session : nat)
| EvStartTransaction (session : nat) (maxCommitTimeMS : Z)
| EvCallback (handle : nat)
| EvCommit (handle : nat)
| EvRollback (trx : nat)
| EvAbort (session : nat)
| EvEndSession (session : nat)
| EvSleep (ms : Z).

Record TxWorld : Type := mkTxWorld {
  tx_log : list TxEvent;
  tx_next : nat
}.

Definition emit (e : TxEvent) : M TxWorld unit :=
  fun w => (Ok tt, mkTxWorld (tx_log w ++ [e]) (tx_next w)).

(** The driver hands out a handle it never used before. *)
Definition fresh_handle : M TxWorld nat :=
  fun w => (Ok (tx_next w), mkTxWorld (tx_log w) (S (tx_next w))).

(** The code around the coordinator: what the user callback does with the
    context built on a given transaction handle, and whether the backend
    accepts the commit on that handle.  These are the two places where an
    attempt can fail here: the other driver calls (opening and ending a
    session, beginning, aborting and rolling back a transaction, setting
    the statement timeout) are taken to succeed. *)
Record TxClient (T : Type) : Type := mkTxClient {
  callback : nat -> Result T;
  commit_error : nat -> option Thrown
}.
Arguments mkTxClient {T}.
Arguments callback {T}.
Arguments commit_error {T}.

Definition run_callback {T : Type} (client : TxClient T) (handle : nat)
  : M TxWorld T :=
  emit (EvCallback handle) ;;;
  (fun w => (callback client handle, w)).

Definition run_commit {T : Type} (client : TxClient T) (handle : nat)
  : M TxWorld unit :=
  emit (EvCommit handle) ;;;
  match commit_error client handle with
  | None => ret tt
  | Some e => throw e
  end.

(** [setTimeout]-based [sleep(ms)]. *)
Definition sleep (ms : Z) : M TxWorld unit := emit (EvSleep ms).

(** The exponential backoff both adapters compute:
    [Math.min(100 * Math.pow(2, attempt), 3000)]. *)
Definition backoffMs (attempt : Z) : Z := Z.min (100 * 2 ^ attempt) 3000.

(** [lastError.message], which both coordinators read for their warning
    line before they classify the error.  Reading a property of [null]
    throws a [TypeError]; an error object has the property, and any other
    primitive answers [undefined]. *)
Definition message_of_null : Thrown :=
  new_Error "Cannot read properties of null (reading 'message')".

Definition read_message {W : Type} (lastError : Thrown) : M W unit :=
  match lastError with
  | ThrownPrimitive SNull => throw message_of_null
  | _ => ret tt
  end.

(** How one turn of the retry loop ends when it does not throw. *)
Inductive LoopExit (T : Type) : Type :=
| Returned (result : T)
| NextAttempt (lastError : Thrown).
Arguments Returned {T}.
Arguments NextAttempt {T}.

(* ================================================================== *)
(** * Contracts: filters, payloads, hooks, page options, repository *)
(* ================================================================== *)

(** A property value of a [Record<string, unknown>]: a literal, or a nested
    object such as the operator object of a filter. *)
Inductive Value : Type :=
| Lit (v : JsVal)
| Obj (ops : obj JsVal).

(** A filter maps a field to a literal or to an operator object. *)
Abbreviation Filter := (obj Value) (only parsing).

(** [Partial<T>] payloads and the stored entities. *)
Abbreviation Payload := (obj Value) (only parsing).
Abbreviation Entity := (obj Value) (only parsing).

Definition lit (s : Scalar) : Value := Lit (JScalar s).

Definition as_scalar (v : Value) : option Scalar :=
  match v with Lit (JScalar s) => Some s | _ => None end.

Definition value_is_null (v : Value) : bool :=
  match v with Lit (JScalar SNull) => true | _ => false end.

(** [id: string | number]. *)
Inductive Id : Type :=
| IdStr (s : string)
| IdNum (n : Z).

Definition id_value (id : Id) : Scalar :=
  match id with IdStr s => SStr s | IdNum n => SNum n end.

Inductive Operation : Type := OpCreate | OpUpdate | OpDelete | OpUpsert.

Record HookContext : Type := mkHookContext {
  hc_data : Payload;
  hc_operation : Operation;
  hc_isBulk : bool
}.

(** User callbacks, by what they hand back: a before-hook resolves to a
    replacement payload or to nothing ([None], for [undefined] or [null]),
    or rejects. *)
Record RepositoryHooks : Type := mkRepositoryHooks {
  beforeCreate : option (HookContext -> Result (option Payload));
  afterCreate : option (Entity -> Result unit);
  beforeUpdate : option (HookContext -> Result (option Payload));
  afterUpdate : option (option Entity -> Result unit);
  beforeDelete : option (Id -> Result unit);
  afterDelete : option (bool -> Result unit)
}.

Inductive SortSpec : Type :=
| SortString (s : string)
| SortObject (o : obj Value).

Record PageOptions : Type := mkPageOptions {
  po_filter : option Filter;
  po_page : option Z;
  po_limit : option Z;
  po_sort : option SortSpec
}.

(** [Repository<T>] over a world [W].  The six soft-delete methods are
    optional properties. *)
Module Repo.

Record Repository (W : Type) : Type := mkRepository {
  create : Payload -> M W Entity;
  findById : Id -> M W (option Entity);
  findAll : option Filter -> M W (list Entity);
  findOne : Filter -> M W (option Entity);
  findPage : option PageOptions -> M W (PageResult Entity);
  updateById : Id -> Payload -> M W (option Entity);
  deleteById : Id -> M W bool;
  count : option Filter -> M W Z;
  exists_ : option Filter -> M W bool;
  insertMany : list Payload -> M W (list Entity);
  updateMany : Filter -> Payload -> M W Z;
  deleteMany : Filter -> M W Z;
  upsert : Filter -> Payload -> M W Entity;
  distinct : string -> option Filter -> M W (list Value);
  select : Filter -> list string -> M W (list Entity);
  softDelete : option (Id -> M W bool);
  softDeleteMany : option (Filter -> M W Z);
  restore : option (Id -> M W (option Entity));
  restoreMany : option (Filter -> M W Z);
  findAllWithDeleted : option (option Filter -> M W (list Entity));
  findDeleted : option (option Filter -> M W (list Entity))
}.
Arguments create {W}.
Arguments findById {W}.
Arguments findAll {W}.
Arguments findOne {W}.
Arguments findPage {W}.
Arguments updateById {W}.
Arguments deleteById {W}.
Arguments count {W}.
Arguments exists_ {W}.
Arguments insertMany {W}.
Arguments updateMany {W}.
Arguments deleteMany {W}.
Arguments upsert {W}.
Arguments distinct {W}.
Arguments select {W}.
Arguments softDelete {W}.
Arguments softDeleteMany {W}.
Arguments restore {W}.
Arguments restoreMany {W}.
Arguments findAllWithDeleted {W}.
Arguments findDeleted {W}.

End Repo.

(** A resolved or rejected promise that touches no state. *)
Definition lift {W A : Type} (r : Result A) : M W A := fun w => (r, w).

(** [a || d] on strings: the empty string is falsy. *)
Definition str_or (a : option string) (d : string) : string :=
  match a with
  | Some s => if String.eqb s EmptyString then d else s
  | None => d
  end.

(** [arr.includes(x)] on strings. *)
Definition includes (x : string) (arr : list string) : bool :=
  existsb (String.eqb x) arr.

(* ================================================================== *)
(** * The relational driver: query builder and table *)
(* ================================================================== *)

Inductive Comparison : Type := Gt | Gte | Lt | Lte.

(** The [where] calls the adapter makes on a builder. *)
Inductive Where : Type :=
| WhereEq (column : string) (value : JsVal)
| WhereNot (column : string) (value : JsVal)
| WhereCmp (column : string) (op : Comparison) (value : JsVal)
| WhereIn (column : string) (values : JsVal)
| WhereNotIn (column : string) (values : JsVal)
| WhereILike (column : string) (pattern : JsVal)
| WhereNull (column : string)
| WhereNotNull (column : string).

Inductive Direction : Type := Asc | Desc.

Inductive Verb : Type :=
| Select (columns : option (list string))
| First (columns : option (list string))
| Distinct (column : string)
| Count
| Insert (rows : list Payload)
| Update (patch : Payload)
| UpdateReturning (patch : Payload)
| Delete.

(** A builder: [kx(table)] and what was chained on it. *)
Record Query : Type := mkQuery {
  q_table : string;
  q_verb : Verb;
  q_where : list Where;
  q_order : list (string * Direction);
  q_limit : option Z;
  q_offset : option Z
}.

Definition kx (table : string) : Query :=
  mkQuery table (Select None) [] [] None None.

Definition with_verb (v : Verb) (q : Query) : Query :=
  mkQuery (q_table q) v (q_where q) (q_order q) (q_limit q) (q_offset q).

Definition and_where (w : Where) (q : Query) : Query :=
  mkQuery (q_table q) (q_verb q) (q_where q ++ [w]) (q_order q)
          (q_limit q) (q_offset q).

Definition orderBy (column : string) (d : Direction) (q : Query) : Query :=
  mkQuery (q_table q) (q_verb q) (q_where q) (q_order q ++ [(column, d)])
          (q_limit q) (q_offset q).

Definition limit_ (n : Z) (q : Query) : Query :=
  mkQuery (q_table q) (q_verb q) (q_where q) (q_order q) (Some n)
          (q_offset q).

Definition offset_ (n : Z) (q : Query) : Query :=
  mkQuery (q_table q) (q_verb q) (q_where q) (q_order q) (q_limit q)
          (Some n).

(** What running a builder resolves to. *)
Inductive Rows : Type :=
| RowList (rows : list Entity)
| RowFirst (row : option Entity)
| RowCount (n : Z)
| RowValues (values : list Value).

(** Hook calls and executed queries, in order. *)
Inductive DbEvent : Type :=
| Executed (q : Query)
| CalledBeforeCreate (ctx : HookContext)
| CalledAfterCreate (entity : Entity)
| CalledBeforeUpdate (ctx : HookContext)
| CalledAfterUpdate (entity : option Entity)
| CalledBeforeDelete (id : Id)
| CalledAfterDelete (success : bool).

(** The world of a relational repository: the rows of its table, the clock
    [new Date()] reads, and the log. *)
Record Db : Type := mkDb {
  db_rows : list Entity;
  db_now : Z;
  db_log : list DbEvent
}.

Definition record_event (e : DbEvent) : M Db unit :=
  fun w => (Ok tt, mkDb (db_rows w) (db_now w) (db_log w ++ [e])).

(** [new Date()]. *)
Definition new_Date : M Db Value := fun w => (Ok (lit (SDate (db_now w))), w).

(** ** How the engine reads a predicate *)

(** A column a row does not mention is null. *)
Definition column (r : Entity) (c : string) : Value :=
  or_default (obj_get c r) (lit SNull).

(** SQL [=] between a column and a bound scalar: never true on a null.
    The two are compared as values of one JavaScript type; the server
    casts a bound value of another type to the type of the column, which
    the rows do not record. *)
Definition sql_eq (x : Value) (v : Scalar) : bool :=
  match as_scalar x with
  | Some s => negb (is_null s) && negb (is_null v) && scalar_eqb s v
  | None => false
  end.

Definition scalar_compare (x v : Scalar) : option comparison :=
  match x, v with
  | SNum a, SNum b => Some (Z.compare a b)
  | SDate a, SDate b => Some (Z.compare a b)
  | SStr a, SStr b => Some (String.compare a b)
  | SBool a, SBool b => Some (Bool.compare a b)
  | _, _ => None
  end.

Definition value_compare (x y : Value) : option comparison :=
  match as_scalar x, as_scalar y with
  | Some a, Some b => scalar_compare a b
  | _, _ => None
  end.

Definition sql_cmp (op : Comparison) (x : Value) (v : Scalar) : bool :=
  match value_compare x (lit v) with
  | Some c =>
      match op, c with
      | Gt, Datatypes.Gt => true
      | Gte, (Datatypes.Gt | Datatypes.Eq) => true
      | Lt, Datatypes.Lt => true
      | Lte, (Datatypes.Lt | Datatypes.Eq) => true
      | _, _ => false
      end
  | None => false
  end.

Definition lower (c : ascii) : ascii :=
  let n := nat_of_ascii c in
  if ((65 <=? n) && (n <=? 90))%nat then ascii_of_nat (n + 32) else c.

(** [ILIKE]: [%] matches any run of characters, [_] any one character. *)
Fixpoint ilike (pattern s : string) : bool :=
  match pattern with
  | EmptyString => match s with EmptyString => true | _ => false end
  | String p rest =>
      if Ascii.eqb p "%"%char then
        (fix skip (t : string) : bool :=
           ilike rest t
           || match t with
              | EmptyString => false
              | String _ t' => skip t'
              end) s
      else
        match s with
        | EmptyString => false
        | String c s' =>
            (Ascii.eqb p "_"%char || Ascii.eqb (lower p) (lower c))
            && ilike rest s'
        end
  end.

(** The builder binds a null value as [IS NULL] / [IS NOT NULL], and
    writes [whereNotIn] with an empty list as a condition that always
    holds.  [NOT IN] over a list with a null in it is never true. *)
Definition holds (w : Where) (r : Entity) : bool :=
  match w with
  | WhereEq c (JScalar SNull) => value_is_null (column r c)
  | WhereEq c (JScalar v) => sql_eq (column r c) v
  | WhereEq c (JArr _) => false
  | WhereNot c (JScalar SNull) => negb (value_is_null (column r c))
  | WhereNot c (JScalar v) =>
      negb (value_is_null (column r c)) && negb (sql_eq (column r c) v)
  | WhereNot c (JArr _) => false
  | WhereCmp c op (JScalar v) => sql_cmp op (column r c) v
  | WhereCmp c op (JArr _) => false
  | WhereIn c (JArr vs) => existsb (sql_eq (column r c)) vs
  | WhereIn c (JScalar _) => false
  | WhereNotIn c (JArr []) => true
  | WhereNotIn c (JArr vs) =>
      negb (value_is_null (column r c))
      && negb (existsb is_null vs)
      && forallb (fun v => negb (sql_eq (column r c) v)) vs
  | WhereNotIn c (JScalar _) => false
  | WhereILike c (JScalar (SStr p)) =>
      match as_scalar (column r c) with
      | Some (SStr s) => ilike p s
      | _ => false
      end
  | WhereILike c _ => false
  | WhereNull c => value_is_null (column r c)
  | WhereNotNull c => negb (value_is_null (column r c))
  end.

Definition where_column (w : Where) : string :=
  match w with
  | WhereEq c _ | WhereNot c _ | WhereCmp c _ _ | WhereIn c _
  | WhereNotIn c _ | WhereILike c _ | WhereNull c | WhereNotNull c => c
  end.

Definition matches (ws : list Where) (r : Entity) : bool :=
  forallb (fun w => holds w r) ws.

(** [ORDER BY]: a stable insertion sort on the listed columns; values that
    do not compare keep their order. *)
Fixpoint row_before (order : list (string * Direction)) (a b : Entity)
  : bool :=
  match order with
  | [] => false
  | (c, d) :: rest =>
      match value_compare (column a c) (column b c) with
      | Some Datatypes.Lt => match d with Asc => true | Desc => false end
      | Some Datatypes.Gt => match d with Asc => false | Desc => true end
      | _ => row_before rest a b
      end
  end.

Fixpoint insert_sorted (order : list (string * Direction)) (r : Entity)
  (sorted : list Entity) : list Entity :=
  match sorted with
  | [] => [r]
  | x :: rest =>
      if row_before order x r then x :: insert_sorted order r rest
      else r :: x :: rest
  end.

Definition sort_rows (order : list (string * Direction))
  (rows : list Entity) : list Entity :=
  fold_right (insert_sorted order) [] rows.

(** [OFFSET] and [LIMIT], for the non-negative numbers a server
    accepts. *)
Definition window (q : Query) (rows : list Entity) : list Entity :=
  let skipped := match q_offset q with
                 | Some n => skipn (Z.to_nat n) rows
                 | None => rows
                 end in
  match q_limit q with
  | Some n => firstn (Z.to_nat n) skipped
  | None => skipped
  end.

Definition project (columns : option (list string)) (r : Entity) : Entity :=
  match columns with
  | None => r
  | Some cs => filter (fun kv => includes (fst kv) cs) r
  end.

Definition value_eqb (x y : Value) : bool :=
  match as_scalar x, as_scalar y with
  | Some a, Some b => scalar_eqb a b
  | _, _ => false
  end.

Fixpoint dedup (vs : list Value) : list Value :=
  match vs with
  | [] => []
  | v :: rest =>
      if existsb (value_eqb v) rest then dedup rest else v :: dedup rest
  end.

(** An [UPDATE] writes the patch over every matching row. *)
Definition patch_row (ws : list Where) (patch : Payload) (r : Entity)
  : Entity :=
  if matches ws r then spread r patch else r.

(** [await qb]: run the builder against the table and log it.  The
    statement is taken to be one the builder and the server accept: an
    update that writes at least one column, a limit that is not negative;
    an insert returns the rows as they were given. *)
Definition execute (q : Query) : M Db Rows :=
  fun w =>
    let hit := filter (matches (q_where q)) (db_rows w) in
    let picked := window q (sort_rows (q_order q) hit) in
    let logged rows' := mkDb rows' (db_now w) (db_log w ++ [Executed q]) in
    match q_verb q with
    | Select cs => (Ok (RowList (map (project cs) picked)), logged (db_rows w))
    | First cs =>
        (Ok (RowFirst (option_map (project cs) (hd_error picked))),
         logged (db_rows w))
    | Distinct c =>
        (Ok (RowValues (dedup (map (fun r => column r c) picked))),
         logged (db_rows w))
    | Count => (Ok (RowCount (Z.of_nat (List.length hit))), logged (db_rows w))
    | Insert rows =>
        (Ok (RowList rows), logged (db_rows w ++ rows))
    | Update patch =>
        (Ok (RowCount (Z.of_nat (List.length hit))),
         logged (map (patch_row (q_where q) patch) (db_rows w)))
    | UpdateReturning patch =>
        (Ok (RowList (map (fun r => spread r patch) hit)),
         logged (map (patch_row (q_where q) patch) (db_rows w)))
    | Delete =>
        (Ok (RowCount (Z.of_nat (List.length hit))),
         logged (filter (fun r => negb (matches (q_where q) r)) (db_rows w)))
    end.

Definition as_list (r : Rows) : list Entity :=
  match r with RowList rows => rows | _ => [] end.

Definition as_first (r : Rows) : option Entity :=
  match r with
  | RowFirst row => row
  | RowList rows => hd_error rows
  | _ => None
  end.

Definition as_count (r : Rows) : Z :=
  match r with RowCount n => n | _ => 0 end.

Definition as_values (r : Rows) : list Value :=
  match r with RowValues vs => vs | _ => [] end.

(* ================================================================== *)
(** * PostgresAdapter *)
(* ================================================================== *)

Module PostgresAdapter.

Record PostgresEntityConfig : Type := mkPostgresEntityConfig {
  cfg_table : string;
  cfg_primaryKey : option string;
  cfg_columns : option (list string);
  cfg_defaultFilter : option Filter;
  cfg_softDelete : option bool;
  cfg_softDeleteField : option string;
  cfg_timestamps : option bool;
  cfg_createdAtField : option string;
  cfg_updatedAtField : option string;
  cfg_hooks : option RepositoryHooks
}.

(** ** [createRepository] *)

Section CreateRepository.
Variable cfg : PostgresEntityConfig.

Definition table : string := cfg_table cfg.
Definition pk : string := str_or (cfg_primaryKey cfg) "id".
Definition allowed : list string := or_default (cfg_columns cfg) [].
Definition baseFilter : Filter := or_default (cfg_defaultFilter cfg) [].

Definition softDeleteEnabled : bool := or_default (cfg_softDelete cfg) false.
Definition softDeleteField : string :=
  or_default (cfg_softDeleteField cfg) "deleted_at".

Definition timestampsEnabled : bool := or_default (cfg_timestamps cfg) false.
Definition createdAtField : string :=
  or_default (cfg_createdAtField cfg) "created_at".
Definition updatedAtField : string :=
  or_default (cfg_updatedAtField cfg) "updated_at".

Definition hooks : option RepositoryHooks := cfg_hooks cfg.

(** [softDeleteEnabled ? { [softDeleteField]: { isNull: true } } : {}] *)
Definition notDeletedFilter : Filter :=
  if softDeleteEnabled
  then [(softDeleteField, Obj [("isNull", JScalar (SBool true))])]
  else [].

Definition addCreatedAt (data : Payload) : M Db Payload :=
  if timestampsEnabled
  then now <- new_Date ;; ret (obj_literal [data; [(createdAtField, now)]])
  else ret data.

Definition addUpdatedAt (data : Payload) : M Db Payload :=
  if timestampsEnabled
  then now <- new_Date ;; ret (obj_literal [data; [(updatedAtField, now)]])
  else ret data.

(** [hooks?.name]: the hook, when a bundle is configured and defines it. *)
Definition hook {H : Type} (name : RepositoryHooks -> option H) : option H :=
  match hooks with
  | Some bundle => name bundle
  | None => None
  end.

Definition runBeforeCreate (data : Payload) : M Db Payload :=
  match hook beforeCreate with
  | Some beforeCreate =>
      let ctx := mkHookContext data OpCreate false in
      record_event (CalledBeforeCreate ctx) ;;;
      result <- lift (beforeCreate ctx) ;;
      ret (or_default result data)
  | None => ret data
  end.

Definition runAfterCreate (entity : Entity) : M Db unit :=
  match hook afterCreate with
  | Some afterCreate =>
      record_event (CalledAfterCreate entity) ;;; lift (afterCreate entity)
  | None => ret tt
  end.

Definition runBeforeUpdate (data : Payload) : M Db Payload :=
  match hook beforeUpdate with
  | Some beforeUpdate =>
      let ctx := mkHookContext data OpUpdate false in
      record_event (CalledBeforeUpdate ctx) ;;;
      result <- lift (beforeUpdate ctx) ;;
      ret (or_default result data)
  | None => ret data
  end.

Definition runAfterUpdate (entity : option Entity) : M Db unit :=
  match hook afterUpdate with
  | Some afterUpdate =>
      record_event (CalledAfterUpdate entity) ;;; lift (afterUpdate entity)
  | None => ret tt
  end.

Definition runBeforeDelete (id : Id) : M Db unit :=
  match hook beforeDelete with
  | Some beforeDelete =>
      record_event (CalledBeforeDelete id) ;;; lift (beforeDelete id)
  | None => ret tt
  end.

Definition runAfterDelete (success : bool) : M Db unit :=
  match hook afterDelete with
  | Some afterDelete =>
      record_event (CalledAfterDelete success) ;;; lift (afterDelete success)
  | None => ret tt
  end.

Definition field_not_allowed (field : string) : Thrown :=
  new_Error
    ("Field " ++ dquote ++ field ++ dquote ++ " is not allowed for table "
     ++ dquote ++ table ++ dquote
     ++ ". Add it to columns[] in config.")%string.

(** [if (allowed.length && !allowed.includes(field)) throw new Error(...)] *)
Definition assertFieldAllowed (field : string) : M Db unit :=
  if negb (Nat.eqb (List.length allowed) 0) && negb (includes field allowed)
  then throw (field_not_allowed field)
  else ret tt.

(** [value && typeof value === 'object' && !Array.isArray(value)]: the
    operator object, when the value is read as one.  A [Date] passes the
    test and has none of the operator keys. *)
Definition operator_object (value : Value) : option (obj JsVal) :=
  match value with
  | Obj ops => Some ops
  | Lit v =>
      if truthy v && typeof_object v && negb (isArray v)
      then Some []
      else None
  end.

(** [if (ops.k !== undefined) ...] *)
Definition when_defined (ops : obj JsVal) (k : string)
  (clause : JsVal -> Where) : list Where :=
  match obj_get k ops with
  | Some v => [clause v]
  | None => []
  end.

(** [if (ops.k) ...] *)
Definition when_truthy (ops : obj JsVal) (k : string)
  (clause : JsVal -> Where) : list Where :=
  match obj_get k ops with
  | Some v => if truthy v then [clause v] else []
  | None => []
  end.

(** [if (ops.k === true) ...] *)
Definition when_true (ops : obj JsVal) (k : string) (clause : Where)
  : list Where :=
  match obj_get k ops with
  | Some (JScalar (SBool true)) => [clause]
  | _ => []
  end.

(** [`${ops.like}`]: the pattern is the print of the value; a value whose
    print the model does not have is kept, and matches no row. *)
Definition template (v : JsVal) : JsVal :=
  match print v with
  | Some s => JScalar (SStr s)
  | None => v
  end.

(** The builder calls [applyFilter] makes for one entry of the filter. *)
Definition clauses (key : string) (value : Value) : list Where :=
  match operator_object value with
  | Some ops =>
      when_defined ops "eq" (WhereEq key)
      ++ when_defined ops "ne" (WhereNot key)
      ++ when_defined ops "gt" (WhereCmp key Gt)
      ++ when_defined ops "gte" (WhereCmp key Gte)
      ++ when_defined ops "lt" (WhereCmp key Lt)
      ++ when_defined ops "lte" (WhereCmp key Lte)
      ++ when_truthy ops "in" (WhereIn key)
      ++ when_truthy ops "nin" (WhereNotIn key)
      ++ when_truthy ops "like" (fun v => WhereILike key (template v))
      ++ when_true ops "isNull" (WhereNull key)
      ++ when_true ops "isNotNull" (WhereNotNull key)
  | None =>
      match value with
      | Lit v => [WhereEq key v]
      | Obj _ => []
      end
  end.

(** [Object.entries(filter).forEach(([key, value]) => { ... })] *)
Fixpoint applyFilter (qb : Query) (filter : Filter) : M Db Query :=
  match filter with
  | [] => ret qb
  | (key, value) :: rest =>
      assertFieldAllowed key ;;;
      applyFilter (fold_left (fun q w => and_where w q) (clauses key value) qb)
        rest
  end.

(** [p.split(',')] *)
Fixpoint split_commas (s : string) : list string :=
  match s with
  | EmptyString => [EmptyString]
  | String c rest =>
      if Ascii.eqb c ","%char then EmptyString :: split_commas rest
      else match split_commas rest with
           | [] => [String c EmptyString]
           | part :: parts => String c part :: parts
           end
  end.

Definition startsWith (c : ascii) (s : string) : bool :=
  match s with String c' _ => Ascii.eqb c c' | EmptyString => false end.

(** [p.replace(/^[-+]/, '')] *)
Definition strip_sign (s : string) : string :=
  match s with
  | String c rest =>
      if Ascii.eqb c "-"%char || Ascii.eqb c "+"%char then rest else s
  | EmptyString => s
  end.

Fixpoint lowercase (s : string) : string :=
  match s with
  | EmptyString => EmptyString
  | String c rest => String (lower c) (lowercase rest)
  end.

(** [String(dir).toLowerCase() === 'desc']: a string that spells it, or
    an array of one such string, which prints as its element.  An object
    prints as [[object Object]], and no date or large number as
    [desc]. *)
Definition spells_desc (dir : Value) : bool :=
  match dir with
  | Lit v =>
      match print v with
      | Some s => String.eqb (lowercase s) "desc"
      | None => false
      end
  | Obj _ => false
  end.

(** [dir === -1] *)
Definition is_minus_one (dir : Value) : bool :=
  match dir with
  | Lit (JScalar (SNum n)) => n =? -1
  | _ => false
  end.

(** [dir === -1 || String(dir).toLowerCase() === 'desc' ? 'desc' : 'asc'] *)
Definition direction_of (dir : Value) : Direction :=
  if is_minus_one dir || spells_desc dir then Desc else Asc.

Fixpoint sort_parts (qb : Query) (parts : list string) : M Db Query :=
  match parts with
  | [] => ret qb
  | p :: rest =>
      let dir := if startsWith "-"%char p then Desc else Asc in
      let col := strip_sign p in
      assertFieldAllowed col ;;;
      sort_parts (orderBy col dir qb) rest
  end.

Fixpoint sort_entries (qb : Query) (entries : obj Value) : M Db Query :=
  match entries with
  | [] => ret qb
  | (col, dir) :: rest =>
      assertFieldAllowed col ;;;
      sort_entries (orderBy col (direction_of dir) qb) rest
  end.

Definition applySort (qb : Query) (sort : option SortSpec) : M Db Query :=
  match sort with
  | None => ret qb
  | Some (SortString s) =>
      if String.eqb s EmptyString then ret qb
      else sort_parts qb (split_commas s)
  | Some (SortObject o) => sort_entries qb (obj_literal [o])
  end.

(** [.where({ [pk]: id })] *)
Definition where_pk (id : Id) (qb : Query) : Query :=
  and_where (WhereEq pk (JScalar (id_value id))) qb.

(** An empty object stands for the [undefined] row of a result that has
    none. *)
Definition first_or_empty (rows : Rows) : Entity :=
  or_default (as_first rows) [].

Definition create (data : Payload) : M Db Entity :=
  processedData <- runBeforeCreate data ;;
  processedData <- addCreatedAt processedData ;;
  rows <- execute (with_verb (Insert [processedData]) (kx table)) ;;
  let entity := first_or_empty rows in
  runAfterCreate entity ;;;
  ret entity.

Definition findById (id : Id) : M Db (option Entity) :=
  let mergedFilter := obj_literal [baseFilter; notDeletedFilter] in
  let qb := where_pk id (with_verb (Select None) (kx table)) in
  qb <- applyFilter qb mergedFilter ;;
  row <- execute (with_verb (First None) qb) ;;
  ret (as_first row).

Definition findAll (filter : option Filter) : M Db (list Entity) :=
  let filter := or_default filter [] in
  let mergedFilter := obj_literal [baseFilter; notDeletedFilter; filter] in
  let qb := with_verb (Select None) (kx table) in
  qb <- applyFilter qb mergedFilter ;;
  rows <- execute qb ;;
  ret (as_list rows).

Definition findOne (filter : Filter) : M Db (option Entity) :=
  let mergedFilter := obj_literal [baseFilter; notDeletedFilter; filter] in
  let qb := with_verb (Select None) (kx table) in
  qb <- applyFilter qb mergedFilter ;;
  row <- execute (with_verb (First None) qb) ;;
  ret (as_first row).

Definition findPage (options : option PageOptions)
  : M Db (PageResult Entity) :=
  let options := or_default options (mkPageOptions None None None None) in
  let filter := or_default (po_filter options) [] in
  let page := or_default (po_page options) 1 in
  let limit := or_default (po_limit options) 10 in
  let sort := po_sort options in
  let mergedFilter := obj_literal [baseFilter; notDeletedFilter; filter] in
  let offset := Z.max 0 ((page - 1) * limit) in
  let qb := with_verb (Select None) (kx table) in
  qb <- applyFilter qb mergedFilter ;;
  qb <- applySort qb sort ;;
  data <- execute (offset_ offset (limit_ limit qb)) ;;
  counter <- applyFilter (with_verb Count (kx table)) mergedFilter ;;
  countRow <- execute counter ;;
  let total := as_count countRow in
  ret (shapePage (as_list data) page limit total).

Definition updateById (id : Id) (update : Payload) : M Db (option Entity) :=
  processedUpdate <- runBeforeUpdate update ;;
  processedUpdate <- addUpdatedAt processedUpdate ;;
  let mergedFilter := obj_literal [baseFilter; notDeletedFilter] in
  let qb := where_pk id (kx table) in
  qb <- applyFilter qb mergedFilter ;;
  rows <- execute (with_verb (UpdateReturning processedUpdate) qb) ;;
  let entity := hd_error (as_list rows) in
  runAfterUpdate entity ;;;
  ret entity.

Definition deleteById (id : Id) : M Db bool :=
  runBeforeDelete id ;;;
  let mergedFilter := obj_literal [baseFilter; notDeletedFilter] in
  success <-
    (if softDeleteEnabled then
       let qb := where_pk id (kx table) in
       qb <- applyFilter qb mergedFilter ;;
       now <- new_Date ;;
       affectedRows <- execute (with_verb (Update [(softDeleteField, now)]) qb) ;;
       ret (as_count affectedRows >? 0)
     else
       let qb := where_pk id (kx table) in
       qb <- applyFilter qb mergedFilter ;;
       affectedRows <- execute (with_verb Delete qb) ;;
       ret (as_count affectedRows >? 0)) ;;
  runAfterDelete success ;;;
  ret success.

Definition count (filter : option Filter) : M Db Z :=
  let filter := or_default filter [] in
  let mergedFilter := obj_literal [baseFilter; notDeletedFilter; filter] in
  qb <- applyFilter (with_verb Count (kx table)) mergedFilter ;;
  rows <- execute qb ;;
  ret (as_count rows).

Definition exists_ (filter : option Filter) : M Db bool :=
  let filter := or_default filter [] in
  let mergedFilter := obj_literal [baseFilter; notDeletedFilter; filter] in
  qb <- applyFilter (with_verb (Select (Some [pk])) (kx table)) mergedFilter ;;
  row <- execute (with_verb (First (Some [pk])) qb) ;;
  ret (match as_first row with Some _ => true | None => false end).

(** *** Bulk operations *)

Definition insertMany (data : list Payload) : M Db (list Entity) :=
  if Nat.eqb (List.length data) 0 then ret []
  else
    timestampedData <- mapM addCreatedAt data ;;
    rows <- execute (with_verb (Insert timestampedData) (kx table)) ;;
    ret (as_list rows).

Definition updateMany (filter : Filter) (update : Payload) : M Db Z :=
  let mergedFilter := obj_literal [baseFilter; notDeletedFilter; filter] in
  timestampedUpdate <- addUpdatedAt update ;;
  qb <- applyFilter (kx table) mergedFilter ;;
  affectedRows <- execute (with_verb (Update timestampedUpdate) qb) ;;
  ret (as_count affectedRows).

Definition deleteMany (filter : Filter) : M Db Z :=
  let mergedFilter := obj_literal [baseFilter; notDeletedFilter; filter] in
  if softDeleteEnabled then
    qb <- applyFilter (kx table) mergedFilter ;;
    now <- new_Date ;;
    affectedRows <- execute (with_verb (Update [(softDeleteField, now)]) qb) ;;
    ret (as_count affectedRows)
  else
    qb <- applyFilter (kx table) mergedFilter ;;
    affectedRows <- execute (with_verb Delete qb) ;;
    ret (as_count affectedRows).

(** *** Advanced query operations *)

Definition upsert (filter : Filter) (data : Payload) : M Db Entity :=
  let mergedFilter := obj_literal [baseFilter; notDeletedFilter; filter] in
  qb <- applyFilter (with_verb (Select None) (kx table)) mergedFilter ;;
  existing <- execute (with_verb (First None) qb) ;;
  match as_first existing with
  | Some existing =>
      timestampedUpdate <- addUpdatedAt data ;;
      let key := match column existing pk with
                 | Lit v => v
                 | Obj _ => JScalar SNull
                 end in
      let updateQb := and_where (WhereEq pk key) (kx table) in
      rows <- execute (with_verb (UpdateReturning timestampedUpdate) updateQb) ;;
      ret (first_or_empty rows)
  | None =>
      timestampedData <- addCreatedAt (obj_literal [filter; data]) ;;
      rows <- execute (with_verb (Insert [timestampedData]) (kx table)) ;;
      ret (first_or_empty rows)
  end.

Definition distinct (field : string) (filter : option Filter)
  : M Db (list Value) :=
  let filter := or_default filter [] in
  let mergedFilter := obj_literal [baseFilter; notDeletedFilter; filter] in
  qb <- applyFilter (with_verb (Distinct field) (kx table)) mergedFilter ;;
  rows <- execute qb ;;
  ret (as_values rows).

Definition select (filter : Filter) (fields : list string)
  : M Db (list Entity) :=
  let mergedFilter := obj_literal [baseFilter; notDeletedFilter; filter] in
  qb <- applyFilter (with_verb (Select (Some fields)) (kx table)) mergedFilter ;;
  rows <- execute qb ;;
  ret (as_list rows).

(** *** Soft delete operations *)

Definition deletedFilter : Filter :=
  [(softDeleteField, Obj [("isNotNull", JScalar (SBool true))])].

Definition softDelete (id : Id) : M Db bool :=
  let mergedFilter := obj_literal [baseFilter; notDeletedFilter] in
  let qb := where_pk id (kx table) in
  qb <- applyFilter qb mergedFilter ;;
  now <- new_Date ;;
  affectedRows <- execute (with_verb (Update [(softDeleteField, now)]) qb) ;;
  ret (as_count affectedRows >? 0).

Definition softDeleteMany (filter : Filter) : M Db Z :=
  let mergedFilter := obj_literal [baseFilter; notDeletedFilter; filter] in
  qb <- applyFilter (kx table) mergedFilter ;;
  now <- new_Date ;;
  affectedRows <- execute (with_verb (Update [(softDeleteField, now)]) qb) ;;
  ret (as_count affectedRows).

Definition restore (id : Id) : M Db (option Entity) :=
  let mergedFilter := obj_literal [baseFilter; deletedFilter] in
  let qb := where_pk id (kx table) in
  qb <- applyFilter qb mergedFilter ;;
  rows <- execute
            (with_verb (UpdateReturning [(softDeleteField, lit SNull)]) qb) ;;
  ret (hd_error (as_list rows)).

Definition restoreMany (filter : Filter) : M Db Z :=
  let mergedFilter := obj_literal [baseFilter; deletedFilter; filter] in
  qb <- applyFilter (kx table) mergedFilter ;;
  affectedRows <- execute
                    (with_verb (Update [(softDeleteField, lit SNull)]) qb) ;;
  ret (as_count affectedRows).

Definition findAllWithDeleted (filter : option Filter) : M Db (list Entity) :=
  let filter := or_default filter [] in
  let mergedFilter := obj_literal [baseFilter; filter] in
  qb <- applyFilter (with_verb (Select None) (kx table)) mergedFilter ;;
  rows <- execute qb ;;
  ret (as_list rows).

Definition findDeleted (filter : option Filter) : M Db (list Entity) :=
  let filter := or_default filter [] in
  let mergedFilter := obj_literal [baseFilter; deletedFilter; filter] in
  qb <- applyFilter (with_verb (Select None) (kx table)) mergedFilter ;;
  rows <- execute qb ;;
  ret (as_list rows).

(** The object [createRepository] returns. *)
Definition createRepository : Repo.Repository Db :=
  Repo.mkRepository Db
    create findById findAll findOne findPage updateById deleteById
    count exists_ insertMany updateMany deleteMany upsert distinct select
    (if softDeleteEnabled then Some softDelete else None)
    (if softDeleteEnabled then Some softDeleteMany else None)
    (if softDeleteEnabled then Some restore else None)
    (if softDeleteEnabled then Some restoreMany else None)
    (if softDeleteEnabled then Some findAllWithDeleted else None)
    (if softDeleteEnabled then Some findDeleted else None).

End CreateRepository.

(** ** [withTransaction] *)

Section WithTransaction.
Context {T : Type}.
Variable client : TxClient T.

(** The driver's [kx.transaction(handler, { isolationLevel })]: begin, run
    the handler, roll back and rethrow when it rejects, commit when it
    resolves. *)
Definition knex_transaction (handler : nat -> M TxWorld T)
  (level : TransactionIsolationLevel) : M TxWorld T :=
  trx <- fresh_handle ;;
  emit (EvBegin trx level) ;;;
  result <- try_catch (handler trx)
              (fun e => emit (EvRollback trx) ;;; throw e) ;;
  run_commit client trx ;;;
  ret result.

Definition retryableCodes : list string :=
  [ "40001"    (* serialization_failure *)
  ; "40P01"    (* deadlock_detected *)
  ; "55P03"    (* lock_not_available *)
  ; "57P01"    (* admin_shutdown *)
  ; "57014" ]. (* query_canceled (timeout) *)

(** [isRetryableError]: the guard [error && typeof error === 'object'] lets
    error objects through (a thrown primitive has no [code]); then
    [pgError.code && retryableCodes.includes(pgError.code)]. *)
Definition isRetryableError (error : Thrown) : bool :=
  match error with
  | ThrownObject pgError =>
      match err_code pgError with
      | Some code =>
          truthy_scalar code
          && existsb (scalar_eqb code) (map SStr retryableCodes)
      | None => false
      end
  | ThrownPrimitive _ => false
  end.

(** The [for (let attempt = 0; attempt <= retries; attempt++)] loop.  The
    loop variable only grows, so [retries + 1 - attempt] turns bound it;
    [fuel] counts them. *)
Fixpoint retry_loop (level : TransactionIsolationLevel) (tmo retries : Z)
  (fuel : nat) (attempt : Z) (lastError : option Thrown) : M TxWorld T :=
  match fuel with
  | O => throw (or_default lastError (new_Error "Transaction failed"))
  | S fuel' =>
      if attempt <=? retries then
        step <- try_catch
          (result <- knex_transaction
                       (fun trx =>
                          emit (EvRaw trx tmo) ;;;
                          run_callback client trx)
                       level ;;
           ret (Returned result))
          (fun error =>
             read_message error ;;;
             if negb (isRetryableError error) || (attempt >=? retries)
             then throw error
             else sleep (backoffMs attempt) ;;; ret (NextAttempt error)) ;;
        match step with
        | Returned result => ret result
        | NextAttempt error =>
            retry_loop level tmo retries fuel' (attempt + 1) (Some error)
        end
      else throw (or_default lastError (new_Error "Transaction failed"))
  end.

Definition withTransaction (options : TransactionOptions) : M TxWorld T :=
  let level := or_default (isolationLevel options) ReadCommitted in
  let n := or_default (retries options) 0 in
  let tmo := or_default (timeout options) DEFAULT_TRANSACTION_TIMEOUT in
  retry_loop level tmo n (Z.to_nat (n + 1)) 0 None.

End WithTransaction.

End PostgresAdapter.

(* ================================================================== *)
(** * MongoAdapter *)
(* ================================================================== *)

Module MongoAdapter.

(** ** The document driver: a Mongoose model *)

(** Update documents the adapter sends. *)
Inductive UpdateDoc : Type :=
| Fields (fields : Payload)
| SetFields (set : Payload) (setOnInsert : option Payload)
| UnsetFields (fields : Payload).

Record FindOptions : Type := mkFindOptions {
  fo_skip : option Z;
  fo_limit : option Z;
  fo_sort : option SortSpec;
  fo_select : option Payload
}.

Definition no_options : FindOptions := mkFindOptions None None None None.

(** The calls the adapter makes on the model, each with the optional
    session, over the world [W] of the driver; and the clock. *)
Record Model (W : Type) : Type := mkModel {
  model_create : Payload -> option nat -> M W Entity;
  model_insertMany : list Payload -> option nat -> M W (list Entity);
  model_findOne : Filter -> FindOptions -> option nat -> M W (option Entity);
  model_find : Filter -> FindOptions -> option nat -> M W (list Entity);
  model_countDocuments : Filter -> option nat -> M W Z;
  model_findOneAndUpdate :
    Filter -> UpdateDoc -> bool -> option nat -> M W (option Entity);
  model_updateOne : Filter -> UpdateDoc -> option nat -> M W Z;
  model_updateMany : Filter -> UpdateDoc -> option nat -> M W Z;
  model_deleteMany : Filter -> option nat -> M W Z;
  model_findByIdAndDelete : Id -> option nat -> M W (option Entity);
  model_exists : Filter -> M W bool;
  model_distinct : string -> Filter -> option nat -> M W (list Value);
  model_now : M W Value
}.
Arguments model_create {W}.
Arguments model_insertMany {W}.
Arguments model_findOne {W}.
Arguments model_find {W}.
Arguments model_countDocuments {W}.
Arguments model_findOneAndUpdate {W}.
Arguments model_updateOne {W}.
Arguments model_updateMany {W}.
Arguments model_deleteMany {W}.
Arguments model_findByIdAndDelete {W}.
Arguments model_exists {W}.
Arguments model_distinct {W}.
Arguments model_now {W}.

Record MongoRepositoryOptions (W : Type) : Type := mkMongoRepositoryOptions {
  opts_model : Model W;
  opts_softDelete : option bool;
  opts_softDeleteField : option string;
  opts_timestamps : option bool;
  opts_createdAtField : option string;
  opts_updatedAtField : option string;
  opts_hooks : option RepositoryHooks
}.
Arguments mkMongoRepositoryOptions {W}.
Arguments opts_model {W}.
Arguments opts_softDelete {W}.
Arguments opts_softDeleteField {W}.
Arguments opts_timestamps {W}.
Arguments opts_createdAtField {W}.
Arguments opts_updatedAtField {W}.
Arguments opts_hooks {W}.

(** ** [createRepository] *)

Section CreateRepository.
Context {W : Type}.
Variable opts : MongoRepositoryOptions W.
Variable session : option nat.

Definition model : Model W := opts_model opts.
Definition softDeleteEnabled : bool := or_default (opts_softDelete opts) false.
Definition softDeleteField : string :=
  or_default (opts_softDeleteField opts) "deletedAt".

Definition timestampsEnabled : bool := or_default (opts_timestamps opts) false.
Definition createdAtField : string :=
  or_default (opts_createdAtField opts) "createdAt".
Definition updatedAtField : string :=
  or_default (opts_updatedAtField opts) "updatedAt".

(** [softDeleteEnabled ? { [softDeleteField]: { $eq: null } } : {}] *)
Definition notDeletedFilter : Filter :=
  if softDeleteEnabled
  then [(softDeleteField, Obj [("$eq", JScalar SNull)])]
  else [].

Definition new_Date : M W Value := model_now model.

Definition addCreatedAt (data : Payload) : M W Payload :=
  if timestampsEnabled
  then now <- new_Date ;; ret (obj_literal [data; [(createdAtField, now)]])
  else ret data.

Definition addUpdatedAt (data : Payload) : M W Payload :=
  if timestampsEnabled
  then now <- new_Date ;; ret (obj_literal [data; [(updatedAtField, now)]])
  else ret data.

(** [{ _id: id }] *)
Definition by_id (id : Id) : Filter := [("_id", lit (id_value id))].

Definition create (data : Payload) : M W Entity :=
  timestampedData <- addCreatedAt data ;;
  model_create model timestampedData session.

Definition findById (id : Id) : M W (option Entity) :=
  let mergedFilter := obj_literal [by_id id; notDeletedFilter] in
  model_findOne model mergedFilter no_options session.

Definition findAll (filter : option Filter) : M W (list Entity) :=
  let filter := or_default filter [] in
  let mergedFilter := obj_literal [filter; notDeletedFilter] in
  model_find model mergedFilter no_options session.

Definition findOne (filter : Filter) : M W (option Entity) :=
  let mergedFilter := obj_literal [filter; notDeletedFilter] in
  model_findOne model mergedFilter no_options session.

Definition findPage (options : option PageOptions)
  : M W (PageResult Entity) :=
  let options := or_default options (mkPageOptions None None None None) in
  let filter := or_default (po_filter options) [] in
  let page := or_default (po_page options) 1 in
  let limit := or_default (po_limit options) 10 in
  let sort := po_sort options in
  let mergedFilter := obj_literal [filter; notDeletedFilter] in
  let skip := Z.max 0 ((page - 1) * limit) in
  let sort := match sort with
              | Some (SortString s) =>
                  if String.eqb s EmptyString then None else sort
              | _ => sort
              end in
  data <- model_find model mergedFilter
            (mkFindOptions (Some skip) (Some limit) sort None) session ;;
  total <- model_countDocuments model mergedFilter session ;;
  ret (shapePage data page limit total).

Definition updateById (id : Id) (update : Payload) : M W (option Entity) :=
  let mergedFilter := obj_literal [by_id id; notDeletedFilter] in
  timestampedUpdate <- addUpdatedAt update ;;
  model_findOneAndUpdate model mergedFilter (Fields timestampedUpdate) false
    session.

Definition deleteById (id : Id) : M W bool :=
  if softDeleteEnabled then
    let mergedFilter := obj_literal [by_id id; notDeletedFilter] in
    now <- new_Date ;;
    modifiedCount <- model_updateOne model mergedFilter
                       (Fields [(softDeleteField, now)]) session ;;
    ret (modifiedCount >? 0)
  else
    res <- model_findByIdAndDelete model id session ;;
    ret (match res with Some _ => true | None => false end).

Definition count (filter : option Filter) : M W Z :=
  let filter := or_default filter [] in
  let mergedFilter := obj_literal [filter; notDeletedFilter] in
  model_countDocuments model mergedFilter session.

Definition exists_ (filter : option Filter) : M W bool :=
  let filter := or_default filter [] in
  let mergedFilter := obj_literal [filter; notDeletedFilter] in
  match session with
  | Some _ =>
      doc <- model_findOne model mergedFilter
               (mkFindOptions None None None (Some [("_id", lit (SNum 1))]))
               session ;;
      ret (match doc with Some _ => true | None => false end)
  | None => model_exists model mergedFilter
  end.

(** *** Bulk operations *)

Definition insertMany (data : list Payload) : M W (list Entity) :=
  if Nat.eqb (List.length data) 0 then ret []
  else
    timestampedData <- mapM addCreatedAt data ;;
    model_insertMany model timestampedData session.

Definition updateMany (filter : Filter) (update : Payload) : M W Z :=
  let mergedFilter := obj_literal [filter; notDeletedFilter] in
  timestampedUpdate <- addUpdatedAt update ;;
  model_updateMany model mergedFilter (Fields timestampedUpdate) session.

Definition deleteMany (filter : Filter) : M W Z :=
  let mergedFilter := obj_literal [filter; notDeletedFilter] in
  if softDeleteEnabled then
    now <- new_Date ;;
    model_updateMany model mergedFilter (Fields [(softDeleteField, now)])
      session
  else model_deleteMany model mergedFilter session.

(** *** Advanced query operations *)

Definition upsert (filter : Filter) (data : Payload) : M W Entity :=
  let mergedFilter := obj_literal [filter; notDeletedFilter] in
  timestampedData <-
    (if timestampsEnabled
     then now <- new_Date ;; ret (obj_literal [data; [(updatedAtField, now)]])
     else ret data) ;;
  setOnInsert <-
    (if timestampsEnabled
     then now <- new_Date ;; ret (Some [(createdAtField, now)])
     else ret None) ;;
  doc <- model_findOneAndUpdate model mergedFilter
           (SetFields timestampedData setOnInsert) true session ;;
  ret (or_default doc []).

Definition distinct (field : string) (filter : option Filter)
  : M W (list Value) :=
  let filter := or_default filter [] in
  let mergedFilter := obj_literal [filter; notDeletedFilter] in
  model_distinct model field mergedFilter session.

Definition select (filter : Filter) (fields : list string)
  : M W (list Entity) :=
  let mergedFilter := obj_literal [filter; notDeletedFilter] in
  let projection :=
    fold_left (fun acc field => obj_literal [acc; [(field, lit (SNum 1))]])
      fields [] in
  model_find model mergedFilter
    (mkFindOptions None None None (Some projection)) session.

(** *** Soft delete operations *)

Definition softDelete (id : Id) : M W bool :=
  let mergedFilter := obj_literal [by_id id; notDeletedFilter] in
  now <- new_Date ;;
  modifiedCount <- model_updateOne model mergedFilter
                     (Fields [(softDeleteField, now)]) session ;;
  ret (modifiedCount >? 0).

Definition softDeleteMany (filter : Filter) : M W Z :=
  let mergedFilter := obj_literal [filter; notDeletedFilter] in
  now <- new_Date ;;
  model_updateMany model mergedFilter (Fields [(softDeleteField, now)])
    session.

(** [{ [softDeleteField]: { $ne: null } }] *)
Definition is_deleted : Filter :=
  [(softDeleteField, Obj [("$ne", JScalar SNull)])].

Definition unset_deleted : UpdateDoc :=
  UnsetFields [(softDeleteField, lit (SNum 1))].

Definition restore (id : Id) : M W (option Entity) :=
  let deletedFilter := obj_literal [by_id id; is_deleted] in
  model_findOneAndUpdate model deletedFilter unset_deleted false session.

Definition restoreMany (filter : Filter) : M W Z :=
  let deletedFilter := obj_literal [filter; is_deleted] in
  model_updateMany model deletedFilter unset_deleted session.

Definition findAllWithDeleted (filter : option Filter) : M W (list Entity) :=
  let filter := or_default filter [] in
  model_find model filter no_options session.

Definition findDeleted (filter : option Filter) : M W (list Entity) :=
  let filter := or_default filter [] in
  let deletedFilter := obj_literal [filter; is_deleted] in
  model_find model deletedFilter no_options session.

(** The object [createRepository] returns. *)
Definition createRepository : Repo.Repository W :=
  Repo.mkRepository W
    create findById findAll findOne findPage updateById deleteById
    count exists_ insertMany updateMany deleteMany upsert distinct select
    (if softDeleteEnabled then Some softDelete else None)
    (if softDeleteEnabled then Some softDeleteMany else None)
    (if softDeleteEnabled then Some restore else None)
    (if softDeleteEnabled then Some restoreMany else None)
    (if softDeleteEnabled then Some findAllWithDeleted else None)
    (if softDeleteEnabled then Some findDeleted else None).

End CreateRepository.

(** ** [withTransaction] *)

Section WithTransaction.
Context {T : Type}.
Variable client : TxClient T.

Definition retryableCodes : list Z :=
  [ 11600    (* InterruptedAtShutdown *)
  ; 11602    (* InterruptedDueToReplStateChange *)
  ; 10107    (* NotWritablePrimary *)
  ; 13435    (* NotPrimaryNoSecondaryOk *)
  ; 13436    (* NotPrimaryOrSecondary *)
  ; 189      (* PrimarySteppedDown *)
  ; 91 ].    (* ShutdownInProgress *)

(** [isTransientError]: [mongoError.hasErrorLabel?.('TransientTransactionError')]
    first, then [mongoError.code && retryableCodes.includes(mongoError.code)]. *)
Definition isTransientError (error : Thrown) : bool :=
  match error with
  | ThrownObject mongoError =>
      if match err_hasErrorLabel mongoError with
         | Some hasErrorLabel => hasErrorLabel "TransientTransactionError"
         | None => false
         end
      then true
      else
        match err_code mongoError with
        | Some code =>
            truthy_scalar code
            && existsb (scalar_eqb code) (map SNum retryableCodes)
        | None => false
        end
  | ThrownPrimitive _ => false
  end.

(** The [for] loop of [withTransaction]; [fuel] bounds its turns as in the
    relational adapter.  Each turn is
    [const session = await mongoose.startSession();
     try { ... } catch (error) { ... } finally { await session.endSession(); }]. *)
Fixpoint retry_loop (tmo retries : Z)
  (fuel : nat) (attempt : Z) (lastError : option Thrown) : M TxWorld T :=
  match fuel with
  | O => throw (or_default lastError (new_Error "Transaction failed"))
  | S fuel' =>
      if attempt <=? retries then
        session <- fresh_handle ;;
        emit (EvStartSession session) ;;;
        step <- try_finally
          (try_catch
             (emit (EvStartTransaction session tmo) ;;;
              result <- run_callback client session ;;
              run_commit client session ;;;
              ret (Returned result))
             (fun error =>
                emit (EvAbort session) ;;;
                read_message error ;;;
                if negb (isTransientError error) || (attempt >=? retries)
                then throw error
                else sleep (backoffMs attempt) ;;; ret (NextAttempt error)))
          (emit (EvEndSession session)) ;;
        match step with
        | Returned result => ret result
        | NextAttempt error =>
            retry_loop tmo retries fuel' (attempt + 1) (Some error)
        end
      else throw (or_default lastError (new_Error "Transaction failed"))
  end.

Definition withTransaction (options : TransactionOptions) : M TxWorld T :=
  let n := or_default (retries options) 0 in
  let tmo := or_default (timeout options) DEFAULT_TRANSACTION_TIMEOUT in
  emit EvConnect ;;;
  retry_loop tmo n (Z.to_nat (n + 1)) 0 None.

End WithTransaction.

End MongoAdapter.

(* ================================================================== *)
(** * Reading a coordinator log *)
(* ================================================================== *)

(** Handles opened by the relational coordinator, in order. *)
Fixpoint begun (log : list TxEvent) : list nat :=
  match log with
  | [] => []
  | EvBegin trx _ :: rest => trx :: begun rest
  | _ :: rest => begun rest
  end.

(** Sessions opened by the document coordinator, in order. *)
Fixpoint sessions_started (log : list TxEvent) : list nat :=
  match log with
  | [] => []
  | EvStartSession s :: rest => s :: sessions_started rest
  | _ :: rest => sessions_started rest
  end.

(** Delays slept, in order. *)
Fixpoint slept (log : list TxEvent) : list Z :=
  match log with
  | [] => []
  | EvSleep ms :: rest => ms :: slept rest
  | _ :: rest => slept rest
  end.

(** Session discipline: at most one session is open at a time, a session
    is ended only while it is the open one, and none is left open at the
    end of the log. *)
Fixpoint sessions_released (open : option nat) (log : list TxEvent) : bool :=
  match log with
  | [] => match open with None => true | Some _ => false end
  | EvStartSession s :: rest =>
      match open with
      | None => sessions_released (Some s) rest
      | Some _ => false
      end
  | EvEndSession s :: rest =>
      match open with
      | Some s' => Nat.eqb s s' && sessions_released None rest
      | None => false
      end
  | _ :: rest => sessions_released open rest
  end.

(** What the [catch] clause of a coordinator throws when it gives up on
    the error [e] of an attempt: [e] itself, unless [e] is [null], whose
    [message] cannot be read. *)
Definition rethrown (e : Thrown) : Thrown :=
  match e with
  | ThrownPrimitive SNull => message_of_null
  | _ => e
  end.

(** What a run ends with when its last attempt ended with [r]. *)
Definition run_outcome {T : Type} (r : Result T) : Result T :=
  match r with
  | Ok v => Ok v
  | Throw e => Throw (rethrown e)
  end.

(** The attempt numbers [0 .. n-1] as the loop variable counts them. *)
Definition attempts (n : nat) : list Z := map Z.of_nat (seq 0 n).

Section ExpectedLogs.
Context {T : Type}.
Variable client : TxClient T.

(** What an attempt on handle [h] ends with: the callback's error, else the
    commit's error, else the callback's result. *)
Definition attempt_outcome (h : nat) : Result T :=
  match callback client h with
  | Ok v =>
      match commit_error client h with
      | None => Ok v
      | Some e => Throw e
      end
  | Throw e => Throw e
  end.

(** Driver calls of one relational attempt on transaction [h]. *)
Definition pg_attempt_log (level : TransactionIsolationLevel) (tmo : Z)
  (h : nat) : list TxEvent :=
  [EvBegin h level; EvRaw h tmo; EvCallback h]
  ++ match callback client h with
     | Ok _ => [EvCommit h]
     | Throw _ => [EvRollback h]
     end.

(** Driver calls of one document attempt on session [h], up to the point
    where the [catch] clause decides. *)
Definition mongo_attempt_log (tmo : Z) (h : nat) : list TxEvent :=
  [EvStartSession h; EvStartTransaction h tmo; EvCallback h]
  ++ match callback client h with
     | Ok _ => [EvCommit h]
     | Throw _ => []
     end
  ++ match attempt_outcome h with
     | Ok _ => []
     | Throw _ => [EvAbort h]
     end.

(** [j] consecutive attempts that each end in a backoff sleep, the first on
    handle [n] as attempt number [a]. *)
Fixpoint pg_retried_log (level : TransactionIsolationLevel) (tmo : Z)
  (n : nat) (a : Z) (j : nat) : list TxEvent :=
  match j with
  | O => []
  | S j' =>
      pg_attempt_log level tmo n ++ [EvSleep (backoffMs a)]
      ++ pg_retried_log level tmo (S n) (a + 1) j'
  end.

Fixpoint mongo_retried_log (tmo : Z) (n : nat) (a : Z) (j : nat)
  : list TxEvent :=
  match j with
  | O => []
  | S j' =>
      mongo_attempt_log tmo n
      ++ [EvSleep (backoffMs a); EvEndSession n]
      ++ mongo_retried_log tmo (S n) (a + 1) j'
  end.

End ExpectedLogs.

(** The document-store signals as the specification lists them, to be
    compared with [MongoAdapter.isTransientError]: the
    transient-transaction-error label and
    the codes for not-writable-primary (10107),
    interrupted-due-to-repl-state-change (11602), primary-stepped-down
    (189), shutdown-in-progress (91) and interrupted-at-shutdown (11600). *)
Definition spec_document_retryable (error : Thrown) : bool :=
  match error with
  | ThrownObject e =>
      match err_hasErrorLabel e with
      | Some hasErrorLabel => hasErrorLabel "TransientTransactionError"
      | None => false
      end
      || match err_code e with
         | Some (SNum c) => existsb (Z.eqb c) [10107; 11602; 189; 91; 11600]
         | _ => false
         end
  | ThrownPrimitive _ => false
  end.

(** An error object whose [code] is one of the given strings. *)
Definition has_string_code (codes : list string) (error : Thrown) : Prop :=
  exists o c,
    error = ThrownObject o /\ err_code o = Some (SStr c) /\ In c codes.

(** An error object that answers the transient-transaction label, or whose
    [code] is one of the given numbers. *)
Definition has_label_or_code (codes : list Z) (error : Thrown) : Prop :=
  exists o,
    error = ThrownObject o /\
    ((exists hasErrorLabel,
         err_hasErrorLabel o = Some hasErrorLabel /\
         hasErrorLabel "TransientTransactionError" = true) \/
     (exists c, err_code o = Some (SNum c) /\ In c codes)).

(** Sample errors and clients. *)
Definition pg_error (code : string) : Thrown :=
  ThrownObject (mkErrorObject "query failed" (Some (SStr code)) None).

Definition mongo_error (code : Z) : Thrown :=
  ThrownObject (mkErrorObject "command failed" (Some (SNum code)) None).

Definition always_throws (e : Thrown) : TxClient nat :=
  mkTxClient (fun _ => Throw e) (fun _ => None).

(** Throws [e] on the handles below [k], then returns the handle. *)
Definition throws_until (k : nat) (e : Thrown) : TxClient nat :=
  mkTxClient (fun h => if (h <? k)%nat then Throw e else Ok h)
             (fun _ => None).

Definition with_retries (n : Z) : TransactionOptions :=
  mkTransactionOptions None None (Some n).

(** Throws [e] on the handles below [k] and [fatal] on the others. *)
Definition throws_then (k : nat) (e fatal : Thrown) : TxClient nat :=
  mkTxClient (fun h => if (h <? k)%nat then Throw e else Throw fatal)
             (fun _ => None).

(* ================================================================== *)
(** * Reading a repository call *)
(* ================================================================== *)

(** The predicate a filter compiles to: the clauses of its entries, in
    order. *)
Definition compile (filter : Filter) : list Where :=
  flat_map (fun kv => PostgresAdapter.clauses (fst kv) (snd kv)) filter.

(** The clauses of a predicate that constrain one column. *)
Definition on_column (c : string) (ws : list Where) : list Where :=
  filter (fun w => String.eqb (where_column w) c) ws.

(** The whitelist test of [assertFieldAllowed]. *)
Definition field_allowed (cfg : PostgresAdapter.PostgresEntityConfig)
  (field : string) : bool :=
  Nat.eqb (List.length (PostgresAdapter.allowed cfg)) 0
  || includes field (PostgresAdapter.allowed cfg).

Definition admits (cfg : PostgresAdapter.PostgresEntityConfig)
  (filter : Filter) : bool :=
  forallb (field_allowed cfg) (keys filter).

(** The queries in a log. *)
Fixpoint queries (log : list DbEvent) : list Query :=
  match log with
  | [] => []
  | Executed q :: rest => q :: queries rest
  | _ :: rest => queries rest
  end.

(** The queries a call executes from the world [w]. *)
Definition ran {A : Type} (call : M Db A) (w : Db) : list Query :=
  queries (skipn (List.length (db_log w)) (db_log (snd (call w)))).

(** The events a call adds to the log of [w]. *)
Definition logged {A : Type} (call : M Db A) (w : Db) : list DbEvent :=
  skipn (List.length (db_log w)) (db_log (snd (call w))).

(** The filter the relational read operations merge for a caller filter. *)
Definition pg_effective (cfg : PostgresAdapter.PostgresEntityConfig)
  (filter : Filter) : Filter :=
  obj_literal [PostgresAdapter.baseFilter cfg;
               PostgresAdapter.notDeletedFilter cfg; filter].

(** The filter the document read operations merge for a caller filter. *)
Definition mongo_effective {W : Type}
  (opts : MongoAdapter.MongoRepositoryOptions W) (filter : Filter) : Filter :=
  obj_literal [filter; MongoAdapter.notDeletedFilter opts].

(** The six soft-delete capabilities are all there / all missing. *)
Definition exposes_soft_delete {W : Type} (r : Repo.Repository W) : Prop :=
  Repo.softDelete r <> None /\ Repo.softDeleteMany r <> None /\
  Repo.restore r <> None /\ Repo.restoreMany r <> None /\
  Repo.findAllWithDeleted r <> None /\ Repo.findDeleted r <> None.

Definition lacks_soft_delete {W : Type} (r : Repo.Repository W) : Prop :=
  Repo.softDelete r = None /\ Repo.softDeleteMany r = None /\
  Repo.restore r = None /\ Repo.restoreMany r = None /\
  Repo.findAllWithDeleted r = None /\ Repo.findDeleted r = None.

(** ** A model that only records the filters it is given *)

Inductive ModelCall : Type :=
| CallFind (filter : Filter)
| CallFindOne (filter : Filter)
| CallCount (filter : Filter)
| CallExists (filter : Filter)
| CallDistinct (field : string) (filter : Filter)
| CallWrite.

Definition note {A : Type} (c : ModelCall) (a : A) : M (list ModelCall) A :=
  fun w => (Ok a, w ++ [c]).

Definition recording_model : MongoAdapter.Model (list ModelCall) :=
  MongoAdapter.mkModel (list ModelCall)
    (fun p _ => note CallWrite p)
    (fun ps _ => note CallWrite ps)
    (fun f _ _ => note (CallFindOne f) None)
    (fun f _ _ => note (CallFind f) [])
    (fun f _ => note (CallCount f) 0)
    (fun _ _ _ _ => note CallWrite None)
    (fun _ _ _ => note CallWrite 0)
    (fun _ _ _ => note CallWrite 0)
    (fun _ _ => note CallWrite 0)
    (fun _ _ => note CallWrite None)
    (fun f => note (CallExists f) false)
    (fun field f _ => note (CallDistinct field f) [])
    (ret (lit (SDate 0))).

Definition mongo_options (model : MongoAdapter.Model (list ModelCall))
  (softDelete : option bool) : MongoAdapter.MongoRepositoryOptions (list ModelCall) :=
  MongoAdapter.mkMongoRepositoryOptions model softDelete None None None None
    None.

(** Sample relational configurations. *)
Definition pg_config (columns : option (list string))
  (defaultFilter : option Filter) (softDelete timestamps : option bool)
  (hooks : option RepositoryHooks) : PostgresAdapter.PostgresEntityConfig :=
  PostgresAdapter.mkPostgresEntityConfig "users" None columns defaultFilter
    softDelete None timestamps None None hooks.

Definition empty_db : Db := mkDb [] 1000 [].

(** A builder with more clauses chained on. *)
Definition with_wheres (ws : list Where) (q : Query) : Query :=
  mkQuery (q_table q) (q_verb q) (q_where q ++ ws) (q_order q) (q_limit q)
          (q_offset q).

(** Sample filters. *)
Definition status_is (s : string) : Filter := [("status", lit (SStr s))].

Definition only_deleted : Filter :=
  [("deletedAt", Obj [("$ne", JScalar SNull)])].

(** A call refused by the whitelist: it rejects with the field-not-allowed
    error of a key of [merged] that is outside the whitelist, adds no query
    to the log (hook calls at most) and leaves the table alone. *)
Definition refused {A : Type} (cfg : PostgresAdapter.PostgresEntityConfig)
  (merged : Filter) (call : M Db A) (w : Db) : Prop :=
  (exists field,
      In field (keys merged) /\ field_allowed cfg field = false /\
      fst (call w) = Throw (PostgresAdapter.field_not_allowed cfg field)) /\
  (exists hook_calls,
      db_log (snd (call w)) = db_log w ++ hook_calls /\
      queries hook_calls = []) /\
  db_rows (snd (call w)) = db_rows w.

(** The configured before-hook, if any, resolves. *)
Definition before_update_resolves
  (cfg : PostgresAdapter.PostgresEntityConfig) (update : Payload) : Prop :=
  match PostgresAdapter.hook cfg beforeUpdate with
  | Some h => exists p, h (mkHookContext update OpUpdate false) = Ok p
  | None => True
  end.

Definition before_delete_resolves
  (cfg : PostgresAdapter.PostgresEntityConfig) (id : Id) : Prop :=
  match PostgresAdapter.hook cfg beforeDelete with
  | Some h => h id = Ok tt
  | None => True
  end.

(** The filters merged by the operations that take no caller filter, and by
    the operations on deleted rows. *)
Definition pg_effective_id (cfg : PostgresAdapter.PostgresEntityConfig)
  : Filter :=
  obj_literal [PostgresAdapter.baseFilter cfg;
               PostgresAdapter.notDeletedFilter cfg].

Definition pg_deleted_id (cfg : PostgresAdapter.PostgresEntityConfig)
  : Filter :=
  obj_literal [PostgresAdapter.baseFilter cfg;
               PostgresAdapter.deletedFilter cfg].

Definition pg_deleted (cfg : PostgresAdapter.PostgresEntityConfig)
  (filter : Filter) : Filter :=
  obj_literal [PostgresAdapter.baseFilter cfg;
               PostgresAdapter.deletedFilter cfg; filter].

(** The caller filter of a [findPage] call. *)
Definition page_filter (options : option PageOptions) : Filter :=
  or_default
    (po_filter (or_default options (mkPageOptions None None None None))) [].

(** The payload the before-create stage hands on: the hook's replacement,
    the input when the hook returns nothing or none is configured, or the
    hook's error. *)
Definition before_create_output (cfg : PostgresAdapter.PostgresEntityConfig)
  (data : Payload) : Result Payload :=
  match PostgresAdapter.hook cfg beforeCreate with
  | Some h =>
      match h (mkHookContext data OpCreate false) with
      | Ok replacement => Ok (or_default replacement data)
      | Throw e => Throw e
      end
  | None => Ok data
  end.

Definition before_create_calls (cfg : PostgresAdapter.PostgresEntityConfig)
  (data : Payload) : list DbEvent :=
  match PostgresAdapter.hook cfg beforeCreate with
  | Some _ => [CalledBeforeCreate (mkHookContext data OpCreate false)]
  | None => []
  end.

Definition after_create_calls (cfg : PostgresAdapter.PostgresEntityConfig)
  (entity : Entity) : list DbEvent :=
  match PostgresAdapter.hook cfg afterCreate with
  | Some _ => [CalledAfterCreate entity]
  | None => []
  end.

(** [kx(table).insert(payload).returning('*')] *)
Definition insert_of (cfg : PostgresAdapter.PostgresEntityConfig)
  (payload : Payload) : Query :=
  with_verb (Insert [payload]) (kx (PostgresAdapter.table cfg)).

(** A before-create hook that normalises the name and tries to set the
    creation time itself. *)
Definition sample_hooks : RepositoryHooks :=
  mkRepositoryHooks
    (Some (fun ctx =>
             Ok (Some (obj_literal
                         [hc_data ctx;
                          [("name", lit (SStr "ann"));
                           ("created_at", lit (SNum 0))]]))))
    None None None None None.

(** The predicate of a by-id operation: the key clause, then the merged
    filter. *)
Definition by_id (cfg : PostgresAdapter.PostgresEntityConfig) (id : Id)
  (merged : Filter) : list Where :=
  WhereEq (PostgresAdapter.pk cfg) (JScalar (id_value id)) :: compile merged.

(** The row has the given primary key. *)
Definition has_id (cfg : PostgresAdapter.PostgresEntityConfig) (id : Id)
  (r : Entity) : bool :=
  sql_eq (column r (PostgresAdapter.pk cfg)) (id_value id).

(** The soft-delete column of the row is null. *)
Definition not_deleted (cfg : PostgresAdapter.PostgresEntityConfig)
  (r : Entity) : bool :=
  value_is_null (column r (PostgresAdapter.softDeleteField cfg)).

(** The filter [findAllWithDeleted] merges for a caller filter. *)
Definition pg_with_deleted (cfg : PostgresAdapter.PostgresEntityConfig)
  (filter : Filter) : Filter :=
  obj_literal [PostgresAdapter.baseFilter cfg; filter].

Definition after_delete_resolves
  (cfg : PostgresAdapter.PostgresEntityConfig) (success : bool) : Prop :=
  match PostgresAdapter.hook cfg afterDelete with
  | Some h => h success = Ok tt
  | None => True
  end.

(** The default filter's entries on columns other than the soft-delete
    column hold of the row. *)
Definition base_holds (cfg : PostgresAdapter.PostgresEntityConfig)
  (r : Entity) : Prop :=
  forall k v,
    obj_get k (PostgresAdapter.baseFilter cfg) = Some v ->
    k <> PostgresAdapter.softDeleteField cfg ->
    matches (PostgresAdapter.clauses k v) r = true.

(** A configuration whose default filter already asks for a null
    soft-delete column, and a table with one user. *)
Definition double_guard : PostgresAdapter.PostgresEntityConfig :=
  pg_config None
    (Some [("deleted_at", Obj [("isNull", JScalar (SBool true))])])
    (Some true) None None.

Definition ann : Payload := [("id", lit (SNum 1)); ("name", lit (SStr "Ann"))].

Definition one_user : Db :=
  mkDb [[("id", lit (SNum 1)); ("name", lit (SStr "Ann"));
         ("deleted_at", lit SNull)]] 1000 [].

Definition soft_config : PostgresAdapter.PostgresEntityConfig :=
  pg_config None None (Some true) None None.

Definition hard_config : PostgresAdapter.PostgresEntityConfig :=
  pg_config None None None None None.

(** A table of [n] numbered users, and the whitelisted configuration of the
    first end-to-end scenario. *)
Definition numbered_users (n : nat) : Db :=
  mkDb (map (fun i => [("id", lit (SNum (Z.of_nat i)));
                       ("name", lit (SStr "user"))]) (seq 1 n))
       1000 [].

Definition users_config : PostgresAdapter.PostgresEntityConfig :=
  PostgresAdapter.mkPostgresEntityConfig "users" (Some "id")
    (Some ["id"; "name"; "email"]) None None None None None None None.

Definition page_of (page limit : Z) (sort : option SortSpec) : PageOptions :=
  mkPageOptions None (Some page) (Some limit) sort.

(* ================================================================== *)
(** * A document store behind the model *)
(* ================================================================== *)

(** A collection as the list of its documents, with the equality,
    null and comparison operators of the query language; enough to run the
    document repository.  An operator the fragment does not know matches
    nothing. *)
Record Store : Type := mkStore {
  st_docs : list Entity;
  st_clock : Z
}.

Fixpoint list_eqb {A : Type} (eqb : A -> A -> bool) (l1 l2 : list A) : bool :=
  match l1, l2 with
  | [], [] => true
  | x :: r1, y :: r2 => eqb x y && list_eqb eqb r1 r2
  | _, _ => false
  end.

Definition jsval_eqb (a b : JsVal) : bool :=
  match a, b with
  | JScalar x, JScalar y => scalar_eqb x y
  | JArr x, JArr y => list_eqb scalar_eqb x y
  | _, _ => false
  end.

Definition same_value (a b : Value) : bool :=
  match a, b with
  | Lit x, Lit y => jsval_eqb x y
  | Obj x, Obj y =>
      list_eqb (fun p q => String.eqb (fst p) (fst q)
                           && jsval_eqb (snd p) (snd q)) x y
  | _, _ => false
  end.

Definition doc_eqb (a b : Entity) : bool :=
  list_eqb (fun p q => String.eqb (fst p) (fst q)
                       && same_value (snd p) (snd q)) a b.

(** A field a document does not have reads as null. *)
Definition field (d : Entity) (k : string) : Value :=
  or_default (obj_get k d) (lit SNull).

(** [{ k: arg }] and [{ k: { $eq: arg } }]: null also matches a missing
    field. *)
Definition eq_match (arg : JsVal) (x : Value) : bool :=
  match arg with
  | JScalar SNull => value_is_null x
  | _ => same_value (Lit arg) x
  end.

Definition cmp_match (op : Comparison) (arg : JsVal) (x : Value) : bool :=
  match arg with
  | JScalar v => sql_cmp op x v
  | JArr _ => false
  end.

Definition op_holds (name : string) (arg : JsVal) (x : Value) : bool :=
  if String.eqb name "$eq" then eq_match arg x
  else if String.eqb name "$ne" then negb (eq_match arg x)
  else if String.eqb name "$gt" then cmp_match Gt arg x
  else if String.eqb name "$gte" then cmp_match Gte arg x
  else if String.eqb name "$lt" then cmp_match Lt arg x
  else if String.eqb name "$lte" then cmp_match Lte arg x
  else if String.eqb name "$in" then
    match arg with
    | JArr vs => existsb (fun v => eq_match (JScalar v) x) vs
    | JScalar _ => false
    end
  else if String.eqb name "$nin" then
    match arg with
    | JArr vs => negb (existsb (fun v => eq_match (JScalar v) x) vs)
    | JScalar _ => false
    end
  else false.

Definition entry_holds (d : Entity) (kv : string * Value) : bool :=
  match snd kv with
  | Lit arg => eq_match arg (field d (fst kv))
  | Obj ops =>
      forallb (fun op => op_holds (fst op) (snd op) (field d (fst kv))) ops
  end.

Definition doc_matches (filter : Filter) (d : Entity) : bool :=
  forallb (entry_holds d) filter.

(** An update without operators is a [$set]; [$unset] removes the fields. *)
Definition apply_update (u : MongoAdapter.UpdateDoc) (d : Entity) : Entity :=
  match u with
  | MongoAdapter.Fields p => spread d p
  | MongoAdapter.SetFields set _ => spread d set
  | MongoAdapter.UnsetFields fs =>
      filter (fun kv => negb (has_key (fst kv) fs)) d
  end.

(** Rewrite the first document that satisfies [p]; the second component is
    that document before the change. *)
Fixpoint update_first (p : Entity -> bool) (g : Entity -> Entity)
  (docs : list Entity) : list Entity * option Entity :=
  match docs with
  | [] => ([], None)
  | d :: rest =>
      if p d then (g d :: rest, Some d)
      else let (rest', found) := update_first p g rest in (d :: rest', found)
  end.

Fixpoint remove_first (p : Entity -> bool) (docs : list Entity)
  : list Entity * option Entity :=
  match docs with
  | [] => ([], None)
  | d :: rest =>
      if p d then (rest, Some d)
      else let (rest', found) := remove_first p rest in (d :: rest', found)
  end.

Definition changed (u : MongoAdapter.UpdateDoc) (d : Entity) : bool :=
  negb (doc_eqb d (apply_update u d)).

Definition sort_order (sort : option SortSpec) : list (string * Direction) :=
  match sort with
  | Some (SortObject o) =>
      map (fun kv => (fst kv, PostgresAdapter.direction_of (snd kv))) o
  | Some (SortString s) =>
      [(PostgresAdapter.strip_sign s,
        if PostgresAdapter.startsWith "-"%char s then Desc else Asc)]
  | None => []
  end.

Definition pick (opts : MongoAdapter.FindOptions) (docs : list Entity)
  : list Entity :=
  let sorted := sort_rows (sort_order (MongoAdapter.fo_sort opts)) docs in
  let skipped := match MongoAdapter.fo_skip opts with
                 | Some n => skipn (Z.to_nat n) sorted
                 | None => sorted
                 end in
  let limited := match MongoAdapter.fo_limit opts with
                 | Some n => firstn (Z.to_nat n) skipped
                 | None => skipped
                 end in
  match MongoAdapter.fo_select opts with
  | Some fields =>
      map (filter (fun kv => String.eqb (fst kv) "_id"
                             || has_key (fst kv) fields)) limited
  | None => limited
  end.

Definition with_docs (docs : list Entity) (m : Store) : Store :=
  mkStore docs (st_clock m).

(** The scalar fields of a filter seed the document of an upsert. *)
Definition seed (f : Filter) : Entity :=
  filter (fun kv => match snd kv with Lit _ => true | Obj _ => false end) f.

Definition store_model : MongoAdapter.Model Store :=
  MongoAdapter.mkModel Store
    (* create *)
    (fun doc _ m => (Ok doc, with_docs (st_docs m ++ [doc]) m))
    (* insertMany *)
    (fun docs _ m => (Ok docs, with_docs (st_docs m ++ docs) m))
    (* findOne *)
    (fun f opts _ m =>
       (Ok (hd_error (pick opts (filter (doc_matches f) (st_docs m)))), m))
    (* find *)
    (fun f opts _ m =>
       (Ok (pick opts (filter (doc_matches f) (st_docs m))), m))
    (* countDocuments *)
    (fun f _ m =>
       (Ok (Z.of_nat (List.length (filter (doc_matches f) (st_docs m)))), m))
    (* findOneAndUpdate, returning the new document *)
    (fun f u upsert _ m =>
       match update_first (doc_matches f) (apply_update u) (st_docs m) with
       | (docs, Some old) => (Ok (Some (apply_update u old)), with_docs docs m)
       | (_, None) =>
           if upsert then
             let fresh :=
               match u with
               | MongoAdapter.SetFields set (Some once) =>
                   spread (spread (seed f) set) once
               | _ => apply_update u (seed f)
               end in
             (Ok (Some fresh), with_docs (st_docs m ++ [fresh]) m)
           else (Ok None, m)
       end)
    (* updateOne: modifiedCount *)
    (fun f u _ m =>
       match update_first (doc_matches f) (apply_update u) (st_docs m) with
       | (docs, Some old) =>
           (Ok (if changed u old then 1 else 0), with_docs docs m)
       | (_, None) => (Ok 0, m)
       end)
    (* updateMany: modifiedCount *)
    (fun f u _ m =>
       let hit := filter (doc_matches f) (st_docs m) in
       (Ok (Z.of_nat (List.length (filter (changed u) hit))),
        with_docs
          (map (fun d => if doc_matches f d then apply_update u d else d)
               (st_docs m)) m))
    (* deleteMany: deletedCount *)
    (fun f _ m =>
       (Ok (Z.of_nat (List.length (filter (doc_matches f) (st_docs m)))),
        with_docs (filter (fun d => negb (doc_matches f d)) (st_docs m)) m))
    (* findByIdAndDelete *)
    (fun id _ m =>
       match remove_first (doc_matches [("_id", lit (id_value id))])
               (st_docs m) with
       | (docs, found) => (Ok found, with_docs docs m)
       end)
    (* exists *)
    (fun f m => (Ok (existsb (doc_matches f) (st_docs m)), m))
    (* distinct *)
    (fun name f _ m =>
       (Ok (dedup (map (fun d => field d name)
                       (filter (doc_matches f) (st_docs m)))), m))
    (* new Date() *)
    (fun m => (Ok (lit (SDate (st_clock m))), m)).

(** Options over the store. *)
Definition store_options (softDelete : option bool)
  (softDeleteField : option string)
  : MongoAdapter.MongoRepositoryOptions Store :=
  MongoAdapter.mkMongoRepositoryOptions store_model softDelete
    softDeleteField None None None None.

(** The document has the given [_id]. *)
Definition has_doc_id (id : Id) (d : Entity) : bool :=
  doc_matches [("_id", lit (id_value id))] d.

Definition ann_doc : Payload :=
  [("_id", lit (SNum 1)); ("name", lit (SStr "Ann"))].

Definition one_doc : Store := mkStore [ann_doc] 1000.

Definition empty_store : Store := mkStore [] 1000.

(** The filters the document repository merges for an id. *)
Definition mongo_by_id {W : Type} (opts : MongoAdapter.MongoRepositoryOptions W)
  (id : Id) : Filter :=
  obj_literal [MongoAdapter.by_id id; MongoAdapter.notDeletedFilter opts].

Definition mongo_deleted_by_id {W : Type}
  (opts : MongoAdapter.MongoRepositoryOptions W) (id : Id) : Filter :=
  obj_literal [MongoAdapter.by_id id; MongoAdapter.is_deleted opts].

(** The soft-delete field of the document is null or missing. *)
Definition doc_not_deleted {W : Type}
  (opts : MongoAdapter.MongoRepositoryOptions W) (d : Entity) : bool :=
  value_is_null (field d (MongoAdapter.softDeleteField opts)).

(** Every document of the collection has an [_id]. *)
Definition ids_present (docs : list Entity) : Prop :=
  forall d, In d docs -> value_is_null (field d "_id") = false.

(* ================================================================== *)
(** * Reading a repository call: ordering, hooks, bulk writes *)
(* ================================================================== *)

(** The [ORDER BY] entry one part of a sort string asks for. *)
Definition sort_part (p : string) : string * Direction :=
  (PostgresAdapter.strip_sign p,
   if PostgresAdapter.startsWith "-"%char p then Desc else Asc).

(** The [ORDER BY] list a sort option asks for. *)
Definition order_of (sort : option SortSpec) : list (string * Direction) :=
  match sort with
  | None => []
  | Some (SortString s) =>
      if String.eqb s EmptyString then []
      else map sort_part (PostgresAdapter.split_commas s)
  | Some (SortObject o) =>
      map (fun kv => (fst kv, PostgresAdapter.direction_of (snd kv)))
          (obj_literal [o])
  end.

(** A builder with more [orderBy] calls chained on. *)
Definition with_order (order : list (string * Direction)) (q : Query)
  : Query :=
  mkQuery (q_table q) (q_verb q) (q_where q) (q_order q ++ order)
          (q_limit q) (q_offset q).

(** The first sort column outside the whitelist. *)
Definition first_refused (cfg : PostgresAdapter.PostgresEntityConfig)
  (order : list (string * Direction)) : option string :=
  option_map fst (find (fun cd => negb (field_allowed cfg (fst cd))) order).

(** The payload the before-update stage hands on. *)
Definition before_update_output (cfg : PostgresAdapter.PostgresEntityConfig)
  (update : Payload) : Result Payload :=
  match PostgresAdapter.hook cfg beforeUpdate with
  | Some h =>
      match h (mkHookContext update OpUpdate false) with
      | Ok replacement => Ok (or_default replacement update)
      | Throw e => Throw e
      end
  | None => Ok update
  end.

Definition before_update_calls (cfg : PostgresAdapter.PostgresEntityConfig)
  (update : Payload) : list DbEvent :=
  match PostgresAdapter.hook cfg beforeUpdate with
  | Some _ => [CalledBeforeUpdate (mkHookContext update OpUpdate false)]
  | None => []
  end.

Definition after_update_calls (cfg : PostgresAdapter.PostgresEntityConfig)
  (entity : option Entity) : list DbEvent :=
  match PostgresAdapter.hook cfg afterUpdate with
  | Some _ => [CalledAfterUpdate entity]
  | None => []
  end.

(** What the after-update hook answers, when one is configured. *)
Definition after_update_output (cfg : PostgresAdapter.PostgresEntityConfig)
  (entity : option Entity) : Result unit :=
  match PostgresAdapter.hook cfg afterUpdate with
  | Some h => h entity
  | None => Ok tt
  end.

Definition before_delete_output (cfg : PostgresAdapter.PostgresEntityConfig)
  (id : Id) : Result unit :=
  match PostgresAdapter.hook cfg beforeDelete with
  | Some h => h id
  | None => Ok tt
  end.

Definition after_delete_output (cfg : PostgresAdapter.PostgresEntityConfig)
  (success : bool) : Result unit :=
  match PostgresAdapter.hook cfg afterDelete with
  | Some h => h success
  | None => Ok tt
  end.

Definition after_create_output (cfg : PostgresAdapter.PostgresEntityConfig)
  (entity : Entity) : Result unit :=
  match PostgresAdapter.hook cfg afterCreate with
  | Some h => h entity
  | None => Ok tt
  end.

(** [{ ...data, [field]: new Date() }] at the instant [now], when
    timestamps are enabled. *)
Definition stamped (enabled : bool) (field : string) (now : Z)
  (data : Payload) : Payload :=
  if enabled then obj_literal [data; [(field, lit (SDate now))]] else data.

(** The hook calls in a log. *)
Fixpoint hook_calls (log : list DbEvent) : list DbEvent :=
  match log with
  | [] => []
  | Executed _ :: rest => hook_calls rest
  | e :: rest => e :: hook_calls rest
  end.

Definition is_delete (q : Query) : bool :=
  match q_verb q with Delete => true | _ => false end.

(** Two rows agree on every column but [c]. *)
Definition same_but (c : string) (r r' : Entity) : Prop :=
  forall k, k <> c -> column r' k = column r k.

(** The rows of page [p] (counted from 1) of a list cut into pages of
    [limit] rows. *)
Definition page_rows {A : Type} (limit : Z) (rows : list A) (p : nat)
  : list A :=
  firstn (Z.to_nat limit) (skipn (Z.to_nat ((Z.of_nat p - 1) * limit)) rows).

(** The world after more events were logged. *)
Definition logs (w : Db) (l : list DbEvent) : Db :=
  mkDb (db_rows w) (db_now w) (db_log w ++ l).

(** The world after a statement rewrote the table. *)
Definition wrote (w : Db) (rows : list Entity) (l : list DbEvent) : Db :=
  mkDb rows (db_now w) (db_log w ++ l).

(** [kx(table).where({ [pk]: id })] with the merged filter applied and the
    verb chained on. *)
Definition by_id_query (cfg : PostgresAdapter.PostgresEntityConfig) (id : Id)
  (merged : Filter) (verb : Verb) : Query :=
  mkQuery (PostgresAdapter.table cfg) verb (by_id cfg id merged) [] None None.

(** [kx(table)] with the merged filter applied and the verb chained on. *)
Definition filter_query (cfg : PostgresAdapter.PostgresEntityConfig)
  (merged : Filter) (verb : Verb) : Query :=
  mkQuery (PostgresAdapter.table cfg) verb (compile merged) [] None None.

(** The outcome of a call whose last stage is an after-hook. *)
Definition then_result {A : Type} (after : Result unit) (a : A) : Result A :=
  match after with
  | Ok _ => Ok a
  | Throw e => Throw e
  end.

Definition before_delete_calls (cfg : PostgresAdapter.PostgresEntityConfig)
  (id : Id) : list DbEvent :=
  match PostgresAdapter.hook cfg beforeDelete with
  | Some _ => [CalledBeforeDelete id]
  | None => []
  end.

Definition after_delete_calls (cfg : PostgresAdapter.PostgresEntityConfig)
  (success : bool) : list DbEvent :=
  match PostgresAdapter.hook cfg afterDelete with
  | Some _ => [CalledAfterDelete success]
  | None => []
  end.

(** Hooks that refuse every update and every delete, and hooks whose
    after-stages fail. *)
Definition refusal : Thrown := new_Error "not permitted".

Definition vetoing_hooks : RepositoryHooks :=
  mkRepositoryHooks None None
    (Some (fun _ => Throw refusal)) None
    (Some (fun _ => Throw refusal)) None.

Definition failing_after_hooks : RepositoryHooks :=
  mkRepositoryHooks None (Some (fun _ => Throw refusal))
    None (Some (fun _ => Throw refusal))
    None (Some (fun _ => Throw refusal)).

Definition counting_hooks : RepositoryHooks :=
  mkRepositoryHooks (Some (fun _ => Ok None)) (Some (fun _ => Ok tt))
    (Some (fun _ => Ok None)) (Some (fun _ => Ok tt))
    (Some (fun _ => Ok tt)) (Some (fun _ => Ok tt)).

(** A call that removes no row: it runs no [DELETE], and the table it
    leaves has the same rows in the same order, each changed on column [c]
    at most. *)
Definition keeps_rows {A : Type} (c : string) (call : M Db A) (w : Db)
  : Prop :=
  Forall (fun q => is_delete q = false) (ran call w) /\
  Forall2 (same_but c) (db_rows w) (db_rows (snd (call w))).

(** A table with a live user and a soft-deleted one. *)
Definition two_users : Db :=
  mkDb [[("id", lit (SNum 1)); ("name", lit (SStr "Ann"));
         ("deleted_at", lit SNull)];
        [("id", lit (SNum 2)); ("name", lit (SStr "Bob"));
         ("deleted_at", lit (SDate 500))]] 1000 [].

(** A call that leaves every soft-deleted row of the table where and as it
    was. *)
Definition spares_deleted {A : Type}
  (cfg : PostgresAdapter.PostgresEntityConfig) (call : M Db A) (w : Db)
  : Prop :=
  Forall2 (fun r r' => not_deleted cfg r = false -> r' = r)
    (db_rows w) (db_rows (snd (call w))).

(** The events a coordinator run adds to the log of [w]. *)
Definition tx_added {T : Type} (run : M TxWorld T) (w : TxWorld)
  : list TxEvent :=
  skipn (List.length (tx_log w)) (tx_log (snd (run w))).

(** Fails with [e] in the callback on the handles below [k], then passes
    the callback and fails the commit with [e] on the handles below [k'],
    then succeeds. *)
Definition flaky (k k' : nat) (e : Thrown) : TxClient nat :=
  mkTxClient (fun h => if (h <? k)%nat then Throw e else Ok h)
             (fun h => if (h <? k')%nat then Some e else None).

(** Callback invocations, in order. *)
Fixpoint called_back (log : list TxEvent) : list nat :=
  match log with
  | [] => []
  | EvCallback h :: rest => h :: called_back rest
  | _ :: rest => called_back rest
  end.

Definition total (delays : list Z) : Z := fold_right Z.add 0 delays.

(** What a coordinator run may cost at most with [n] retries: between one
    and [n + 1] attempts, the callback invoked once per attempt on the
    attempt's handle, one sleep after each attempt but the last, each
    between 100 and 3000 ms. *)
Definition bounded_effort (n : Z) (handles : list TxEvent -> list nat)
  (added : list TxEvent) : Prop :=
  1 <= Z.of_nat (List.length (handles added)) <= n + 1 /\
  called_back added = handles added /\
  Z.of_nat (List.length (slept added))
  = Z.of_nat (List.length (handles added)) - 1 /\
  Forall (fun ms => 100 <= ms <= 3000) (slept added) /\
  total (slept added) <= 3000 * n.

(** ** A model that records every call in full *)

Inductive Traced : Type :=
| TCreate (doc : Payload) (session : option nat)
| TInsertMany (docs : list Payload) (session : option nat)
| TFindOne (filter : Filter) (options : MongoAdapter.FindOptions)
    (session : option nat)
| TFind (filter : Filter) (options : MongoAdapter.FindOptions)
    (session : option nat)
| TCountDocuments (filter : Filter) (session : option nat)
| TFindOneAndUpdate (filter : Filter) (update : MongoAdapter.UpdateDoc)
    (upsert : bool) (session : option nat)
| TUpdateOne (filter : Filter) (update : MongoAdapter.UpdateDoc)
    (session : option nat)
| TUpdateMany (filter : Filter) (update : MongoAdapter.UpdateDoc)
    (session : option nat)
| TDeleteMany (filter : Filter) (session : option nat)
| TFindByIdAndDelete (id : Id) (session : option nat)
| TExists (filter : Filter)
| TDistinct (field : string) (filter : Filter) (session : option nat).

Definition traced_session (t : Traced) : option nat :=
  match t with
  | TCreate _ s | TInsertMany _ s | TFindOne _ _ s | TFind _ _ s
  | TCountDocuments _ s | TFindOneAndUpdate _ _ _ s | TUpdateOne _ _ s
  | TUpdateMany _ _ s | TDeleteMany _ s | TFindByIdAndDelete _ s
  | TDistinct _ _ s => s
  | TExists _ => None
  end.

(** Removes documents. *)
Definition is_removal (t : Traced) : bool :=
  match t with
  | TDeleteMany _ _ | TFindByIdAndDelete _ _ => true
  | _ => false
  end.

Definition trace {A : Type} (t : Traced) (a : A) : M (list Traced) A :=
  fun w => (Ok a, w ++ [t]).

(** The clock of the tracing model stands at [tracing_now]. *)
Definition tracing_now : Z := 1000.

Definition tracing_model : MongoAdapter.Model (list Traced) :=
  MongoAdapter.mkModel (list Traced)
    (fun doc s => trace (TCreate doc s) doc)
    (fun docs s => trace (TInsertMany docs s) docs)
    (fun f o s => trace (TFindOne f o s) None)
    (fun f o s => trace (TFind f o s) [])
    (fun f s => trace (TCountDocuments f s) 0)
    (fun f u upsert s => trace (TFindOneAndUpdate f u upsert s) None)
    (fun f u s => trace (TUpdateOne f u s) 0)
    (fun f u s => trace (TUpdateMany f u s) 0)
    (fun f s => trace (TDeleteMany f s) 0)
    (fun id s => trace (TFindByIdAndDelete id s) None)
    (fun f => trace (TExists f) false)
    (fun field f s => trace (TDistinct field f s) [])
    (ret (lit (SDate tracing_now))).

(** The driver calls of a repository call, from an empty trace. *)
Definition calls {A : Type} (call : M (list Traced) A) : list Traced :=
  snd (call []).

(** Every driver call of the repository call carries the session. *)
Definition in_session {A : Type} (session : option nat)
  (call : M (list Traced) A) : Prop :=
  Forall (fun t => traced_session t = session) (calls call).

(** Options over the tracing model. *)
Definition tracing_options (softDelete timestamps : option bool)
  : MongoAdapter.MongoRepositoryOptions (list Traced) :=
  MongoAdapter.mkMongoRepositoryOptions tracing_model softDelete None
    timestamps None None None.

(** ** Where the table model and the database agree *)

(** Two scalars of one JavaScript type. *)
Definition same_kind (a b : Scalar) : bool :=
  match a, b with
  | SBool _, SBool _ | SNum _, SNum _ | SStr _, SStr _
  | SDate _, SDate _ => true
  | _, _ => false
  end.

(** A column value and a bound scalar that the database compares as the
    table model does: one of them is null, or both are scalars of one
    JavaScript type.  A bound value of another type is cast by the
    database to the type of the column, which the rows do not record. *)
Definition comparable (x : Value) (v : Scalar) : bool :=
  is_null v
  || match as_scalar x with
     | Some s => is_null s || same_kind s v
     | None => false
     end.

Definition is_string (v : Scalar) : bool :=
  match v with SStr _ => true | _ => false end.

Fixpoint has_char (c : ascii) (s : string) : bool :=
  match s with
  | EmptyString => false
  | String c' rest => Ascii.eqb c c' || has_char c rest
  end.

(** A clause the table model reads on the row as the database does:
    equalities and list tests between comparable values, orderings between
    comparable numbers, dates or booleans (strings are ordered by the
    collation of the column), patterns without an escape character on a
    text or null column, and the null tests. *)
Definition typed_clause (w : Where) (r : Entity) : bool :=
  match w with
  | WhereEq c (JScalar v) | WhereNot c (JScalar v) =>
      comparable (column r c) v
  | WhereCmp c _ (JScalar v) =>
      comparable (column r c) v && negb (is_string v)
  | WhereIn c (JArr vs) | WhereNotIn c (JArr vs) =>
      forallb (comparable (column r c)) vs
  | WhereILike c (JScalar (SStr p)) =>
      comparable (column r c) (SStr p)
      && negb (has_char (ascii_of_nat 92) p)
  | WhereNull _ | WhereNotNull _ => true
  | _ => false
  end.

(** Every clause of the predicate is such a clause on every row. *)
Definition typed_for (ws : list Where) (rows : list Entity) : bool :=
  forallb (fun r => forallb (fun w => typed_clause w r) ws) rows.

(** The key clause of a by-id operation. *)
Definition key_is (cfg : PostgresAdapter.PostgresEntityConfig) (id : Id)
  : list Where :=
  [WhereEq (PostgresAdapter.pk cfg) (JScalar (id_value id))].

(** A whitelisted soft-delete configuration that leaves the soft-delete
    column out of the whitelist, with and without hooks that refuse. *)
Definition unlisted_config (hooks : option RepositoryHooks)
  : PostgresAdapter.PostgresEntityConfig :=
  pg_config (Some ["id"; "name"; "email"]) None (Some true) None hooks.

(* ================================================================== *)
(** * The adapters as objects: connection state and health checks *)
(* ================================================================== *)

(** Driver settings: the values of a [Knex.Config] or of Mongoose
    [ConnectOptions]; the one object among them is the pool, an object of
    numbers. *)
Inductive Setting : Type :=
| SetStr (s : string)
| SetNum (n : Z)
| SetObj (fields : list (string * Z)).

Record PoolConfig : Type := mkPoolConfig {
  pool_min : option Z;
  pool_max : option Z;
  pool_idleTimeoutMs : option Z;
  pool_acquireTimeoutMs : option Z
}.

(** [this.config.pool || {}] *)
Definition no_pool : PoolConfig := mkPoolConfig None None None None.

Record HealthDetails : Type := mkHealthDetails {
  hd_version : option string;
  hd_activeConnections : option Z;
  hd_poolSize : option Z
}.

Record HealthCheckResult : Type := mkHealthCheckResult {
  healthy : bool;
  responseTimeMs : Z;
  hc_type : string;
  hc_error : option string;
  hc_details : option HealthDetails
}.

(** [error instanceof Error ? error.message : 'Unknown error']: the error
    objects of the model are the [Error] instances. *)
Definition error_message (error : Thrown) : string :=
  match error with
  | ThrownObject e => err_message e
  | ThrownPrimitive _ => "Unknown error"
  end.

(** [s.split(sep)] for a one-character separator. *)
Fixpoint split_at (sep : ascii) (s : string) : list string :=
  match s with
  | EmptyString => [EmptyString]
  | String c rest =>
      if Ascii.eqb c sep then EmptyString :: split_at sep rest
      else match split_at sep rest with
           | [] => [String c EmptyString]
           | part :: parts => String c part :: parts
           end
  end.

(** [parts.join(sep)] *)
Fixpoint join (sep : string) (parts : list string) : string :=
  match parts with
  | [] => EmptyString
  | [p] => p
  | p :: rest => (p ++ sep ++ join sep rest)%string
  end.

(** Running a computation on a part of the world. *)
Definition zoom {W V A : Type} (get : W -> V) (set : V -> W -> W)
  (m : M V A) : M W A :=
  fun w => match m (get w) with (r, v) => (r, set v w) end.

(* ------------------------------------------------------------------ *)
(** ** [PostgresAdapter]: the pool *)
(* ------------------------------------------------------------------ *)

Module PostgresAdapterObject.

Record PostgresDatabaseConfig : Type := mkPostgresDatabaseConfig {
  connectionString : string;
  pool : option PoolConfig
}.

(** Calls on the Knex driver. *)
Inductive KnexEvent : Type :=
| KnexCreated (instance : nat) (config : obj Setting)
| KnexDestroyed (instance : nat)
| KnexRaw (instance : nat) (sql : string).

Record RawRow : Type := mkRawRow { row_version : option string }.

(** [client.pool], with its optional counters. *)
Record PoolStats : Type := mkPoolStats {
  numUsed : option Z;
  numFree : option Z
}.

(** What lies behind the driver: whether destroying an instance fails,
    what [raw] resolves to ([result.rows]) or rejects with, the pool
    counters, and the successive readings of [Date.now()]. *)
Record Server : Type := mkServer {
  destroy_error : nat -> option Thrown;
  raw_rows : nat -> Result (option (list RawRow));
  client_pool : nat -> option PoolStats;
  clock : nat -> Z
}.

Record Driver : Type := mkDriver {
  knex_log : list KnexEvent;
  knex_next : nat;
  clock_reads : nat
}.

(** The adapter object ([knexInstance]), the driver, and the log of the
    transactions run on it. *)
Record World : Type := mkWorld {
  knexInstance : option nat;
  driver : Driver;
  transactions : TxWorld
}.

Definition set_instance (i : option nat) (w : World) : World :=
  mkWorld i (driver w) (transactions w).

Definition set_driver (d : Driver) (w : World) : World :=
  mkWorld (knexInstance w) d (transactions w).

Definition set_transactions (t : TxWorld) (w : World) : World :=
  mkWorld (knexInstance w) (driver w) t.

Definition knex_event (e : KnexEvent) : M World unit :=
  fun w =>
    (Ok tt,
     set_driver (mkDriver (knex_log (driver w) ++ [e]) (knex_next (driver w))
                   (clock_reads (driver w))) w).

Section Adapter.
Variable config : PostgresDatabaseConfig.
Variable server : Server.

(** [Date.now()] *)
Definition Date_now : M World Z :=
  fun w =>
    (Ok (clock server (clock_reads (driver w))),
     set_driver (mkDriver (knex_log (driver w)) (knex_next (driver w))
                   (S (clock_reads (driver w)))) w).

(** [knex(config)]: a new instance; the pool connects lazily. *)
Definition knex (settings : obj Setting) : M World nat :=
  fun w =>
    let i := knex_next (driver w) in
    (Ok i,
     set_driver (mkDriver (knex_log (driver w) ++ [KnexCreated i settings])
                   (S i) (clock_reads (driver w))) w).

Definition knex_settings (overrides : obj Setting) : obj Setting :=
  let poolConfig := or_default (pool config) no_pool in
  let pool :=
    SetObj [("min", or_default (pool_min poolConfig) 0);
            ("max", or_default (pool_max poolConfig) 10);
            ("idleTimeoutMillis",
             or_default (pool_idleTimeoutMs poolConfig) 30000);
            ("acquireTimeoutMillis",
             or_default (pool_acquireTimeoutMs poolConfig) 60000)] in
  obj_literal
    [[("client", SetStr "pg");
      ("connection", SetStr (connectionString config));
      ("pool", pool);
      ("acquireConnectionTimeout",
       SetNum (or_default (pool_acquireTimeoutMs poolConfig) 60000))];
     overrides].

Definition connect (overrides : obj Setting) : M World nat :=
  fun w =>
    match knexInstance w with
    | Some i => (Ok i, w)
    | None =>
        (i <- knex (knex_settings overrides) ;;
         (fun w' => (Ok i, set_instance (Some i) w'))) w
    end.

Definition disconnect : M World unit :=
  fun w =>
    match knexInstance w with
    | Some i =>
        (knex_event (KnexDestroyed i) ;;;
         match destroy_error server i with
         | Some e => throw e
         | None => fun w' => (Ok tt, set_instance None w')
         end) w
    | None => (Ok tt, w)
    end.

Definition not_connected : Thrown :=
  new_Error "PostgreSQL not connected. Call connect() first.".

Definition getKnex : M World nat :=
  fun w =>
    match knexInstance w with
    | Some i => (Ok i, w)
    | None => (Throw not_connected, w)
    end.

Definition isConnected : M World bool :=
  fun w =>
    (Ok (match knexInstance w with Some _ => true | None => false end), w).

(** [this.knexInstance.raw('SELECT version(), current_database()')] *)
Definition raw (i : nat) (sql : string)
  : M World (option (list RawRow)) :=
  knex_event (KnexRaw i sql) ;;; lift (raw_rows server i).

(** [row?.version?.split(' ').slice(0, 2).join(' ')] *)
Definition short_version (row : option RawRow) : option string :=
  match row with
  | Some r =>
      option_map (fun v => join " " (firstn 2 (split_at " "%char v)))
                 (row_version r)
  | None => None
  end.

(** [pool?.numUsed?.() ?? 0] and [pool?.numFree?.() ?? 0] *)
Definition used (p : option PoolStats) : Z :=
  match p with Some s => or_default (numUsed s) 0 | None => 0 end.

Definition free (p : option PoolStats) : Z :=
  match p with Some s => or_default (numFree s) 0 | None => 0 end.

Definition healthCheck : M World HealthCheckResult :=
  startTime <- Date_now ;;
  try_catch
    (fun w =>
       match knexInstance w with
       | None =>
           (now <- Date_now ;;
            ret (mkHealthCheckResult false (now - startTime) "postgres"
                   (Some "Not connected to PostgreSQL") None)) w
       | Some i =>
           (rows <- raw i "SELECT version(), current_database()" ;;
            let row := match rows with
                       | Some rs => hd_error rs
                       | None => None
                       end in
            let pool := client_pool server i in
            now <- Date_now ;;
            ret (mkHealthCheckResult true (now - startTime) "postgres" None
                   (Some (mkHealthDetails (short_version row)
                            (Some (used pool))
                            (Some (used pool + free pool)))))) w
       end)
    (fun error =>
       now <- Date_now ;;
       ret (mkHealthCheckResult false (now - startTime) "postgres"
              (Some (error_message error)) None)).

(** [createRepository(cfg, trx)]: [const kx = trx || this.getKnex();],
    then the repository object. *)
Definition createRepository (cfg : PostgresAdapter.PostgresEntityConfig)
  (trx : option nat) : M World (Repo.Repository Db) :=
  match trx with
  | Some _ => ret (PostgresAdapter.createRepository cfg)
  | None => getKnex ;;; ret (PostgresAdapter.createRepository cfg)
  end.

(** [withTransaction]: the options are read, [this.getKnex()] is asked for
    the instance, and the retry loop runs. *)
Definition withTransaction {T : Type} (client : TxClient T)
  (options : TransactionOptions) : M World T :=
  getKnex ;;;
  zoom transactions set_transactions
    (PostgresAdapter.withTransaction client options).

End Adapter.

(** [new PostgresAdapter(config)] before anything is called on it. *)
Definition fresh_driver : Driver := mkDriver [] 0 0.

Definition fresh : World := mkWorld None fresh_driver (mkTxWorld [] 0).

End PostgresAdapterObject.

(* ------------------------------------------------------------------ *)
(** ** [MongoAdapter]: the connection promise *)
(* ------------------------------------------------------------------ *)

Module MongoAdapterObject.

Record MongoDatabaseConfig : Type := mkMongoDatabaseConfig {
  connectionString : string;
  pool : option PoolConfig;
  serverSelectionTimeoutMS : option Z;
  socketTimeoutMS : option Z
}.

(** Calls on Mongoose. *)
Inductive MongooseEvent : Type :=
| MgSet (key : string) (value : bool)
| MgConnect (uri : string) (options : obj Setting)
| MgOn (event : string)
| MgDisconnect
| MgPing
| MgServerInfo.

(** What lies behind Mongoose: how the successive [connect] and
    [disconnect] calls end, whether the connection has a [db], what [ping]
    and [serverInfo] answer, and the readings of [Date.now()]. *)
Record Server : Type := mkServer {
  connect_error : nat -> option Thrown;
  disconnect_error : nat -> option Thrown;
  has_db : bool;
  ping : Result (option Z);
  serverInfo : Result (option (option string));
  clock : nat -> Z
}.

(** The Mongoose singleton: its call log, its [connection.readyState], and
    how many times it was asked to connect and to disconnect. *)
Record Mongoose : Type := mkMongoose {
  mg_log : list MongooseEvent;
  readyState : Z;
  connects : nat;
  disconnects : nat;
  clock_reads : nat
}.

(** The adapter object ([connectionPromise], as the promise has settled),
    Mongoose, and the log of the transactions run on it. *)
Record World : Type := mkWorld {
  connectionPromise : option (Result unit);
  mongoose : Mongoose;
  transactions : TxWorld
}.

Definition set_promise (p : option (Result unit)) (w : World) : World :=
  mkWorld p (mongoose w) (transactions w).

Definition set_mongoose (m : Mongoose) (w : World) : World :=
  mkWorld (connectionPromise w) m (transactions w).

Definition set_transactions (t : TxWorld) (w : World) : World :=
  mkWorld (connectionPromise w) (mongoose w) t.

Definition mongoose_event (e : MongooseEvent) : M World unit :=
  fun w =>
    let m := mongoose w in
    (Ok tt,
     set_mongoose (mkMongoose (mg_log m ++ [e]) (readyState m) (connects m)
                     (disconnects m) (clock_reads m)) w).

Section Adapter.
Variable config : MongoDatabaseConfig.
Variable server : Server.

Definition Date_now : M World Z :=
  fun w =>
    let m := mongoose w in
    (Ok (clock server (clock_reads m)),
     set_mongoose (mkMongoose (mg_log m) (readyState m) (connects m)
                     (disconnects m) (S (clock_reads m))) w).

(** [mongoose.connect(uri, options)]: the state is 1 once connected. *)
Definition mongoose_connect (uri : string) (options : obj Setting)
  : M World unit :=
  mongoose_event (MgConnect uri options) ;;;
  (fun w =>
     let m := mongoose w in
     match connect_error server (connects m) with
     | Some e =>
         (Throw e,
          set_mongoose (mkMongoose (mg_log m) 0 (S (connects m))
                          (disconnects m) (clock_reads m)) w)
     | None =>
         (Ok tt,
          set_mongoose (mkMongoose (mg_log m) 1 (S (connects m))
                          (disconnects m) (clock_reads m)) w)
     end).

(** [mongoose.disconnect()]: the state is 0 once disconnected. *)
Definition mongoose_disconnect : M World unit :=
  mongoose_event MgDisconnect ;;;
  (fun w =>
     let m := mongoose w in
     match disconnect_error server (disconnects m) with
     | Some e =>
         (Throw e,
          set_mongoose (mkMongoose (mg_log m) (readyState m) (connects m)
                          (S (disconnects m)) (clock_reads m)) w)
     | None =>
         (Ok tt,
          set_mongoose (mkMongoose (mg_log m) 0 (connects m)
                          (S (disconnects m)) (clock_reads m)) w)
     end).

(** [constructor]: [mongoose.set('strictQuery', false)]. *)
Definition constructor : M World unit :=
  mongoose_event (MgSet "strictQuery" false).

Definition connect_options (options : obj Setting) : obj Setting :=
  let poolConfig := or_default (pool config) no_pool in
  obj_literal
    [[("maxPoolSize", SetNum (or_default (pool_max poolConfig) 10));
      ("minPoolSize", SetNum (or_default (pool_min poolConfig) 5));
      ("serverSelectionTimeoutMS",
       SetNum (or_default (serverSelectionTimeoutMS config) 5000));
      ("socketTimeoutMS", SetNum (or_default (socketTimeoutMS config) 45000));
      ("maxIdleTimeMS",
       SetNum (or_default (pool_idleTimeoutMs poolConfig) 30000))];
     options].

(** [connect]: the promise of the first call is kept, however it settles,
    and is what every later call returns. *)
Definition connect (options : obj Setting) : M World unit :=
  fun w =>
    match connectionPromise w with
    | Some settled => (settled, w)
    | None =>
        match mongoose_connect (connectionString config)
                (connect_options options) w with
        | (settled, w') =>
            (mongoose_event (MgOn "connected") ;;;
             mongoose_event (MgOn "error") ;;;
             mongoose_event (MgOn "disconnected") ;;;
             lift settled) (set_promise (Some settled) w')
        end
    end.

Definition disconnect : M World unit :=
  mongoose_disconnect ;;;
  (fun w => (Ok tt, set_promise None w)).

(** [mongoose.connection.readyState === 1] *)
Definition isConnected : M World bool :=
  fun w => (Ok (readyState (mongoose w) =? 1), w).

(** [admin?.ping()] and [admin?.serverInfo()], [admin] being
    [mongoose.connection.db?.admin()]. *)
Definition admin_ping : M World (option Z) :=
  if has_db server then mongoose_event MgPing ;;; lift (ping server)
  else ret None.

Definition admin_serverInfo : M World (option (option string)) :=
  if has_db server
  then mongoose_event MgServerInfo ;;; lift (serverInfo server)
  else ret None.

Definition healthCheck : M World HealthCheckResult :=
  startTime <- Date_now ;;
  try_catch
    (connected <- isConnected ;;
     if negb connected then
       now <- Date_now ;;
       ret (mkHealthCheckResult false (now - startTime) "mongo"
              (Some "Not connected to MongoDB") None)
     else
       pingResult <- admin_ping ;;
       if negb (match pingResult with
                | Some ok => negb (ok =? 0)
                | None => false
                end)
       then
         now <- Date_now ;;
         ret (mkHealthCheckResult false (now - startTime) "mongo"
                (Some "Ping command failed") None)
       else
         info <- admin_serverInfo ;;
         now <- Date_now ;;
         ret (mkHealthCheckResult true (now - startTime) "mongo" None
                (Some (mkHealthDetails
                         (match info with Some v => v | None => None end)
                         None None))))
    (fun error =>
       now <- Date_now ;;
       ret (mkHealthCheckResult false (now - startTime) "mongo"
              (Some (error_message error)) None)).

(** [createRepository(opts, session)] touches neither the adapter nor
    Mongoose. *)
Definition createRepository {W : Type}
  (opts : MongoAdapter.MongoRepositoryOptions W) (session : option nat)
  : M World (Repo.Repository W) :=
  ret (MongoAdapter.createRepository opts session).

(** [withTransaction]: the options are read, [await this.connect()], and
    the retry loop runs.  The loop's log opens with [EvConnect], the mark
    of that same call; what the call does to the adapter is [connect]. *)
Definition withTransaction {T : Type} (client : TxClient T)
  (options : TransactionOptions) : M World T :=
  connect [] ;;;
  zoom transactions set_transactions
    (MongoAdapter.withTransaction client options).

End Adapter.

Definition fresh_mongoose : Mongoose := mkMongoose [] 0 0 0 0.

Definition fresh : World := mkWorld None fresh_mongoose (mkTxWorld [] 0).

End MongoAdapterObject.

(* ------------------------------------------------------------------ *)
(** ** [DatabaseService]: the facade over the two adapters *)
(* ------------------------------------------------------------------ *)

Module DatabaseService.

(** [config.type] is ['mongo' | 'postgres'] by its type and a string at
    run time; the [default] branches of the service answer the others. *)
Record DatabaseConfig : Type := mkDatabaseConfig {
  type : string;
  connectionString : string;
  pool : option PoolConfig;
  serverSelectionTimeoutMS : option Z;
  socketTimeoutMS : option Z
}.

(** [this.config as MongoDatabaseConfig] *)
Definition as_mongo (c : DatabaseConfig)
  : MongoAdapterObject.MongoDatabaseConfig :=
  MongoAdapterObject.mkMongoDatabaseConfig (connectionString c) (pool c)
    (serverSelectionTimeoutMS c) (socketTimeoutMS c).

(** [this.config as PostgresDatabaseConfig] *)
Definition as_postgres (c : DatabaseConfig)
  : PostgresAdapterObject.PostgresDatabaseConfig :=
  PostgresAdapterObject.mkPostgresDatabaseConfig (connectionString c) (pool c).

(** The service object: its two optional adapters, each with its own
    state ([connectionPromise], [knexInstance]); and the two drivers. *)
Record World : Type := mkWorld {
  mongoAdapter : option (option (Result unit));
  postgresAdapter : option (option nat);
  knex : PostgresAdapterObject.Driver;
  mongoose : MongoAdapterObject.Mongoose;
  transactions : TxWorld
}.

Definition set_mongoAdapter (a : option (option (Result unit))) (w : World)
  : World :=
  mkWorld a (postgresAdapter w) (knex w) (mongoose w) (transactions w).

Definition set_postgresAdapter (a : option (option nat)) (w : World)
  : World :=
  mkWorld (mongoAdapter w) a (knex w) (mongoose w) (transactions w).

(** A method call on [this.postgresAdapter].  The service calls a method
    only on an adapter it holds; the other branch stands for the
    [TypeError] of a call on [undefined]. *)
Definition on_postgres {A : Type} (m : M PostgresAdapterObject.World A)
  : M World A :=
  fun w =>
    match postgresAdapter w with
    | Some a =>
        match m (PostgresAdapterObject.mkWorld a (knex w) (transactions w))
        with
        | (r, pw) =>
            (r,
             mkWorld (mongoAdapter w)
               (Some (PostgresAdapterObject.knexInstance pw))
               (PostgresAdapterObject.driver pw) (mongoose w)
               (PostgresAdapterObject.transactions pw))
        end
    | None =>
        (Throw (new_Error "Cannot read properties of undefined"), w)
    end.

(** A method call on [this.mongoAdapter]. *)
Definition on_mongo {A : Type} (m : M MongoAdapterObject.World A)
  : M World A :=
  fun w =>
    match mongoAdapter w with
    | Some a =>
        match m (MongoAdapterObject.mkWorld a (mongoose w) (transactions w))
        with
        | (r, mw) =>
            (r,
             mkWorld (Some (MongoAdapterObject.connectionPromise mw))
               (postgresAdapter w) (knex w)
               (MongoAdapterObject.mongoose mw)
               (MongoAdapterObject.transactions mw))
        end
    | None =>
        (Throw (new_Error "Cannot read properties of undefined"), w)
    end.

Section Service.
Variable config : DatabaseConfig.
Variable postgres : PostgresAdapterObject.Server.
Variable mongo : MongoAdapterObject.Server.

(** [if (!this.postgresAdapter) this.postgresAdapter = new PostgresAdapter(...)] *)
Definition ensure_postgresAdapter : M World unit :=
  fun w =>
    match postgresAdapter w with
    | Some _ => (Ok tt, w)
    | None => (Ok tt, set_postgresAdapter (Some None) w)
    end.

(** [if (!this.mongoAdapter) this.mongoAdapter = new MongoAdapter(...)];
    the constructor sets [strictQuery]. *)
Definition ensure_mongoAdapter : M World unit :=
  fun w =>
    match mongoAdapter w with
    | Some _ => (Ok tt, w)
    | None =>
        on_mongo MongoAdapterObject.constructor
          (set_mongoAdapter (Some None) w)
    end.

Definition unsupported : Thrown :=
  new_Error ("Unsupported database type: " ++ type config)%string.

Definition isConnected : M World bool :=
  fun w =>
    if String.eqb (type config) "mongo" then
      match mongoAdapter w with
      | Some _ => on_mongo MongoAdapterObject.isConnected w
      | None => (Ok false, w)
      end
    else if String.eqb (type config) "postgres" then
      match postgresAdapter w with
      | Some _ => on_postgres PostgresAdapterObject.isConnected w
      | None => (Ok false, w)
      end
    else (Ok false, w).

Definition connect : M World unit :=
  if String.eqb (type config) "mongo" then
    ensure_mongoAdapter ;;;
    on_mongo (MongoAdapterObject.connect (as_mongo config) mongo [])
  else if String.eqb (type config) "postgres" then
    ensure_postgresAdapter ;;;
    on_postgres (PostgresAdapterObject.connect (as_postgres config) []) ;;;
    ret tt
  else throw unsupported.

Definition disconnect : M World unit :=
  try_catch
    ((fun w =>
        match mongoAdapter w with
        | Some _ =>
            (on_mongo (MongoAdapterObject.disconnect mongo) ;;;
             (fun w' => (Ok tt, set_mongoAdapter None w'))) w
        | None => (Ok tt, w)
        end) ;;;
     (fun w =>
        match postgresAdapter w with
        | Some _ =>
            (on_postgres (PostgresAdapterObject.disconnect postgres) ;;;
             (fun w' => (Ok tt, set_postgresAdapter None w'))) w
        | None => (Ok tt, w)
        end))
    (fun error => throw error).

Definition onModuleDestroy : M World unit := disconnect.

Definition wrong_type (method wanted : string) : Thrown :=
  new_Error
    ("Database type is " ++ dquote ++ type config ++ dquote ++ ". " ++ method
     ++ " can only be used when type === " ++ dquote ++ wanted ++ dquote
     ++ ".")%string.

Definition createMongoRepository {W : Type}
  (options : MongoAdapter.MongoRepositoryOptions W)
  : M World (Repo.Repository W) :=
  if negb (String.eqb (type config) "mongo")
  then throw (wrong_type "createMongoRepository" "mongo")
  else
    ensure_mongoAdapter ;;;
    on_mongo (MongoAdapterObject.createRepository options None).

Definition createPostgresRepository
  (cfg : PostgresAdapter.PostgresEntityConfig)
  : M World (Repo.Repository Db) :=
  if negb (String.eqb (type config) "postgres")
  then throw (wrong_type "createPostgresRepository" "postgres")
  else
    (fun w =>
       match postgresAdapter w with
       | Some _ => (Ok tt, w)
       | None =>
           (ensure_postgresAdapter ;;;
            on_postgres
              (PostgresAdapterObject.connect (as_postgres config) []) ;;;
            ret tt) w
       end) ;;;
    on_postgres (PostgresAdapterObject.createRepository cfg None).

(** The getters hand out the adapter object; here, the state it is in. *)
Definition getMongoAdapter : M World (option (Result unit)) :=
  if negb (String.eqb (type config) "mongo")
  then throw (new_Error
                "getMongoAdapter() is only available for MongoDB connections")
  else
    ensure_mongoAdapter ;;;
    (fun w => (Ok (or_default (mongoAdapter w) None), w)).

Definition getPostgresAdapter : M World (option nat) :=
  if negb (String.eqb (type config) "postgres")
  then throw (new_Error
                "getPostgresAdapter() is only available for PostgreSQL connections")
  else
    ensure_postgresAdapter ;;;
    (fun w => (Ok (or_default (postgresAdapter w) None), w)).

(** [options?: TransactionOptions], defaulted by the adapter to [{}]. *)
Definition given (options : option TransactionOptions) : TransactionOptions :=
  or_default options (mkTransactionOptions None None None).

Definition withMongoTransaction {T : Type} (client : TxClient T)
  (options : option TransactionOptions) : M World T :=
  if negb (String.eqb (type config) "mongo")
  then throw (wrong_type "withMongoTransaction" "mongo")
  else
    getMongoAdapter ;;;
    on_mongo (MongoAdapterObject.withTransaction (as_mongo config) mongo
                client (given options)).

Definition withPostgresTransaction {T : Type} (client : TxClient T)
  (options : option TransactionOptions) : M World T :=
  if negb (String.eqb (type config) "postgres")
  then throw (wrong_type "withPostgresTransaction" "postgres")
  else
    getPostgresAdapter ;;;
    on_postgres (PostgresAdapterObject.withTransaction client
                   (given options)).

Definition withTransaction {T : Type} (client : TxClient T)
  (options : option TransactionOptions) : M World T :=
  if String.eqb (type config) "mongo"
  then withMongoTransaction client options
  else if String.eqb (type config) "postgres"
  then withPostgresTransaction client options
  else throw unsupported.

Definition healthCheck : M World HealthCheckResult :=
  if String.eqb (type config) "mongo" then
    getMongoAdapter ;;;
    on_mongo (MongoAdapterObject.healthCheck mongo)
  else if String.eqb (type config) "postgres" then
    getPostgresAdapter ;;;
    on_postgres (PostgresAdapterObject.healthCheck postgres)
  else
    ret (mkHealthCheckResult false 0 (type config)
           (Some ("Unsupported database type: " ++ type config)%string) None).

End Service.

(** [new DatabaseService(config)] before anything is called on it. *)
Definition fresh : World :=
  mkWorld None None PostgresAdapterObject.fresh_driver
    MongoAdapterObject.fresh_mongoose (mkTxWorld [] 0).

End DatabaseService.

(** ** Reading the health of a document server *)

(** The ping answered with a truthy [ok]. *)
Definition ping_ok (server : MongoAdapterObject.Server) : bool :=
  MongoAdapterObject.has_db server
  && match MongoAdapterObject.ping server with
     | Ok (Some ok) => negb (ok =? 0)
     | _ => false
     end.

(** What the health check reports as the error, connected. *)
Definition mongo_complaint (server : MongoAdapterObject.Server)
  : option string :=
  if negb (MongoAdapterObject.has_db server) then Some "Ping command failed"
  else
    match MongoAdapterObject.ping server with
    | Throw e => Some (error_message e)
    | Ok (Some ok) =>
        if ok =? 0 then Some "Ping command failed"
        else match MongoAdapterObject.serverInfo server with
             | Throw e => Some (error_message e)
             | Ok _ => None
             end
    | Ok None => Some "Ping command failed"
    end.

(* ================================================================== *)
(** * Lookup laws of object construction *)
(* ================================================================== *)

Section ObjectLaws.
Context {V : Type}.
Implicit Types (o a b : obj V) (k : string) (v : V).

Lemma obj_get_app_single k k' v o :
  obj_get k (o ++ [(k', v)])
  = if String.eqb k k' then Some v else obj_get k o.
Proof.
  induction o as [ | [k0 v0] o IH]; simpl.
  - reflexivity.
  - rewrite IH. destruct (String.eqb k k'); [reflexivity | ].
    reflexivity.
Qed.

Lemma obj_get_replace k k' v o :
  obj_get k (obj_replace k' v o)
  = if String.eqb k k'
    then (if has_key k o then Some v else None)
    else obj_get k o.
Proof.
  unfold has_key.
  induction o as [ | [k0 v0] o IH]; simpl.
  - destruct (String.eqb k k'); reflexivity.
  - rewrite IH. destruct (String.eqb_spec k k') as [-> | Hne].
    + destruct (obj_get k' o); [reflexivity | ].
      destruct (String.eqb_spec k' k0) as [-> | Hne0]; reflexivity.
    + destruct (obj_get k o); [reflexivity | ].
      destruct (String.eqb_spec k k0) as [-> | Hne0]; [ | reflexivity].
      destruct (String.eqb_spec k' k0) as [-> | _]; [congruence | reflexivity].
Qed.

Lemma obj_get_set k k' v o :
  obj_get k (obj_set k' v o)
  = if String.eqb k k' then Some v else obj_get k o.
Proof.
  unfold obj_set. destruct (has_key k' o) eqn:Hk.
  - rewrite obj_get_replace.
    destruct (String.eqb_spec k k') as [-> | _]; [ | reflexivity].
    rewrite Hk. reflexivity.
  - apply obj_get_app_single.
Qed.

Lemma obj_get_spread k a b :
  obj_get k (spread a b)
  = match obj_get k b with Some v => Some v | None => obj_get k a end.
Proof.
  unfold spread. revert a.
  induction b as [ | [k0 v0] b IH]; intros a; simpl.
  - reflexivity.
  - rewrite IH, obj_get_set.
    destruct (obj_get k b); [reflexivity | ].
    destruct (String.eqb k k0); reflexivity.
Qed.

Lemma obj_get_nil k : obj_get k ([] : obj V) = None.
Proof. reflexivity. Qed.

Lemma obj_get_literal2 k a b :
  obj_get k (obj_literal [a; b])
  = match obj_get k b with Some v => Some v | None => obj_get k a end.
Proof.
  unfold obj_literal; simpl. rewrite !obj_get_spread.
  destruct (obj_get k b), (obj_get k a); reflexivity.
Qed.

Lemma obj_get_literal3 k a b c :
  obj_get k (obj_literal [a; b; c])
  = match obj_get k c with
    | Some v => Some v
    | None => match obj_get k b with Some v => Some v | None => obj_get k a end
    end.
Proof.
  unfold obj_literal; simpl. rewrite !obj_get_spread.
  destruct (obj_get k c), (obj_get k b), (obj_get k a); reflexivity.
Qed.

Lemma obj_get_In k o :
  (exists v, obj_get k o = Some v) <-> In k (keys o).
Proof.
  induction o as [ | [k0 v0] o IH]; simpl.
  - split; [intros [v H]; discriminate | intros []].
  - split.
    + intros [v H]. destruct (obj_get k o) eqn:E.
      * right. apply IH. eauto.
      * destruct (String.eqb_spec k k0); [left; congruence | discriminate].
    + intros [-> | Hin].
      * destruct (obj_get k o); [eauto | ].
        rewrite String.eqb_refl. eauto.
      * apply IH in Hin as [v ->]. eauto.
Qed.

Lemma has_key_In k o : has_key k o = true <-> In k (keys o).
Proof.
  rewrite <- obj_get_In. unfold has_key.
  destruct (obj_get k o); split; eauto; try discriminate.
  intros [v H]; discriminate.
Qed.

Lemma keys_replace k v o : keys (obj_replace k v o) = keys o.
Proof.
  induction o as [ | [k0 v0] o IH]; simpl; [reflexivity | ].
  f_equal. exact IH.
Qed.

Lemma keys_set_In k k' v o :
  In k (keys (obj_set k' v o)) <-> k = k' \/ In k (keys o).
Proof.
  unfold obj_set. destruct (has_key k' o) eqn:Hk.
  - rewrite keys_replace. apply has_key_In in Hk.
    split; [auto | intros [-> | H]; assumption].
  - unfold keys. rewrite map_app, in_app_iff. simpl.
    split; [intros [H | [H | []]]; auto | intros [H | H]; auto].
Qed.

Lemma keys_spread_In k a b :
  In k (keys (spread a b)) <-> In k (keys a) \/ In k (keys b).
Proof.
  unfold spread. revert a.
  induction b as [ | [k0 v0] b IH]; intros a; simpl.
  - tauto.
  - rewrite IH, keys_set_In. simpl. intuition congruence.
Qed.

End ObjectLaws.

(* ================================================================== *)
(** * The page-result envelope *)
(* ================================================================== *)

Lemma ceil_quot_spec (a b : Z) : b <> 0 -> is_ceiling a b (ceil_quot a b).
Proof.
  intros Hb. unfold is_ceiling, ceil_quot. split; intros Hs.
  - pose proof (Z.div_mod (- a) b Hb) as E.
    pose proof (Z.mod_pos_bound (- a) b Hs) as B. nia.
  - pose proof (Z.div_mod (- a) b Hb) as E.
    pose proof (Z.mod_neg_bound (- a) b Hs) as B. nia.
Qed.

Lemma is_ceiling_unique (a b q q' : Z) :
  b <> 0 -> is_ceiling a b q -> is_ceiling a b q' -> q = q'.
Proof.
  unfold is_ceiling. intros Hb [P1 N1] [P2 N2].
  destruct (Z.lt_trichotomy b 0) as [H | [H | H]]; [ | lia | ].
  - specialize (N1 H). specialize (N2 H). nia.
  - specialize (P1 H). specialize (P2 H). nia.
Qed.

Example shapePage_scenario_B :
  pr_pages (shapePage [1; 2; 3] 2 10 25) = 3.
Proof. reflexivity. Qed.

Example shapePage_limit_zero :
  shapePage [1] 7 0 5 = mkPageResult [1] 7 0 5 5.
Proof. reflexivity. Qed.

Lemma shapePage_pages {T : Type} (data : list T) (page limit total : Z) :
  pr_pages (shapePage data page limit total)
  = Z.max 1 (ceil_quot total (if limit =? 0 then 1 else limit)).
Proof.
  unfold shapePage, num_or; simpl.
  destruct (Z.eqb_spec total 0) as [-> | _]; reflexivity.
Qed.

(** C4. The page-result shaper echoes data, page, limit and total, and
    reports [pages = max 1 (ceil (total / limit))], where a zero limit
    divides as 1: the count is at least 1, it is 1 for [total = 0], it is
    [max 1 total] for [limit = 0], and in general it is the maximum of 1 and
    the ceiling of the exact quotient of [total] by the guarded divisor.
    The shaper is a total function: no input makes it fail. *)
Theorem shapePage_envelope :
  forall (T : Type) (data : list T) (page limit total : Z),
    let r := shapePage data page limit total in
    let divisor := if limit =? 0 then 1 else limit in
    pr_data r = data /\ pr_page r = page /\
    pr_limit r = limit /\ pr_total r = total /\
    1 <= pr_pages r /\
    pr_pages (shapePage data page limit 0) = 1 /\
    pr_pages (shapePage data page 0 total) = Z.max 1 total /\
    divisor <> 0 /\
    exists q, is_ceiling total divisor q /\ pr_pages r = Z.max 1 q.
Proof.
  intros T data page limit total r divisor.
  assert (Hd : divisor <> 0).
  { unfold divisor. destruct (Z.eqb_spec limit 0); lia. }
  assert (H0 : pr_pages (shapePage data page limit 0) = 1).
  { rewrite shapePage_pages. destruct (limit =? 0); reflexivity. }
  assert (Hz : pr_pages (shapePage data page 0 total) = Z.max 1 total).
  { rewrite shapePage_pages. unfold ceil_quot.
    change (0 =? 0) with true. cbv iota.
    rewrite Z.div_1_r. f_equal. lia. }
  assert (Hq : exists q, is_ceiling total divisor q /\ pr_pages r = Z.max 1 q).
  { exists (ceil_quot total divisor). split.
    - apply ceil_quot_spec, Hd.
    - apply shapePage_pages. }
  assert (H1 : 1 <= pr_pages r).
  { unfold r. rewrite shapePage_pages. lia. }
  repeat (split; [first [reflexivity | assumption] | ]).
  exact Hq.
Qed.

(* ================================================================== *)
(** * The transaction coordinators *)
(* ================================================================== *)

Lemma world_eta (w : TxWorld) : mkTxWorld (tx_log w) (tx_next w) = w.
Proof. destruct w; reflexivity. Qed.

Lemma begun_app (l1 l2 : list TxEvent) : begun (l1 ++ l2) = begun l1 ++ begun l2.
Proof.
  induction l1 as [ | e l1 IH]; simpl; [reflexivity | ].
  destruct e; simpl; rewrite ?IH; reflexivity.
Qed.

Lemma sessions_started_app (l1 l2 : list TxEvent) :
  sessions_started (l1 ++ l2) = sessions_started l1 ++ sessions_started l2.
Proof.
  induction l1 as [ | e l1 IH]; simpl; [reflexivity | ].
  destruct e; simpl; rewrite ?IH; reflexivity.
Qed.

Lemma slept_app (l1 l2 : list TxEvent) : slept (l1 ++ l2) = slept l1 ++ slept l2.
Proof.
  induction l1 as [ | e l1 IH]; simpl; [reflexivity | ].
  destruct e; simpl; rewrite ?IH; reflexivity.
Qed.

(** A log that leaves no session open can be followed by another one. *)
Lemma sessions_released_app (l1 l2 : list TxEvent) (open : option nat) :
  sessions_released open l1 = true ->
  sessions_released open (l1 ++ l2) = sessions_released None l2.
Proof.
  revert open. induction l1 as [ | e l1 IH]; intros open H; simpl in *.
  - destruct open; [discriminate | reflexivity].
  - destruct e; auto.
    + destruct open; [discriminate | auto].
    + destruct open as [s' | ]; [ | discriminate].
      apply andb_true_iff in H as [-> H]. simpl. auto.
Qed.

(** The [catch] clause after the error's message was read: a classifier
    accepts error objects only, so giving up throws [rethrown e]. *)
Lemma caught {A : Type} (e : Thrown) (accepted last : bool)
  (next : M TxWorld A) (w : TxWorld) :
  (forall v, e = ThrownPrimitive v -> accepted = false) ->
  (read_message e ;;; if negb accepted || last then throw e else next) w
  = if negb accepted || last then (Throw (rethrown e), w) else next w.
Proof.
  intros Hprim. unfold bind, read_message, rethrown.
  destruct e as [[ | b | n | s | t] | o];
    try (rewrite (Hprim _ eq_refl); reflexivity).
  destruct (negb accepted || last); reflexivity.
Qed.

Lemma rethrown_retryable (e : Thrown) :
  PostgresAdapter.isRetryableError e = true -> rethrown e = e.
Proof. destruct e as [v | o]; [discriminate | reflexivity]. Qed.

Lemma rethrown_transient (e : Thrown) :
  MongoAdapter.isTransientError e = true -> rethrown e = e.
Proof. destruct e as [v | o]; [discriminate | reflexivity]. Qed.

Section PostgresRuns.
Context {T : Type}.
Variable client : TxClient T.
Variable level : TransactionIsolationLevel.
Variables tmo retries : Z.

Let handler : nat -> M TxWorld T :=
  fun trx => emit (EvRaw trx tmo) ;;; run_callback client trx.

(** One call of the driver's transaction wrapper. *)
Lemma pg_attempt (w : TxWorld) :
  PostgresAdapter.knex_transaction client handler level w
  = (attempt_outcome client (tx_next w),
     mkTxWorld (tx_log w ++ pg_attempt_log client level tmo (tx_next w))
               (S (tx_next w))).
Proof.
  unfold PostgresAdapter.knex_transaction, handler, pg_attempt_log,
    attempt_outcome, run_callback, run_commit, bind, try_catch, emit,
    fresh_handle, throw, ret; simpl.
  destruct (callback client (tx_next w)) as [v | e]; simpl.
  - destruct (commit_error client (tx_next w)); simpl;
      rewrite <- !app_assoc; reflexivity.
  - rewrite <- !app_assoc; reflexivity.
Qed.

(** One turn of the relational loop, read off the attempt's outcome. *)
Lemma pg_turn (fuel : nat) (attempt : Z) (last : option Thrown) (w : TxWorld) :
  attempt <= retries ->
  PostgresAdapter.retry_loop client level tmo retries (S fuel) attempt last w
  = let w1 := mkTxWorld
                (tx_log w ++ pg_attempt_log client level tmo (tx_next w))
                (S (tx_next w)) in
    match attempt_outcome client (tx_next w) with
    | Ok v => (Ok v, w1)
    | Throw e =>
        if negb (PostgresAdapter.isRetryableError e) || (attempt >=? retries)
        then (Throw (rethrown e), w1)
        else PostgresAdapter.retry_loop client level tmo retries fuel
               (attempt + 1) (Some e)
               (mkTxWorld (tx_log w1 ++ [EvSleep (backoffMs attempt)])
                          (tx_next w1))
    end.
Proof.
  intros Hle. cbn [PostgresAdapter.retry_loop].
  apply Z.leb_le in Hle. rewrite Hle.
  unfold bind at 1. unfold try_catch at 1. unfold bind at 1.
  fold handler. rewrite pg_attempt.
  destruct (attempt_outcome client (tx_next w)) as [v | e]; [reflexivity | ].
  cbv zeta. rewrite caught by (intros v ->; reflexivity).
  destruct (negb (PostgresAdapter.isRetryableError e) || (attempt >=? retries));
    reflexivity.
Qed.

(** [j] attempts in a row that throw errors the classifier accepts, with
    budget left after each, are all retried. *)
Lemma pg_retry_prefix (j : nat) :
  forall (fuel : nat) (attempt : Z) (last : option Thrown) (w : TxWorld),
    attempt + Z.of_nat j <= retries ->
    (forall i, (i < j)%nat ->
       exists e, attempt_outcome client (tx_next w + i) = Throw e /\
                 PostgresAdapter.isRetryableError e = true) ->
    exists last',
      PostgresAdapter.retry_loop client level tmo retries (j + fuel) attempt
        last w
      = PostgresAdapter.retry_loop client level tmo retries fuel
          (attempt + Z.of_nat j) last'
          (mkTxWorld
             (tx_log w ++ pg_retried_log client level tmo (tx_next w) attempt j)
             (tx_next w + j)).
Proof.
  induction j as [ | j IH]; intros fuel attempt last w Hle Hfail.
  - exists last. simpl. rewrite app_nil_r, Z.add_0_r, Nat.add_0_r, world_eta.
    reflexivity.
  - destruct (Hfail 0%nat) as [e [He Hr]]; [lia | ].
    rewrite Nat.add_0_r in He.
    change (S j + fuel)%nat with (S (j + fuel)).
    rewrite pg_turn by lia. rewrite He. cbv zeta. rewrite Hr.
    replace (attempt >=? retries) with false
      by (symmetry; rewrite Z.geb_leb; apply Z.leb_gt; lia).
    cbn [negb orb tx_log tx_next].
    destruct (IH fuel (attempt + 1) (Some e)
      (mkTxWorld ((tx_log w ++ pg_attempt_log client level tmo (tx_next w))
                  ++ [EvSleep (backoffMs attempt)]) (S (tx_next w))))
      as [last' Heq].
    + lia.
    + intros i Hi. cbn [tx_next].
      destruct (Hfail (S i)) as [e' He']; [lia | ].
      exists e'.
      replace (S (tx_next w) + i)%nat with (tx_next w + S i)%nat by lia.
      exact He'.
    + exists last'. rewrite Heq. cbn [tx_log tx_next pg_retried_log].
      replace (attempt + Z.of_nat (S j)) with (attempt + 1 + Z.of_nat j) by lia.
      replace (tx_next w + S j)%nat with (S (tx_next w) + j)%nat by lia.
      rewrite <- !app_assoc. reflexivity.
Qed.

End PostgresRuns.

Section PostgresWholeRuns.
Context {T : Type}.
Variable client : TxClient T.

Lemma begun_pg_attempt level tmo h :
  begun (pg_attempt_log client level tmo h) = [h].
Proof.
  unfold pg_attempt_log. simpl. destruct (callback client h); reflexivity.
Qed.

Lemma slept_pg_attempt level tmo h :
  slept (pg_attempt_log client level tmo h) = [].
Proof.
  unfold pg_attempt_log. simpl. destruct (callback client h); reflexivity.
Qed.

Lemma begun_pg_retried level tmo j :
  forall n a, begun (pg_retried_log client level tmo n a j) = seq n j.
Proof.
  induction j as [ | j IH]; intros n a; cbn [pg_retried_log];
    [reflexivity | ].
  rewrite begun_app, begun_pg_attempt. simpl. rewrite IH. reflexivity.
Qed.

Lemma slept_pg_retried level tmo j :
  forall n a,
    slept (pg_retried_log client level tmo n a j)
    = map (fun i => backoffMs (a + i)) (attempts j).
Proof.
  unfold attempts.
  induction j as [ | j IH]; intros n a; cbn [pg_retried_log];
    [reflexivity | ].
  rewrite slept_app, slept_pg_attempt. simpl. rewrite IH.
  rewrite Z.add_0_r. f_equal.
  rewrite <- seq_shift, !map_map. apply map_ext. intros i. f_equal. lia.
Qed.

(** A whole relational run: [j] retried attempts, then an attempt that
    ends the loop (a commit, an error the classifier rejects, or the last
    attempt of the budget). *)
Lemma pg_run (options : TransactionOptions) (N j : nat) (w : TxWorld) :
  retries options = Some (Z.of_nat N) ->
  (j <= N)%nat ->
  (forall i, (i < j)%nat ->
     exists e, attempt_outcome client (tx_next w + i) = Throw e /\
               PostgresAdapter.isRetryableError e = true) ->
  match attempt_outcome client (tx_next w + j) with
  | Ok _ => True
  | Throw e => PostgresAdapter.isRetryableError e = false \/ j = N
  end ->
  let level := or_default (isolationLevel options) ReadCommitted in
  let tmo := or_default (timeout options) DEFAULT_TRANSACTION_TIMEOUT in
  PostgresAdapter.withTransaction client options w
  = (run_outcome (attempt_outcome client (tx_next w + j)),
     mkTxWorld (tx_log w
                ++ pg_retried_log client level tmo (tx_next w) 0 j
                ++ pg_attempt_log client level tmo (tx_next w + j))
               (S (tx_next w + j))).
Proof.
  intros Hret Hj Hfail Hlast level tmo.
  unfold PostgresAdapter.withTransaction. rewrite Hret. cbn [or_default].
  fold level tmo.
  replace (Z.to_nat (Z.of_nat N + 1)) with (j + S (N - j))%nat by lia.
  destruct (pg_retry_prefix client level tmo (Z.of_nat N) j (S (N - j)) 0
              None w) as [last' ->]; [lia | exact Hfail | ].
  rewrite pg_turn by lia. cbn [tx_log tx_next]. cbv zeta.
  rewrite <- app_assoc.
  destruct (attempt_outcome client (tx_next w + j)) as [v | e];
    [reflexivity | ].
  destruct Hlast as [-> | ->].
  - reflexivity.
  - replace (0 + Z.of_nat N >=? Z.of_nat N) with true
      by (symmetry; rewrite Z.geb_leb; apply Z.leb_le; lia).
    rewrite orb_true_r. reflexivity.
Qed.

End PostgresWholeRuns.

Section MongoRuns.
Context {T : Type}.
Variable client : TxClient T.
Variables tmo retries : Z.

(** One turn of the document loop, read off the attempt's outcome: the
    session is ended on each of the three exits. *)
Lemma mongo_turn (fuel : nat) (attempt : Z) (last : option Thrown)
  (w : TxWorld) :
  attempt <= retries ->
  MongoAdapter.retry_loop client tmo retries (S fuel) attempt last w
  = let h := tx_next w in
    let tried := tx_log w ++ mongo_attempt_log client tmo h in
    match attempt_outcome client h with
    | Ok v => (Ok v, mkTxWorld (tried ++ [EvEndSession h]) (S h))
    | Throw e =>
        if negb (MongoAdapter.isTransientError e) || (attempt >=? retries)
        then (Throw (rethrown e),
              mkTxWorld (tried ++ [EvEndSession h]) (S h))
        else MongoAdapter.retry_loop client tmo retries fuel
               (attempt + 1) (Some e)
               (mkTxWorld
                  (tried ++ [EvSleep (backoffMs attempt); EvEndSession h])
                  (S h))
    end.
Proof.
  intros Hle. cbn [MongoAdapter.retry_loop].
  apply Z.leb_le in Hle. rewrite Hle.
  unfold mongo_attempt_log, attempt_outcome.
  unfold bind at 1. unfold fresh_handle at 1.
  unfold bind at 1. unfold emit at 1.
  unfold bind at 1. unfold try_finally at 1. unfold try_catch at 1.
  unfold bind at 1. unfold emit at 1.
  unfold bind at 1. unfold run_callback, bind at 1. unfold emit at 1.
  cbn [tx_log tx_next].
  destruct (callback client (tx_next w)) as [v | e].
  - unfold bind at 1. unfold run_commit, bind at 1. unfold emit at 1.
    cbn [tx_log tx_next].
    destruct (commit_error client (tx_next w)) as [e | ].
    + unfold throw at 1. unfold bind at 1. unfold emit at 1.
      cbn [tx_log tx_next].
      rewrite caught by (intros v0 ->; reflexivity).
      destruct (negb (MongoAdapter.isTransientError e)
                || (attempt >=? retries));
        unfold bind, sleep, emit, ret; cbn [tx_log tx_next app];
        rewrite <- ?app_assoc; reflexivity.
    + unfold ret, emit. cbn [tx_log tx_next app].
      rewrite <- ?app_assoc. reflexivity.
  - unfold bind at 1. unfold emit at 1. cbn [tx_log tx_next].
    rewrite caught by (intros v0 ->; reflexivity).
    destruct (negb (MongoAdapter.isTransientError e)
              || (attempt >=? retries));
      unfold bind, sleep, emit, ret; cbn [tx_log tx_next app];
      rewrite <- ?app_assoc; reflexivity.
Qed.

Lemma mongo_retry_prefix (j : nat) :
  forall (fuel : nat) (attempt : Z) (last : option Thrown) (w : TxWorld),
    attempt + Z.of_nat j <= retries ->
    (forall i, (i < j)%nat ->
       exists e, attempt_outcome client (tx_next w + i) = Throw e /\
                 MongoAdapter.isTransientError e = true) ->
    exists last',
      MongoAdapter.retry_loop client tmo retries (j + fuel) attempt last w
      = MongoAdapter.retry_loop client tmo retries fuel
          (attempt + Z.of_nat j) last'
          (mkTxWorld
             (tx_log w ++ mongo_retried_log client tmo (tx_next w) attempt j)
             (tx_next w + j)).
Proof.
  induction j as [ | j IH]; intros fuel attempt last w Hle Hfail.
  - exists last. simpl. rewrite app_nil_r, Z.add_0_r, Nat.add_0_r, world_eta.
    reflexivity.
  - destruct (Hfail 0%nat) as [e [He Hr]]; [lia | ].
    rewrite Nat.add_0_r in He.
    change (S j + fuel)%nat with (S (j + fuel)).
    rewrite mongo_turn by lia. cbv zeta. rewrite He, Hr.
    replace (attempt >=? retries) with false
      by (symmetry; rewrite Z.geb_leb; apply Z.leb_gt; lia).
    cbn [negb orb].
    destruct (IH fuel (attempt + 1) (Some e)
      (mkTxWorld ((tx_log w ++ mongo_attempt_log client tmo (tx_next w))
                  ++ [EvSleep (backoffMs attempt); EvEndSession (tx_next w)])
                 (S (tx_next w))))
      as [last' Heq].
    + lia.
    + intros i Hi. cbn [tx_next].
      destruct (Hfail (S i)) as [e' He']; [lia | ].
      exists e'.
      replace (S (tx_next w) + i)%nat with (tx_next w + S i)%nat by lia.
      exact He'.
    + exists last'. rewrite Heq. cbn [tx_log tx_next mongo_retried_log].
      replace (attempt + Z.of_nat (S j)) with (attempt + 1 + Z.of_nat j) by lia.
      replace (tx_next w + S j)%nat with (S (tx_next w) + j)%nat by lia.
      rewrite <- !app_assoc. reflexivity.
Qed.

(** Whatever the callback and the commit do, a run leaves no session
    open. *)
Lemma mongo_loop_releases (fuel : nat) :
  forall (attempt : Z) (last : option Thrown) (w : TxWorld),
    sessions_released None (tx_log w) = true ->
    sessions_released None
      (tx_log (snd (MongoAdapter.retry_loop client tmo retries fuel attempt
                      last w))) = true.
Proof.
  induction fuel as [ | fuel IH]; intros attempt last w Hw.
  - exact Hw.
  - destruct (Z.leb_spec attempt retries) as [Hle | Hgt].
    + rewrite mongo_turn by exact Hle. cbv zeta.
      assert (Hend : forall tail,
                 sessions_released None
                   ((tx_log w ++ mongo_attempt_log client tmo (tx_next w))
                    ++ tail)
                 = sessions_released (Some (tx_next w)) tail).
      { intros tail. rewrite <- app_assoc.
        rewrite sessions_released_app by exact Hw.
        unfold mongo_attempt_log. simpl.
        destruct (callback client (tx_next w));
          destruct (attempt_outcome client (tx_next w)); reflexivity. }
      destruct (attempt_outcome client (tx_next w)) as [v | e] eqn:Ho.
      * cbn [snd tx_log]. rewrite Hend. simpl.
        rewrite Nat.eqb_refl. reflexivity.
      * destruct (negb (MongoAdapter.isTransientError e)
                  || (attempt >=? retries)).
        -- cbn [snd tx_log]. rewrite Hend. simpl.
           rewrite Nat.eqb_refl. reflexivity.
        -- apply IH. cbn [tx_log]. rewrite Hend. simpl.
           rewrite Nat.eqb_refl. reflexivity.
    + cbn [MongoAdapter.retry_loop].
      apply Z.leb_gt in Hgt. rewrite Hgt. exact Hw.
Qed.

End MongoRuns.

Section MongoWholeRuns.
Context {T : Type}.
Variable client : TxClient T.

Lemma started_mongo_attempt tmo h :
  sessions_started (mongo_attempt_log client tmo h) = [h].
Proof.
  unfold mongo_attempt_log. simpl.
  destruct (callback client h); destruct (attempt_outcome client h);
    reflexivity.
Qed.

Lemma slept_mongo_attempt tmo h :
  slept (mongo_attempt_log client tmo h) = [].
Proof.
  unfold mongo_attempt_log. simpl.
  destruct (callback client h); destruct (attempt_outcome client h);
    reflexivity.
Qed.

Lemma started_mongo_retried tmo j :
  forall n a,
    sessions_started (mongo_retried_log client tmo n a j) = seq n j.
Proof.
  induction j as [ | j IH]; intros n a; cbn [mongo_retried_log];
    [reflexivity | ].
  rewrite sessions_started_app, started_mongo_attempt. simpl.
  rewrite IH. reflexivity.
Qed.

Lemma slept_mongo_retried tmo j :
  forall n a,
    slept (mongo_retried_log client tmo n a j)
    = map (fun i => backoffMs (a + i)) (attempts j).
Proof.
  unfold attempts.
  induction j as [ | j IH]; intros n a; cbn [mongo_retried_log];
    [reflexivity | ].
  rewrite slept_app, slept_mongo_attempt. simpl. rewrite IH.
  rewrite Z.add_0_r. f_equal.
  rewrite <- seq_shift, !map_map. apply map_ext. intros i. f_equal. lia.
Qed.

(** A whole document run, as [pg_run]. *)
Lemma mongo_run (options : TransactionOptions) (N j : nat) (w : TxWorld) :
  retries options = Some (Z.of_nat N) ->
  (j <= N)%nat ->
  (forall i, (i < j)%nat ->
     exists e, attempt_outcome client (tx_next w + i) = Throw e /\
               MongoAdapter.isTransientError e = true) ->
  match attempt_outcome client (tx_next w + j) with
  | Ok _ => True
  | Throw e => MongoAdapter.isTransientError e = false \/ j = N
  end ->
  let tmo := or_default (timeout options) DEFAULT_TRANSACTION_TIMEOUT in
  MongoAdapter.withTransaction client options w
  = (run_outcome (attempt_outcome client (tx_next w + j)),
     mkTxWorld (tx_log w ++ [EvConnect]
                ++ mongo_retried_log client tmo (tx_next w) 0 j
                ++ mongo_attempt_log client tmo (tx_next w + j)
                ++ [EvEndSession (tx_next w + j)])
               (S (tx_next w + j))).
Proof.
  intros Hret Hj Hfail Hlast tmo.
  unfold MongoAdapter.withTransaction. rewrite Hret. cbn [or_default].
  fold tmo. unfold bind at 1. unfold emit at 1.
  replace (Z.to_nat (Z.of_nat N + 1)) with (j + S (N - j))%nat by lia.
  destruct (mongo_retry_prefix client tmo (Z.of_nat N) j (S (N - j)) 0
              None (mkTxWorld (tx_log w ++ [EvConnect]) (tx_next w)))
    as [last' ->]; [lia | exact Hfail | ].
  rewrite mongo_turn by lia. cbn [tx_log tx_next]. cbv zeta.
  rewrite <- !app_assoc.
  destruct (attempt_outcome client (tx_next w + j)) as [v | e];
    [reflexivity | ].
  destruct Hlast as [-> | ->].
  - reflexivity.
  - replace (0 + Z.of_nat N >=? Z.of_nat N) with true
      by (symmetry; rewrite Z.geb_leb; apply Z.leb_le; lia).
    rewrite orb_true_r. reflexivity.
Qed.

Lemma mongo_run_releases (options : TransactionOptions) (w : TxWorld) :
  sessions_released None (tx_log w) = true ->
  sessions_released None
    (tx_log (snd (MongoAdapter.withTransaction client options w))) = true.
Proof.
  intros Hw. unfold MongoAdapter.withTransaction.
  unfold bind at 1. unfold emit at 1.
  apply mongo_loop_releases. cbn [tx_log].
  rewrite sessions_released_app by exact Hw. reflexivity.
Qed.

End MongoWholeRuns.

(** ** The classifiers *)

Lemma existsb_SStr (code : Scalar) (codes : list string) :
  existsb (scalar_eqb code) (map SStr codes) = true
  <-> exists c, code = SStr c /\ In c codes.
Proof.
  rewrite existsb_exists. split.
  - intros [x [Hin Heq]]. apply in_map_iff in Hin as [c [<- Hc]].
    destruct code; try discriminate. simpl in Heq.
    apply String.eqb_eq in Heq. subst. eauto.
  - intros [c [-> Hc]]. exists (SStr c). split.
    + apply in_map. exact Hc.
    + simpl. apply String.eqb_refl.
Qed.

Lemma existsb_SNum (code : Scalar) (codes : list Z) :
  existsb (scalar_eqb code) (map SNum codes) = true
  <-> exists c, code = SNum c /\ In c codes.
Proof.
  rewrite existsb_exists. split.
  - intros [x [Hin Heq]]. apply in_map_iff in Hin as [c [<- Hc]].
    destruct code; try discriminate. simpl in Heq.
    apply Z.eqb_eq in Heq. subst. eauto.
  - intros [c [-> Hc]]. exists (SNum c). split.
    + apply in_map. exact Hc.
    + simpl. apply Z.eqb_refl.
Qed.

Lemma isRetryableError_iff (error : Thrown) :
  PostgresAdapter.isRetryableError error = true
  <-> has_string_code ["40001"; "40P01"; "55P03"; "57P01"; "57014"] error.
Proof.
  unfold has_string_code.
  change ["40001"; "40P01"; "55P03"; "57P01"; "57014"]
    with PostgresAdapter.retryableCodes.
  split.
  - destruct error as [v | o]; unfold PostgresAdapter.isRetryableError;
      [discriminate | ].
    destruct (err_code o) as [code | ] eqn:Hc; [ | discriminate].
    intros H. apply andb_true_iff in H as [_ H].
    apply existsb_SStr in H as [c [-> Hin]]. eauto.
  - intros [o [c [-> [Hc Hin]]]]. unfold PostgresAdapter.isRetryableError.
    rewrite Hc.
    apply andb_true_iff. split.
    + simpl. destruct (String.eqb_spec c ""); [subst | reflexivity].
      simpl in Hin. intuition discriminate.
    + apply existsb_SStr. eauto.
Qed.

Lemma isTransientError_iff (error : Thrown) :
  MongoAdapter.isTransientError error = true
  <-> has_label_or_code [11600; 11602; 10107; 13435; 13436; 189; 91] error.
Proof.
  unfold has_label_or_code.
  change [11600; 11602; 10107; 13435; 13436; 189; 91]
    with MongoAdapter.retryableCodes.
  split.
  - destruct error as [v | o]; unfold MongoAdapter.isTransientError;
      [discriminate | ].
    intros H. exists o. split; [reflexivity | ].
    destruct (err_hasErrorLabel o) as [f | ].
    + destruct (f "TransientTransactionError") eqn:Hf; [left; eauto | ].
      right. destruct (err_code o) as [code | ]; [ | discriminate].
      apply andb_true_iff in H as [_ H].
      apply existsb_SNum in H as [c [-> Hin]]. eauto.
    + right. destruct (err_code o) as [code | ]; [ | discriminate].
      apply andb_true_iff in H as [_ H].
      apply existsb_SNum in H as [c [-> Hin]]. eauto.
  - intros [o [-> [[f [Hf Ht]] | [c [Hc Hin]]]]];
      unfold MongoAdapter.isTransientError.
    + rewrite Hf, Ht. reflexivity.
    + destruct (match err_hasErrorLabel o with
                | Some f => f "TransientTransactionError"
                | None => false
                end); [reflexivity | ].
      rewrite Hc. apply andb_true_iff. split.
      * simpl. destruct (Z.eqb_spec c 0); [subst | reflexivity].
        simpl in Hin. intuition discriminate.
      * apply existsb_SNum. eauto.
Qed.

(** ** Claims on the coordinator *)

(** C2. With [retries = N] and a callback that always throws an error the
    classifier accepts, each coordinator makes exactly [N + 1] attempts,
    each on a handle of its own; the delays slept are
    [min (100 * 2 ^ attempt) 3000] for the attempts [0 .. N-1], one after
    each attempt but the last; the run rejects with the error of the last
    attempt.  On the document backend every session is ended before the
    next is started and none is left open, for this callback and for any
    other callback, commit outcome and option (commit, abort and rethrow
    exits alike). *)
Theorem retry_budget_exhausted :
  forall (T : Type) (pg mongo : TxClient T) (options : TransactionOptions)
         (N n : nat),
    retries options = Some (Z.of_nat N) ->
    (forall h, exists e, callback pg h = Throw e /\
                         PostgresAdapter.isRetryableError e = true) ->
    (forall h, exists e, callback mongo h = Throw e /\
                         MongoAdapter.isTransientError e = true) ->
    let level := or_default (isolationLevel options) ReadCommitted in
    let tmo := or_default (timeout options) DEFAULT_TRANSACTION_TIMEOUT in
    let run_pg := PostgresAdapter.withTransaction pg options (mkTxWorld [] n) in
    let run_mongo := MongoAdapter.withTransaction mongo options (mkTxWorld [] n) in
    fst run_pg = callback pg (n + N)%nat /\
    tx_log (snd run_pg)
      = pg_retried_log pg level tmo n 0 N ++ pg_attempt_log pg level tmo (n + N) /\
    begun (tx_log (snd run_pg)) = seq n (N + 1) /\
    slept (tx_log (snd run_pg))
      = map (fun attempt => Z.min (100 * 2 ^ attempt) 3000) (attempts N) /\
    fst run_mongo = callback mongo (n + N)%nat /\
    tx_log (snd run_mongo)
      = [EvConnect] ++ mongo_retried_log mongo tmo n 0 N
        ++ mongo_attempt_log mongo tmo (n + N) ++ [EvEndSession (n + N)%nat] /\
    sessions_started (tx_log (snd run_mongo)) = seq n (N + 1) /\
    slept (tx_log (snd run_mongo))
      = map (fun attempt => Z.min (100 * 2 ^ attempt) 3000) (attempts N) /\
    (forall (any : TxClient T) (opts : TransactionOptions) (w : TxWorld),
        sessions_released None (tx_log w) = true ->
        sessions_released None
          (tx_log (snd (MongoAdapter.withTransaction any opts w))) = true).
Proof.
  intros T pg mongo options N n Hret Hpg Hmongo level tmo run_pg run_mongo.
  assert (Opg : forall h, attempt_outcome pg h = callback pg h).
  { intros h. unfold attempt_outcome. destruct (Hpg h) as [e [-> _]].
    reflexivity. }
  assert (Omg : forall h, attempt_outcome mongo h = callback mongo h).
  { intros h. unfold attempt_outcome. destruct (Hmongo h) as [e [-> _]].
    reflexivity. }
  assert (Fpg : forall h, run_outcome (attempt_outcome pg h) = callback pg h).
  { intros h. rewrite Opg. destruct (Hpg h) as [e [-> He]].
    cbn [run_outcome]. rewrite (rethrown_retryable e He). reflexivity. }
  assert (Fmg : forall h,
             run_outcome (attempt_outcome mongo h) = callback mongo h).
  { intros h. rewrite Omg. destruct (Hmongo h) as [e [-> He]].
    cbn [run_outcome]. rewrite (rethrown_transient e He). reflexivity. }
  assert (Rpg : run_pg
                = (callback pg (n + N)%nat,
                   mkTxWorld (pg_retried_log pg level tmo n 0 N
                              ++ pg_attempt_log pg level tmo (n + N))
                             (S (n + N)))).
  { unfold run_pg.
    rewrite (pg_run pg options N N (mkTxWorld [] n) Hret (le_n N)).
    - rewrite Fpg. reflexivity.
    - intros i _. rewrite Opg. apply Hpg.
    - rewrite Opg.
      destruct (Hpg (tx_next (mkTxWorld [] n) + N)%nat) as [e [-> _]].
      right; reflexivity. }
  assert (Rmg : run_mongo
                = (callback mongo (n + N)%nat,
                   mkTxWorld ([EvConnect] ++ mongo_retried_log mongo tmo n 0 N
                              ++ mongo_attempt_log mongo tmo (n + N)
                              ++ [EvEndSession (n + N)%nat])
                             (S (n + N)))).
  { unfold run_mongo.
    rewrite (mongo_run mongo options N N (mkTxWorld [] n) Hret (le_n N)).
    - rewrite Fmg. reflexivity.
    - intros i _. rewrite Omg. apply Hmongo.
    - rewrite Omg.
      destruct (Hmongo (tx_next (mkTxWorld [] n) + N)%nat) as [e [-> _]].
      right; reflexivity. }
  rewrite Rpg, Rmg. cbn [fst snd tx_log].
  split; [reflexivity | ]. split; [reflexivity | ].
  split.
  { rewrite begun_app, begun_pg_retried, begun_pg_attempt.
    rewrite seq_app. reflexivity. }
  split.
  { rewrite slept_app, slept_pg_retried, slept_pg_attempt.
    rewrite app_nil_r.
    reflexivity. }
  split; [reflexivity | ]. split; [reflexivity | ].
  split.
  { rewrite !sessions_started_app, started_mongo_retried,
      started_mongo_attempt. simpl. rewrite ?app_nil_r, seq_app. reflexivity. }
  split.
  { rewrite !slept_app, slept_mongo_retried, slept_mongo_attempt. simpl.
    rewrite ?app_nil_r. reflexivity. }
  intros any opts w Hw. apply mongo_run_releases. exact Hw.
Qed.

(** With two retries and a callback that always fails with a serialization
    failure (resp. interrupted-at-shutdown), three attempts are made and
    the coordinator sleeps 100 ms, then 200 ms. *)
Lemma retry_budget_exhausted_witness :
  fst (PostgresAdapter.withTransaction (always_throws (pg_error "40001"))
         (with_retries 2) (mkTxWorld [] 0))
  = Throw (pg_error "40001") /\
  slept (tx_log (snd (PostgresAdapter.withTransaction
                        (always_throws (pg_error "40001"))
                        (with_retries 2) (mkTxWorld [] 0))))
  = [100; 200] /\
  sessions_started
    (tx_log (snd (MongoAdapter.withTransaction
                    (always_throws (mongo_error 11600))
                    (with_retries 2) (mkTxWorld [] 0))))
  = [0; 1; 2]%nat.
Proof.
  pose proof (retry_budget_exhausted nat
                (always_throws (pg_error "40001"))
                (always_throws (mongo_error 11600))
                (with_retries 2) 2 0 eq_refl
                (fun _ => ex_intro _ (pg_error "40001") (conj eq_refl eq_refl))
                (fun _ => ex_intro _ (mongo_error 11600)
                            (conj eq_refl eq_refl))) as H.
  cbv zeta in H.
  destruct H as [H1 [_ [_ [H4 [_ [_ [H7 _]]]]]]].
  split; [exact H1 | ]. split; [exact H4 | exact H7].
Defined.

(** The turn of the loop in which an attempt threw [e]: it goes on to the
    next attempt exactly when the classifier accepts [e] and the budget is
    not used up, and sleeps only in that case. *)
Lemma pg_turn_thrown {T : Type} (client : TxClient T)
  (level : TransactionIsolationLevel) (tmo retries : Z) (fuel : nat)
  (attempt : Z) (last : option Thrown) (w : TxWorld) (e : Thrown) :
  attempt <= retries ->
  attempt_outcome client (tx_next w) = Throw e ->
  let tried := tx_log w ++ pg_attempt_log client level tmo (tx_next w) in
  PostgresAdapter.retry_loop client level tmo retries (S fuel) attempt last w
  = if PostgresAdapter.isRetryableError e && (attempt <? retries)
    then PostgresAdapter.retry_loop client level tmo retries fuel
           (attempt + 1) (Some e)
           (mkTxWorld (tried ++ [EvSleep (backoffMs attempt)])
                      (S (tx_next w)))
    else (Throw (rethrown e), mkTxWorld tried (S (tx_next w))).
Proof.
  intros Hle Ho tried. rewrite pg_turn by exact Hle. cbv zeta. rewrite Ho.
  rewrite Z.geb_leb, Z.ltb_antisym.
  destruct (PostgresAdapter.isRetryableError e), (retries <=? attempt);
    reflexivity.
Qed.

Lemma mongo_turn_thrown {T : Type} (client : TxClient T)
  (tmo retries : Z) (fuel : nat)
  (attempt : Z) (last : option Thrown) (w : TxWorld) (e : Thrown) :
  attempt <= retries ->
  attempt_outcome client (tx_next w) = Throw e ->
  let tried := tx_log w ++ mongo_attempt_log client tmo (tx_next w) in
  MongoAdapter.retry_loop client tmo retries (S fuel) attempt last w
  = if MongoAdapter.isTransientError e && (attempt <? retries)
    then MongoAdapter.retry_loop client tmo retries fuel
           (attempt + 1) (Some e)
           (mkTxWorld
              (tried ++ [EvSleep (backoffMs attempt); EvEndSession (tx_next w)])
              (S (tx_next w)))
    else (Throw (rethrown e),
          mkTxWorld (tried ++ [EvEndSession (tx_next w)]) (S (tx_next w))).
Proof.
  intros Hle Ho tried. rewrite mongo_turn by exact Hle. cbv zeta. rewrite Ho.
  rewrite Z.geb_leb, Z.ltb_antisym.
  destruct (MongoAdapter.isTransientError e), (retries <=? attempt);
    reflexivity.
Qed.

(** C3 (amended).  The relational classifier accepts exactly the error
    objects whose code is 40001, 40P01, 55P03, 57P01 or 57014.  The document
    classifier accepts exactly the error objects that carry the
    transient-transaction label or whose code is one of 11600, 11602,
    10107, 13435, 13436, 189, 91 (the five codes of the specification and
    the two not-primary codes).  In a turn whose attempt threw [e], the
    loop starts another attempt if and only if the classifier accepts [e]
    and attempts remain, after sleeping once; otherwise it gives up at
    once, without sleeping: it rethrows [e], for every error object and
    every primitive but [null]; for a thrown [null] the read of its
    message raises a [TypeError], and that is what is thrown.  So a run
    whose first [j] attempts throw accepted errors and whose next attempt
    throws a rejected one rejects after exactly [j + 1] attempts and [j]
    sleeps, with that error unless it is [null]. *)
Theorem retry_decided_by_classifier :
  (forall e,
      PostgresAdapter.isRetryableError e = true
      <-> has_string_code ["40001"; "40P01"; "55P03"; "57P01"; "57014"] e) /\
  (forall e,
      MongoAdapter.isTransientError e = true
      <-> has_label_or_code [11600; 11602; 10107; 13435; 13436; 189; 91] e) /\
  (forall (T : Type) (client : TxClient T) level tmo retries fuel attempt
          last w e,
      attempt <= retries ->
      attempt_outcome client (tx_next w) = Throw e ->
      PostgresAdapter.retry_loop client level tmo retries (S fuel) attempt
        last w
      = if PostgresAdapter.isRetryableError e && (attempt <? retries)
        then PostgresAdapter.retry_loop client level tmo retries fuel
               (attempt + 1) (Some e)
               (mkTxWorld
                  ((tx_log w ++ pg_attempt_log client level tmo (tx_next w))
                   ++ [EvSleep (backoffMs attempt)])
                  (S (tx_next w)))
        else (Throw (rethrown e),
              mkTxWorld
                (tx_log w ++ pg_attempt_log client level tmo (tx_next w))
                (S (tx_next w)))) /\
  (forall (T : Type) (client : TxClient T) tmo retries fuel attempt last w e,
      attempt <= retries ->
      attempt_outcome client (tx_next w) = Throw e ->
      MongoAdapter.retry_loop client tmo retries (S fuel) attempt last w
      = if MongoAdapter.isTransientError e && (attempt <? retries)
        then MongoAdapter.retry_loop client tmo retries fuel
               (attempt + 1) (Some e)
               (mkTxWorld
                  ((tx_log w ++ mongo_attempt_log client tmo (tx_next w))
                   ++ [EvSleep (backoffMs attempt); EvEndSession (tx_next w)])
                  (S (tx_next w)))
        else (Throw (rethrown e),
              mkTxWorld
                ((tx_log w ++ mongo_attempt_log client tmo (tx_next w))
                 ++ [EvEndSession (tx_next w)])
                (S (tx_next w)))) /\
  (forall (T : Type) (client : TxClient T) options (N j n : nat) e,
      retries options = Some (Z.of_nat N) ->
      (j <= N)%nat ->
      (forall i, (i < j)%nat ->
         exists e', attempt_outcome client (n + i) = Throw e' /\
                    PostgresAdapter.isRetryableError e' = true) ->
      attempt_outcome client (n + j) = Throw e ->
      PostgresAdapter.isRetryableError e = false ->
      let run := PostgresAdapter.withTransaction client options
                   (mkTxWorld [] n) in
      fst run = Throw (rethrown e) /\
      begun (tx_log (snd run)) = seq n (j + 1) /\
      slept (tx_log (snd run)) = map backoffMs (attempts j)) /\
  (forall (T : Type) (client : TxClient T) options (N j n : nat) e,
      retries options = Some (Z.of_nat N) ->
      (j <= N)%nat ->
      (forall i, (i < j)%nat ->
         exists e', attempt_outcome client (n + i) = Throw e' /\
                    MongoAdapter.isTransientError e' = true) ->
      attempt_outcome client (n + j) = Throw e ->
      MongoAdapter.isTransientError e = false ->
      let run := MongoAdapter.withTransaction client options
                   (mkTxWorld [] n) in
      fst run = Throw (rethrown e) /\
      sessions_started (tx_log (snd run)) = seq n (j + 1) /\
      slept (tx_log (snd run)) = map backoffMs (attempts j)) /\
  (forall e, e <> ThrownPrimitive SNull -> rethrown e = e) /\
  rethrown (ThrownPrimitive SNull) = message_of_null.
Proof.
  split; [exact isRetryableError_iff | ].
  split; [exact isTransientError_iff | ].
  split.
  { intros T client level tmo retries fuel attempt last w e Hle Ho.
    apply pg_turn_thrown; assumption. }
  split.
  { intros T client tmo retries fuel attempt last w e Hle Ho.
    apply mongo_turn_thrown; assumption. }
  split.
  - intros T client options N j n e Hret Hj Hfail Ho Hfatal run.
    unfold run.
    rewrite (pg_run client options N j (mkTxWorld [] n) Hret Hj);
      cbn [tx_next tx_log fst snd app].
    + rewrite Ho. split; [reflexivity | ]. split.
      * rewrite begun_app, begun_pg_retried, begun_pg_attempt, seq_app.
        reflexivity.
      * rewrite slept_app, slept_pg_retried, slept_pg_attempt, app_nil_r.
        reflexivity.
    + exact Hfail.
    + rewrite Ho. left. exact Hfatal.
  - split; [ | split].
    + intros T client options N j n e Hret Hj Hfail Ho Hfatal run.
      unfold run.
      rewrite (mongo_run client options N j (mkTxWorld [] n) Hret Hj);
        cbn [tx_next tx_log fst snd].
      * rewrite Ho. split; [reflexivity | ]. split.
        -- rewrite !sessions_started_app, started_mongo_retried,
             started_mongo_attempt. simpl. rewrite ?app_nil_r, seq_app.
           reflexivity.
        -- rewrite !slept_app, slept_mongo_retried, slept_mongo_attempt.
           simpl. rewrite ?app_nil_r. reflexivity.
      * exact Hfail.
      * rewrite Ho. left. exact Hfatal.
    + intros e He. destruct e as [[ | b | n | s | t] | o];
        [contradiction | reflexivity ..].
    + reflexivity.
Qed.

(** A budget of three retries, one serialization failure, then a unique
    violation (23505): two attempts, one sleep of 100 ms, and the violation
    is what the caller sees. *)
Lemma retry_decided_by_classifier_witness :
  let run := PostgresAdapter.withTransaction
               (throws_then 1 (pg_error "40001") (pg_error "23505"))
               (with_retries 3) (mkTxWorld [] 0) in
  fst run = Throw (pg_error "23505") /\
  begun (tx_log (snd run)) = [0; 1]%nat /\
  slept (tx_log (snd run)) = [100].
Proof.
  destruct retry_decided_by_classifier as [_ [_ [_ [_ [H _]]]]].
  apply (H nat (throws_then 1 (pg_error "40001") (pg_error "23505"))
           (with_retries 3) 3%nat 1%nat 0%nat (pg_error "23505")).
  - reflexivity.
  - lia.
  - intros i Hi. exists (pg_error "40001").
    assert (i = 0)%nat as -> by lia. split; reflexivity.
  - reflexivity.
  - reflexivity.
Defined.

(** The claim as stated fails on the document backend: code 13435
    (NotPrimaryNoSecondaryOk) is not among the five codes the specification
    names, yet the classifier accepts it and the coordinator retries.  And
    a thrown [null], which neither classifier accepts, is not what the
    coordinators rethrow: both reject with the [TypeError] of reading its
    message. *)
Lemma retry_decided_by_classifier_counterexample :
  spec_document_retryable (mongo_error 13435) = false /\
  MongoAdapter.isTransientError (mongo_error 13435) = true /\
  sessions_started
    (tx_log (snd (MongoAdapter.withTransaction
                    (throws_until 1 (mongo_error 13435))
                    (with_retries 1) (mkTxWorld [] 0))))
  = [0; 1]%nat /\
  PostgresAdapter.isRetryableError (ThrownPrimitive SNull) = false /\
  MongoAdapter.isTransientError (ThrownPrimitive SNull) = false /\
  fst (PostgresAdapter.withTransaction (always_throws (ThrownPrimitive SNull))
         (with_retries 2) (mkTxWorld [] 0))
  = Throw message_of_null /\
  fst (MongoAdapter.withTransaction (always_throws (ThrownPrimitive SNull))
         (with_retries 2) (mkTxWorld [] 0))
  = Throw message_of_null /\
  message_of_null <> ThrownPrimitive SNull.
Proof. repeat split; try reflexivity. discriminate. Qed.

(* ================================================================== *)
(** * Repositories: capabilities and the empty bulk insert *)
(* ================================================================== *)

Lemma capabilities_by_flag {W : Type} (enabled : bool)
  (a : Id -> M W bool) (b : Filter -> M W Z)
  (c : Id -> M W (option Entity)) (d : Filter -> M W Z)
  (e f : option Filter -> M W (list Entity)) (r : Repo.Repository W) :
  Repo.softDelete r = (if enabled then Some a else None) ->
  Repo.softDeleteMany r = (if enabled then Some b else None) ->
  Repo.restore r = (if enabled then Some c else None) ->
  Repo.restoreMany r = (if enabled then Some d else None) ->
  Repo.findAllWithDeleted r = (if enabled then Some e else None) ->
  Repo.findDeleted r = (if enabled then Some f else None) ->
  (exposes_soft_delete r <-> enabled = true) /\
  (lacks_soft_delete r <-> enabled <> true).
Proof.
  unfold exposes_soft_delete, lacks_soft_delete.
  intros -> -> -> -> -> ->. destruct enabled.
  - split; split; try congruence.
    + intros _. repeat split; discriminate.
    + intros [H _]. discriminate.
  - split; split; try congruence.
    + intros [H _]. congruence.
    + intros _. repeat split.
Qed.

Lemma enabled_iff (flag : option bool) :
  or_default flag false = true <-> flag = Some true.
Proof.
  destruct flag as [[ | ] | ]; simpl; split; congruence.
Qed.

(** C6. On both backends the repository built by [createRepository] has
    the six soft-delete methods (softDelete, softDeleteMany, restore,
    restoreMany, findAllWithDeleted, findDeleted) exactly when the
    configuration sets [softDelete] to true, and otherwise all six
    properties are undefined. *)
Theorem soft_delete_methods_iff_enabled :
  (forall cfg : PostgresAdapter.PostgresEntityConfig,
      let repo := PostgresAdapter.createRepository cfg in
      (exposes_soft_delete repo
       <-> PostgresAdapter.cfg_softDelete cfg = Some true) /\
      (lacks_soft_delete repo
       <-> PostgresAdapter.cfg_softDelete cfg <> Some true)) /\
  (forall (W : Type) (opts : MongoAdapter.MongoRepositoryOptions W)
          (session : option nat),
      let repo := MongoAdapter.createRepository opts session in
      (exposes_soft_delete repo
       <-> MongoAdapter.opts_softDelete opts = Some true) /\
      (lacks_soft_delete repo
       <-> MongoAdapter.opts_softDelete opts <> Some true)).
Proof.
  split.
  - intros cfg repo.
    rewrite <- (enabled_iff (PostgresAdapter.cfg_softDelete cfg)).
    eapply (capabilities_by_flag (PostgresAdapter.softDeleteEnabled cfg));
      reflexivity.
  - intros W opts session repo.
    rewrite <- (enabled_iff (MongoAdapter.opts_softDelete opts)).
    eapply (capabilities_by_flag (MongoAdapter.softDeleteEnabled opts));
      reflexivity.
Qed.

(** With [softDelete: true] the relational repository has the methods;
    with the flag left out the document repository has none of them. *)
Lemma soft_delete_methods_iff_enabled_witness :
  exposes_soft_delete
    (PostgresAdapter.createRepository
       (pg_config None None (Some true) None None)) /\
  lacks_soft_delete
    (MongoAdapter.createRepository (mongo_options recording_model None) None).
Proof.
  destruct soft_delete_methods_iff_enabled as [Hpg Hmongo].
  split.
  - apply (Hpg (pg_config None None (Some true) None None)). reflexivity.
  - apply (Hmongo _ (mongo_options recording_model None) None). discriminate.
Defined.

(** C10. On both backends [insertMany] of the empty list resolves to the
    empty array and leaves the world as it found it: no query is run, no
    model method is called, the clock is not read. *)
Theorem insertMany_empty :
  (forall (cfg : PostgresAdapter.PostgresEntityConfig) (w : Db),
      PostgresAdapter.insertMany cfg [] w = (Ok [], w) /\
      Repo.insertMany (PostgresAdapter.createRepository cfg) [] w = (Ok [], w) /\
      ran (PostgresAdapter.insertMany cfg []) w = []) /\
  (forall (W : Type) (opts : MongoAdapter.MongoRepositoryOptions W)
          (session : option nat) (w : W),
      MongoAdapter.insertMany opts session [] w = (Ok [], w) /\
      Repo.insertMany (MongoAdapter.createRepository opts session) [] w
      = (Ok [], w)).
Proof.
  split.
  - intros cfg w. repeat split.
    unfold ran. simpl. rewrite skipn_all. reflexivity.
  - intros W opts session w. split; reflexivity.
Qed.

(* ================================================================== *)
(** * The filter compiler and the whitelist *)
(* ================================================================== *)

Section FilterCompiler.
Variable cfg : PostgresAdapter.PostgresEntityConfig.

Lemma chain_wheres (ws : list Where) :
  forall qb, fold_left (fun q w => and_where w q) ws qb = with_wheres ws qb.
Proof.
  induction ws as [ | w ws IH]; intros qb; simpl.
  - unfold with_wheres. rewrite app_nil_r. destruct qb; reflexivity.
  - rewrite IH. unfold with_wheres, and_where; simpl.
    rewrite <- app_assoc. reflexivity.
Qed.

Lemma with_wheres_app (ws1 ws2 : list Where) (qb : Query) :
  with_wheres ws2 (with_wheres ws1 qb) = with_wheres (ws1 ++ ws2) qb.
Proof.
  unfold with_wheres; simpl. rewrite app_assoc. reflexivity.
Qed.

Lemma with_wheres_nil (qb : Query) : with_wheres [] qb = qb.
Proof.
  unfold with_wheres. rewrite app_nil_r. destruct qb; reflexivity.
Qed.

Lemma assertFieldAllowed_spec (field : string) (w : Db) :
  PostgresAdapter.assertFieldAllowed cfg field w
  = if field_allowed cfg field then (Ok tt, w)
    else (Throw (PostgresAdapter.field_not_allowed cfg field), w).
Proof.
  unfold PostgresAdapter.assertFieldAllowed, field_allowed.
  destruct (Nat.eqb (List.length (PostgresAdapter.allowed cfg)) 0);
    destruct (includes field (PostgresAdapter.allowed cfg)); reflexivity.
Qed.

(** A filter whose keys all pass the whitelist compiles, entry by entry. *)
Lemma applyFilter_admitted (filter : Filter) :
  forall (qb : Query) (w : Db),
    admits cfg filter = true ->
    PostgresAdapter.applyFilter cfg qb filter w
    = (Ok (with_wheres (compile filter) qb), w).
Proof.
  unfold admits, compile.
  induction filter as [ | [key value] rest IH]; intros qb w Hok; simpl in *.
  - rewrite with_wheres_nil. reflexivity.
  - apply andb_true_iff in Hok as [Hkey Hrest].
    unfold bind. rewrite assertFieldAllowed_spec, Hkey.
    rewrite chain_wheres, IH by exact Hrest.
    rewrite with_wheres_app. reflexivity.
Qed.

(** A filter with a key outside the whitelist is refused at its first such
    key, and nothing else happens. *)
Lemma applyFilter_rejected (filter : Filter) :
  forall (qb : Query) (w : Db),
    admits cfg filter = false ->
    exists field,
      In field (keys filter) /\ field_allowed cfg field = false /\
      PostgresAdapter.applyFilter cfg qb filter w
      = (Throw (PostgresAdapter.field_not_allowed cfg field), w).
Proof.
  unfold admits.
  induction filter as [ | [key value] rest IH]; intros qb w Hbad; simpl in *.
  - discriminate.
  - unfold bind. rewrite assertFieldAllowed_spec.
    destruct (field_allowed cfg key) eqn:Hkey.
    + simpl in Hbad.
      destruct (IH (fold_left (fun q w0 => and_where w0 q)
                      (PostgresAdapter.clauses key value) qb) w Hbad)
        as [field [Hin [Hf Heq]]].
      exists field. auto.
    + exists key. auto.
Qed.

Lemma admits_In (filter : Filter) (k : string) :
  admits cfg filter = true -> In k (keys filter) -> field_allowed cfg k = true.
Proof.
  unfold admits. rewrite forallb_forall. auto.
Qed.

End FilterCompiler.

(** ** Keys of a literal are unique *)

Section LiteralKeys.
Context {V : Type}.
Implicit Types (o a b : obj V) (k : string).

Lemma NoDup_keys_set k (v : V) o :
  NoDup (keys o) -> NoDup (keys (obj_set k v o)).
Proof.
  intros Hnd. unfold obj_set. destruct (has_key k o) eqn:Hk.
  - rewrite keys_replace. exact Hnd.
  - unfold keys. rewrite map_app. simpl.
    apply NoDup_app; [exact Hnd | repeat constructor; intros [] | ].
    intros x Hx [<- | []].
    apply has_key_In in Hx. congruence.
Qed.

Lemma NoDup_keys_spread a b : NoDup (keys a) -> NoDup (keys (spread a b)).
Proof.
  unfold spread. revert a.
  induction b as [ | [k v] b IH]; intros a Ha; simpl; [exact Ha | ].
  apply IH, NoDup_keys_set, Ha.
Qed.

Lemma NoDup_keys_literal (parts : list (obj V)) :
  NoDup (keys (obj_literal parts)).
Proof.
  unfold obj_literal.
  assert (H : forall acc, NoDup (keys acc) ->
                          NoDup (keys (fold_left spread parts acc))).
  { induction parts as [ | p parts IH]; intros acc Hacc; simpl; [exact Hacc | ].
    apply IH, NoDup_keys_spread, Hacc. }
  apply H. constructor.
Qed.

(** With unique keys, an entry is what a lookup finds. *)
Lemma obj_get_entry k (v : V) o :
  NoDup (keys o) -> (In (k, v) o <-> obj_get k o = Some v).
Proof.
  induction o as [ | [k0 v0] o IH]; intros Hnd; simpl.
  - split; [intros [] | discriminate].
  - inversion Hnd as [ | ? ? Hnot Hnd']; subst.
    split.
    + intros [Heq | Hin].
      * inversion Heq; subst.
        destruct (obj_get k o) eqn:E.
        -- exfalso. apply Hnot. apply obj_get_In. eauto.
        -- rewrite String.eqb_refl. reflexivity.
      * apply IH in Hin; [ | exact Hnd']. rewrite Hin. reflexivity.
    + destruct (obj_get k o) eqn:E.
      * intros H; inversion H; subst. right. apply IH; assumption.
      * destruct (String.eqb_spec k k0); [ | discriminate].
        intros H; inversion H; subst. left. reflexivity.
Qed.

Lemma keys_literal_In k (parts : list (obj V)) :
  In k (keys (obj_literal parts)) <-> exists p, In p parts /\ In k (keys p).
Proof.
  unfold obj_literal.
  assert (H : forall acc,
             In k (keys (fold_left spread parts acc))
             <-> In k (keys acc) \/ exists p, In p parts /\ In k (keys p)).
  { induction parts as [ | p parts IH]; intros acc; simpl.
    - split; [auto | intros [Hk | [p [[] _]]]; exact Hk].
    - rewrite IH, keys_spread_In. split.
      + intros [[Hk | Hk] | [q [Hq Hk]]]; eauto.
      + intros [Hk | [q [[<- | Hq] Hk]]]; eauto. }
  rewrite H. simpl. split; [intros [[] | Hk]; exact Hk | auto].
Qed.

End LiteralKeys.

(* ================================================================== *)
(** * Filter merge precedence *)
(* ================================================================== *)

Lemma when_defined_column ops k clause key :
  (forall v, where_column (clause v) = key) ->
  Forall (fun w => where_column w = key)
    (PostgresAdapter.when_defined ops k clause).
Proof.
  intros H. unfold PostgresAdapter.when_defined.
  destruct (obj_get k ops); repeat constructor. apply H.
Qed.

Lemma when_truthy_column ops k clause key :
  (forall v, where_column (clause v) = key) ->
  Forall (fun w => where_column w = key)
    (PostgresAdapter.when_truthy ops k clause).
Proof.
  intros H. unfold PostgresAdapter.when_truthy.
  destruct (obj_get k ops) as [v | ]; [destruct (truthy v) | ];
    repeat constructor. apply H.
Qed.

Lemma when_true_column ops k clause key :
  where_column clause = key ->
  Forall (fun w => where_column w = key)
    (PostgresAdapter.when_true ops k clause).
Proof.
  intros H. unfold PostgresAdapter.when_true.
  destruct (obj_get k ops) as [[[ | [ | ] | | | ] | ] | ];
    repeat constructor. exact H.
Qed.

(** Every clause compiled for an entry constrains the entry's own key. *)
Lemma clauses_column (key : string) (value : Value) :
  Forall (fun w => where_column w = key) (PostgresAdapter.clauses key value).
Proof.
  unfold PostgresAdapter.clauses.
  destruct (PostgresAdapter.operator_object value) as [ops | ].
  - repeat (apply Forall_app; split);
      first [ apply when_defined_column; reflexivity
            | apply when_truthy_column; reflexivity
            | apply when_true_column; reflexivity ].
  - destruct value; repeat constructor.
Qed.

Lemma on_column_all (key : string) (ws : list Where) :
  Forall (fun w => where_column w = key) ws -> on_column key ws = ws.
Proof.
  unfold on_column. induction 1 as [ | w ws Hw _ IH]; simpl; [reflexivity | ].
  rewrite Hw, String.eqb_refl, IH. reflexivity.
Qed.

Lemma on_column_none (key k : string) (ws : list Where) :
  k <> key ->
  Forall (fun w => where_column w = key) ws -> on_column k ws = [].
Proof.
  unfold on_column. intros Hne.
  induction 1 as [ | w ws Hw _ IH]; simpl; [reflexivity | ].
  rewrite Hw. destruct (String.eqb_spec key k); [congruence | exact IH].
Qed.

Lemma on_column_app (k : string) (ws1 ws2 : list Where) :
  on_column k (ws1 ++ ws2) = on_column k ws1 ++ on_column k ws2.
Proof. unfold on_column. apply filter_app. Qed.

Lemma on_column_absent (k : string) (o : Filter) :
  ~ In k (keys o) -> on_column k (compile o) = [].
Proof.
  induction o as [ | [k0 v0] o IH]; intros Hnot; simpl; [reflexivity | ].
  rewrite on_column_app.
  rewrite (on_column_none k0) by
    (try apply clauses_column; intros ->; apply Hnot; left; reflexivity).
  apply IH. intros Hin. apply Hnot. right. exact Hin.
Qed.

(** In a compiled literal, the clauses on a key are those of the value the
    literal holds for it. *)
Lemma on_column_compile (k : string) (v : Value) (o : Filter) :
  NoDup (keys o) -> obj_get k o = Some v ->
  on_column k (compile o) = PostgresAdapter.clauses k v.
Proof.
  intros Hnd Hget. apply obj_get_entry in Hget; [ | exact Hnd].
  induction o as [ | [k0 v0] o IH]; simpl in *; [contradiction | ].
  inversion Hnd as [ | ? ? Hnot Hnd']; subst.
  rewrite on_column_app. destruct Hget as [Heq | Hin].
  - inversion Heq; subst.
    rewrite on_column_all by apply clauses_column.
    rewrite on_column_absent by exact Hnot. apply app_nil_r.
  - assert (k <> k0).
    { intros ->. apply Hnot. apply (in_map fst) in Hin. exact Hin. }
    rewrite (on_column_none k0) by (try apply clauses_column; assumption).
    apply IH; assumption.
Qed.

Lemma skipn_past {A : Type} (l1 l2 : list A) :
  skipn (List.length l1) (l1 ++ l2) = l2.
Proof.
  induction l1 as [ | x l1 IH]; simpl; [reflexivity | exact IH].
Qed.

Lemma queries_app (l1 l2 : list DbEvent) :
  queries (l1 ++ l2) = queries l1 ++ queries l2.
Proof.
  induction l1 as [ | e l1 IH]; simpl; [reflexivity | ].
  destruct e; simpl; rewrite ?IH; reflexivity.
Qed.

(** Whatever its verb, running a builder logs it and nothing else. *)
Lemma execute_log (q : Query) (w : Db) :
  db_log (snd (execute q w)) = db_log w ++ [Executed q].
Proof. unfold execute. destruct (q_verb q); reflexivity. Qed.

Lemma execute_now (q : Query) (w : Db) :
  db_now (snd (execute q w)) = db_now w.
Proof. unfold execute. destruct (q_verb q); reflexivity. Qed.

Lemma execute_ok (q : Query) (w : Db) : exists r, fst (execute q w) = Ok r.
Proof. unfold execute. destruct (q_verb q); simpl; eauto. Qed.

Section RelationalReads.
Variable cfg : PostgresAdapter.PostgresEntityConfig.
Variable caller : Filter.
Variable w : Db.

Let effective : Filter := pg_effective cfg caller.
Hypothesis admitted : admits cfg effective = true.

Ltac run_read :=
  let A := fresh "A" in
  pose proof admitted as A; unfold effective, pg_effective in A;
  unfold ran, PostgresAdapter.findAll, PostgresAdapter.findOne,
    PostgresAdapter.count, PostgresAdapter.exists_, PostgresAdapter.select,
    PostgresAdapter.distinct;
  cbv zeta; cbn [or_default]; unfold bind;
  rewrite (applyFilter_admitted cfg _ _ _ A);
  unfold execute, ret, with_wheres, with_verb, kx; simpl;
  rewrite skipn_past; reflexivity.

Lemma findAll_predicate :
  map q_where (ran (PostgresAdapter.findAll cfg (Some caller)) w)
  = [compile effective].
Proof. run_read. Qed.

Lemma findOne_predicate :
  map q_where (ran (PostgresAdapter.findOne cfg caller) w)
  = [compile effective].
Proof. run_read. Qed.

Lemma count_predicate :
  map q_where (ran (PostgresAdapter.count cfg (Some caller)) w)
  = [compile effective].
Proof. run_read. Qed.

Lemma exists_predicate :
  map q_where (ran (PostgresAdapter.exists_ cfg (Some caller)) w)
  = [compile effective].
Proof. run_read. Qed.

Lemma select_predicate (fields : list string) :
  map q_where (ran (PostgresAdapter.select cfg caller fields) w)
  = [compile effective].
Proof. run_read. Qed.

Lemma distinct_predicate (field : string) :
  map q_where (ran (PostgresAdapter.distinct cfg field (Some caller)) w)
  = [compile effective].
Proof. run_read. Qed.

Lemma sort_parts_where (parts : list string) :
  forall qb w0,
    exists r,
      PostgresAdapter.sort_parts cfg qb parts w0 = (r, w0) /\
      forall qb', r = Ok qb' -> q_where qb' = q_where qb.
Proof.
  induction parts as [ | p parts IH]; intros qb w0; simpl.
  - eexists. split; [reflexivity | ]. intros qb' H. inversion H. reflexivity.
  - unfold bind. rewrite assertFieldAllowed_spec.
    destruct (field_allowed cfg (PostgresAdapter.strip_sign p)).
    + destruct (IH (orderBy (PostgresAdapter.strip_sign p)
                      (if PostgresAdapter.startsWith "-"%char p
                       then Desc else Asc) qb) w0) as [r [Hr Hw]].
      exists r. split; [exact Hr | ]. intros qb' H. rewrite (Hw qb' H).
      reflexivity.
    + eexists. split; [reflexivity | ]. intros qb' H. discriminate.
Qed.

Lemma sort_entries_where (entries : list (string * Value)) :
  forall qb w0,
    exists r,
      PostgresAdapter.sort_entries cfg qb entries w0 = (r, w0) /\
      forall qb', r = Ok qb' -> q_where qb' = q_where qb.
Proof.
  induction entries as [ | [col dir] entries IH]; intros qb w0; simpl.
  - eexists. split; [reflexivity | ]. intros qb' H. inversion H. reflexivity.
  - unfold bind. rewrite assertFieldAllowed_spec.
    destruct (field_allowed cfg col).
    + destruct (IH (orderBy col (PostgresAdapter.direction_of dir) qb) w0)
        as [r [Hr Hw]].
      exists r. split; [exact Hr | ]. intros qb' H. rewrite (Hw qb' H).
      reflexivity.
    + eexists. split; [reflexivity | ]. intros qb' H. discriminate.
Qed.

(** Sorting adds no clause and touches nothing. *)
Lemma applySort_where (sort : option SortSpec) (qb : Query) (w0 : Db) :
  exists r,
    PostgresAdapter.applySort cfg qb sort w0 = (r, w0) /\
    forall qb', r = Ok qb' -> q_where qb' = q_where qb.
Proof.
  unfold PostgresAdapter.applySort.
  destruct sort as [[s | o] | ].
  - destruct (String.eqb s EmptyString).
    + eexists. split; [reflexivity | ]. intros qb' H. inversion H.
      reflexivity.
    + apply sort_parts_where.
  - apply sort_entries_where.
  - eexists. split; [reflexivity | ]. intros qb' H. inversion H. reflexivity.
Qed.

Lemma findPage_every_query (page limit : option Z) (sort : option SortSpec) :
  Forall (fun q => q_where q = compile effective)
    (ran (PostgresAdapter.findPage cfg
            (Some (mkPageOptions (Some caller) page limit sort))) w).
Proof.
  unfold ran, PostgresAdapter.findPage.
  pose proof admitted as A. unfold effective, pg_effective in A.
  cbv zeta. cbn [or_default po_filter po_page po_limit po_sort].
  unfold bind.
  rewrite (applyFilter_admitted cfg _ _ _ A).
  match goal with
  | |- context [PostgresAdapter.applySort cfg ?qb sort w] =>
      destruct (applySort_where sort qb w) as [r [Hsort Hwhere]];
      rewrite Hsort
  end.
  destruct r as [sorted | e].
  - specialize (Hwhere sorted eq_refl).
    match goal with
    | |- context [execute ?q w] =>
        destruct (execute q w) as [r1 w1] eqn:E1;
        pose proof (execute_log q w) as L1; rewrite E1 in L1; simpl in L1;
        destruct (execute_ok q w) as [x1 X1]; rewrite E1 in X1; simpl in X1;
        subst r1
    end.
    rewrite (applyFilter_admitted cfg _ _ _ A).
    match goal with
    | |- context [execute ?q w1] =>
        destruct (execute q w1) as [r2 w2] eqn:E2;
        pose proof (execute_log q w1) as L2; rewrite E2 in L2; simpl in L2;
        destruct (execute_ok q w1) as [x2 X2]; rewrite E2 in X2; simpl in X2;
        subst r2
    end.
    simpl. rewrite L2, L1, <- app_assoc, skipn_past. simpl.
    repeat constructor; simpl; rewrite ?Hwhere; reflexivity.
  - simpl. rewrite skipn_all. constructor.
Qed.

End RelationalReads.

(** C1 (amended).  Relational backend: the seven read operations that take
    a caller filter run on the predicate compiled from
    [{ ...baseFilter, ...notDeletedFilter, ...filter }]; a key of the
    caller's filter has the caller's value there, and the clauses on that
    column are those of the caller's value (every statement findPage
    sends is on that predicate, whatever the page, the limit and the
    sort); a key the caller leaves out has the not-deleted value, else the
    default value.  Document backend:
    the seven operations hand the model [{ ...filter, ...notDeletedFilter }];
    there is no default filter, the not-deleted entry wins on the
    soft-delete field, and the caller's value applies on every other
    key. *)
Theorem caller_filter_precedence :
  (forall cfg caller k v,
      obj_get k caller = Some v ->
      obj_get k (pg_effective cfg caller) = Some v /\
      on_column k (compile (pg_effective cfg caller))
      = PostgresAdapter.clauses k v) /\
  (forall cfg caller k,
      obj_get k caller = None ->
      obj_get k (pg_effective cfg caller)
      = match obj_get k (PostgresAdapter.notDeletedFilter cfg) with
        | Some v => Some v
        | None => obj_get k (PostgresAdapter.baseFilter cfg)
        end) /\
  (forall cfg caller w,
      admits cfg (pg_effective cfg caller) = true ->
      let predicate := compile (pg_effective cfg caller) in
      map q_where (ran (PostgresAdapter.findAll cfg (Some caller)) w)
      = [predicate] /\
      map q_where (ran (PostgresAdapter.findOne cfg caller) w)
      = [predicate] /\
      (forall page limit sort,
          Forall (fun q => q_where q = predicate)
            (ran (PostgresAdapter.findPage cfg
                    (Some (mkPageOptions (Some caller) page limit sort))) w)) /\
      map q_where (ran (PostgresAdapter.count cfg (Some caller)) w)
      = [predicate] /\
      map q_where (ran (PostgresAdapter.exists_ cfg (Some caller)) w)
      = [predicate] /\
      (forall fields,
          map q_where (ran (PostgresAdapter.select cfg caller fields) w)
          = [predicate]) /\
      (forall field,
          map q_where
            (ran (PostgresAdapter.distinct cfg field (Some caller)) w)
          = [predicate])) /\
  (forall (W : Type) (opts : MongoAdapter.MongoRepositoryOptions W)
          (session : option nat) (caller : Filter),
      let merged := mongo_effective opts caller in
      let model := MongoAdapter.opts_model opts in
      MongoAdapter.findAll opts session (Some caller)
      = MongoAdapter.model_find model merged MongoAdapter.no_options session /\
      MongoAdapter.findOne opts session caller
      = MongoAdapter.model_findOne model merged MongoAdapter.no_options
          session /\
      (forall page limit sort,
          exists window,
            MongoAdapter.findPage opts session
              (Some (mkPageOptions (Some caller) page limit sort))
            = (data <- MongoAdapter.model_find model merged window session ;;
               total <- MongoAdapter.model_countDocuments model merged
                          session ;;
               ret (shapePage data (or_default page 1) (or_default limit 10)
                      total))%effect) /\
      MongoAdapter.count opts session (Some caller)
      = MongoAdapter.model_countDocuments model merged session /\
      MongoAdapter.exists_ opts None (Some caller)
      = MongoAdapter.model_exists model merged /\
      (forall s,
          MongoAdapter.exists_ opts (Some s) (Some caller)
          = (doc <- MongoAdapter.model_findOne model merged
                      (MongoAdapter.mkFindOptions None None None
                         (Some [("_id", lit (SNum 1))])) (Some s) ;;
             ret (match doc with Some _ => true | None => false end))%effect) /\
      (forall fields,
          exists projection,
            MongoAdapter.select opts session caller fields
            = MongoAdapter.model_find model merged
                (MongoAdapter.mkFindOptions None None None (Some projection))
                session) /\
      (forall field,
          MongoAdapter.distinct opts session field (Some caller)
          = MongoAdapter.model_distinct model field merged session)) /\
  (forall (W : Type) (opts : MongoAdapter.MongoRepositoryOptions W)
          (caller : Filter) (k : string),
      obj_get k (mongo_effective opts caller)
      = match obj_get k (MongoAdapter.notDeletedFilter opts) with
        | Some v => Some v
        | None => obj_get k caller
        end) /\
  (forall (W : Type) (opts : MongoAdapter.MongoRepositoryOptions W)
          (caller : Filter) (k : string) (v : Value),
      obj_get k caller = Some v ->
      MongoAdapter.softDeleteEnabled opts = false
      \/ k <> MongoAdapter.softDeleteField opts ->
      obj_get k (mongo_effective opts caller) = Some v).
Proof.
  split.
  { intros cfg caller k v Hk.
    assert (Hget : obj_get k (pg_effective cfg caller) = Some v).
    { unfold pg_effective. rewrite obj_get_literal3, Hk. reflexivity. }
    split; [exact Hget | ].
    apply on_column_compile; [apply NoDup_keys_literal | exact Hget]. }
  split.
  { intros cfg caller k Hk. unfold pg_effective.
    rewrite obj_get_literal3, Hk. reflexivity. }
  split.
  { intros cfg caller w Hok predicate. unfold predicate.
    split; [apply findAll_predicate, Hok | ].
    split; [apply findOne_predicate, Hok | ].
    split; [intros; apply findPage_every_query, Hok | ].
    split; [apply count_predicate, Hok | ].
    split; [apply exists_predicate, Hok | ].
    split; [intros; apply select_predicate, Hok | ].
    intros; apply distinct_predicate, Hok. }
  split.
  { intros W opts session caller merged model.
    repeat split; try reflexivity.
    - intros page limit sort. eexists. reflexivity.
    - intros fields. eexists. reflexivity. }
  split.
  { intros W opts caller k. unfold mongo_effective.
    apply obj_get_literal2. }
  intros W opts caller k v Hk Hother. unfold mongo_effective.
  rewrite obj_get_literal2, Hk. unfold MongoAdapter.notDeletedFilter.
  destruct (MongoAdapter.softDeleteEnabled opts); [ | reflexivity].
  destruct Hother as [Hoff | Hne]; [discriminate | ].
  simpl. destruct (String.eqb_spec k (MongoAdapter.softDeleteField opts));
    [contradiction | reflexivity].
Qed.

(** A default filter [{ status: 'active' }] and a caller asking for
    [{ status: 'archived' }]: the relational reads compare the column with
    'archived'. *)
Lemma caller_filter_precedence_witness :
  let cfg := pg_config None (Some (status_is "active")) (Some true) None None in
  obj_get "status" (pg_effective cfg (status_is "archived"))
  = Some (lit (SStr "archived")) /\
  on_column "status" (compile (pg_effective cfg (status_is "archived")))
  = [WhereEq "status" (JScalar (SStr "archived"))].
Proof.
  destruct caller_filter_precedence as [H _].
  apply (H (pg_config None (Some (status_is "active")) (Some true) None None)
           (status_is "archived") "status" (lit (SStr "archived"))).
  reflexivity.
Defined.

(** The claim as stated fails on the document backend: with soft delete
    enabled, a caller filter on the soft-delete field is overridden by the
    not-deleted entry, which is merged after it. *)
Lemma caller_filter_precedence_counterexample :
  let opts := mongo_options recording_model (Some true) in
  obj_get "deletedAt" only_deleted = Some (Obj [("$ne", JScalar SNull)]) /\
  snd (MongoAdapter.findAll opts None (Some only_deleted) [])
  = [CallFind [("deletedAt", Obj [("$eq", JScalar SNull)])]] /\
  snd (MongoAdapter.count opts None (Some only_deleted) [])
  = [CallCount [("deletedAt", Obj [("$eq", JScalar SNull)])]].
Proof. repeat split; reflexivity. Qed.

(* ================================================================== *)
(** * The soft-delete field and the whitelist *)
(* ================================================================== *)

Lemma includes_In (x : string) (l : list string) :
  includes x l = true <-> In x l.
Proof.
  unfold includes. rewrite existsb_exists. split.
  - intros [y [Hin Heq]]. apply String.eqb_eq in Heq. subst. exact Hin.
  - intros Hin. exists x. split; [exact Hin | apply String.eqb_refl].
Qed.

Lemma ran_unchanged {A : Type} (call : M Db A) (w : Db) :
  db_log (snd (call w)) = db_log w -> ran call w = [].
Proof.
  intros H. unfold ran. rewrite H, skipn_all. reflexivity.
Qed.

Lemma ran_hooks_only {A : Type} (call : M Db A) (w : Db) (l : list DbEvent) :
  db_log (snd (call w)) = db_log w ++ l -> queries l = [] -> ran call w = [].
Proof.
  intros H Hl. unfold ran. rewrite H, skipn_past. exact Hl.
Qed.

Section Whitelist.
Variable cfg : PostgresAdapter.PostgresEntityConfig.
Hypothesis enabled : PostgresAdapter.softDeleteEnabled cfg = true.
Hypothesis restricted : PostgresAdapter.allowed cfg <> [].
Hypothesis left_out :
  ~ In (PostgresAdapter.softDeleteField cfg) (PostgresAdapter.allowed cfg).

Lemma soft_delete_field_not_allowed :
  field_allowed cfg (PostgresAdapter.softDeleteField cfg) = false.
Proof.
  unfold field_allowed. apply orb_false_iff. split.
  - destruct (PostgresAdapter.allowed cfg); [congruence | reflexivity].
  - destruct (includes _ _) eqn:E; [ | reflexivity].
    apply includes_In in E. contradiction.
Qed.

Lemma not_admitted (merged : Filter) :
  In (PostgresAdapter.softDeleteField cfg) (keys merged) ->
  admits cfg merged = false.
Proof.
  intros Hin. destruct (admits cfg merged) eqn:E; [ | reflexivity].
  pose proof soft_delete_field_not_allowed as Hno.
  rewrite (admits_In cfg merged _ E Hin) in Hno. discriminate.
Qed.

Lemma not_deleted_key :
  In (PostgresAdapter.softDeleteField cfg)
     (keys (PostgresAdapter.notDeletedFilter cfg)).
Proof.
  unfold PostgresAdapter.notDeletedFilter. rewrite enabled. left. reflexivity.
Qed.

Lemma deleted_key :
  In (PostgresAdapter.softDeleteField cfg)
     (keys (PostgresAdapter.deletedFilter cfg)).
Proof. left. reflexivity. Qed.

Lemma effective_not_admitted (caller : Filter) :
  admits cfg (pg_effective cfg caller) = false.
Proof.
  apply not_admitted, keys_literal_In.
  exists (PostgresAdapter.notDeletedFilter cfg). split.
  - right; left; reflexivity.
  - apply not_deleted_key.
Qed.

Lemma effective_id_not_admitted : admits cfg (pg_effective_id cfg) = false.
Proof.
  apply not_admitted, keys_literal_In.
  exists (PostgresAdapter.notDeletedFilter cfg). split.
  - right; left; reflexivity.
  - apply not_deleted_key.
Qed.

Lemma deleted_not_admitted (caller : Filter) :
  admits cfg (pg_deleted cfg caller) = false.
Proof.
  apply not_admitted, keys_literal_In.
  exists (PostgresAdapter.deletedFilter cfg). split.
  - right; left; reflexivity.
  - apply deleted_key.
Qed.

Lemma deleted_id_not_admitted : admits cfg (pg_deleted_id cfg) = false.
Proof.
  apply not_admitted, keys_literal_In.
  exists (PostgresAdapter.deletedFilter cfg). split.
  - right; left; reflexivity.
  - apply deleted_key.
Qed.

(** A call that starts by compiling a refused filter is refused. *)
Lemma refused_at_filter {A : Type} (merged : Filter) (qb : Query)
  (k : Query -> M Db A) (w : Db) :
  admits cfg merged = false ->
  refused cfg merged (bind (PostgresAdapter.applyFilter cfg qb merged) k) w.
Proof.
  intros Hbad.
  destruct (applyFilter_rejected cfg merged qb w Hbad)
    as [field [Hin [Hf Heq]]].
  unfold refused, bind. rewrite Heq. cbn [fst snd]. split.
  - exists field. auto.
  - split; [ | reflexivity].
    exists []. rewrite app_nil_r. split; reflexivity.
Qed.

(** The same after a step that resolves and only adds hook calls to the
    log. *)
Lemma refused_after {A B : Type} (merged : Filter) (first : M Db B)
  (next : B -> M Db A) (w : Db) (b : B) (l : list DbEvent) :
  first w = (Ok b, mkDb (db_rows w) (db_now w) (db_log w ++ l)) ->
  queries l = [] ->
  (forall w', refused cfg merged (next b) w') ->
  refused cfg merged (bind first next) w.
Proof.
  intros Hfirst Hl Hnext.
  destruct (Hnext (mkDb (db_rows w) (db_now w) (db_log w ++ l)))
    as [[field [Hin [Hf Heq]]] [[l' [Hlog Hq]] Hrows]].
  unfold refused, bind. rewrite Hfirst. split.
  - exists field. auto.
  - split; [ | exact Hrows].
    exists (l ++ l'). rewrite Hlog. cbn [db_log].
    rewrite app_assoc, queries_app, Hl, Hq. split; reflexivity.
Qed.

Lemma refused_after_pure {A B : Type} (merged : Filter) (first : M Db B)
  (next : B -> M Db A) (w : Db) (b : B) :
  first w = (Ok b, w) ->
  (forall w', refused cfg merged (next b) w') ->
  refused cfg merged (bind first next) w.
Proof.
  intros Hfirst Hnext.
  apply (refused_after merged first next w b []); auto.
  rewrite app_nil_r. destruct w; exact Hfirst.
Qed.

(** Stamping a payload resolves and changes nothing. *)
Lemma addUpdatedAt_pure (data : Payload) (w : Db) :
  exists p, PostgresAdapter.addUpdatedAt cfg data w = (Ok p, w).
Proof.
  unfold PostgresAdapter.addUpdatedAt.
  destruct (PostgresAdapter.timestampsEnabled cfg); eexists; reflexivity.
Qed.

Lemma runBeforeUpdate_resolves (update : Payload) (w : Db) :
  before_update_resolves cfg update ->
  exists p l,
    PostgresAdapter.runBeforeUpdate cfg update w
    = (Ok p, mkDb (db_rows w) (db_now w) (db_log w ++ l)) /\
    queries l = [].
Proof.
  unfold before_update_resolves, PostgresAdapter.runBeforeUpdate.
  destruct (PostgresAdapter.hook cfg beforeUpdate) as [h | ].
  - intros [p Hp]. unfold bind, record_event, lift, ret. cbn. rewrite Hp.
    eexists; eexists. split; reflexivity.
  - intros _. exists update, []. rewrite app_nil_r.
    destruct w; split; reflexivity.
Qed.

Lemma runBeforeDelete_resolves (id : Id) (w : Db) :
  before_delete_resolves cfg id ->
  exists l,
    PostgresAdapter.runBeforeDelete cfg id w
    = (Ok tt, mkDb (db_rows w) (db_now w) (db_log w ++ l)) /\
    queries l = [].
Proof.
  unfold before_delete_resolves, PostgresAdapter.runBeforeDelete.
  destruct (PostgresAdapter.hook cfg beforeDelete) as [h | ].
  - intros Hp. unfold bind, record_event, lift, ret. cbn. rewrite Hp.
    eexists. split; reflexivity.
  - intros _. exists []. rewrite app_nil_r.
    destruct w; split; reflexivity.
Qed.

End Whitelist.

Lemma refused_then {A B : Type} cfg (merged : Filter) (call : M Db A)
  (k : A -> M Db B) (w : Db) :
  refused cfg merged call w -> refused cfg merged (bind call k) w.
Proof.
  intros [[field [Hin [Hf Heq]]] [Hlog Hrows]].
  unfold refused, bind. destruct (call w) as [r w'] eqn:E.
  cbn [fst snd] in *. subst r. cbn [fst snd]. split; [ | split; assumption].
  exists field. auto.
Qed.

Lemma refused_runs_nothing {A : Type} cfg (merged : Filter) (call : M Db A)
  (w : Db) :
  refused cfg merged call w -> ran call w = [].
Proof.
  intros [_ [[l [Hlog Hq]] _]]. eapply ran_hooks_only; eassumption.
Qed.

(** C9 (amended).  On the relational backend, when soft delete is enabled
    and the column whitelist is non-empty and does not contain the
    soft-delete field, every operation that merges the not-deleted filter
    rejects with the field-not-allowed error of a key outside the
    whitelist, before any query runs and without touching the table: the
    reads (findById, findOne, findAll, findPage, count, exists, select,
    distinct), the bulk writes (updateMany, deleteMany, softDeleteMany),
    softDelete and upsert, and updateById and deleteById once their
    before-hook has resolved (a before-hook that rejects runs first, and
    its error is what they throw).  The key is the soft-delete field itself
    when the default and the caller filters pass the whitelist. *)
Theorem soft_delete_field_outside_whitelist :
  forall (cfg : PostgresAdapter.PostgresEntityConfig) (w : Db),
    PostgresAdapter.softDeleteEnabled cfg = true ->
    PostgresAdapter.allowed cfg <> [] ->
    ~ In (PostgresAdapter.softDeleteField cfg) (PostgresAdapter.allowed cfg) ->
    (forall id,
        refused cfg (pg_effective_id cfg) (PostgresAdapter.findById cfg id) w) /\
    (forall f,
        refused cfg (pg_effective cfg f) (PostgresAdapter.findOne cfg f) w) /\
    (forall f,
        refused cfg (pg_effective cfg (or_default f []))
          (PostgresAdapter.findAll cfg f) w) /\
    (forall options,
        refused cfg (pg_effective cfg (page_filter options))
          (PostgresAdapter.findPage cfg options) w) /\
    (forall f,
        refused cfg (pg_effective cfg (or_default f []))
          (PostgresAdapter.count cfg f) w) /\
    (forall f,
        refused cfg (pg_effective cfg (or_default f []))
          (PostgresAdapter.exists_ cfg f) w) /\
    (forall f fields,
        refused cfg (pg_effective cfg f)
          (PostgresAdapter.select cfg f fields) w) /\
    (forall field f,
        refused cfg (pg_effective cfg (or_default f []))
          (PostgresAdapter.distinct cfg field f) w) /\
    (forall id update,
        before_update_resolves cfg update ->
        refused cfg (pg_effective_id cfg)
          (PostgresAdapter.updateById cfg id update) w) /\
    (forall id,
        before_delete_resolves cfg id ->
        refused cfg (pg_effective_id cfg)
          (PostgresAdapter.deleteById cfg id) w) /\
    (forall f update,
        refused cfg (pg_effective cfg f)
          (PostgresAdapter.updateMany cfg f update) w) /\
    (forall f,
        refused cfg (pg_effective cfg f) (PostgresAdapter.deleteMany cfg f) w) /\
    (forall id,
        refused cfg (pg_effective_id cfg) (PostgresAdapter.softDelete cfg id) w) /\
    (forall f,
        refused cfg (pg_effective cfg f)
          (PostgresAdapter.softDeleteMany cfg f) w) /\
    (forall f data,
        refused cfg (pg_effective cfg f) (PostgresAdapter.upsert cfg f data) w) /\
    (forall (A : Type) (merged : Filter) (call : M Db A),
        refused cfg merged call w -> ran call w = []) /\
    (forall caller field,
        admits cfg (PostgresAdapter.baseFilter cfg) = true ->
        admits cfg caller = true ->
        In field (keys (pg_effective cfg caller)) ->
        field_allowed cfg field = false ->
        field = PostgresAdapter.softDeleteField cfg) /\
    (forall id update e,
        before_update_output cfg update = Throw e ->
        fst (PostgresAdapter.updateById cfg id update w) = Throw e) /\
    (forall id e,
        before_delete_output cfg id = Throw e ->
        fst (PostgresAdapter.deleteById cfg id w) = Throw e).
Proof.
  intros cfg w Hon Hsome Hout.
  pose proof (effective_not_admitted cfg Hon Hsome Hout) as Bad.
  pose proof (effective_id_not_admitted cfg Hon Hsome Hout) as BadId.
  split. { intros id. apply refused_at_filter, BadId. }
  split. { intros f. apply refused_at_filter, Bad. }
  split. { intros f. apply refused_at_filter, Bad. }
  split. { intros options. apply refused_at_filter, Bad. }
  split. { intros f. apply refused_at_filter, Bad. }
  split. { intros f. apply refused_at_filter, Bad. }
  split. { intros f fields. apply refused_at_filter, Bad. }
  split. { intros field f. apply refused_at_filter, Bad. }
  split.
  { intros id update Hhook.
    destruct (runBeforeUpdate_resolves cfg update w Hhook)
      as [p [l [Hrun Hl]]].
    unfold PostgresAdapter.updateById.
    eapply refused_after; [exact Hrun | exact Hl | ].
    intros w1. destruct (addUpdatedAt_pure cfg p w1) as [p' Hstamp].
    eapply refused_after_pure; [exact Hstamp | ].
    intros w2. apply refused_at_filter, BadId. }
  split.
  { intros id Hhook.
    destruct (runBeforeDelete_resolves cfg id w Hhook) as [l [Hrun Hl]].
    unfold PostgresAdapter.deleteById.
    eapply refused_after; [exact Hrun | exact Hl | ].
    intros w1. cbv zeta. rewrite Hon.
    apply refused_then. apply refused_at_filter, BadId. }
  split.
  { intros f update. unfold PostgresAdapter.updateMany. cbv zeta.
    destruct (addUpdatedAt_pure cfg update w) as [p Hstamp].
    eapply refused_after_pure; [exact Hstamp | ].
    intros w1. apply refused_at_filter, Bad. }
  split.
  { intros f. unfold PostgresAdapter.deleteMany. cbv zeta. rewrite Hon.
    apply refused_at_filter, Bad. }
  split. { intros id. apply refused_at_filter, BadId. }
  split. { intros f. apply refused_at_filter, Bad. }
  split. { intros f data. apply refused_at_filter, Bad. }
  split. { intros A merged call. apply refused_runs_nothing. }
  split.
  { intros caller field Hbase Hcaller Hin Hno.
    apply keys_literal_In in Hin as [p [Hp Hk]].
    destruct Hp as [<- | [<- | [<- | []]]].
    - rewrite (admits_In cfg _ _ Hbase Hk) in Hno. discriminate.
    - unfold PostgresAdapter.notDeletedFilter in Hk. rewrite Hon in Hk.
      destruct Hk as [<- | []]. reflexivity.
    - rewrite (admits_In cfg _ _ Hcaller Hk) in Hno. discriminate. }
  split.
  { intros id update e Hhook.
    unfold PostgresAdapter.updateById, PostgresAdapter.runBeforeUpdate.
    unfold before_update_output in Hhook.
    destruct (PostgresAdapter.hook cfg beforeUpdate) as [h | ];
      [ | discriminate].
    unfold bind, record_event, lift. cbn [fst snd].
    destruct (h (mkHookContext update OpUpdate false)) as [p | e'];
      [discriminate | ].
    injection Hhook as <-. reflexivity. }
  intros id e Hhook.
  unfold PostgresAdapter.deleteById, PostgresAdapter.runBeforeDelete.
  unfold before_delete_output in Hhook.
  destruct (PostgresAdapter.hook cfg beforeDelete) as [h | ];
    [ | discriminate].
  unfold bind, record_event, lift. cbn [fst snd]. rewrite Hhook.
  reflexivity.
Qed.

(** A table whose whitelist is [id, name, email] with soft delete enabled:
    [findAll()] is refused on the default field [deleted_at]. *)
Lemma soft_delete_field_outside_whitelist_witness :
  let cfg := pg_config (Some ["id"; "name"; "email"]) None (Some true) None
               None in
  refused cfg (pg_effective cfg []) (PostgresAdapter.findAll cfg None)
    empty_db.
Proof.
  intros cfg.
  destruct (soft_delete_field_outside_whitelist cfg empty_db) as [_ [_ [H _]]].
  - reflexivity.
  - discriminate.
  - simpl. intros [H | [H | [H | []]]]; discriminate.
  - exact (H None).
Defined.

(** The claim as stated fails for [updateById] and [deleteById]: their
    before-hook runs before the filter is applied, so when it rejects they
    throw the hook's error, not the field-not-allowed error. *)
Lemma soft_delete_field_outside_whitelist_counterexample :
  let cfg := unlisted_config (Some vetoing_hooks) in
  PostgresAdapter.softDeleteEnabled cfg = true /\
  PostgresAdapter.allowed cfg = ["id"; "name"; "email"] /\
  PostgresAdapter.softDeleteField cfg = "deleted_at" /\
  fst (PostgresAdapter.updateById cfg (IdNum 1) ann one_user)
  = Throw refusal /\
  fst (PostgresAdapter.deleteById cfg (IdNum 1) one_user) = Throw refusal /\
  refusal <> PostgresAdapter.field_not_allowed cfg "deleted_at".
Proof. repeat split; try reflexivity. discriminate. Qed.

Example findAll_refused_example :
  fst (PostgresAdapter.findAll
         (pg_config (Some ["id"; "name"; "email"]) None (Some true) None None)
         None empty_db)
  = Throw (PostgresAdapter.field_not_allowed
             (pg_config (Some ["id"; "name"; "email"]) None (Some true) None
                None) "deleted_at").
Proof. reflexivity. Qed.

(* ================================================================== *)
(** * Create: hook first, timestamp overlay second *)
(* ================================================================== *)

Lemma logged_eq {A : Type} (call : M Db A) (w : Db) (l : list DbEvent) :
  db_log (snd (call w)) = db_log w ++ l -> logged call w = l.
Proof. intros H. unfold logged. rewrite H. apply skipn_past. Qed.

Lemma ran_eq {A : Type} (call : M Db A) (w : Db) (l : list DbEvent) :
  db_log (snd (call w)) = db_log w ++ l -> ran call w = queries l.
Proof. intros H. unfold ran. rewrite H, skipn_past. reflexivity. Qed.

Lemma create_log (cfg : PostgresAdapter.PostgresEntityConfig)
  (data out : Payload) (w : Db) :
  PostgresAdapter.timestampsEnabled cfg = true ->
  before_create_output cfg data = Ok out ->
  let payload :=
    obj_literal [out; [(PostgresAdapter.createdAtField cfg,
                        lit (SDate (db_now w)))]] in
  db_log (snd (PostgresAdapter.create cfg data w))
  = db_log w ++ before_create_calls cfg data
    ++ [Executed (insert_of cfg payload)]
    ++ after_create_calls cfg payload.
Proof.
  intros Hts Hout payload.
  unfold PostgresAdapter.create, PostgresAdapter.runBeforeCreate,
    PostgresAdapter.runAfterCreate, PostgresAdapter.addCreatedAt,
    before_create_output, before_create_calls, after_create_calls in *.
  rewrite Hts.
  destruct (PostgresAdapter.hook cfg beforeCreate) as [h | ].
  - destruct (h (mkHookContext data OpCreate false)) as [r | e] eqn:Hh;
      [ | discriminate].
    inversion Hout; subst out.
    unfold bind, record_event, lift, ret, new_Date, execute. cbn.
    rewrite ?Hh. cbn.
    destruct (PostgresAdapter.hook cfg afterCreate) as [g | ]; cbn.
    + destruct (g _); cbn; rewrite <- !app_assoc; reflexivity.
    + rewrite <- !app_assoc. reflexivity.
  - inversion Hout; subst out.
    unfold bind, record_event, lift, ret, new_Date, execute. cbn.
    destruct (PostgresAdapter.hook cfg afterCreate) as [g | ]; cbn.
    + destruct (g _); cbn; rewrite <- ?app_assoc; reflexivity.
    + reflexivity.
Qed.

Lemma queries_before_create cfg data : queries (before_create_calls cfg data) = [].
Proof.
  unfold before_create_calls.
  destruct (PostgresAdapter.hook cfg beforeCreate); reflexivity.
Qed.

Lemma queries_after_create cfg entity : queries (after_create_calls cfg entity) = [].
Proof.
  unfold after_create_calls.
  destruct (PostgresAdapter.hook cfg afterCreate); reflexivity.
Qed.



(* ================================================================== *)
(** * What the engine makes of the merged predicates *)
(* ================================================================== *)

Lemma sort_rows_unordered (rows : list (obj Value)) : sort_rows [] rows = rows.
Proof.
  unfold sort_rows. induction rows as [ | r rows IH]; simpl; [reflexivity | ].
  rewrite IH. destruct rows; reflexivity.
Qed.

Lemma window_open (q : Query) (rows : list (obj Value)) :
  q_limit q = None -> q_offset q = None -> window q rows = rows.
Proof. unfold window. intros -> ->. reflexivity. Qed.

(** A clause reads only its own column. *)
Lemma holds_ext (w : Where) (r r' : obj Value) :
  column r (where_column w) = column r' (where_column w) ->
  holds w r = holds w r'.
Proof.
  destruct w as [c v | c v | c op v | c v | c v | c v | c | c];
    simpl; intros ->; reflexivity.
Qed.

Lemma matches_ext (ws : list Where) (r r' : obj Value) :
  Forall (fun w => column r (where_column w) = column r' (where_column w)) ws ->
  matches ws r = matches ws r'.
Proof.
  unfold matches. induction 1 as [ | w ws Hw _ IH]; simpl; [reflexivity | ].
  rewrite (holds_ext w r r' Hw), IH. reflexivity.
Qed.

Lemma matches_app (ws1 ws2 : list Where) (r : obj Value) :
  matches (ws1 ++ ws2) r = matches ws1 r && matches ws2 r.
Proof. unfold matches. apply forallb_app. Qed.

(** Writing one column leaves the others as they were. *)
Lemma column_written (r : obj Value) (c k : string) (x : Value) :
  column (spread r [(c, x)]) k = if String.eqb k c then x else column r k.
Proof.
  unfold column. rewrite obj_get_spread. simpl.
  destruct (String.eqb k c); reflexivity.
Qed.

(** A compiled filter holds of a row when the clauses of each entry do. *)
Lemma matches_compile (o : obj Value) (r : obj Value) :
  matches (compile o) r
  = forallb (fun kv => matches (PostgresAdapter.clauses (fst kv) (snd kv)) r) o.
Proof.
  induction o as [ | [k v] o IH]; simpl; [reflexivity | ].
  rewrite matches_app, IH. reflexivity.
Qed.

Lemma matches_compile_iff (o : obj Value) (r : obj Value) :
  NoDup (keys o) ->
  (matches (compile o) r = true
   <-> forall k v, obj_get k o = Some v ->
                   matches (PostgresAdapter.clauses k v) r = true).
Proof.
  intros Hnd. rewrite matches_compile, forallb_forall. split.
  - intros H k v Hget. apply obj_get_entry in Hget; [ | exact Hnd].
    exact (H (k, v) Hget).
  - intros H [k v] Hin. apply H. apply obj_get_entry; assumption.
Qed.

(** The clauses of an entry read only the entry's column. *)
Lemma clauses_ext (k : string) (v : Value) (r r' : obj Value) :
  column r k = column r' k ->
  matches (PostgresAdapter.clauses k v) r
  = matches (PostgresAdapter.clauses k v) r'.
Proof.
  intros Hcol. apply matches_ext.
  eapply Forall_impl; [ | apply clauses_column].
  intros w ->. exact Hcol.
Qed.

Lemma clauses_isNull (k : string) (r : obj Value) :
  matches (PostgresAdapter.clauses k (Obj [("isNull", JScalar (SBool true))])) r
  = value_is_null (column r k).
Proof. simpl. apply andb_true_r. Qed.

Lemma clauses_isNotNull (k : string) (r : obj Value) :
  matches
    (PostgresAdapter.clauses k (Obj [("isNotNull", JScalar (SBool true))])) r
  = negb (value_is_null (column r k)).
Proof. simpl. apply andb_true_r. Qed.

Lemma holds_pk (c : string) (id : Id) (r : obj Value) :
  holds (WhereEq c (JScalar (id_value id))) r
  = sql_eq (column r c) (id_value id).
Proof. destruct id; reflexivity. Qed.

Lemma sql_eq_not_null (x : Value) (v : Scalar) :
  sql_eq x v = true -> value_is_null x = false.
Proof.
  unfold sql_eq, as_scalar, value_is_null.
  destruct x as [[[ | | | | ] | ] | ]; simpl; congruence.
Qed.

(* ================================================================== *)
(** * Relational operations on an admitted filter *)
(* ================================================================== *)

Section AdmittedRuns.
Variable cfg : PostgresAdapter.PostgresEntityConfig.

Lemma admits_iff (o : obj Value) :
  admits cfg o = true
  <-> forall k, In k (keys o) -> field_allowed cfg k = true.
Proof. unfold admits. apply forallb_forall. Qed.

Lemma project_all (l : option (obj Value)) :
  option_map (project None) l = l.
Proof. destruct l; reflexivity. Qed.

Lemma map_project_all (rows : list (obj Value)) :
  map (project None) rows = rows.
Proof. apply map_id. Qed.

Lemma findById_run (id : Id) (w : Db) :
  admits cfg (pg_effective_id cfg) = true ->
  PostgresAdapter.findById cfg id w
  = (Ok (hd_error
           (filter (matches (by_id cfg id (pg_effective_id cfg))) (db_rows w))),
     mkDb (db_rows w) (db_now w)
       (db_log w
        ++ [Executed
              (mkQuery (PostgresAdapter.table cfg) (First None)
                 (by_id cfg id (pg_effective_id cfg)) [] None None)])).
Proof.
  intros Hok. unfold PostgresAdapter.findById. cbv zeta. unfold bind.
  unfold pg_effective_id in Hok.
  rewrite (applyFilter_admitted cfg _ _ _ Hok).
  unfold execute, ret, with_wheres, with_verb, kx, PostgresAdapter.where_pk,
    and_where, by_id, pg_effective_id; simpl.
  rewrite sort_rows_unordered. unfold window; simpl.
  rewrite project_all. destruct (filter _ (db_rows w)); reflexivity.
Qed.

Lemma findById_ok_admits (id : Id) (w : Db) (x : option (obj Value)) :
  fst (PostgresAdapter.findById cfg id w) = Ok x ->
  admits cfg (pg_effective_id cfg) = true.
Proof.
  intros Hx. destruct (admits cfg (pg_effective_id cfg)) eqn:E;
    [reflexivity | ].
  unfold PostgresAdapter.findById in Hx. cbv zeta in Hx. unfold bind in Hx.
  match type of Hx with
  | context [PostgresAdapter.applyFilter cfg ?qb ?f w] =>
      destruct (applyFilter_rejected cfg f qb w E) as [field [_ [_ Heq]]];
      rewrite Heq in Hx
  end.
  discriminate.
Qed.

Lemma softDelete_run (id : Id) (w : Db) :
  admits cfg (pg_effective_id cfg) = true ->
  let ws := by_id cfg id (pg_effective_id cfg) in
  let stamp := [(PostgresAdapter.softDeleteField cfg, lit (SDate (db_now w)))] in
  PostgresAdapter.softDelete cfg id w
  = (Ok (Z.of_nat (List.length (filter (matches ws) (db_rows w))) >? 0),
     mkDb (map (patch_row ws stamp) (db_rows w)) (db_now w)
       (db_log w
        ++ [Executed
              (mkQuery (PostgresAdapter.table cfg) (Update stamp) ws [] None
                 None)])).
Proof.
  intros Hok ws stamp. unfold PostgresAdapter.softDelete. cbv zeta.
  unfold bind. unfold pg_effective_id in Hok.
  rewrite (applyFilter_admitted cfg _ _ _ Hok).
  reflexivity.
Qed.

Lemma restore_run (id : Id) (w : Db) :
  admits cfg (pg_deleted_id cfg) = true ->
  let ws := by_id cfg id (pg_deleted_id cfg) in
  let clear := [(PostgresAdapter.softDeleteField cfg, lit SNull)] in
  PostgresAdapter.restore cfg id w
  = (Ok (hd_error
           (map (fun r => spread r clear) (filter (matches ws) (db_rows w)))),
     mkDb (map (patch_row ws clear) (db_rows w)) (db_now w)
       (db_log w
        ++ [Executed
              (mkQuery (PostgresAdapter.table cfg) (UpdateReturning clear) ws
                 [] None None)])).
Proof.
  intros Hok ws clear. unfold PostgresAdapter.restore. cbv zeta.
  unfold bind. unfold pg_deleted_id in Hok.
  rewrite (applyFilter_admitted cfg _ _ _ Hok).
  reflexivity.
Qed.

Lemma findAllWithDeleted_run (caller : option (obj Value)) (w : Db) :
  admits cfg (pg_with_deleted cfg (or_default caller [])) = true ->
  fst (PostgresAdapter.findAllWithDeleted cfg caller w)
  = Ok (filter (matches (compile (pg_with_deleted cfg (or_default caller []))))
          (db_rows w)).
Proof.
  intros Hok. unfold PostgresAdapter.findAllWithDeleted. cbv zeta.
  unfold bind. unfold pg_with_deleted in Hok.
  rewrite (applyFilter_admitted cfg _ _ _ Hok).
  unfold execute, ret, with_wheres, with_verb, kx, pg_with_deleted; simpl.
  rewrite sort_rows_unordered. unfold window; simpl.
  rewrite map_project_all. reflexivity.
Qed.

Lemma findAll_run (caller : option (obj Value)) (w : Db) :
  admits cfg (pg_effective cfg (or_default caller [])) = true ->
  fst (PostgresAdapter.findAll cfg caller w)
  = Ok (filter (matches (compile (pg_effective cfg (or_default caller []))))
          (db_rows w)).
Proof.
  intros Hok. unfold PostgresAdapter.findAll. cbv zeta.
  unfold bind. unfold pg_effective in Hok.
  rewrite (applyFilter_admitted cfg _ _ _ Hok).
  unfold execute, ret, with_wheres, with_verb, kx, pg_effective; simpl.
  rewrite sort_rows_unordered. unfold window; simpl.
  rewrite map_project_all. reflexivity.
Qed.

End AdmittedRuns.

(* ================================================================== *)
(** * Soft delete, restore and the reads *)
(* ================================================================== *)

Lemma hd_error_filter_In {A : Type} (f : A -> bool) (l : list A) (x : A) :
  hd_error (filter f l) = Some x -> In x l /\ f x = true.
Proof.
  intros H. apply filter_In.
  destruct (filter f l) as [ | y rest]; [discriminate | ].
  inversion H; subst. left. reflexivity.
Qed.

Lemma filter_nil_iff {A : Type} (f : A -> bool) (l : list A) :
  (forall x, In x l -> f x = false) -> filter f l = [].
Proof.
  induction l as [ | y l IH]; intros H; simpl; [reflexivity | ].
  rewrite (H y) by (left; reflexivity). apply IH.
  intros x Hx. apply H. right. exact Hx.
Qed.

Lemma hd_error_filter_some {A : Type} (f : A -> bool) (l : list A) (x : A) :
  In x l -> f x = true ->
  exists y, hd_error (filter f l) = Some y /\ In y l /\ f y = true.
Proof.
  intros Hin Hf.
  assert (Hx : In x (filter f l)) by (apply filter_In; auto).
  destruct (filter f l) as [ | y rest] eqn:E; [contradiction | ].
  exists y. split; [reflexivity | ].
  apply filter_In. rewrite E. left. reflexivity.
Qed.

Lemma filter_length_pos {A : Type} (f : A -> bool) (l : list A) (x : A) :
  In x l -> f x = true ->
  (Z.of_nat (List.length (filter f l)) >? 0) = true.
Proof.
  intros Hin Hf.
  assert (Hx : In x (filter f l)) by (apply filter_In; auto).
  destruct (filter f l); [contradiction | ].
  simpl. apply Z.gtb_lt. lia.
Qed.

Section SoftDeleteSemantics.
Variable cfg : PostgresAdapter.PostgresEntityConfig.

Let sdf : string := PostgresAdapter.softDeleteField cfg.

Lemma matches_by_id (id : Id) (merged : obj Value) (r : obj Value) :
  matches (by_id cfg id merged) r
  = has_id cfg id r && matches (compile merged) r.
Proof.
  unfold by_id, has_id, matches. cbn [forallb]. rewrite holds_pk.
  reflexivity.
Qed.

Lemma base_holds_ext (r r' : obj Value) :
  (forall k, k <> sdf -> column r k = column r' k) ->
  base_holds cfg r -> base_holds cfg r'.
Proof.
  intros Hcol Hb k v Hget Hne.
  rewrite <- (clauses_ext k v r r') by (apply Hcol; exact Hne).
  apply Hb; assumption.
Qed.

Hypothesis enabled : PostgresAdapter.softDeleteEnabled cfg = true.

Lemma effective_id_lookup (k : string) :
  obj_get k (pg_effective_id cfg)
  = if String.eqb k sdf
    then Some (Obj [("isNull", JScalar (SBool true))])
    else obj_get k (PostgresAdapter.baseFilter cfg).
Proof.
  unfold pg_effective_id. rewrite obj_get_literal2.
  unfold PostgresAdapter.notDeletedFilter. rewrite enabled. simpl.
  fold sdf. destruct (String.eqb k sdf); reflexivity.
Qed.

Lemma deleted_id_lookup (k : string) :
  obj_get k (pg_deleted_id cfg)
  = if String.eqb k sdf
    then Some (Obj [("isNotNull", JScalar (SBool true))])
    else obj_get k (PostgresAdapter.baseFilter cfg).
Proof.
  unfold pg_deleted_id. rewrite obj_get_literal2.
  unfold PostgresAdapter.deletedFilter. simpl.
  fold sdf. destruct (String.eqb k sdf); reflexivity.
Qed.

(** The not-deleted predicate: the default entries on the other columns,
    and a null soft-delete column. *)
Lemma not_deleted_matches (r : obj Value) :
  matches (compile (pg_effective_id cfg)) r = true
  <-> base_holds cfg r /\ not_deleted cfg r = true.
Proof.
  rewrite matches_compile_iff by apply NoDup_keys_literal.
  unfold base_holds, not_deleted. fold sdf. split.
  - intros H. split.
    + intros k v Hget Hne. apply H. rewrite effective_id_lookup.
      destruct (String.eqb_spec k sdf); [contradiction | exact Hget].
    + rewrite <- clauses_isNull. apply H.
      rewrite effective_id_lookup, String.eqb_refl. reflexivity.
  - intros [Hb Hn] k v. rewrite effective_id_lookup.
    destruct (String.eqb_spec k sdf) as [-> | Hne].
    + intros Hv; inversion Hv; subst. rewrite clauses_isNull. exact Hn.
    + intros Hget. apply Hb; assumption.
Qed.

Lemma deleted_matches (r : obj Value) :
  matches (compile (pg_deleted_id cfg)) r = true
  <-> base_holds cfg r /\ not_deleted cfg r = false.
Proof.
  rewrite matches_compile_iff by apply NoDup_keys_literal.
  unfold base_holds, not_deleted. fold sdf. split.
  - intros H. split.
    + intros k v Hget Hne. apply H. rewrite deleted_id_lookup.
      destruct (String.eqb_spec k sdf); [contradiction | exact Hget].
    + apply negb_true_iff. rewrite <- clauses_isNotNull. apply H.
      rewrite deleted_id_lookup, String.eqb_refl. reflexivity.
  - intros [Hb Hn] k v. rewrite deleted_id_lookup.
    destruct (String.eqb_spec k sdf) as [-> | Hne].
    + intros Hv; inversion Hv; subst. rewrite clauses_isNotNull.
      apply negb_true_iff. exact Hn.
    + intros Hget. apply Hb; assumption.
Qed.

(** Without a default entry on the soft-delete column, the predicate of
    [findAllWithDeleted()] is the default filter alone. *)
Lemma with_deleted_matches (r : obj Value) :
  has_key sdf (PostgresAdapter.baseFilter cfg) = false ->
  (matches (compile (pg_with_deleted cfg [])) r = true <-> base_holds cfg r).
Proof.
  intros Hfree.
  rewrite matches_compile_iff by apply NoDup_keys_literal.
  unfold base_holds, pg_with_deleted. fold sdf. split.
  - intros H k v Hget _. apply H. rewrite obj_get_literal2. simpl.
    exact Hget.
  - intros Hb k v. rewrite obj_get_literal2. simpl. intros Hget.
    apply Hb; [exact Hget | ].
    intros ->. unfold has_key in Hfree. rewrite Hget in Hfree. discriminate.
Qed.

(** The three predicates ask for the same whitelist entries. *)
Lemma admits_deleted_id :
  admits cfg (pg_effective_id cfg) = true ->
  admits cfg (pg_deleted_id cfg) = true.
Proof.
  rewrite !admits_iff. intros H k Hk. apply H.
  apply keys_literal_In in Hk as [p [[<- | [<- | []]] Hin]];
    apply keys_literal_In.
  - exists (PostgresAdapter.baseFilter cfg). simpl. auto.
  - exists (PostgresAdapter.notDeletedFilter cfg). split; [simpl; auto | ].
    unfold PostgresAdapter.notDeletedFilter. rewrite enabled. exact Hin.
Qed.

Lemma admits_with_deleted :
  admits cfg (pg_effective_id cfg) = true ->
  admits cfg (pg_with_deleted cfg []) = true.
Proof.
  rewrite !admits_iff. intros H k Hk. apply H.
  apply keys_literal_In in Hk as [p [[<- | [<- | []]] Hin]];
    [ | destruct Hin].
  apply keys_literal_In.
  exists (PostgresAdapter.baseFilter cfg). simpl. auto.
Qed.

Lemma admits_effective_empty :
  admits cfg (pg_effective_id cfg) = true ->
  admits cfg (pg_effective cfg []) = true.
Proof.
  rewrite !admits_iff. intros H k Hk. apply H.
  apply keys_literal_In in Hk as [p [[<- | [<- | [<- | []]]] Hin]];
    [ | | destruct Hin]; apply keys_literal_In.
  - exists (PostgresAdapter.baseFilter cfg). simpl. auto.
  - exists (PostgresAdapter.notDeletedFilter cfg). simpl. auto.
Qed.

Lemma effective_empty_matches (r : obj Value) :
  matches (compile (pg_effective cfg [])) r
  = matches (compile (pg_effective_id cfg)) r.
Proof. reflexivity. Qed.

End SoftDeleteSemantics.

Lemma value_is_null_eq (v : Value) : value_is_null v = true -> v = lit SNull.
Proof.
  destruct v as [[[ | | | | ] | ] | ]; simpl; try discriminate. reflexivity.
Qed.

Section RoundTrip.
Variable cfg : PostgresAdapter.PostgresEntityConfig.
Variable id : Id.
Variables w0 w1 w2 : Db.
Variable r0 : obj Value.

Hypothesis enabled : PostgresAdapter.softDeleteEnabled cfg = true.
Hypothesis visible : fst (PostgresAdapter.findById cfg id w0) = Ok (Some r0).
Hypothesis after_delete :
  db_rows w1 = db_rows (snd (PostgresAdapter.softDelete cfg id w0)).
Hypothesis after_restore :
  db_rows w2 = db_rows (snd (PostgresAdapter.restore cfg id w1)).

Let sdf : string := PostgresAdapter.softDeleteField cfg.
Let ws : list Where := by_id cfg id (pg_effective_id cfg).
Let ws' : list Where := by_id cfg id (pg_deleted_id cfg).
Let stamp : obj Value := [(sdf, lit (SDate (db_now w0)))].
Let clear : obj Value := [(sdf, lit SNull)].
Let deleted : obj Value := spread r0 stamp.
Let restored : obj Value := spread deleted clear.

Lemma rt_admitted : admits cfg (pg_effective_id cfg) = true.
Proof. exact (findById_ok_admits cfg id w0 _ visible). Qed.

Lemma rt_r0 :
  In r0 (db_rows w0) /\ has_id cfg id r0 = true /\
  base_holds cfg r0 /\ not_deleted cfg r0 = true.
Proof.
  pose proof visible as H. rewrite (findById_run cfg id w0 rt_admitted) in H.
  cbn [fst] in H. inversion H as [H'].
  apply hd_error_filter_In in H' as [Hin Hm].
  rewrite matches_by_id in Hm. apply andb_true_iff in Hm as [Hid Hm].
  apply (not_deleted_matches cfg enabled) in Hm as [Hb Hn]. auto.
Qed.

Lemma rt_pk_other : PostgresAdapter.pk cfg <> sdf.
Proof.
  destruct rt_r0 as [_ [Hid [_ Hn]]]. intros Heq.
  unfold has_id in Hid. apply sql_eq_not_null in Hid.
  unfold not_deleted in Hn. fold sdf in Hn. rewrite <- Heq in Hn. congruence.
Qed.

Lemma rt_rows1 : db_rows w1 = map (patch_row ws stamp) (db_rows w0).
Proof.
  rewrite after_delete, (softDelete_run cfg id w0 rt_admitted). reflexivity.
Qed.

Lemma rt_rows2 : db_rows w2 = map (patch_row ws' clear) (db_rows w1).
Proof.
  rewrite after_restore,
    (restore_run cfg id w1 (admits_deleted_id cfg enabled rt_admitted)).
  reflexivity.
Qed.

Lemma rt_softDelete_true :
  fst (PostgresAdapter.softDelete cfg id w0) = Ok true.
Proof.
  rewrite (softDelete_run cfg id w0 rt_admitted). cbn [fst]. f_equal.
  destruct rt_r0 as [Hin [Hid [Hb Hn]]].
  apply (filter_length_pos _ _ r0 Hin).
  rewrite matches_by_id, Hid. apply (not_deleted_matches cfg enabled). auto.
Qed.

Lemma rt_matches_r0 : matches ws r0 = true.
Proof.
  destruct rt_r0 as [_ [Hid [Hb Hn]]]. unfold ws.
  rewrite matches_by_id, Hid. apply (not_deleted_matches cfg enabled). auto.
Qed.

(** After the update no row satisfies the by-id predicate. *)
Lemma rt_hidden (r : obj Value) : matches ws (patch_row ws stamp r) = false.
Proof.
  unfold patch_row. destruct (matches ws r) eqn:E; [ | exact E].
  unfold ws. rewrite matches_by_id. apply andb_false_iff. right.
  destruct (matches (compile (pg_effective_id cfg)) (spread r stamp)) eqn:M;
    [ | reflexivity].
  apply (not_deleted_matches cfg enabled) in M as [_ Hn].
  unfold not_deleted in Hn. fold sdf in Hn. unfold stamp in Hn.
  rewrite column_written, String.eqb_refl in Hn. discriminate.
Qed.

Lemma rt_findById_none : fst (PostgresAdapter.findById cfg id w1) = Ok None.
Proof.
  rewrite (findById_run cfg id w1 rt_admitted). cbn [fst]. f_equal.
  fold ws. rewrite filter_nil_iff; [reflexivity | ].
  intros x Hx. rewrite rt_rows1 in Hx.
  apply in_map_iff in Hx as [r [<- _]]. apply rt_hidden.
Qed.

Lemma rt_findAll_hides :
  exists rows,
    fst (PostgresAdapter.findAll cfg None w1) = Ok rows /\
    forall r, In r rows -> has_id cfg id r = false.
Proof.
  eexists. split.
  - apply findAll_run. apply admits_effective_empty, rt_admitted.
  - intros r Hr. apply filter_In in Hr as [Hin Hm].
    rewrite rt_rows1 in Hin. apply in_map_iff in Hin as [r' [<- _]].
    pose proof (rt_hidden r') as Hh.
    remember (patch_row ws stamp r') as x eqn:Ex. clear Ex.
    unfold ws in Hh. rewrite matches_by_id in Hh.
    change (matches (compile (pg_effective_id cfg)) x = true) in Hm.
    rewrite Hm, andb_true_r in Hh. exact Hh.
Qed.

Lemma rt_deleted_columns (k : string) :
  k <> sdf -> column r0 k = column deleted k.
Proof.
  intros Hne. unfold deleted, stamp. rewrite column_written.
  destruct (String.eqb_spec k sdf); [contradiction | reflexivity].
Qed.

Lemma rt_restored_columns (k : string) : column restored k = column r0 k.
Proof.
  unfold restored, clear. rewrite column_written.
  destruct (String.eqb_spec k sdf) as [-> | Hne].
  - destruct rt_r0 as [_ [_ [_ Hn]]]. symmetry.
    apply value_is_null_eq. exact Hn.
  - symmetry. apply rt_deleted_columns. exact Hne.
Qed.

Lemma rt_deleted_in : In deleted (db_rows w1).
Proof.
  rewrite rt_rows1. apply in_map_iff. exists r0. split.
  - unfold patch_row. rewrite rt_matches_r0. reflexivity.
  - apply rt_r0.
Qed.

Lemma rt_deleted_base : base_holds cfg deleted.
Proof.
  apply (base_holds_ext cfg r0); [ | apply rt_r0].
  intros k Hne. apply rt_deleted_columns. exact Hne.
Qed.

Lemma rt_deleted_id : has_id cfg id deleted = true.
Proof.
  unfold has_id. rewrite <- rt_deleted_columns by exact rt_pk_other.
  apply rt_r0.
Qed.

Lemma rt_matches_deleted : matches ws' deleted = true.
Proof.
  unfold ws'. rewrite matches_by_id, rt_deleted_id.
  apply (deleted_matches cfg). split; [exact rt_deleted_base | ].
  unfold not_deleted, deleted, stamp. fold sdf.
  rewrite column_written, String.eqb_refl. reflexivity.
Qed.

Lemma rt_restore_some :
  exists r, fst (PostgresAdapter.restore cfg id w1) = Ok (Some r).
Proof.
  rewrite (restore_run cfg id w1 (admits_deleted_id cfg enabled rt_admitted)).
  cbn [fst]. fold ws'.
  assert (Hin : In deleted (filter (matches ws') (db_rows w1))).
  { apply filter_In. split; [exact rt_deleted_in | exact rt_matches_deleted]. }
  destruct (filter (matches ws') (db_rows w1)); [contradiction | ].
  simpl. eauto.
Qed.

Lemma rt_restored_in : In restored (db_rows w2).
Proof.
  rewrite rt_rows2. apply in_map_iff. exists deleted. split.
  - unfold patch_row. rewrite rt_matches_deleted. reflexivity.
  - exact rt_deleted_in.
Qed.

Lemma rt_restored_base : base_holds cfg restored.
Proof.
  apply (base_holds_ext cfg r0); [ | apply rt_r0].
  intros k _. symmetry. apply rt_restored_columns.
Qed.

Lemma rt_matches_restored : matches ws restored = true.
Proof.
  unfold ws. rewrite matches_by_id. apply andb_true_iff. split.
  - unfold has_id. rewrite rt_restored_columns. apply rt_r0.
  - apply (not_deleted_matches cfg enabled).
    split; [exact rt_restored_base | ].
    unfold not_deleted. rewrite rt_restored_columns. apply rt_r0.
Qed.

Lemma rt_findById_again :
  exists r2,
    fst (PostgresAdapter.findById cfg id w2) = Ok (Some r2) /\
    has_id cfg id r2 = true /\ not_deleted cfg r2 = true.
Proof.
  rewrite (findById_run cfg id w2 rt_admitted). cbn [fst]. fold ws.
  destruct (hd_error_filter_some (matches ws) (db_rows w2) restored
              rt_restored_in rt_matches_restored) as [y [Hy [_ Hm]]].
  exists y. rewrite Hy. split; [reflexivity | ].
  unfold ws in Hm. rewrite matches_by_id in Hm.
  apply andb_true_iff in Hm as [Hid Hm].
  apply (not_deleted_matches cfg enabled) in Hm as [_ Hn]. auto.
Qed.

(** The soft-deleted record fails the predicate of every read whose caller
    filter leaves the soft-delete column alone. *)
Lemma rt_deleted_rejected (caller : obj Value) :
  has_key sdf caller = false ->
  matches (compile (pg_effective cfg caller)) deleted = false.
Proof.
  intros Hfree.
  destruct (matches (compile (pg_effective cfg caller)) deleted) eqn:E;
    [ | reflexivity].
  rewrite matches_compile_iff in E by apply NoDup_keys_literal.
  specialize (E sdf (Obj [("isNull", JScalar (SBool true))])).
  rewrite clauses_isNull in E.
  unfold deleted, stamp in E. rewrite column_written, String.eqb_refl in E.
  assert (Hnull : value_is_null (lit (SDate (db_now w0))) = true);
    [ | discriminate Hnull].
  apply E. unfold pg_effective. rewrite obj_get_literal3.
  unfold has_key in Hfree. destruct (obj_get sdf caller); [discriminate | ].
  unfold PostgresAdapter.notDeletedFilter. rewrite enabled. simpl.
  fold sdf. rewrite String.eqb_refl. reflexivity.
Qed.

Hypothesis base_free :
  has_key (PostgresAdapter.softDeleteField cfg) (PostgresAdapter.baseFilter cfg)
  = false.

Lemma rt_with_deleted (w : Db) (r : obj Value) :
  In r (db_rows w) -> base_holds cfg r ->
  exists rows,
    fst (PostgresAdapter.findAllWithDeleted cfg None w) = Ok rows /\
    In r rows.
Proof.
  intros Hin Hb. eexists. split.
  - apply findAllWithDeleted_run.
    apply (admits_with_deleted cfg), rt_admitted.
  - apply filter_In. split; [exact Hin | ].
    apply (with_deleted_matches cfg); assumption.
Qed.

Lemma rt_round_trip :
  fst (PostgresAdapter.softDelete cfg id w0) = Ok true /\
  fst (PostgresAdapter.findById cfg id w1) = Ok None /\
  (exists rows,
      fst (PostgresAdapter.findAll cfg None w1) = Ok rows /\
      forall r, In r rows -> has_id cfg id r = false) /\
  (forall caller,
      has_key sdf caller = false ->
      matches (compile (pg_effective cfg caller)) deleted = false) /\
  (exists r, fst (PostgresAdapter.restore cfg id w1) = Ok (Some r)) /\
  (exists r2,
      fst (PostgresAdapter.findById cfg id w2) = Ok (Some r2) /\
      has_id cfg id r2 = true /\ not_deleted cfg r2 = true) /\
  In restored (db_rows w2) /\
  (forall c, column restored c = column r0 c) /\
  (exists rows,
      fst (PostgresAdapter.findAllWithDeleted cfg None w0) = Ok rows /\
      In r0 rows) /\
  (exists rows,
      fst (PostgresAdapter.findAllWithDeleted cfg None w1) = Ok rows /\
      In deleted rows) /\
  (exists rows,
      fst (PostgresAdapter.findAllWithDeleted cfg None w2) = Ok rows /\
      In restored rows).
Proof.
  split; [exact rt_softDelete_true | ].
  split; [exact rt_findById_none | ].
  split; [exact rt_findAll_hides | ].
  split; [exact rt_deleted_rejected | ].
  split; [exact rt_restore_some | ].
  split; [exact rt_findById_again | ].
  split; [exact rt_restored_in | ].
  split; [exact rt_restored_columns | ].
  split; [apply rt_with_deleted; apply rt_r0 | ].
  split; [apply rt_with_deleted;
          [exact rt_deleted_in | exact rt_deleted_base] | ].
  apply rt_with_deleted; [exact rt_restored_in | exact rt_restored_base].
Qed.

End RoundTrip.

(* ================================================================== *)
(** * [deleteById] when nothing matches *)
(* ================================================================== *)

Section DeleteById.
Variable cfg : PostgresAdapter.PostgresEntityConfig.
Variable id : Id.

Let ws : list Where := by_id cfg id (pg_effective_id cfg).

Hypothesis admitted : admits cfg (pg_effective_id cfg) = true.

Lemma map_patch_no_match (patch : obj Value) (rows : list (obj Value)) :
  (forall r, In r rows -> matches ws r = false) ->
  map (patch_row ws patch) rows = rows.
Proof.
  intros H. rewrite <- (map_id rows) at 2. apply map_ext_in.
  intros r Hr. unfold patch_row. rewrite (H r Hr). reflexivity.
Qed.

Lemma filter_keep_no_match (rows : list (obj Value)) :
  (forall r, In r rows -> matches ws r = false) ->
  filter (fun r => negb (matches ws r)) rows = rows.
Proof.
  intros H. induction rows as [ | r rows IH]; cbn [filter]; [reflexivity | ].
  rewrite (H r) by (left; reflexivity). cbn [negb]. f_equal.
  apply IH. intros x Hx. apply H. right. exact Hx.
Qed.

Lemma runAfterDelete_resolves (success : bool) (w : Db) :
  after_delete_resolves cfg success ->
  exists l,
    PostgresAdapter.runAfterDelete cfg success w
    = (Ok tt, mkDb (db_rows w) (db_now w) (db_log w ++ l)).
Proof.
  unfold after_delete_resolves, PostgresAdapter.runAfterDelete.
  destruct (PostgresAdapter.hook cfg afterDelete) as [h | ].
  - intros Hp. unfold bind, record_event, lift. cbn. rewrite Hp.
    eexists. reflexivity.
  - intros _. exists []. rewrite app_nil_r. destruct w; reflexivity.
Qed.

Lemma runAfterDelete_rows (success : bool) (w : Db) :
  db_rows (snd (PostgresAdapter.runAfterDelete cfg success w)) = db_rows w.
Proof.
  unfold PostgresAdapter.runAfterDelete.
  destruct (PostgresAdapter.hook cfg afterDelete) as [h | ]; [ | reflexivity].
  unfold bind, record_event, lift. cbn. destruct (h success); reflexivity.
Qed.

(** The rows and the count the statement of [deleteById] produces. *)
Lemma deleteById_statement (w1 : Db) :
  let hit := filter (matches ws) (db_rows w1) in
  let stamp :=
    [(PostgresAdapter.softDeleteField cfg, lit (SDate (db_now w1)))] in
  exists w2,
    (if PostgresAdapter.softDeleteEnabled cfg
     then (qb <- PostgresAdapter.applyFilter cfg
                   (PostgresAdapter.where_pk cfg id
                      (kx (PostgresAdapter.table cfg)))
                   (pg_effective_id cfg) ;;
           now <- new_Date ;;
           affectedRows <-
             execute
               (with_verb
                  (Update [(PostgresAdapter.softDeleteField cfg, now)]) qb) ;;
           ret (as_count affectedRows >? 0))%effect
     else (qb <- PostgresAdapter.applyFilter cfg
                   (PostgresAdapter.where_pk cfg id
                      (kx (PostgresAdapter.table cfg)))
                   (pg_effective_id cfg) ;;
           affectedRows <- execute (with_verb Delete qb) ;;
           ret (as_count affectedRows >? 0))%effect) w1
    = (Ok (Z.of_nat (List.length hit) >? 0), w2) /\
    db_now w2 = db_now w1 /\
    db_rows w2
    = if PostgresAdapter.softDeleteEnabled cfg
      then map (patch_row ws stamp) (db_rows w1)
      else filter (fun r => negb (matches ws r)) (db_rows w1).
Proof.
  intros hit stamp.
  destruct (PostgresAdapter.softDeleteEnabled cfg); unfold bind;
    rewrite (applyFilter_admitted cfg _ _ _ admitted);
    eexists; (split; [reflexivity | split; reflexivity]).
Qed.

Lemma deleteById_rows (w : Db) :
  before_delete_resolves cfg id ->
  let stamp :=
    [(PostgresAdapter.softDeleteField cfg, lit (SDate (db_now w)))] in
  db_rows (snd (PostgresAdapter.deleteById cfg id w))
  = if PostgresAdapter.softDeleteEnabled cfg
    then map (patch_row ws stamp) (db_rows w)
    else filter (fun r => negb (matches ws r)) (db_rows w).
Proof.
  intros Hbefore stamp.
  destruct (runBeforeDelete_resolves cfg id w Hbefore) as [l [Hrun _]].
  unfold PostgresAdapter.deleteById. cbv zeta.
  unfold bind at 1. rewrite Hrun.
  unfold bind at 1.
  destruct (deleteById_statement
              (mkDb (db_rows w) (db_now w) (db_log w ++ l)))
    as [w2 [Hst [Hnow Hrows]]].
  fold (pg_effective_id cfg). rewrite Hst.
  unfold bind. cbn [db_rows db_now] in Hrows.
  pose proof (runAfterDelete_rows
                (Z.of_nat (List.length
                   (filter (matches ws)
                      (db_rows (mkDb (db_rows w) (db_now w) (db_log w ++ l)))))
                 >? 0) w2) as Hafter.
  destruct (PostgresAdapter.runAfterDelete cfg _ w2) as [[[] | e] w3];
    unfold ret; cbn beta iota delta [snd] in *; rewrite Hafter; exact Hrows.
Qed.

Lemma deleteById_no_match (w : Db) :
  before_delete_resolves cfg id ->
  after_delete_resolves cfg false ->
  (forall r, In r (db_rows w) -> matches ws r = false) ->
  fst (PostgresAdapter.deleteById cfg id w) = Ok false /\
  db_rows (snd (PostgresAdapter.deleteById cfg id w)) = db_rows w.
Proof.
  intros Hbefore Hafter Hnone. split.
  - destruct (runBeforeDelete_resolves cfg id w Hbefore) as [l [Hrun _]].
    unfold PostgresAdapter.deleteById. cbv zeta.
    unfold bind at 1. rewrite Hrun.
    unfold bind at 1.
    destruct (deleteById_statement
                (mkDb (db_rows w) (db_now w) (db_log w ++ l)))
      as [w2 [Hst _]].
    fold (pg_effective_id cfg). rewrite Hst.
    cbn [db_rows]. fold ws. rewrite (filter_nil_iff _ _ Hnone).
    change (Z.of_nat (List.length (@nil (obj Value))) >? 0) with false.
    unfold bind, ret.
    destruct (runAfterDelete_resolves false w2 Hafter) as [l' ->].
    reflexivity.
  - rewrite (deleteById_rows w Hbefore).
    destruct (PostgresAdapter.softDeleteEnabled cfg).
    + apply map_patch_no_match, Hnone.
    + apply filter_keep_no_match, Hnone.
Qed.

End DeleteById.

(* ================================================================== *)
(** * The document repository over the store *)
(* ================================================================== *)

Lemma scalar_eqb_eq (a b : Scalar) : scalar_eqb a b = true -> a = b.
Proof.
  destruct a, b; simpl; try discriminate; intros H;
    try reflexivity; f_equal.
  - apply Bool.eqb_prop. exact H.
  - apply Z.eqb_eq. exact H.
  - apply String.eqb_eq. exact H.
  - apply Z.eqb_eq. exact H.
Qed.

Lemma list_eqb_eq {A : Type} (eqb : A -> A -> bool) :
  (forall x y, eqb x y = true -> x = y) ->
  forall l1 l2, list_eqb eqb l1 l2 = true -> l1 = l2.
Proof.
  intros Heq. induction l1 as [ | x l1 IH]; destruct l2 as [ | y l2];
    simpl; try discriminate; [reflexivity | ].
  intros H. apply andb_true_iff in H as [Hx Hl].
  f_equal; [apply Heq, Hx | apply IH, Hl].
Qed.

Lemma jsval_eqb_eq (a b : JsVal) : jsval_eqb a b = true -> a = b.
Proof.
  destruct a, b; simpl; try discriminate; intros H; f_equal.
  - apply scalar_eqb_eq, H.
  - apply (list_eqb_eq scalar_eqb scalar_eqb_eq), H.
Qed.

Lemma same_value_eq (a b : Value) : same_value a b = true -> a = b.
Proof.
  destruct a, b; simpl; try discriminate; intros H; f_equal.
  - apply jsval_eqb_eq, H.
  - revert H. apply list_eqb_eq. intros [k1 v1] [k2 v2]; simpl.
    intros H. apply andb_true_iff in H as [Hk Hv].
    apply String.eqb_eq in Hk. apply jsval_eqb_eq in Hv. congruence.
Qed.

Lemma doc_eqb_eq (a b : obj Value) : doc_eqb a b = true -> a = b.
Proof.
  unfold doc_eqb. apply list_eqb_eq. intros [k1 v1] [k2 v2]; simpl.
  intros H. apply andb_true_iff in H as [Hk Hv].
  apply String.eqb_eq in Hk. apply same_value_eq in Hv. congruence.
Qed.

(** ** First matches *)

Section FirstMatch.
Context {A : Type}.
Variable p : A -> bool.

Lemma filter_singleton (l : list A) (x : A) :
  filter p l = [x] ->
  exists l1 l2,
    l = l1 ++ x :: l2 /\
    (forall y, In y l1 -> p y = false) /\
    (forall y, In y l2 -> p y = false) /\ p x = true.
Proof.
  induction l as [ | y l IH]; simpl; [discriminate | ].
  destruct (p y) eqn:Hy.
  - intros H. inversion H as [[Hx Hrest]]. subst y.
    exists [], l. split; [reflexivity | ].
    split; [intros ? [] | ]. split; [ | exact Hy].
    intros z Hz. destruct (p z) eqn:Hpz; [ | reflexivity].
    assert (Hin : In z (filter p l)) by (apply filter_In; auto).
    rewrite Hrest in Hin. destruct Hin.
  - intros H. destruct (IH H) as [l1 [l2 [-> [H1 [H2 Hx]]]]].
    exists (y :: l1), l2. split; [reflexivity | ].
    split; [ | auto]. intros z [<- | Hz]; auto.
Qed.

Lemma filter_none (l : list A) :
  (forall y, In y l -> p y = false) -> filter p l = [].
Proof. apply filter_nil_iff. Qed.

Lemma hd_filter_first (l1 l2 : list A) (x : A) :
  (forall y, In y l1 -> p y = false) -> p x = true ->
  hd_error (filter p (l1 ++ x :: l2)) = Some x.
Proof.
  intros H1 Hx. rewrite filter_app, (filter_none l1 H1). simpl.
  rewrite Hx. reflexivity.
Qed.

End FirstMatch.

Lemma update_first_hit (p : obj Value -> bool) (g : obj Value -> obj Value)
  (l1 l2 : list (obj Value)) (x : obj Value) :
  (forall y, In y l1 -> p y = false) -> p x = true ->
  update_first p g (l1 ++ x :: l2) = (l1 ++ g x :: l2, Some x).
Proof.
  intros H1 Hx. induction l1 as [ | y l1 IH]; simpl.
  - rewrite Hx. reflexivity.
  - rewrite (H1 y) by (left; reflexivity).
    rewrite IH by (intros z Hz; apply H1; right; exact Hz). reflexivity.
Qed.

Lemma update_first_miss (p : obj Value -> bool) (g : obj Value -> obj Value)
  (l : list (obj Value)) :
  (forall y, In y l -> p y = false) -> update_first p g l = (l, None).
Proof.
  intros H. induction l as [ | y l IH]; simpl; [reflexivity | ].
  rewrite (H y) by (left; reflexivity).
  rewrite IH by (intros z Hz; apply H; right; exact Hz). reflexivity.
Qed.

Lemma remove_first_miss (p : obj Value -> bool) (l : list (obj Value)) :
  (forall y, In y l -> p y = false) -> remove_first p l = (l, None).
Proof.
  intros H. induction l as [ | y l IH]; simpl; [reflexivity | ].
  rewrite (H y) by (left; reflexivity).
  rewrite IH by (intros z Hz; apply H; right; exact Hz). reflexivity.
Qed.

(** ** Fields *)

Lemma field_written (d : obj Value) (c k : string) (x : Value) :
  field (spread d [(c, x)]) k = if String.eqb k c then x else field d k.
Proof. apply column_written. Qed.

Lemma obj_get_removed (d : obj Value) (c k : string) (x : Value) :
  obj_get k (filter (fun kv => negb (has_key (fst kv) [(c, x)])) d)
  = if String.eqb k c then None else obj_get k d.
Proof.
  induction d as [ | [k0 v0] d IH]; simpl.
  - destruct (String.eqb k c); reflexivity.
  - unfold has_key at 1. simpl.
    destruct (String.eqb_spec k0 c) as [-> | Hne]; simpl.
    + rewrite IH. destruct (String.eqb_spec k c) as [-> | Hkc];
        [reflexivity | ].
      destruct (obj_get k d); [reflexivity | ].
      destruct (String.eqb_spec k c); [contradiction | reflexivity].
    + rewrite IH. destruct (String.eqb_spec k c) as [-> | Hkc].
      * destruct (String.eqb_spec c k0); [congruence | reflexivity].
      * reflexivity.
Qed.

Lemma field_removed (d : obj Value) (c k : string) (x : Value) :
  field (filter (fun kv => negb (has_key (fst kv) [(c, x)])) d) k
  = if String.eqb k c then lit SNull else field d k.
Proof.
  unfold field. rewrite obj_get_removed.
  destruct (String.eqb k c); reflexivity.
Qed.

Lemma filter_true_all {A : Type} (l : list A) :
  filter (fun _ => true) l = l.
Proof.
  induction l as [ | x l IH]; simpl; [reflexivity | ]. f_equal. exact IH.
Qed.

Lemma pick_no_options (docs : list (obj Value)) :
  pick MongoAdapter.no_options docs = docs.
Proof. unfold pick. simpl. apply sort_rows_unordered. Qed.

Lemma has_doc_id_field (id : Id) (d : obj Value) :
  has_doc_id id d = true <-> field d "_id" = lit (id_value id).
Proof.
  unfold has_doc_id, doc_matches, entry_holds, lit.
  cbn [forallb fst snd]. rewrite andb_true_r.
  assert (E : eq_match (JScalar (id_value id)) (field d "_id")
              = same_value (Lit (JScalar (id_value id))) (field d "_id")).
  { destruct id; reflexivity. }
  rewrite E. split.
  - intros H. symmetry. apply same_value_eq. exact H.
  - intros ->. destruct id; simpl.
    + apply String.eqb_refl.
    + apply Z.eqb_refl.
Qed.

Section StoreSoftDelete.
Variable opts : MongoAdapter.MongoRepositoryOptions Store.
Variable session : option nat.
Variable id : Id.
Hypothesis on_store : MongoAdapter.opts_model opts = store_model.

Let sdf : string := MongoAdapter.softDeleteField opts.

Lemma findById_store (m : Store) :
  MongoAdapter.findById opts session id m
  = (Ok (hd_error (filter (doc_matches (mongo_by_id opts id)) (st_docs m))), m).
Proof.
  unfold MongoAdapter.findById, MongoAdapter.model. rewrite on_store.
  cbv zeta. fold (mongo_by_id opts id). simpl.
  rewrite pick_no_options. reflexivity.
Qed.

Lemma findAll_store (m : Store) :
  MongoAdapter.findAll opts session None m
  = (Ok (filter (doc_matches (mongo_effective opts [])) (st_docs m)), m).
Proof.
  unfold MongoAdapter.findAll, MongoAdapter.model. rewrite on_store.
  cbv zeta. cbn [or_default]. fold (mongo_effective opts []). simpl.
  rewrite pick_no_options. reflexivity.
Qed.

Lemma findAllWithDeleted_store (m : Store) :
  MongoAdapter.findAllWithDeleted opts session None m = (Ok (st_docs m), m).
Proof.
  unfold MongoAdapter.findAllWithDeleted, MongoAdapter.model.
  rewrite on_store. simpl. rewrite pick_no_options.
  rewrite filter_true_all. reflexivity.
Qed.

End StoreSoftDelete.

Section StorePredicates.
Variable opts : MongoAdapter.MongoRepositoryOptions Store.
Variable id : Id.
Hypothesis enabled : MongoAdapter.softDeleteEnabled opts = true.

Let sdf : string := MongoAdapter.softDeleteField opts.

Lemma not_deleted_only (d : obj Value) :
  doc_matches (mongo_effective opts []) d = doc_not_deleted opts d.
Proof.
  unfold mongo_effective, MongoAdapter.notDeletedFilter, doc_not_deleted.
  rewrite enabled. unfold doc_matches, entry_holds. cbn.
  rewrite !andb_true_r. reflexivity.
Qed.

Lemma by_id_same_field (d : obj Value) :
  String.eqb sdf "_id" = true ->
  doc_matches (mongo_by_id opts id) d = value_is_null (field d "_id").
Proof.
  intros Heq. unfold mongo_by_id, MongoAdapter.notDeletedFilter,
    MongoAdapter.by_id. rewrite enabled. fold sdf.
  apply String.eqb_eq in Heq. rewrite Heq.
  unfold doc_matches, entry_holds. cbn.
  rewrite !andb_true_r. reflexivity.
Qed.

Lemma by_id_matches (d : obj Value) :
  String.eqb sdf "_id" = false ->
  doc_matches (mongo_by_id opts id) d
  = has_doc_id id d && doc_not_deleted opts d.
Proof.
  intros Hne. unfold sdf in Hne.
  unfold mongo_by_id, MongoAdapter.notDeletedFilter,
    MongoAdapter.by_id, has_doc_id, doc_not_deleted.
  rewrite enabled.
  unfold obj_literal, spread, obj_set, has_key.
  cbn [fold_left fst snd app obj_get].
  rewrite Hne. cbn [app doc_matches forallb].
  unfold entry_holds at 2. cbn [fst snd forallb op_holds].
  cbn. rewrite !andb_true_r. reflexivity.
Qed.

Lemma deleted_by_id_matches (d : obj Value) :
  String.eqb sdf "_id" = false ->
  doc_matches (mongo_deleted_by_id opts id) d
  = has_doc_id id d && negb (doc_not_deleted opts d).
Proof.
  intros Hne. unfold sdf in Hne.
  unfold mongo_deleted_by_id, MongoAdapter.is_deleted,
    MongoAdapter.by_id, has_doc_id, doc_not_deleted.
  unfold obj_literal, spread, obj_set, has_key.
  cbn [fold_left fst snd app obj_get].
  rewrite Hne. cbn [app doc_matches forallb].
  unfold entry_holds at 2. cbn [fst snd forallb op_holds].
  cbn. rewrite !andb_true_r. reflexivity.
Qed.

End StorePredicates.

Section StoreRoundTrip.
Variable opts : MongoAdapter.MongoRepositoryOptions Store.
Variable session : option nat.
Variable id : Id.
Variables m0 m1 m2 : Store.
Variable r0 : obj Value.

Hypothesis on_store : MongoAdapter.opts_model opts = store_model.
Hypothesis enabled : MongoAdapter.softDeleteEnabled opts = true.
Hypothesis unique : filter (has_doc_id id) (st_docs m0) = [r0].
Hypothesis visible :
  fst (MongoAdapter.findById opts session id m0) = Ok (Some r0).
Hypothesis after_delete :
  st_docs m1 = st_docs (snd (MongoAdapter.softDelete opts session id m0)).
Hypothesis after_restore :
  st_docs m2 = st_docs (snd (MongoAdapter.restore opts session id m1)).

Let sdf : string := MongoAdapter.softDeleteField opts.
Let stamp : obj Value := [(sdf, lit (SDate (st_clock m0)))].
Let deleted : obj Value := spread r0 stamp.
Let restored : obj Value :=
  filter (fun kv => negb (has_key (fst kv) [(sdf, lit (SNum 1))])) deleted.

Lemma srt_r0_id : field r0 "_id" = lit (id_value id).
Proof.
  apply has_doc_id_field.
  assert (H : In r0 (filter (has_doc_id id) (st_docs m0))).
  { rewrite unique. left. reflexivity. }
  apply filter_In in H. apply H.
Qed.

Lemma srt_r0_matches : doc_matches (mongo_by_id opts id) r0 = true.
Proof.
  pose proof visible as H. rewrite (findById_store opts session id on_store) in H.
  cbn [fst] in H. inversion H as [H'].
  apply hd_error_filter_In in H'. apply H'.
Qed.

Lemma srt_other_field : String.eqb sdf "_id" = false.
Proof.
  destruct (String.eqb sdf "_id") eqn:E; [ | reflexivity].
  pose proof srt_r0_matches as H.
  rewrite (by_id_same_field opts id enabled r0 E), srt_r0_id in H.
  destruct id; discriminate.
Qed.

Lemma srt_r0_not_deleted : doc_not_deleted opts r0 = true.
Proof.
  pose proof srt_r0_matches as H.
  rewrite (by_id_matches opts id enabled r0 srt_other_field) in H.
  apply andb_true_iff in H. apply H.
Qed.

Lemma srt_split :
  exists l1 l2,
    st_docs m0 = l1 ++ r0 :: l2 /\
    (forall y, In y l1 -> has_doc_id id y = false) /\
    (forall y, In y l2 -> has_doc_id id y = false).
Proof.
  destruct (filter_singleton (has_doc_id id) (st_docs m0) r0 unique)
    as [l1 [l2 [H [H1 [H2 _]]]]].
  exists l1, l2. auto.
Qed.

Lemma srt_miss (l : list (obj Value)) :
  (forall y, In y l -> has_doc_id id y = false) ->
  forall y, In y l -> doc_matches (mongo_by_id opts id) y = false.
Proof.
  intros H y Hy. rewrite (by_id_matches opts id enabled y srt_other_field).
  rewrite (H y Hy). reflexivity.
Qed.

Lemma srt_miss_deleted (l : list (obj Value)) :
  (forall y, In y l -> has_doc_id id y = false) ->
  forall y, In y l -> doc_matches (mongo_deleted_by_id opts id) y = false.
Proof.
  intros H y Hy.
  rewrite (deleted_by_id_matches opts id y srt_other_field).
  rewrite (H y Hy). reflexivity.
Qed.

Lemma srt_deleted_field (k : string) :
  field deleted k = if String.eqb k sdf then lit (SDate (st_clock m0))
                    else field r0 k.
Proof. unfold deleted, stamp. apply field_written. Qed.

Lemma srt_restored_field (k : string) : field restored k = field r0 k.
Proof.
  unfold restored. rewrite field_removed, srt_deleted_field.
  destruct (String.eqb_spec k sdf) as [-> | _]; [ | reflexivity].
  symmetry. apply value_is_null_eq. exact srt_r0_not_deleted.
Qed.

Lemma srt_deleted_id : has_doc_id id deleted = true.
Proof.
  apply has_doc_id_field. rewrite srt_deleted_field.
  rewrite String.eqb_sym, srt_other_field. exact srt_r0_id.
Qed.

Lemma srt_restored_id : has_doc_id id restored = true.
Proof.
  apply has_doc_id_field. rewrite srt_restored_field. exact srt_r0_id.
Qed.

Lemma srt_deleted_hidden : doc_not_deleted opts deleted = false.
Proof.
  unfold doc_not_deleted. fold sdf. rewrite srt_deleted_field.
  rewrite String.eqb_refl. reflexivity.
Qed.

(** The soft-deleted document fails the filter of every read, whatever the
    caller asks for. *)
Lemma srt_deleted_rejected (caller : obj Value) :
  doc_matches (mongo_effective opts caller) deleted = false.
Proof.
  destruct (doc_matches (mongo_effective opts caller) deleted) eqn:E;
    [ | reflexivity].
  unfold doc_matches in E. rewrite forallb_forall in E.
  specialize (E (sdf, Obj [("$eq", JScalar SNull)])).
  unfold entry_holds in E. cbn [fst snd forallb op_holds] in E.
  change (In (sdf, Obj [("$eq", JScalar SNull)]) (mongo_effective opts caller)
          -> doc_not_deleted opts deleted && true = true) in E.
  rewrite andb_true_r, srt_deleted_hidden in E.
  assert (Hno : false = true); [ | discriminate Hno].
  apply E.
  apply obj_get_entry; [apply NoDup_keys_literal | ].
  unfold mongo_effective. rewrite obj_get_literal2.
  unfold MongoAdapter.notDeletedFilter. rewrite enabled. simpl.
  fold sdf. rewrite String.eqb_refl. reflexivity.
Qed.

Lemma srt_changed :
  changed (MongoAdapter.Fields stamp) r0 = true.
Proof.
  unfold changed. apply negb_true_iff.
  destruct (doc_eqb r0 (apply_update (MongoAdapter.Fields stamp) r0)) eqn:E;
    [ | reflexivity].
  apply doc_eqb_eq in E. change (r0 = deleted) in E.
  pose proof srt_deleted_hidden as Hh. rewrite <- E in Hh.
  rewrite srt_r0_not_deleted in Hh. discriminate.
Qed.

Lemma srt_softDelete :
  exists l1 l2,
    st_docs m0 = l1 ++ r0 :: l2 /\
    (forall y, In y l1 -> has_doc_id id y = false) /\
    (forall y, In y l2 -> has_doc_id id y = false) /\
    MongoAdapter.softDelete opts session id m0
    = (Ok true, with_docs (l1 ++ deleted :: l2) m0).
Proof.
  destruct srt_split as [l1 [l2 [Hdocs [H1 H2]]]].
  exists l1, l2. repeat (split; [assumption | ]).
  unfold MongoAdapter.softDelete, MongoAdapter.new_Date, MongoAdapter.model.
  rewrite on_store. cbv zeta. fold (mongo_by_id opts id).
  unfold bind, ret. cbn [MongoAdapter.model_now MongoAdapter.model_updateOne
    store_model].
  rewrite Hdocs.
  rewrite (update_first_hit _ _ l1 l2 r0 (srt_miss l1 H1) srt_r0_matches).
  fold sdf. fold stamp. rewrite srt_changed. reflexivity.
Qed.

Lemma srt_docs1 :
  exists l1 l2,
    st_docs m1 = l1 ++ deleted :: l2 /\
    (forall y, In y l1 -> has_doc_id id y = false) /\
    (forall y, In y l2 -> has_doc_id id y = false).
Proof.
  destruct srt_softDelete as [l1 [l2 [_ [H1 [H2 Hrun]]]]].
  exists l1, l2. rewrite after_delete, Hrun. auto.
Qed.

Lemma srt_findById_none :
  fst (MongoAdapter.findById opts session id m1) = Ok None.
Proof.
  rewrite (findById_store opts session id on_store). cbn [fst]. f_equal.
  rewrite filter_none; [reflexivity | ].
  destruct srt_docs1 as [l1 [l2 [-> [H1 H2]]]].
  intros y Hy. apply in_app_iff in Hy as [Hy | [<- | Hy]].
  - apply (srt_miss l1 H1 y Hy).
  - rewrite (by_id_matches opts id enabled deleted srt_other_field).
    rewrite srt_deleted_hidden. apply andb_false_r.
  - apply (srt_miss l2 H2 y Hy).
Qed.

Lemma srt_findAll_hides :
  exists docs,
    fst (MongoAdapter.findAll opts session None m1) = Ok docs /\
    forall d, In d docs -> has_doc_id id d = false.
Proof.
  rewrite (findAll_store opts session on_store). eexists.
  split; [reflexivity | ].
  intros d Hd. apply filter_In in Hd as [Hin Hm].
  rewrite (not_deleted_only opts enabled) in Hm.
  destruct srt_docs1 as [l1 [l2 [Hdocs [H1 H2]]]]. rewrite Hdocs in Hin.
  apply in_app_iff in Hin as [Hy | [<- | Hy]]; auto.
  rewrite srt_deleted_hidden in Hm. discriminate.
Qed.

Lemma srt_restore :
  exists l1 l2,
    (forall y, In y l1 -> has_doc_id id y = false) /\
    (forall y, In y l2 -> has_doc_id id y = false) /\
    MongoAdapter.restore opts session id m1
    = (Ok (Some restored), with_docs (l1 ++ restored :: l2) m1).
Proof.
  destruct srt_docs1 as [l1 [l2 [Hdocs [H1 H2]]]].
  exists l1, l2. repeat (split; [assumption | ]).
  unfold MongoAdapter.restore, MongoAdapter.model.
  rewrite on_store. cbv zeta. fold (mongo_deleted_by_id opts id).
  cbn [MongoAdapter.model_findOneAndUpdate store_model].
  rewrite Hdocs.
  rewrite (update_first_hit _ _ l1 l2 deleted (srt_miss_deleted l1 H1)).
  - reflexivity.
  - rewrite (deleted_by_id_matches opts id deleted srt_other_field).
    rewrite srt_deleted_id, srt_deleted_hidden. reflexivity.
Qed.

Lemma srt_findById_again :
  fst (MongoAdapter.findById opts session id m2) = Ok (Some restored).
Proof.
  rewrite (findById_store opts session id on_store). cbn [fst]. f_equal.
  destruct srt_restore as [l1 [l2 [H1 [H2 Hrun]]]].
  rewrite after_restore, Hrun. cbn [snd st_docs with_docs].
  apply hd_filter_first; [apply (srt_miss l1 H1) | ].
  rewrite (by_id_matches opts id enabled restored srt_other_field).
  rewrite srt_restored_id. unfold doc_not_deleted. fold sdf.
  rewrite srt_restored_field. exact srt_r0_not_deleted.
Qed.

Lemma srt_round_trip :
  fst (MongoAdapter.softDelete opts session id m0) = Ok true /\
  fst (MongoAdapter.findById opts session id m1) = Ok None /\
  (exists docs,
      fst (MongoAdapter.findAll opts session None m1) = Ok docs /\
      forall d, In d docs -> has_doc_id id d = false) /\
  (forall caller,
      doc_matches (mongo_effective opts caller) deleted = false) /\
  fst (MongoAdapter.restore opts session id m1) = Ok (Some restored) /\
  fst (MongoAdapter.findById opts session id m2) = Ok (Some restored) /\
  (forall k, field restored k = field r0 k) /\
  (exists docs,
      fst (MongoAdapter.findAllWithDeleted opts session None m0) = Ok docs /\
      In r0 docs) /\
  (exists docs,
      fst (MongoAdapter.findAllWithDeleted opts session None m1) = Ok docs /\
      In deleted docs) /\
  (exists docs,
      fst (MongoAdapter.findAllWithDeleted opts session None m2) = Ok docs /\
      In restored docs).
Proof.
  split.
  { destruct srt_softDelete as [l1 [l2 [_ [_ [_ ->]]]]]. reflexivity. }
  split; [exact srt_findById_none | ].
  split; [exact srt_findAll_hides | ].
  split; [exact srt_deleted_rejected | ].
  split.
  { destruct srt_restore as [l1 [l2 [_ [_ ->]]]]. reflexivity. }
  split; [exact srt_findById_again | ].
  split; [exact srt_restored_field | ].
  split.
  { rewrite (findAllWithDeleted_store opts session on_store). eexists.
    split; [reflexivity | ].
    destruct srt_split as [l1 [l2 [-> _]]]. apply in_elt. }
  split.
  { rewrite (findAllWithDeleted_store opts session on_store). eexists.
    split; [reflexivity | ].
    destruct srt_docs1 as [l1 [l2 [-> _]]]. apply in_elt. }
  rewrite (findAllWithDeleted_store opts session on_store). eexists.
  split; [reflexivity | ].
  destruct srt_restore as [l1 [l2 [_ [_ Hrun]]]].
  rewrite after_restore, Hrun. apply in_elt.
Qed.

End StoreRoundTrip.

(* ================================================================== *)
(** * Claims on soft delete *)
(* ================================================================== *)

(** C5 (amended).  Soft delete enabled.  Relational backend, with a
    default filter that does not itself constrain the soft-delete column:
    take any table in which [findById(id)] finds a row [r0] (the state
    right after [create] is one), soft-delete the id, then restore it,
    letting the clock and the log move freely in between.  Then
    [softDelete] reports success; afterwards [findById(id)] finds nothing
    [findAll()] returns no row with that id, and the soft-deleted record
    fails the predicate of every read whose caller filter leaves the
    soft-delete column alone; after [restore],
    [findById(id)] finds a row with that id again and the table holds [r0]
    with all its columns as before; and [findAllWithDeleted()] returns the
    record at each of the three points.  Document backend, over a
    collection in which the [_id] is unique: the same sequence, and the
    document found after [restore] has the fields of the one found at
    first.  The reason is the one the claim gives: the default reads merge
    a null test on the soft-delete field, [findAllWithDeleted] does not. *)
Theorem soft_delete_round_trip :
  (forall (cfg : PostgresAdapter.PostgresEntityConfig) (id : Id)
          (w0 w1 w2 : Db) (r0 : Entity),
      PostgresAdapter.softDeleteEnabled cfg = true ->
      has_key (PostgresAdapter.softDeleteField cfg)
              (PostgresAdapter.baseFilter cfg) = false ->
      fst (PostgresAdapter.findById cfg id w0) = Ok (Some r0) ->
      db_rows w1 = db_rows (snd (PostgresAdapter.softDelete cfg id w0)) ->
      db_rows w2 = db_rows (snd (PostgresAdapter.restore cfg id w1)) ->
      let deleted :=
        spread r0 [(PostgresAdapter.softDeleteField cfg,
                    lit (SDate (db_now w0)))] in
      let restored :=
        spread deleted [(PostgresAdapter.softDeleteField cfg, lit SNull)] in
      fst (PostgresAdapter.softDelete cfg id w0) = Ok true /\
      fst (PostgresAdapter.findById cfg id w1) = Ok None /\
      (exists rows,
          fst (PostgresAdapter.findAll cfg None w1) = Ok rows /\
          forall r, In r rows -> has_id cfg id r = false) /\
      (forall caller,
          has_key (PostgresAdapter.softDeleteField cfg) caller = false ->
          matches (compile (pg_effective cfg caller)) deleted = false) /\
      (exists r, fst (PostgresAdapter.restore cfg id w1) = Ok (Some r)) /\
      (exists r2,
          fst (PostgresAdapter.findById cfg id w2) = Ok (Some r2) /\
          has_id cfg id r2 = true /\ not_deleted cfg r2 = true) /\
      In restored (db_rows w2) /\
      (forall c, column restored c = column r0 c) /\
      (exists rows,
          fst (PostgresAdapter.findAllWithDeleted cfg None w0) = Ok rows /\
          In r0 rows) /\
      (exists rows,
          fst (PostgresAdapter.findAllWithDeleted cfg None w1) = Ok rows /\
          In deleted rows) /\
      (exists rows,
          fst (PostgresAdapter.findAllWithDeleted cfg None w2) = Ok rows /\
          In restored rows)) /\
  (forall (opts : MongoAdapter.MongoRepositoryOptions Store)
          (session : option nat) (id : Id) (m0 m1 m2 : Store) (r0 : Entity),
      MongoAdapter.opts_model opts = store_model ->
      MongoAdapter.softDeleteEnabled opts = true ->
      filter (has_doc_id id) (st_docs m0) = [r0] ->
      fst (MongoAdapter.findById opts session id m0) = Ok (Some r0) ->
      st_docs m1 = st_docs (snd (MongoAdapter.softDelete opts session id m0)) ->
      st_docs m2 = st_docs (snd (MongoAdapter.restore opts session id m1)) ->
      let deleted :=
        spread r0 [(MongoAdapter.softDeleteField opts,
                    lit (SDate (st_clock m0)))] in
      let restored :=
        filter (fun kv =>
                  negb (has_key (fst kv)
                          [(MongoAdapter.softDeleteField opts, lit (SNum 1))]))
               deleted in
      fst (MongoAdapter.softDelete opts session id m0) = Ok true /\
      fst (MongoAdapter.findById opts session id m1) = Ok None /\
      (exists docs,
          fst (MongoAdapter.findAll opts session None m1) = Ok docs /\
          forall d, In d docs -> has_doc_id id d = false) /\
      (forall caller,
          doc_matches (mongo_effective opts caller) deleted = false) /\
      fst (MongoAdapter.restore opts session id m1) = Ok (Some restored) /\
      fst (MongoAdapter.findById opts session id m2) = Ok (Some restored) /\
      (forall k, field restored k = field r0 k) /\
      (exists docs,
          fst (MongoAdapter.findAllWithDeleted opts session None m0) = Ok docs /\
          In r0 docs) /\
      (exists docs,
          fst (MongoAdapter.findAllWithDeleted opts session None m1) = Ok docs /\
          In deleted docs) /\
      (exists docs,
          fst (MongoAdapter.findAllWithDeleted opts session None m2) = Ok docs /\
          In restored docs)).
Proof.
  split.
  - intros cfg id w0 w1 w2 r0 Hon Hfree Hvis H1 H2 deleted restored.
    exact (rt_round_trip cfg id w0 w1 w2 r0 Hon Hvis H1 H2 Hfree).
  - intros opts session id m0 m1 m2 r0 Hstore Hon Huniq Hvis H1 H2
      deleted restored.
    exact (srt_round_trip opts session id m0 m1 m2 r0 Hstore Hon Huniq Hvis
             H1 H2).
Qed.

(** One user, created, soft-deleted and restored, on either backend. *)
Lemma soft_delete_round_trip_witness :
  (let w0 := snd (PostgresAdapter.create soft_config ann empty_db) in
   let w1 := snd (PostgresAdapter.softDelete soft_config (IdNum 1) w0) in
   let w2 := snd (PostgresAdapter.restore soft_config (IdNum 1) w1) in
   fst (PostgresAdapter.findById soft_config (IdNum 1) w0) = Ok (Some ann) /\
   fst (PostgresAdapter.findById soft_config (IdNum 1) w1) = Ok None /\
   exists r2,
     fst (PostgresAdapter.findById soft_config (IdNum 1) w2) = Ok (Some r2) /\
     has_id soft_config (IdNum 1) r2 = true /\
     not_deleted soft_config r2 = true) /\
  (let opts := store_options (Some true) None in
   let m0 := snd (MongoAdapter.create opts None ann_doc empty_store) in
   let m1 := snd (MongoAdapter.softDelete opts None (IdNum 1) m0) in
   fst (MongoAdapter.findById opts None (IdNum 1) m0) = Ok (Some ann_doc) /\
   fst (MongoAdapter.findById opts None (IdNum 1) m1) = Ok None).
Proof.
  destruct soft_delete_round_trip as [Hpg Hmongo]. split.
  - intros w0 w1 w2.
    destruct (Hpg soft_config (IdNum 1) w0 w1 w2 ann
                eq_refl eq_refl eq_refl eq_refl eq_refl)
      as [_ [Hnone [_ [_ [_ [Hagain _]]]]]].
    split; [reflexivity | ]. split; [exact Hnone | exact Hagain].
  - intros opts m0 m1.
    destruct (Hmongo opts None (IdNum 1) m0 m1
                (snd (MongoAdapter.restore opts None (IdNum 1) m1)) ann_doc
                eq_refl eq_refl eq_refl eq_refl eq_refl eq_refl)
      as [_ [Hnone _]].
    split; [reflexivity | exact Hnone].
Defined.

(** The claim as stated fails for a relational configuration whose default
    filter is itself [{ deleted_at: { isNull: true } }]: the record is
    created and visible, is soft-deleted, and [findAllWithDeleted()] then
    leaves it out, because it still merges the default filter. *)
Lemma soft_delete_round_trip_counterexample :
  let w0 := snd (PostgresAdapter.create double_guard ann empty_db) in
  let w1 := snd (PostgresAdapter.softDelete double_guard (IdNum 1) w0) in
  PostgresAdapter.softDeleteEnabled double_guard = true /\
  fst (PostgresAdapter.findById double_guard (IdNum 1) w0) = Ok (Some ann) /\
  fst (PostgresAdapter.softDelete double_guard (IdNum 1) w0) = Ok true /\
  fst (PostgresAdapter.findById double_guard (IdNum 1) w1) = Ok None /\
  fst (PostgresAdapter.findAllWithDeleted double_guard None w1) = Ok [].
Proof. repeat split; reflexivity. Qed.

Section StoreDelete.
Variable opts : MongoAdapter.MongoRepositoryOptions Store.
Variable session : option nat.
Variable id : Id.
Variable m : Store.
Hypothesis on_store : MongoAdapter.opts_model opts = store_model.

Lemma with_docs_same : with_docs (st_docs m) m = m.
Proof. destruct m; reflexivity. Qed.

Lemma store_delete_absent :
  MongoAdapter.softDeleteEnabled opts = false ->
  (forall d, In d (st_docs m) -> has_doc_id id d = false) ->
  MongoAdapter.deleteById opts session id m = (Ok false, m).
Proof.
  intros Hoff Hnone. unfold MongoAdapter.deleteById, MongoAdapter.model.
  rewrite Hoff, on_store. unfold bind, ret.
  cbn [MongoAdapter.model_findByIdAndDelete store_model].
  rewrite (remove_first_miss (doc_matches [("_id", lit (id_value id))])
             (st_docs m) Hnone).
  rewrite with_docs_same. reflexivity.
Qed.

Lemma store_delete_already :
  MongoAdapter.softDeleteEnabled opts = true ->
  ids_present (st_docs m) ->
  (forall d, In d (st_docs m) -> has_doc_id id d = true ->
             doc_not_deleted opts d = false) ->
  MongoAdapter.deleteById opts session id m = (Ok false, m).
Proof.
  intros Hon Hids Hgone.
  assert (Hnone : forall d, In d (st_docs m) ->
                            doc_matches (mongo_by_id opts id) d = false).
  { intros d Hd.
    destruct (String.eqb (MongoAdapter.softDeleteField opts) "_id") eqn:E.
    - rewrite (by_id_same_field opts id Hon d E). apply Hids, Hd.
    - rewrite (by_id_matches opts id Hon d E).
      destruct (has_doc_id id d) eqn:Hid; [ | reflexivity].
      rewrite (Hgone d Hd Hid). reflexivity. }
  unfold MongoAdapter.deleteById, MongoAdapter.new_Date, MongoAdapter.model.
  rewrite Hon, on_store. cbv zeta. fold (mongo_by_id opts id).
  unfold bind, ret.
  cbn [MongoAdapter.model_now MongoAdapter.model_updateOne store_model].
  rewrite (update_first_miss _ _ _ Hnone). reflexivity.
Qed.

End StoreDelete.

Section RelationalDelete.
Variable cfg : PostgresAdapter.PostgresEntityConfig.
Variable id : Id.
Hypothesis admitted : admits cfg (pg_effective_id cfg) = true.
Hypothesis before : before_delete_resolves cfg id.
Hypothesis after : after_delete_resolves cfg false.

Lemma pg_delete_absent (w : Db) :
  (forall r, In r (db_rows w) -> has_id cfg id r = false) ->
  fst (PostgresAdapter.deleteById cfg id w) = Ok false /\
  db_rows (snd (PostgresAdapter.deleteById cfg id w)) = db_rows w.
Proof.
  intros Hnone. apply deleteById_no_match; try assumption.
  intros r Hr. rewrite matches_by_id, (Hnone r Hr). reflexivity.
Qed.

Lemma pg_delete_already (w : Db) :
  PostgresAdapter.softDeleteEnabled cfg = true ->
  (forall r, In r (db_rows w) -> has_id cfg id r = true ->
             not_deleted cfg r = false) ->
  fst (PostgresAdapter.deleteById cfg id w) = Ok false /\
  db_rows (snd (PostgresAdapter.deleteById cfg id w)) = db_rows w.
Proof.
  intros Hon Hgone. apply deleteById_no_match; try assumption.
  intros r Hr. rewrite matches_by_id.
  destruct (has_id cfg id r) eqn:Hid; [ | reflexivity].
  destruct (matches (compile (pg_effective_id cfg)) r) eqn:Hm;
    [ | reflexivity].
  apply (not_deleted_matches cfg Hon) in Hm as [_ Hn].
  rewrite (Hgone r Hr Hid) in Hn. discriminate.
Qed.

Lemma pg_delete_twice (w w1 : Db) :
  PostgresAdapter.softDeleteEnabled cfg = true ->
  db_rows w1 = db_rows (snd (PostgresAdapter.deleteById cfg id w)) ->
  fst (PostgresAdapter.deleteById cfg id w1) = Ok false.
Proof.
  intros Hon Hrows. apply deleteById_no_match; try assumption.
  intros r Hr. rewrite Hrows in Hr.
  rewrite (deleteById_rows cfg id admitted w before), Hon in Hr.
  apply in_map_iff in Hr as [r' [<- _]].
  apply (rt_hidden cfg id w Hon).
Qed.

End RelationalDelete.




Example deleteById_first_time :
  fst (PostgresAdapter.deleteById soft_config (IdNum 1) one_user) = Ok true.
Proof. reflexivity. Qed.

(* ================================================================== *)
(** * End-to-end scenarios *)
(* ================================================================== *)

(** Scenario A: [create({ id: 1, name: 'Ann' })] on a whitelisted table,
    then [findById(1)]. *)
Example scenario_A :
  let w := snd (PostgresAdapter.create users_config ann empty_db) in
  fst (PostgresAdapter.findById users_config (IdNum 1) w) = Ok (Some ann).
Proof. reflexivity. Qed.

(** Scenario B: page 2 of 25 rows, 10 per page. *)
Example scenario_B :
  match fst (PostgresAdapter.findPage hard_config (Some (page_of 2 10 None))
               (numbered_users 25)) with
  | Ok r =>
      List.length (pr_data r) = 10%nat /\ pr_page r = 2 /\ pr_limit r = 10 /\
      pr_total r = 25 /\ pr_pages r = 3 /\
      hd_error (pr_data r)
      = Some [("id", lit (SNum 11)); ("name", lit (SStr "user"))]
  | Throw _ => False
  end.
Proof. vm_compute. repeat split. Qed.

(** The same page in descending order of id starts at row 15. *)
Example scenario_B_sorted :
  match fst (PostgresAdapter.findPage hard_config
               (Some (page_of 2 10 (Some (SortString "-id"))))
               (numbered_users 25)) with
  | Ok r =>
      hd_error (pr_data r)
      = Some [("id", lit (SNum 15)); ("name", lit (SStr "user"))]
  | Throw _ => False
  end.
Proof. vm_compute. reflexivity. Qed.

(** Scenario C: two serialization failures, then success on the third
    attempt, with [retries: 2]. *)
Example scenario_C :
  let run := PostgresAdapter.withTransaction
               (throws_until 2 (pg_error "40001")) (with_retries 2)
               (mkTxWorld [] 0) in
  fst run = Ok 2%nat /\
  begun (tx_log (snd run)) = [0; 1; 2]%nat /\
  slept (tx_log (snd run)) = [100; 200].
Proof. repeat split; reflexivity. Qed.

(** A filter with operators, compiled clause by clause. *)
Example compile_operators :
  compile [("age", Obj [("gte", JScalar (SNum 18)); ("lt", JScalar (SNum 65))]);
           ("name", Obj [("like", JScalar (SStr "a%"))]);
           ("role", Lit (JScalar (SStr "admin")));
           ("tag", Obj [("unknown", JScalar (SNum 1))])]
  = [WhereCmp "age" Gte (JScalar (SNum 18));
     WhereCmp "age" Lt (JScalar (SNum 65));
     WhereILike "name" (JScalar (SStr "a%"));
     WhereEq "role" (JScalar (SStr "admin"))].
Proof. reflexivity. Qed.

(** The backoff doubles from 100 ms and is capped at 3000 ms, which it
    reaches at attempt number 5. *)
Example backoff_values :
  map backoffMs (attempts 7) = [100; 200; 400; 800; 1600; 3000; 3000].
Proof. reflexivity. Qed.

(* ================================================================== *)
(** * Sorting and the statements of [findPage] *)
(* ================================================================== *)

Section Sorting.
Variable cfg : PostgresAdapter.PostgresEntityConfig.

Lemma with_order_nil (qb : Query) : with_order [] qb = qb.
Proof. destruct qb; unfold with_order; simpl. rewrite app_nil_r. reflexivity. Qed.

Lemma with_order_cons (c : string) (d : Direction)
  (order : list (string * Direction)) (qb : Query) :
  with_order order (orderBy c d qb) = with_order ((c, d) :: order) qb.
Proof.
  unfold with_order, orderBy; simpl. rewrite <- app_assoc. reflexivity.
Qed.

Lemma sort_parts_run (parts : list string) :
  forall (qb : Query) (w : Db),
    PostgresAdapter.sort_parts cfg qb parts w
    = match first_refused cfg (map sort_part parts) with
      | Some c => (Throw (PostgresAdapter.field_not_allowed cfg c), w)
      | None => (Ok (with_order (map sort_part parts) qb), w)
      end.
Proof.
  induction parts as [ | p rest IH]; intros qb w.
  - simpl. rewrite with_order_nil. reflexivity.
  - cbn [PostgresAdapter.sort_parts map]. unfold bind.
    rewrite assertFieldAllowed_spec.
    unfold first_refused. cbn [find]. unfold sort_part at 1. cbn [fst].
    destruct (field_allowed cfg (PostgresAdapter.strip_sign p)); cbn [negb].
    + rewrite IH. unfold first_refused.
      destruct (find _ (map sort_part rest)) as [[c d] | ]; cbn [option_map].
      * reflexivity.
      * rewrite with_order_cons. reflexivity.
    + reflexivity.
Qed.

Lemma sort_entries_run (entries : list (string * Value)) :
  forall (qb : Query) (w : Db),
    let order :=
      map (fun kv => (fst kv, PostgresAdapter.direction_of (snd kv)))
          entries in
    PostgresAdapter.sort_entries cfg qb entries w
    = match first_refused cfg order with
      | Some c => (Throw (PostgresAdapter.field_not_allowed cfg c), w)
      | None => (Ok (with_order order qb), w)
      end.
Proof.
  induction entries as [ | [col dir] rest IH]; intros qb w.
  - simpl. rewrite with_order_nil. reflexivity.
  - cbn [PostgresAdapter.sort_entries map fst snd]. unfold bind.
    rewrite assertFieldAllowed_spec.
    unfold first_refused. cbn [find fst].
    destruct (field_allowed cfg col); cbn [negb].
    + rewrite IH. unfold first_refused.
      destruct (find _ (map _ rest)) as [[c d] | ]; cbn [option_map].
      * reflexivity.
      * rewrite with_order_cons. reflexivity.
    + reflexivity.
Qed.

Lemma applySort_run (sort : option SortSpec) (qb : Query) (w : Db) :
  PostgresAdapter.applySort cfg qb sort w
  = match first_refused cfg (order_of sort) with
    | Some c => (Throw (PostgresAdapter.field_not_allowed cfg c), w)
    | None => (Ok (with_order (order_of sort) qb), w)
    end.
Proof.
  destruct sort as [[s | o] | ]; unfold PostgresAdapter.applySort, order_of.
  - destruct (String.eqb s EmptyString).
    + unfold first_refused; simpl. rewrite with_order_nil. reflexivity.
    + apply sort_parts_run.
  - apply sort_entries_run.
  - unfold first_refused; simpl. rewrite with_order_nil. reflexivity.
Qed.

End Sorting.

Section FindPage.
Variable cfg : PostgresAdapter.PostgresEntityConfig.
Variable caller : Filter.
Variables page limit : option Z.
Variable sort : option SortSpec.
Variable w : Db.

Let p : Z := or_default page 1.
Let l : Z := or_default limit 10.
Let predicate : list Where := compile (pg_effective cfg caller).
Let options : option PageOptions :=
  Some (mkPageOptions (Some caller) page limit sort).

(** [kx(table).select('*')] with the filter, the sort, the limit and the
    offset; and the count query. *)
Let data_query : Query :=
  mkQuery (PostgresAdapter.table cfg) (Select None) predicate (order_of sort)
    (Some l) (Some (Z.max 0 ((p - 1) * l))).
Let count_query : Query :=
  mkQuery (PostgresAdapter.table cfg) Count predicate [] None None.

Lemma findPage_run :
  admits cfg (pg_effective cfg caller) = true ->
  first_refused cfg (order_of sort) = None ->
  let hit := filter (matches predicate) (db_rows w) in
  PostgresAdapter.findPage cfg options w
  = (Ok (shapePage (window data_query (sort_rows (order_of sort) hit)) p l
           (Z.of_nat (List.length hit))),
     mkDb (db_rows w) (db_now w)
       (db_log w ++ [Executed data_query; Executed count_query])).
Proof.
  intros Hok Hsort hit.
  unfold PostgresAdapter.findPage, options. cbv zeta.
  cbn [or_default po_filter po_page po_limit po_sort]. unfold bind.
  unfold pg_effective in Hok.
  rewrite (applyFilter_admitted cfg _ _ _ Hok).
  rewrite applySort_run, Hsort.
  unfold execute at 1. cbn [q_verb with_order limit_ offset_ with_wheres
    with_verb kx].
  rewrite (applyFilter_admitted cfg _ _ _ Hok).
  unfold execute, ret, with_wheres, with_verb, with_order, kx, limit_,
    offset_; simpl.
  rewrite map_project_all. rewrite <- app_assoc. reflexivity.
Qed.

Lemma findPage_sort_refused (c : string) :
  admits cfg (pg_effective cfg caller) = true ->
  first_refused cfg (order_of sort) = Some c ->
  PostgresAdapter.findPage cfg options w
  = (Throw (PostgresAdapter.field_not_allowed cfg c), w).
Proof.
  intros Hok Hsort.
  unfold PostgresAdapter.findPage, options. cbv zeta.
  cbn [or_default po_filter po_page po_limit po_sort]. unfold bind.
  unfold pg_effective in Hok.
  rewrite (applyFilter_admitted cfg _ _ _ Hok).
  rewrite applySort_run, Hsort. reflexivity.
Qed.

End FindPage.

(* ================================================================== *)
(** * Pages and the other reads *)
(* ================================================================== *)

(** X1. A relational [findPage] whose merged filter passes the whitelist
    and whose sort columns are all allowed, called with a limit and an
    offset that are safe non-negative integers ([limit], default 10,
    between 0 and [Number.MAX_SAFE_INTEGER], and [(page - 1) * limit], page
    default 1, not above it), runs exactly two statements on the table:
    the select with the merged predicate, ordered by the sort's columns in
    the order given (a part of a sort string descends exactly when it
    starts with [-], one leading sign is dropped; an entry of a sort object
    descends exactly when its value is [-1] or prints as [desc] in any
    case), limited to [limit] rows from offset
    [max 0 ((page - 1) * limit)]; then the count with the same predicate
    and no ordering, limit or offset.  The table is left as it was. *)
Theorem findPage_statements :
  forall (cfg : PostgresAdapter.PostgresEntityConfig) (caller : Filter)
         (page limit : option Z) (sort : option SortSpec) (w : Db),
    admits cfg (pg_effective cfg caller) = true ->
    first_refused cfg (order_of sort) = None ->
    0 <= or_default limit 10 <= MAX_SAFE_INTEGER ->
    (or_default page 1 - 1) * or_default limit 10 <= MAX_SAFE_INTEGER ->
    let p := or_default page 1 in
    let l := or_default limit 10 in
    let predicate := compile (pg_effective cfg caller) in
    let call :=
      PostgresAdapter.findPage cfg
        (Some (mkPageOptions (Some caller) page limit sort)) in
    ran call w
    = [mkQuery (PostgresAdapter.table cfg) (Select None) predicate
         (order_of sort) (Some l) (Some (Z.max 0 ((p - 1) * l)));
       mkQuery (PostgresAdapter.table cfg) Count predicate [] None None] /\
    db_rows (snd (call w)) = db_rows w /\
    (forall s,
        s <> EmptyString ->
        order_of (Some (SortString s))
        = map (fun part =>
                 (PostgresAdapter.strip_sign part,
                  if PostgresAdapter.startsWith "-"%char part
                  then Desc else Asc))
              (PostgresAdapter.split_commas s)) /\
    (forall o,
        order_of (Some (SortObject o))
        = map (fun entry =>
                 (fst entry,
                  if PostgresAdapter.is_minus_one (snd entry)
                     || PostgresAdapter.spells_desc (snd entry)
                  then Desc else Asc))
              (obj_literal [o])).
Proof.
  intros cfg caller page limit sort w Hok Hsort _ _ p l predicate call.
  unfold call. split; [ | split; [ | split]].
  - apply ran_eq with
      (l := [Executed
               (mkQuery (PostgresAdapter.table cfg) (Select None) predicate
                  (order_of sort) (Some l) (Some (Z.max 0 ((p - 1) * l))));
             Executed
               (mkQuery (PostgresAdapter.table cfg) Count predicate [] None
                  None)]).
    rewrite (findPage_run cfg caller page limit sort w Hok Hsort).
    reflexivity.
  - rewrite (findPage_run cfg caller page limit sort w Hok Hsort).
    reflexivity.
  - intros s Hs. unfold order_of.
    destruct (String.eqb_spec s EmptyString) as [E | _]; [contradiction | ].
    reflexivity.
  - intros o. reflexivity.
Qed.

Lemma findPage_statements_witness :
  ran (PostgresAdapter.findPage users_config
         (Some (mkPageOptions (Some [("name", lit (SStr "Ann"))]) (Some 3)
                  (Some 20)
                  (Some (SortObject [("name", Lit (JArr [SStr "DESC"]));
                                     ("id", lit (SNum 1))])))))
      empty_db
  = [mkQuery "users" (Select None) [WhereEq "name" (JScalar (SStr "Ann"))]
       [("name", Desc); ("id", Asc)] (Some 20) (Some 40);
     mkQuery "users" Count [WhereEq "name" (JScalar (SStr "Ann"))] [] None
       None].
Proof.
  refine (proj1 (findPage_statements users_config [("name", lit (SStr "Ann"))]
                   (Some 3) (Some 20)
                   (Some (SortObject [("name", Lit (JArr [SStr "DESC"]));
                                      ("id", lit (SNum 1))]))
                   empty_db eq_refl eq_refl _ _)).
  - cbn [or_default]. unfold MAX_SAFE_INTEGER. lia.
  - cbn [or_default]. unfold MAX_SAFE_INTEGER. lia.
Defined.

(** X2. A relational [findPage] whose filter passes the whitelist but
    whose sort names a column outside it rejects with the field-not-allowed
    error of the first such column, runs no statement and leaves the world
    as it was. *)
Theorem findPage_sort_outside_whitelist :
  forall (cfg : PostgresAdapter.PostgresEntityConfig) (caller : Filter)
         (page limit : option Z) (sort : option SortSpec) (w : Db)
         (c : string),
    admits cfg (pg_effective cfg caller) = true ->
    first_refused cfg (order_of sort) = Some c ->
    let call :=
      PostgresAdapter.findPage cfg
        (Some (mkPageOptions (Some caller) page limit sort)) in
    In c (map fst (order_of sort)) /\
    field_allowed cfg c = false /\
    call w = (Throw (PostgresAdapter.field_not_allowed cfg c), w) /\
    ran call w = [].
Proof.
  intros cfg caller page limit sort w c Hok Hsort call.
  assert (Hrun : call w = (Throw (PostgresAdapter.field_not_allowed cfg c), w)).
  { apply findPage_sort_refused; assumption. }
  unfold first_refused in Hsort.
  destruct (find _ (order_of sort)) as [[c' d] | ] eqn:Hfind;
    [ | discriminate].
  injection Hsort as <-.
  apply find_some in Hfind. destruct Hfind as [Hin Hno]. cbn [fst] in Hno.
  repeat split.
  - apply in_map_iff. exists (c', d). split; [reflexivity | exact Hin].
  - destruct (field_allowed cfg c'); [discriminate | reflexivity].
  - exact Hrun.
  - apply ran_unchanged. rewrite Hrun. reflexivity.
Qed.

Lemma findPage_sort_outside_whitelist_witness :
  PostgresAdapter.findPage users_config
    (Some (mkPageOptions (Some []) None None
             (Some (SortString "name,-password")))) empty_db
  = (Throw (PostgresAdapter.field_not_allowed users_config "password"),
     empty_db).
Proof.
  exact (proj1 (proj2 (proj2
           (findPage_sort_outside_whitelist users_config [] None None
              (Some (SortString "name,-password")) empty_db "password"
              eq_refl eq_refl)))).
Defined.

Section ReadRuns.
Variable cfg : PostgresAdapter.PostgresEntityConfig.
Variable caller : Filter.
Variable w : Db.
Hypothesis admitted : admits cfg (pg_effective cfg caller) = true.

Let hit : list Entity :=
  filter (matches (compile (pg_effective cfg caller))) (db_rows w).

Lemma findAll_rows :
  fst (PostgresAdapter.findAll cfg (Some caller) w) = Ok hit.
Proof. apply (findAll_run cfg (Some caller) w admitted). Qed.

Lemma count_run :
  fst (PostgresAdapter.count cfg (Some caller) w)
  = Ok (Z.of_nat (List.length hit)).
Proof.
  unfold PostgresAdapter.count. cbv zeta. cbn [or_default]. unfold bind.
  pose proof admitted as Hok. unfold pg_effective in Hok.
  rewrite (applyFilter_admitted cfg _ _ _ Hok).
  reflexivity.
Qed.

Lemma findOne_run :
  fst (PostgresAdapter.findOne cfg caller w) = Ok (hd_error hit).
Proof.
  unfold PostgresAdapter.findOne. cbv zeta. unfold bind.
  pose proof admitted as Hok. unfold pg_effective in Hok.
  rewrite (applyFilter_admitted cfg _ _ _ Hok).
  unfold execute, ret, with_wheres, with_verb, kx; simpl.
  rewrite sort_rows_unordered. unfold window; simpl.
  rewrite project_all. reflexivity.
Qed.

Lemma exists_run :
  fst (PostgresAdapter.exists_ cfg (Some caller) w)
  = Ok (match hit with [] => false | _ :: _ => true end).
Proof.
  unfold PostgresAdapter.exists_. cbv zeta. cbn [or_default]. unfold bind.
  pose proof admitted as Hok. unfold pg_effective in Hok.
  rewrite (applyFilter_admitted cfg _ _ _ Hok).
  unfold execute, ret, with_wheres, with_verb, kx; simpl.
  rewrite sort_rows_unordered. unfold window; simpl.
  fold (pg_effective cfg caller). fold hit.
  destruct hit; reflexivity.
Qed.

End ReadRuns.

(** X3. On the same table and with the same caller filter (its merged
    filter passing the whitelist), the relational reads agree: [count] is
    the number of rows [findAll] returns, [findOne] is the first of them or
    null, and [exists] is true exactly when there is one. *)
Theorem reads_agree :
  forall (cfg : PostgresAdapter.PostgresEntityConfig) (caller : Filter)
         (w : Db),
    admits cfg (pg_effective cfg caller) = true ->
    exists rows,
      fst (PostgresAdapter.findAll cfg (Some caller) w) = Ok rows /\
      fst (PostgresAdapter.count cfg (Some caller) w)
      = Ok (Z.of_nat (List.length rows)) /\
      fst (PostgresAdapter.findOne cfg caller w) = Ok (hd_error rows) /\
      fst (PostgresAdapter.exists_ cfg (Some caller) w)
      = Ok (0 <? Z.of_nat (List.length rows)).
Proof.
  intros cfg caller w Hok.
  exists (filter (matches (compile (pg_effective cfg caller))) (db_rows w)).
  split; [apply findAll_rows, Hok | ].
  split; [apply count_run, Hok | ].
  split; [apply findOne_run, Hok | ].
  rewrite (exists_run cfg caller w Hok).
  destruct (filter _ (db_rows w)); reflexivity.
Qed.

Lemma reads_agree_witness :
  exists rows,
    fst (PostgresAdapter.findAll hard_config (Some []) (numbered_users 3))
    = Ok rows /\
    fst (PostgresAdapter.count hard_config (Some []) (numbered_users 3))
    = Ok (Z.of_nat (List.length rows)) /\
    fst (PostgresAdapter.findOne hard_config [] (numbered_users 3))
    = Ok (hd_error rows) /\
    fst (PostgresAdapter.exists_ hard_config (Some []) (numbered_users 3))
    = Ok (0 <? Z.of_nat (List.length rows)).
Proof. exact (reads_agree hard_config [] (numbered_users 3) eq_refl). Defined.

(** ** Cutting a list into pages *)

Lemma firstn_add_skipn {A : Type} (a b : nat) (l : list A) :
  firstn (a + b) l = firstn a l ++ firstn b (skipn a l).
Proof.
  revert l. induction a as [ | a IH]; intros l; simpl.
  - reflexivity.
  - destruct l as [ | x l]; simpl.
    + rewrite firstn_nil. reflexivity.
    + rewrite IH. reflexivity.
Qed.

Lemma pages_concat {A : Type} (L : nat) (rows : list A) (n : nat) :
  List.concat (map (fun i => firstn L (skipn (i * L) rows)) (seq 0 n))
  = firstn (n * L) rows.
Proof.
  induction n as [ | n IH].
  - reflexivity.
  - rewrite seq_S, map_app, concat_app, IH. simpl.
    rewrite app_nil_r.
    replace (L + n * L)%nat with (n * L + L)%nat by lia.
    rewrite firstn_add_skipn. reflexivity.
Qed.

Lemma page_rows_nat {A : Type} (limit : Z) (rows : list A) (i : nat) :
  0 < limit ->
  page_rows limit rows (S i)
  = firstn (Z.to_nat limit) (skipn (i * Z.to_nat limit) rows).
Proof.
  intros Hl. unfold page_rows. do 2 f_equal.
  replace (Z.of_nat (S i) - 1) with (Z.of_nat i) by lia.
  rewrite Z2Nat.inj_mul by lia. rewrite Nat2Z.id. reflexivity.
Qed.

Lemma pages_cover {A : Type} (limit : Z) (rows : list A) (n : nat) :
  0 < limit ->
  Z.of_nat (List.length rows) <= Z.of_nat n * limit ->
  List.concat (map (page_rows limit rows) (seq 1 n)) = rows.
Proof.
  intros Hl Hn.
  rewrite <- seq_shift, map_map.
  rewrite (map_ext _ (fun i => firstn (Z.to_nat limit)
                                 (skipn (i * Z.to_nat limit) rows))).
  - rewrite pages_concat. apply firstn_all2.
    apply Nat2Z.inj_le. rewrite Nat2Z.inj_mul, Z2Nat.id by lia. exact Hn.
  - intros i. apply page_rows_nat, Hl.
Qed.

Lemma pages_enough (total limit : Z) :
  0 < limit -> 0 <= total ->
  total
  <= Z.max 1 (ceil_quot (num_or total 0) (num_or limit 1)) * limit.
Proof.
  intros Hl Ht. unfold num_or.
  destruct (Z.eqb_spec total 0) as [-> | _]; [lia | ].
  destruct (Z.eqb_spec limit 0) as [E | _]; [lia | ].
  destruct (ceil_quot_spec total limit) as [P _]; [lia | ].
  specialize (P Hl). nia.
Qed.

(** X4. Relational pagination without a sort cuts the [findAll] result
    into consecutive pages: for a positive [limit] and a page number
    [page >= 1], [findPage] returns rows [(page-1)*limit ..
    page*limit - 1] of what [findAll] returns for the same filter, with
    [total] the [findAll] row count; the pages [1 .. pages] put end to end
    are exactly the [findAll] result, and a page number below 1 returns the
    rows of page 1. *)
Theorem findPage_cuts_findAll :
  forall (cfg : PostgresAdapter.PostgresEntityConfig) (caller : Filter)
         (limit : Z) (w : Db),
    admits cfg (pg_effective cfg caller) = true ->
    0 < limit ->
    exists rows,
      fst (PostgresAdapter.findAll cfg (Some caller) w) = Ok rows /\
      let total := Z.of_nat (List.length rows) in
      let result page :=
        fst (PostgresAdapter.findPage cfg
               (Some (mkPageOptions (Some caller) (Some page) (Some limit)
                        None)) w) in
      (forall page,
          1 <= page ->
          result page
          = Ok (shapePage (page_rows limit rows (Z.to_nat page)) page limit
                  total)) /\
      (forall page,
          page < 1 ->
          result page = Ok (shapePage (page_rows limit rows 1) page limit
                              total)) /\
      List.concat
        (map (page_rows limit rows)
             (seq 1 (Z.to_nat (pr_pages (shapePage rows 1 limit total)))))
      = rows.
Proof.
  intros cfg caller limit w Hok Hl.
  exists (filter (matches (compile (pg_effective cfg caller))) (db_rows w)).
  split; [apply findAll_rows, Hok | ].
  cbv zeta.
  assert (Hpage : forall page,
    fst (PostgresAdapter.findPage cfg
           (Some (mkPageOptions (Some caller) (Some page) (Some limit) None))
           w)
    = Ok (shapePage
            (firstn (Z.to_nat limit)
               (skipn (Z.to_nat (Z.max 0 ((page - 1) * limit)))
                  (filter (matches (compile (pg_effective cfg caller)))
                     (db_rows w))))
            page limit
            (Z.of_nat
               (List.length
                  (filter (matches (compile (pg_effective cfg caller)))
                     (db_rows w)))))).
  { intros page.
    rewrite (findPage_run cfg caller (Some page) (Some limit) None w Hok
               eq_refl).
    cbn [fst order_of or_default]. rewrite sort_rows_unordered.
    reflexivity. }
  split; [ | split].
  - intros page Hp. rewrite Hpage. unfold page_rows.
    rewrite Z2Nat.id by lia.
    replace (Z.max 0 ((page - 1) * limit)) with ((page - 1) * limit) by nia.
    reflexivity.
  - intros page Hp. rewrite Hpage. unfold page_rows.
    replace (Z.max 0 ((page - 1) * limit)) with 0 by nia.
    reflexivity.
  - apply pages_cover; [exact Hl | ].
    unfold shapePage. cbn [pr_pages].
    rewrite Z2Nat.id by lia.
    apply pages_enough; lia.
Qed.

Lemma findPage_cuts_findAll_witness :
  exists rows,
    fst (PostgresAdapter.findAll hard_config (Some []) (numbered_users 25))
    = Ok rows /\
    List.concat
      (map (page_rows 10 rows)
           (seq 1 (Z.to_nat
                     (pr_pages
                        (shapePage rows 1 10
                           (Z.of_nat (List.length rows)))))))
    = rows.
Proof.
  destruct (findPage_cuts_findAll hard_config [] 10 (numbered_users 25)
              eq_refl eq_refl) as [rows [Hall [_ [_ Hcover]]]].
  exists rows. split; [exact Hall | exact Hcover].
Defined.

(* ================================================================== *)
(** * The hook pipeline of the relational writes *)
(* ================================================================== *)

Section HookStages.
Variable cfg : PostgresAdapter.PostgresEntityConfig.

Lemma logs_nil (w : Db) : logs w [] = w.
Proof. unfold logs. rewrite app_nil_r. destruct w; reflexivity. Qed.

Lemma logs_logs (w : Db) (l1 l2 : list DbEvent) :
  logs (logs w l1) l2 = logs w (l1 ++ l2).
Proof. unfold logs; simpl. rewrite app_assoc. reflexivity. Qed.

Lemma runBeforeUpdate_run (update : Payload) (w : Db) :
  PostgresAdapter.runBeforeUpdate cfg update w
  = (before_update_output cfg update, logs w (before_update_calls cfg update)).
Proof.
  unfold PostgresAdapter.runBeforeUpdate, before_update_output,
    before_update_calls.
  destruct (PostgresAdapter.hook cfg beforeUpdate) as [h | ].
  - unfold bind, record_event, lift, ret, logs; simpl.
    destruct (h _) as [[p | ] | e]; reflexivity.
  - unfold ret. rewrite logs_nil. reflexivity.
Qed.

Lemma runAfterUpdate_run (entity : option Entity) (w : Db) :
  PostgresAdapter.runAfterUpdate cfg entity w
  = (after_update_output cfg entity, logs w (after_update_calls cfg entity)).
Proof.
  unfold PostgresAdapter.runAfterUpdate, after_update_output,
    after_update_calls.
  destruct (PostgresAdapter.hook cfg afterUpdate) as [h | ].
  - unfold bind, record_event, lift, logs; simpl. reflexivity.
  - unfold ret. rewrite logs_nil. reflexivity.
Qed.

Lemma runBeforeDelete_run (id : Id) (w : Db) :
  PostgresAdapter.runBeforeDelete cfg id w
  = (before_delete_output cfg id,
     logs w (before_delete_calls cfg id)).
Proof.
  unfold PostgresAdapter.runBeforeDelete, before_delete_output,
    before_delete_calls.
  destruct (PostgresAdapter.hook cfg beforeDelete) as [h | ].
  - unfold bind, record_event, lift, logs; simpl. reflexivity.
  - unfold ret. rewrite logs_nil. reflexivity.
Qed.

Lemma runAfterDelete_run (success : bool) (w : Db) :
  PostgresAdapter.runAfterDelete cfg success w
  = (after_delete_output cfg success,
     logs w (after_delete_calls cfg success)).
Proof.
  unfold PostgresAdapter.runAfterDelete, after_delete_output,
    after_delete_calls.
  destruct (PostgresAdapter.hook cfg afterDelete) as [h | ].
  - unfold bind, record_event, lift, logs; simpl. reflexivity.
  - unfold ret. rewrite logs_nil. reflexivity.
Qed.

Lemma runBeforeCreate_run (data : Payload) (w : Db) :
  PostgresAdapter.runBeforeCreate cfg data w
  = (before_create_output cfg data, logs w (before_create_calls cfg data)).
Proof.
  unfold PostgresAdapter.runBeforeCreate, before_create_output,
    before_create_calls.
  destruct (PostgresAdapter.hook cfg beforeCreate) as [h | ].
  - unfold bind, record_event, lift, ret, logs; simpl.
    destruct (h _) as [[p | ] | e]; reflexivity.
  - unfold ret. rewrite logs_nil. reflexivity.
Qed.

Lemma runAfterCreate_run (entity : Entity) (w : Db) :
  PostgresAdapter.runAfterCreate cfg entity w
  = (after_create_output cfg entity, logs w (after_create_calls cfg entity)).
Proof.
  unfold PostgresAdapter.runAfterCreate, after_create_output,
    after_create_calls.
  destruct (PostgresAdapter.hook cfg afterCreate) as [h | ].
  - unfold bind, record_event, lift, logs; simpl. reflexivity.
  - unfold ret. rewrite logs_nil. reflexivity.
Qed.

Lemma addUpdatedAt_run (data : Payload) (w : Db) :
  PostgresAdapter.addUpdatedAt cfg data w
  = (Ok (stamped (PostgresAdapter.timestampsEnabled cfg)
           (PostgresAdapter.updatedAtField cfg) (db_now w) data), w).
Proof.
  unfold PostgresAdapter.addUpdatedAt, stamped.
  destruct (PostgresAdapter.timestampsEnabled cfg); reflexivity.
Qed.

Lemma addCreatedAt_run (data : Payload) (w : Db) :
  PostgresAdapter.addCreatedAt cfg data w
  = (Ok (stamped (PostgresAdapter.timestampsEnabled cfg)
           (PostgresAdapter.createdAtField cfg) (db_now w) data), w).
Proof.
  unfold PostgresAdapter.addCreatedAt, stamped.
  destruct (PostgresAdapter.timestampsEnabled cfg); reflexivity.
Qed.

End HookStages.

Section WriteRuns.
Variable cfg : PostgresAdapter.PostgresEntityConfig.
Variable id : Id.
Variable w : Db.

Let ws : list Where := by_id cfg id (pg_effective_id cfg).
Let hit : list Entity := filter (matches ws) (db_rows w).

Lemma updateById_run (update out : Payload) :
  before_update_output cfg update = Ok out ->
  admits cfg (pg_effective_id cfg) = true ->
  let patch := stamped (PostgresAdapter.timestampsEnabled cfg)
                 (PostgresAdapter.updatedAtField cfg) (db_now w) out in
  let entity := hd_error (map (fun r => spread r patch) hit) in
  PostgresAdapter.updateById cfg id update w
  = (then_result (after_update_output cfg entity) entity,
     wrote w (map (patch_row ws patch) (db_rows w))
       (before_update_calls cfg update
        ++ [Executed (by_id_query cfg id (pg_effective_id cfg)
                        (UpdateReturning patch))]
        ++ after_update_calls cfg entity)).
Proof.
  intros Hout Hok patch entity.
  unfold PostgresAdapter.updateById. cbv zeta. unfold bind at 1.
  rewrite runBeforeUpdate_run, Hout.
  unfold bind at 1. rewrite addUpdatedAt_run.
  unfold bind at 1. unfold pg_effective_id in Hok.
  rewrite (applyFilter_admitted cfg _ _ _ Hok).
  unfold bind at 1.
  unfold execute, with_wheres, with_verb, kx, PostgresAdapter.where_pk,
    and_where. cbn [q_verb q_where q_table q_order q_limit q_offset app
    as_list logs db_rows db_now db_log].
  unfold bind. rewrite runAfterUpdate_run.
  fold (pg_effective_id cfg). fold (by_id cfg id (pg_effective_id cfg)).
  fold ws. fold hit. fold patch. fold entity.
  unfold then_result, wrote, logs, by_id_query, ret.
  cbn [db_rows db_now db_log]. fold ws.
  rewrite <- !app_assoc.
  destruct (after_update_output cfg entity) as [[] | e]; reflexivity.
Qed.

Lemma updateById_vetoed (update : Payload) (e : Thrown) :
  before_update_output cfg update = Throw e ->
  PostgresAdapter.updateById cfg id update w
  = (Throw e, logs w (before_update_calls cfg update)).
Proof.
  intros Hout. unfold PostgresAdapter.updateById. cbv zeta. unfold bind at 1.
  rewrite runBeforeUpdate_run, Hout. reflexivity.
Qed.

Lemma deleteById_vetoed (e : Thrown) :
  before_delete_output cfg id = Throw e ->
  PostgresAdapter.deleteById cfg id w
  = (Throw e, logs w (before_delete_calls cfg id)).
Proof.
  intros Hout. unfold PostgresAdapter.deleteById. cbv zeta. unfold bind at 1.
  rewrite runBeforeDelete_run, Hout. reflexivity.
Qed.

Lemma deleteById_run :
  before_delete_output cfg id = Ok tt ->
  admits cfg (pg_effective_id cfg) = true ->
  let stamp :=
    [(PostgresAdapter.softDeleteField cfg, lit (SDate (db_now w)))] in
  let success := Z.of_nat (List.length hit) >? 0 in
  PostgresAdapter.deleteById cfg id w
  = (then_result (after_delete_output cfg success) success,
     wrote w
       (if PostgresAdapter.softDeleteEnabled cfg
        then map (patch_row ws stamp) (db_rows w)
        else filter (fun r => negb (matches ws r)) (db_rows w))
       (before_delete_calls cfg id
        ++ [Executed (by_id_query cfg id (pg_effective_id cfg)
                        (if PostgresAdapter.softDeleteEnabled cfg
                         then Update stamp else Delete))]
        ++ after_delete_calls cfg success)).
Proof.
  intros Hout Hok stamp success.
  unfold PostgresAdapter.deleteById. cbv zeta. unfold bind at 1.
  rewrite runBeforeDelete_run, Hout.
  unfold pg_effective_id in Hok.
  destruct (PostgresAdapter.softDeleteEnabled cfg).
  - unfold bind at 1. unfold bind at 1.
    rewrite (applyFilter_admitted cfg _ _ _ Hok).
    unfold bind at 1. unfold new_Date at 1. unfold bind at 1.
    unfold execute, with_wheres, with_verb, kx, PostgresAdapter.where_pk,
      and_where. cbn [q_verb q_where q_table q_order q_limit q_offset app
      as_count logs db_rows db_now db_log ret].
    unfold bind. rewrite runAfterDelete_run.
    fold (pg_effective_id cfg). fold (by_id cfg id (pg_effective_id cfg)).
    fold ws. fold hit. fold stamp. fold success.
    unfold then_result, wrote, logs, by_id_query, ret.
    cbn [db_rows db_now db_log]. fold ws.
    rewrite <- !app_assoc.
    destruct (after_delete_output cfg success) as [[] | e]; reflexivity.
  - unfold bind at 1. unfold bind at 1.
    rewrite (applyFilter_admitted cfg _ _ _ Hok).
    unfold bind at 1.
    unfold execute, with_wheres, with_verb, kx, PostgresAdapter.where_pk,
      and_where. cbn [q_verb q_where q_table q_order q_limit q_offset app
      as_count logs db_rows db_now db_log ret].
    unfold bind. rewrite runAfterDelete_run.
    fold (pg_effective_id cfg). fold (by_id cfg id (pg_effective_id cfg)).
    fold ws. fold hit. fold success.
    unfold then_result, wrote, logs, by_id_query, ret.
    cbn [db_rows db_now db_log]. fold ws.
    rewrite <- !app_assoc.
    destruct (after_delete_output cfg success) as [[] | e]; reflexivity.
Qed.

Lemma create_run (data out : Payload) :
  before_create_output cfg data = Ok out ->
  let payload := stamped (PostgresAdapter.timestampsEnabled cfg)
                   (PostgresAdapter.createdAtField cfg) (db_now w) out in
  PostgresAdapter.create cfg data w
  = (then_result (after_create_output cfg payload) payload,
     wrote w (db_rows w ++ [payload])
       (before_create_calls cfg data
        ++ [Executed (insert_of cfg payload)]
        ++ after_create_calls cfg payload)).
Proof.
  intros Hout payload.
  unfold PostgresAdapter.create. cbv zeta. unfold bind at 1.
  rewrite runBeforeCreate_run, Hout.
  unfold bind at 1. rewrite addCreatedAt_run.
  unfold bind at 1.
  unfold execute, with_verb, kx. cbn [q_verb q_where q_table q_order q_limit
    q_offset logs db_rows db_now db_log].
  unfold bind. cbn [PostgresAdapter.first_or_empty as_first hd_error
    or_default]. unfold PostgresAdapter.first_or_empty. cbn [as_first hd_error
    or_default].
  rewrite runAfterCreate_run. fold payload.
  unfold then_result, wrote, logs, insert_of, with_verb, kx, ret.
  cbn [db_rows db_now db_log].
  rewrite <- !app_assoc.
  destruct (after_create_output cfg payload) as [[] | e]; reflexivity.
Qed.

End WriteRuns.

Lemma logged_wrote {A : Type} (call : M Db A) (w : Db) (a : Result A)
  (rows : list Entity) (l : list DbEvent) :
  call w = (a, wrote w rows l) -> logged call w = l.
Proof. intros H. apply logged_eq. rewrite H. reflexivity. Qed.

Lemma ran_wrote {A : Type} (call : M Db A) (w : Db) (a : Result A)
  (rows : list Entity) (l : list DbEvent) :
  call w = (a, wrote w rows l) -> ran call w = queries l.
Proof. intros H. apply ran_eq. rewrite H. reflexivity. Qed.

Lemma queries_before_update cfg update :
  queries (before_update_calls cfg update) = [].
Proof.
  unfold before_update_calls.
  destruct (PostgresAdapter.hook cfg beforeUpdate); reflexivity.
Qed.

Lemma queries_after_update cfg entity :
  queries (after_update_calls cfg entity) = [].
Proof.
  unfold after_update_calls.
  destruct (PostgresAdapter.hook cfg afterUpdate); reflexivity.
Qed.

Lemma queries_before_delete cfg id :
  queries (before_delete_calls cfg id) = [].
Proof.
  unfold before_delete_calls.
  destruct (PostgresAdapter.hook cfg beforeDelete); reflexivity.
Qed.

Lemma queries_after_delete cfg success :
  queries (after_delete_calls cfg success) = [].
Proof.
  unfold after_delete_calls.
  destruct (PostgresAdapter.hook cfg afterDelete); reflexivity.
Qed.

Lemma map_patch_none (ws : list Where) (patch : Payload)
  (rows : list Entity) :
  (forall r, In r rows -> matches ws r = false) ->
  map (patch_row ws patch) rows = rows.
Proof.
  intros Hno. induction rows as [ | r rows IH]; [reflexivity | ].
  simpl. unfold patch_row at 1. rewrite (Hno r (or_introl eq_refl)).
  f_equal. apply IH. intros r' Hr'. apply Hno. right. exact Hr'.
Qed.

(** X5. A relational [updateById] whose before-update stage yields [out]
    (the hook's replacement of the caller's update, or the update itself),
    whose patch ([out], with the update timestamp added when timestamps are
    enabled) is not empty, and whose merged filter passes the whitelist
    and compares each column with values of its own JavaScript type (the
    id included) does, in this order: the before-update hook call, if one
    is configured; one [UPDATE ... RETURNING] on the rows with the given
    key that satisfy the default and not-deleted filters, writing the
    patch; the after-update hook call, with the first updated row or with
    null when no row matched.  It resolves to that row or null unless the
    after-hook rejects.  The returned row carries every field of the
    patch, and when no row matches the table is left as it was. *)
Theorem updateById_pipeline :
  forall (cfg : PostgresAdapter.PostgresEntityConfig) (id : Id)
         (update out : Payload) (w : Db),
    let patch := stamped (PostgresAdapter.timestampsEnabled cfg)
                   (PostgresAdapter.updatedAtField cfg) (db_now w) out in
    let ws := by_id cfg id (pg_effective_id cfg) in
    before_update_output cfg update = Ok out ->
    admits cfg (pg_effective_id cfg) = true ->
    patch <> [] ->
    typed_for ws (db_rows w) = true ->
    let entity :=
      hd_error (map (fun r => spread r patch)
                  (filter (matches ws) (db_rows w))) in
    let call := PostgresAdapter.updateById cfg id update in
    logged call w
    = before_update_calls cfg update
      ++ [Executed (by_id_query cfg id (pg_effective_id cfg)
                      (UpdateReturning patch))]
      ++ after_update_calls cfg entity /\
    fst (call w) = then_result (after_update_output cfg entity) entity /\
    db_rows (snd (call w)) = map (patch_row ws patch) (db_rows w) /\
    (forall e k v,
        entity = Some e -> obj_get k patch = Some v -> obj_get k e = Some v) /\
    ((forall r, In r (db_rows w) -> matches ws r = false) ->
     entity = None /\ db_rows (snd (call w)) = db_rows w).
Proof.
  intros cfg id update out w patch ws Hout Hok _ _ entity call.
  pose proof (updateById_run cfg id w update out Hout Hok) as Hrun.
  cbv zeta in Hrun. fold patch ws in Hrun. fold entity in Hrun.
  fold call in Hrun.
  split; [ | split; [ | split; [ | split]]].
  - apply (logged_wrote _ _ _ _ _ Hrun).
  - rewrite Hrun. reflexivity.
  - rewrite Hrun. reflexivity.
  - intros e k v He Hk. unfold entity in He.
    destruct (filter (matches ws) (db_rows w)) as [ | r rest];
      [discriminate | ].
    simpl in He. injection He as <-.
    rewrite obj_get_spread, Hk. reflexivity.
  - intros Hno. split.
    + unfold entity. rewrite (filter_nil_iff _ _ Hno). reflexivity.
    + rewrite Hrun. cbn [snd wrote db_rows]. apply map_patch_none, Hno.
Qed.

Lemma updateById_pipeline_witness :
  let cfg := pg_config None None (Some true) (Some true)
               (Some counting_hooks) in
  let patch := [("name", lit (SStr "Bea")); ("updated_at", lit (SDate 1000))] in
  let row := [("id", lit (SNum 1)); ("name", lit (SStr "Bea"));
              ("deleted_at", lit SNull); ("updated_at", lit (SDate 1000))] in
  logged (PostgresAdapter.updateById cfg (IdNum 1) [("name", lit (SStr "Bea"))])
    one_user
  = [CalledBeforeUpdate
       (mkHookContext [("name", lit (SStr "Bea"))] OpUpdate false);
     Executed
       (mkQuery "users" (UpdateReturning patch)
          [WhereEq "id" (JScalar (SNum 1)); WhereNull "deleted_at"] [] None
          None);
     CalledAfterUpdate (Some row)].
Proof.
  refine (proj1 (updateById_pipeline
                   (pg_config None None (Some true) (Some true)
                      (Some counting_hooks))
                   (IdNum 1) [("name", lit (SStr "Bea"))]
                   [("name", lit (SStr "Bea"))] one_user eq_refl eq_refl _
                   eq_refl)).
  discriminate.
Defined.

(** X6. A before-hook that rejects stops a relational write before it
    reaches the database: [updateById] (before-update hook) and
    [deleteById] (before-delete hook) reject with the hook's error, log
    nothing but that hook call, run no statement and leave the table as it
    was. *)
Theorem before_hook_stops_write :
  forall (cfg : PostgresAdapter.PostgresEntityConfig) (id : Id) (w : Db)
         (e : Thrown),
    (forall update,
        before_update_output cfg update = Throw e ->
        let call := PostgresAdapter.updateById cfg id update in
        fst (call w) = Throw e /\
        logged call w = before_update_calls cfg update /\
        ran call w = [] /\
        db_rows (snd (call w)) = db_rows w) /\
    (before_delete_output cfg id = Throw e ->
     let call := PostgresAdapter.deleteById cfg id in
     fst (call w) = Throw e /\
     logged call w = before_delete_calls cfg id /\
     ran call w = [] /\
     db_rows (snd (call w)) = db_rows w).
Proof.
  intros cfg id w e. split.
  - intros update Hout call.
    pose proof (updateById_vetoed cfg id w update e Hout) as Hrun.
    fold call in Hrun. rewrite Hrun. repeat split.
    + apply logged_eq. rewrite Hrun. reflexivity.
    + rewrite (ran_eq call w (before_update_calls cfg update)).
      * apply queries_before_update.
      * rewrite Hrun. reflexivity.
  - intros Hout call.
    pose proof (deleteById_vetoed cfg id w e Hout) as Hrun.
    fold call in Hrun. rewrite Hrun. repeat split.
    + apply logged_eq. rewrite Hrun. reflexivity.
    + rewrite (ran_eq call w (before_delete_calls cfg id)).
      * apply queries_before_delete.
      * rewrite Hrun. reflexivity.
Qed.

Lemma before_hook_stops_write_witness :
  let cfg := pg_config None None None None (Some vetoing_hooks) in
  (let call := PostgresAdapter.updateById cfg (IdNum 1) ann in
   fst (call one_user) = Throw refusal /\
   logged call one_user
   = before_update_calls cfg ann /\
   ran call one_user = [] /\
   db_rows (snd (call one_user)) = db_rows one_user) /\
  (let call := PostgresAdapter.deleteById cfg (IdNum 1) in
   fst (call one_user) = Throw refusal /\
   logged call one_user
   = before_delete_calls cfg (IdNum 1) /\
   ran call one_user = [] /\
   db_rows (snd (call one_user)) = db_rows one_user).
Proof.
  intros cfg.
  destruct (before_hook_stops_write cfg (IdNum 1) one_user refusal)
    as [Hupdate Hdelete].
  split.
  - exact (Hupdate ann eq_refl).
  - exact (Hdelete eq_refl).
Defined.

(** X7. An after-hook runs once the statement has been executed, and its
    failure does not undo it.  When the after-create hook rejects, [create]
    rejects with that error and the row is in the table; when the
    after-delete hook rejects, [deleteById] rejects with that error and the
    rows with the key under the merged filter are gone (or, with soft
    delete, stamped); when the after-update hook rejects, [updateById]
    with a non-empty patch rejects with that error and the rows are
    updated.  The update and the delete are taken on a merged filter and
    an id that compare each column with values of its own JavaScript
    type. *)
Theorem after_hook_failure_keeps_write :
  forall (cfg : PostgresAdapter.PostgresEntityConfig) (id : Id) (w : Db)
         (e : Thrown),
    (forall data out,
        before_create_output cfg data = Ok out ->
        let payload := stamped (PostgresAdapter.timestampsEnabled cfg)
                         (PostgresAdapter.createdAtField cfg) (db_now w)
                         out in
        after_create_output cfg payload = Throw e ->
        let call := PostgresAdapter.create cfg data in
        fst (call w) = Throw e /\
        ran call w = [insert_of cfg payload] /\
        db_rows (snd (call w)) = db_rows w ++ [payload]) /\
    (forall update out,
        before_update_output cfg update = Ok out ->
        admits cfg (pg_effective_id cfg) = true ->
        let patch := stamped (PostgresAdapter.timestampsEnabled cfg)
                       (PostgresAdapter.updatedAtField cfg) (db_now w)
                       out in
        let ws := by_id cfg id (pg_effective_id cfg) in
        patch <> [] ->
        typed_for ws (db_rows w) = true ->
        after_update_output cfg
          (hd_error (map (fun r => spread r patch)
                       (filter (matches ws) (db_rows w)))) = Throw e ->
        let call := PostgresAdapter.updateById cfg id update in
        fst (call w) = Throw e /\
        ran call w
        = [by_id_query cfg id (pg_effective_id cfg) (UpdateReturning patch)] /\
        db_rows (snd (call w)) = map (patch_row ws patch) (db_rows w)) /\
    (before_delete_output cfg id = Ok tt ->
     admits cfg (pg_effective_id cfg) = true ->
     let ws := by_id cfg id (pg_effective_id cfg) in
     let stamp :=
       [(PostgresAdapter.softDeleteField cfg, lit (SDate (db_now w)))] in
     typed_for ws (db_rows w) = true ->
     after_delete_output cfg
       (Z.of_nat (List.length (filter (matches ws) (db_rows w))) >? 0)
     = Throw e ->
     let call := PostgresAdapter.deleteById cfg id in
     fst (call w) = Throw e /\
     db_rows (snd (call w))
     = if PostgresAdapter.softDeleteEnabled cfg
       then map (patch_row ws stamp) (db_rows w)
       else filter (fun r => negb (matches ws r)) (db_rows w)).
Proof.
  intros cfg id w e. split; [ | split].
  - intros data out Hout payload Hafter call.
    pose proof (create_run cfg w data out Hout) as Hrun.
    cbv zeta in Hrun. fold payload in Hrun. fold call in Hrun.
    rewrite Hafter in Hrun. split; [ | split].
    + rewrite Hrun. reflexivity.
    + rewrite (ran_wrote _ _ _ _ _ Hrun), !queries_app.
      rewrite queries_before_create, queries_after_create. reflexivity.
    + rewrite Hrun. reflexivity.
  - intros update out Hout Hok patch ws _ _ Hafter call.
    pose proof (updateById_run cfg id w update out Hout Hok) as Hrun.
    cbv zeta in Hrun. fold patch ws in Hrun. fold call in Hrun.
    rewrite Hafter in Hrun. split; [ | split].
    + rewrite Hrun. reflexivity.
    + rewrite (ran_wrote _ _ _ _ _ Hrun), !queries_app.
      rewrite queries_before_update, queries_after_update. reflexivity.
    + rewrite Hrun. reflexivity.
  - intros Hout Hok ws stamp _ Hafter call.
    pose proof (deleteById_run cfg id w Hout Hok) as Hrun.
    cbv zeta in Hrun. fold ws stamp in Hrun. fold call in Hrun.
    rewrite Hafter in Hrun. rewrite Hrun. split; reflexivity.
Qed.

Lemma after_hook_failure_keeps_write_witness :
  let cfg := pg_config None None None None (Some failing_after_hooks) in
  (fst (PostgresAdapter.create cfg ann empty_db) = Throw refusal /\
   db_rows (snd (PostgresAdapter.create cfg ann empty_db)) = [ann]) /\
  (let call :=
     PostgresAdapter.updateById cfg (IdNum 1) [("name", lit (SStr "Bea"))] in
   fst (call one_user) = Throw refusal /\
   db_rows (snd (call one_user))
   = [[("id", lit (SNum 1)); ("name", lit (SStr "Bea"));
       ("deleted_at", lit SNull)]]) /\
  (fst (PostgresAdapter.deleteById cfg (IdNum 1) one_user) = Throw refusal /\
   db_rows (snd (PostgresAdapter.deleteById cfg (IdNum 1) one_user)) = []).
Proof.
  intros cfg.
  destruct (after_hook_failure_keeps_write cfg (IdNum 1) empty_db refusal)
    as [Hcreate _].
  destruct (after_hook_failure_keeps_write cfg (IdNum 1) one_user refusal)
    as [_ [Hupdate Hdelete]].
  split; [ | split].
  - destruct (Hcreate ann ann eq_refl eq_refl) as [H1 [_ H3]].
    split; [exact H1 | exact H3].
  - assert (Hpatch : [("name", lit (SStr "Bea"))] <> @nil (string * Value))
      by discriminate.
    destruct (Hupdate [("name", lit (SStr "Bea"))]
                [("name", lit (SStr "Bea"))] eq_refl eq_refl Hpatch eq_refl
                eq_refl) as [H1 [_ H3]].
    split; [exact H1 | exact H3].
  - exact (Hdelete eq_refl eq_refl eq_refl eq_refl).
Defined.

(* ================================================================== *)
(** * Bulk writes of the relational repository *)
(* ================================================================== *)

Lemma mapM_pure {W A B : Type} (f : A -> M W B) (g : W -> A -> B)
  (l : list A) (w : W) :
  (forall a, f a w = (Ok (g w a), w)) ->
  mapM f l w = (Ok (map (g w) l), w).
Proof.
  intros Hf. induction l as [ | a l IH]; [reflexivity | ].
  cbn [mapM map]. unfold bind at 1. rewrite Hf.
  unfold bind at 1. rewrite IH. reflexivity.
Qed.

Section BulkRuns.
Variable cfg : PostgresAdapter.PostgresEntityConfig.
Variable w : Db.

Lemma insertMany_run (first : Payload) (others : list Payload) :
  let rows :=
    map (stamped (PostgresAdapter.timestampsEnabled cfg)
           (PostgresAdapter.createdAtField cfg) (db_now w))
        (first :: others) in
  PostgresAdapter.insertMany cfg (first :: others) w
  = (Ok rows,
     wrote w (db_rows w ++ rows)
       [Executed (with_verb (Insert rows) (kx (PostgresAdapter.table cfg)))]).
Proof.
  intros rows. unfold PostgresAdapter.insertMany.
  cbn [List.length Nat.eqb]. unfold bind at 1.
  rewrite (mapM_pure (PostgresAdapter.addCreatedAt cfg)
             (fun w0 => stamped (PostgresAdapter.timestampsEnabled cfg)
                          (PostgresAdapter.createdAtField cfg) (db_now w0))).
  - reflexivity.
  - intros a. apply addCreatedAt_run.
Qed.

Variable caller : Filter.
Hypothesis admitted : admits cfg (pg_effective cfg caller) = true.

Let ws : list Where := compile (pg_effective cfg caller).
Let hit : list Entity := filter (matches ws) (db_rows w).

Lemma deleteMany_run :
  let stamp :=
    [(PostgresAdapter.softDeleteField cfg, lit (SDate (db_now w)))] in
  PostgresAdapter.deleteMany cfg caller w
  = (Ok (Z.of_nat (List.length hit)),
     wrote w
       (if PostgresAdapter.softDeleteEnabled cfg
        then map (patch_row ws stamp) (db_rows w)
        else filter (fun r => negb (matches ws r)) (db_rows w))
       [Executed (filter_query cfg (pg_effective cfg caller)
                    (if PostgresAdapter.softDeleteEnabled cfg
                     then Update stamp else Delete))]).
Proof.
  intros stamp. unfold PostgresAdapter.deleteMany. cbv zeta.
  pose proof admitted as Hok. unfold pg_effective in Hok.
  destruct (PostgresAdapter.softDeleteEnabled cfg).
  - unfold bind at 1. rewrite (applyFilter_admitted cfg _ _ _ Hok).
    reflexivity.
  - unfold bind at 1. rewrite (applyFilter_admitted cfg _ _ _ Hok).
    reflexivity.
Qed.

Lemma softDeleteMany_run :
  let stamp :=
    [(PostgresAdapter.softDeleteField cfg, lit (SDate (db_now w)))] in
  PostgresAdapter.softDeleteMany cfg caller w
  = (Ok (Z.of_nat (List.length hit)),
     wrote w (map (patch_row ws stamp) (db_rows w))
       [Executed (filter_query cfg (pg_effective cfg caller)
                    (Update stamp))]).
Proof.
  intros stamp. unfold PostgresAdapter.softDeleteMany. cbv zeta.
  pose proof admitted as Hok. unfold pg_effective in Hok.
  unfold bind at 1. rewrite (applyFilter_admitted cfg _ _ _ Hok).
  reflexivity.
Qed.

Lemma updateMany_run (update : Payload) :
  let patch := stamped (PostgresAdapter.timestampsEnabled cfg)
                 (PostgresAdapter.updatedAtField cfg) (db_now w) update in
  PostgresAdapter.updateMany cfg caller update w
  = (Ok (Z.of_nat (List.length hit)),
     wrote w (map (patch_row ws patch) (db_rows w))
       [Executed (filter_query cfg (pg_effective cfg caller)
                    (Update patch))]).
Proof.
  intros patch. unfold PostgresAdapter.updateMany. cbv zeta.
  pose proof admitted as Hok. unfold pg_effective in Hok.
  unfold bind at 1. rewrite addUpdatedAt_run.
  unfold bind at 1. rewrite (applyFilter_admitted cfg _ _ _ Hok).
  reflexivity.
Qed.

End BulkRuns.

(** X8. A relational [insertMany] of a non-empty list runs one statement,
    the insert of all the items in order, each with the creation timestamp
    added when timestamps are enabled; it resolves to the inserted rows
    and appends them to the table.  It calls no hook, whatever hooks are
    configured. *)
Theorem insertMany_single_insert :
  forall (cfg : PostgresAdapter.PostgresEntityConfig) (first : Payload)
         (others : list Payload) (w : Db),
    let rows :=
      map (stamped (PostgresAdapter.timestampsEnabled cfg)
             (PostgresAdapter.createdAtField cfg) (db_now w))
          (first :: others) in
    let call := PostgresAdapter.insertMany cfg (first :: others) in
    fst (call w) = Ok rows /\
    logged call w
    = [Executed (with_verb (Insert rows) (kx (PostgresAdapter.table cfg)))] /\
    hook_calls (logged call w) = [] /\
    db_rows (snd (call w)) = db_rows w ++ rows /\
    List.length rows = S (List.length others).
Proof.
  intros cfg first others w rows call.
  pose proof (insertMany_run cfg w first others) as Hrun.
  cbv zeta in Hrun. fold rows in Hrun. fold call in Hrun.
  assert (Hlog : logged call w
                 = [Executed (with_verb (Insert rows)
                                (kx (PostgresAdapter.table cfg)))]).
  { apply (logged_wrote _ _ _ _ _ Hrun). }
  split; [rewrite Hrun; reflexivity | ].
  split; [exact Hlog | ].
  split; [rewrite Hlog; reflexivity | ].
  split; [rewrite Hrun; reflexivity | ].
  unfold rows. rewrite length_map. reflexivity.
Qed.

Section Hidden.
Variable cfg : PostgresAdapter.PostgresEntityConfig.
Variable caller : Filter.
Hypothesis enabled : PostgresAdapter.softDeleteEnabled cfg = true.
Hypothesis caller_free :
  has_key (PostgresAdapter.softDeleteField cfg) caller = false.

Lemma effective_guard :
  obj_get (PostgresAdapter.softDeleteField cfg) (pg_effective cfg caller)
  = Some (Obj [("isNull", JScalar (SBool true))]).
Proof.
  unfold pg_effective. rewrite obj_get_literal3.
  unfold has_key in caller_free.
  destruct (obj_get (PostgresAdapter.softDeleteField cfg) caller);
    [discriminate | ].
  unfold PostgresAdapter.notDeletedFilter. rewrite enabled.
  cbn [obj_get]. rewrite String.eqb_refl. reflexivity.
Qed.

Lemma effective_needs_null (r : Entity) :
  matches (compile (pg_effective cfg caller)) r = true ->
  not_deleted cfg r = true.
Proof.
  intros Hm.
  apply matches_compile_iff with (k := PostgresAdapter.softDeleteField cfg)
    (v := Obj [("isNull", JScalar (SBool true))]) in Hm.
  - rewrite clauses_isNull in Hm. exact Hm.
  - apply NoDup_keys_literal.
  - apply effective_guard.
Qed.

Lemma stamped_row_hidden (now : Z) (r : Entity) :
  let ws := compile (pg_effective cfg caller) in
  let stamp := [(PostgresAdapter.softDeleteField cfg, lit (SDate now))] in
  matches ws (patch_row ws stamp r) = false.
Proof.
  intros ws stamp. unfold patch_row.
  destruct (matches ws r) eqn:Hr; [ | exact Hr].
  destruct (matches ws (spread r stamp)) eqn:Hs; [ | reflexivity].
  apply effective_needs_null in Hs. unfold not_deleted, stamp in Hs.
  rewrite column_written, String.eqb_refl in Hs. discriminate.
Qed.

End Hidden.

Lemma filter_map_none {A : Type} (p : A -> bool) (f : A -> A) (l : list A) :
  (forall x, p (f x) = false) -> filter p (map f l) = [].
Proof.
  intros H. induction l as [ | x l IH]; [reflexivity | ].
  simpl. rewrite H. exact IH.
Qed.

Lemma filter_filter_neg {A : Type} (p : A -> bool) (l : list A) :
  filter p (filter (fun x => negb (p x)) l) = [].
Proof.
  induction l as [ | x l IH]; [reflexivity | ].
  simpl. destruct (p x) eqn:E; simpl; [exact IH | ].
  rewrite E. exact IH.
Qed.

Lemma deleteMany_selection (cfg : PostgresAdapter.PostgresEntityConfig)
  (caller : Filter) (w : Db) :
  admits cfg (pg_effective cfg caller) = true ->
  (PostgresAdapter.softDeleteEnabled cfg = true ->
   has_key (PostgresAdapter.softDeleteField cfg) caller = false) ->
  filter (matches (compile (pg_effective cfg caller)))
    (db_rows (snd (PostgresAdapter.deleteMany cfg caller w))) = [].
Proof.
  intros Hok Hfree.
  rewrite (deleteMany_run cfg w caller Hok). cbn [snd wrote db_rows].
  destruct (PostgresAdapter.softDeleteEnabled cfg) eqn:Hen.
  - apply filter_map_none. intros r.
    apply (stamped_row_hidden cfg caller Hen (Hfree eq_refl)).
  - apply filter_filter_neg.
Qed.

(** X9. A relational [deleteMany] whose merged filter passes the whitelist
    resolves to the number of rows [count] reports for the same filter
    beforehand, and afterwards the filter selects nothing: [count] is 0 and
    [findAll] is empty.  This holds for the hard delete, and for the soft
    delete when the caller's filter does not itself set the soft-delete
    field; with soft delete no row leaves the table. *)
Theorem deleteMany_empties_selection :
  forall (cfg : PostgresAdapter.PostgresEntityConfig) (caller : Filter)
         (w : Db),
    admits cfg (pg_effective cfg caller) = true ->
    (PostgresAdapter.softDeleteEnabled cfg = true ->
     has_key (PostgresAdapter.softDeleteField cfg) caller = false) ->
    let after := snd (PostgresAdapter.deleteMany cfg caller w) in
    fst (PostgresAdapter.deleteMany cfg caller w)
    = fst (PostgresAdapter.count cfg (Some caller) w) /\
    (exists n, fst (PostgresAdapter.count cfg (Some caller) w) = Ok n) /\
    fst (PostgresAdapter.count cfg (Some caller) after) = Ok 0 /\
    fst (PostgresAdapter.findAll cfg (Some caller) after) = Ok [] /\
    (PostgresAdapter.softDeleteEnabled cfg = true ->
     List.length (db_rows after) = List.length (db_rows w)).
Proof.
  intros cfg caller w Hok Hfree after.
  pose proof (deleteMany_selection cfg caller w Hok Hfree) as Hsel.
  fold after in Hsel.
  split; [ | split; [ | split; [ | split]]].
  - rewrite (deleteMany_run cfg w caller Hok), (count_run cfg caller w Hok).
    reflexivity.
  - rewrite (count_run cfg caller w Hok). eexists. reflexivity.
  - rewrite (count_run cfg caller after Hok), Hsel. reflexivity.
  - rewrite (findAll_rows cfg caller after Hok), Hsel. reflexivity.
  - intros Hen. unfold after.
    rewrite (deleteMany_run cfg w caller Hok), Hen. cbn [snd wrote db_rows].
    apply length_map.
Qed.

Lemma deleteMany_empties_selection_witness :
  let after :=
    snd (PostgresAdapter.deleteMany soft_config
           [("name", lit (SStr "Ann"))] one_user) in
  fst (PostgresAdapter.deleteMany soft_config [("name", lit (SStr "Ann"))]
         one_user) = Ok 1 /\
  fst (PostgresAdapter.count soft_config (Some [("name", lit (SStr "Ann"))])
         after) = Ok 0 /\
  List.length (db_rows after) = 1%nat.
Proof.
  intros after.
  destruct (deleteMany_empties_selection soft_config
              [("name", lit (SStr "Ann"))] one_user eq_refl
              (fun _ => eq_refl)) as [H1 [_ [H3 [_ H5]]]].
  split; [exact H1 | ]. split; [exact H3 | exact (H5 eq_refl)].
Defined.

(* ================================================================== *)
(** * Soft delete removes nothing *)
(* ================================================================== *)

Lemma same_but_refl (c : string) (r : Entity) : same_but c r r.
Proof. intros k _. reflexivity. Qed.

Lemma Forall2_same_refl (c : string) (rows : list Entity) :
  Forall2 (same_but c) rows rows.
Proof.
  induction rows as [ | r rows IH]; constructor;
    [apply same_but_refl | exact IH].
Qed.

Lemma Forall2_patched (c : string) (x : Value) (ws : list Where)
  (rows : list Entity) :
  Forall2 (same_but c) rows (map (patch_row ws [(c, x)]) rows).
Proof.
  induction rows as [ | r rows IH]; simpl; constructor; [ | exact IH].
  unfold patch_row. destruct (matches ws r); [ | apply same_but_refl].
  intros k Hk. rewrite column_written.
  destruct (String.eqb_spec k c) as [E | _]; [contradiction | reflexivity].
Qed.

Lemma applyFilter_stops {A : Type} cfg (merged : Filter) (qb : Query)
  (k : Query -> M Db A) (w : Db) :
  admits cfg merged = false ->
  exists e, bind (PostgresAdapter.applyFilter cfg qb merged) k w = (Throw e, w).
Proof.
  intros Hno.
  destruct (applyFilter_rejected cfg merged qb w Hno) as [field [_ [_ Heq]]].
  exists (PostgresAdapter.field_not_allowed cfg field).
  unfold bind. rewrite Heq. reflexivity.
Qed.

Lemma keeps_rows_unchanged {A : Type} (c : string) (call : M Db A) (w : Db)
  (l : list DbEvent) :
  db_log (snd (call w)) = db_log w ++ l -> queries l = [] ->
  db_rows (snd (call w)) = db_rows w ->
  keeps_rows c call w.
Proof.
  intros Hlog Hq Hrows. split.
  - rewrite (ran_eq call w l Hlog), Hq. constructor.
  - rewrite Hrows. apply Forall2_same_refl.
Qed.

Lemma keeps_rows_update {A : Type} (c : string) (x : Value) (call : M Db A)
  (w : Db) (pre post : list DbEvent) (q : Query) (ws : list Where) :
  db_log (snd (call w)) = db_log w ++ pre ++ [Executed q] ++ post ->
  queries pre = [] -> queries post = [] -> is_delete q = false ->
  db_rows (snd (call w)) = map (patch_row ws [(c, x)]) (db_rows w) ->
  keeps_rows c call w.
Proof.
  intros Hlog Hpre Hpost Hq Hrows. split.
  - rewrite (ran_eq call w _ Hlog), !queries_app, Hpre, Hpost. simpl.
    constructor; [exact Hq | constructor].
  - rewrite Hrows. apply Forall2_patched.
Qed.

Section SoftKeeps.
Variable cfg : PostgresAdapter.PostgresEntityConfig.
Variable w : Db.
Hypothesis enabled : PostgresAdapter.softDeleteEnabled cfg = true.
Let sdf : string := PostgresAdapter.softDeleteField cfg.

Lemma softDelete_keeps (id : Id) :
  keeps_rows sdf (PostgresAdapter.softDelete cfg id) w.
Proof.
  destruct (admits cfg (pg_effective_id cfg)) eqn:Hok.
  - pose proof (softDelete_run cfg id w Hok) as Hrun. cbv zeta in Hrun.
    eapply keeps_rows_update with (pre := []) (post := []);
      try rewrite Hrun; reflexivity.
  - unfold PostgresAdapter.softDelete. cbv zeta.
    unfold pg_effective_id in Hok.
    match goal with
    | |- keeps_rows _ (bind (PostgresAdapter.applyFilter _ ?qb ?f) ?k) _ =>
        destruct (applyFilter_stops cfg f qb k w Hok) as [e He]
    end.
    apply keeps_rows_unchanged with (l := []); try rewrite He;
      [cbn [snd]; rewrite app_nil_r | | ]; reflexivity.
Qed.

Lemma softDeleteMany_keeps (caller : Filter) :
  keeps_rows sdf (PostgresAdapter.softDeleteMany cfg caller) w.
Proof.
  destruct (admits cfg (pg_effective cfg caller)) eqn:Hok.
  - pose proof (softDeleteMany_run cfg w caller Hok) as Hrun.
    cbv zeta in Hrun.
    eapply keeps_rows_update with (pre := []) (post := []);
      try rewrite Hrun; reflexivity.
  - unfold PostgresAdapter.softDeleteMany. cbv zeta.
    unfold pg_effective in Hok.
    match goal with
    | |- keeps_rows _ (bind (PostgresAdapter.applyFilter _ ?qb ?f) ?k) _ =>
        destruct (applyFilter_stops cfg f qb k w Hok) as [e He]
    end.
    apply keeps_rows_unchanged with (l := []); try rewrite He;
      [cbn [snd]; rewrite app_nil_r | | ]; reflexivity.
Qed.

Lemma deleteMany_keeps (caller : Filter) :
  keeps_rows sdf (PostgresAdapter.deleteMany cfg caller) w.
Proof.
  destruct (admits cfg (pg_effective cfg caller)) eqn:Hok.
  - pose proof (deleteMany_run cfg w caller Hok) as Hrun.
    cbv zeta in Hrun. rewrite enabled in Hrun.
    eapply keeps_rows_update with (pre := []) (post := []);
      try rewrite Hrun; reflexivity.
  - unfold PostgresAdapter.deleteMany. cbv zeta. rewrite enabled.
    unfold pg_effective in Hok.
    match goal with
    | |- keeps_rows _ (bind (PostgresAdapter.applyFilter _ ?qb ?f) ?k) _ =>
        destruct (applyFilter_stops cfg f qb k w Hok) as [e He]
    end.
    apply keeps_rows_unchanged with (l := []); try rewrite He;
      [cbn [snd]; rewrite app_nil_r | | ]; reflexivity.
Qed.

Lemma deleteById_keeps (id : Id) :
  keeps_rows sdf (PostgresAdapter.deleteById cfg id) w.
Proof.
  destruct (before_delete_output cfg id) as [[] | e] eqn:Hout.
  - destruct (admits cfg (pg_effective_id cfg)) eqn:Hok.
    + pose proof (deleteById_run cfg id w Hout Hok) as Hrun.
      cbv zeta in Hrun. rewrite enabled in Hrun.
      eapply keeps_rows_update; try (rewrite Hrun; reflexivity).
      * apply queries_before_delete.
      * apply queries_after_delete.
      * reflexivity.
    + unfold PostgresAdapter.deleteById. cbv zeta. rewrite enabled.
      apply keeps_rows_unchanged with (l := before_delete_calls cfg id).
      * unfold bind at 1. rewrite runBeforeDelete_run, Hout.
        unfold bind at 1. unfold pg_effective_id in Hok.
        match goal with
        | |- context [bind (PostgresAdapter.applyFilter _ ?qb ?f) ?k ?w0] =>
            destruct (applyFilter_stops cfg f qb k w0 Hok) as [e He];
            rewrite He
        end.
        reflexivity.
      * apply queries_before_delete.
      * unfold bind at 1. rewrite runBeforeDelete_run, Hout.
        unfold bind at 1. unfold pg_effective_id in Hok.
        match goal with
        | |- context [bind (PostgresAdapter.applyFilter _ ?qb ?f) ?k ?w0] =>
            destruct (applyFilter_stops cfg f qb k w0 Hok) as [e He];
            rewrite He
        end.
        reflexivity.
  - pose proof (deleteById_vetoed cfg id w e Hout) as Hrun.
    apply keeps_rows_unchanged with (l := before_delete_calls cfg id).
    + rewrite Hrun. reflexivity.
    + apply queries_before_delete.
    + rewrite Hrun. reflexivity.
Qed.

End SoftKeeps.

(** X10. With soft delete enabled, none of the relational [deleteById],
    [deleteMany], [softDelete] and [softDeleteMany] removes a row, whatever
    the filter, the whitelist and the hooks do: no [DELETE] statement is
    run, and the table afterwards has the same rows in the same order, each
    differing from before on the soft-delete column at most. *)
Theorem soft_delete_removes_nothing :
  forall (cfg : PostgresAdapter.PostgresEntityConfig) (w : Db),
    PostgresAdapter.softDeleteEnabled cfg = true ->
    let c := PostgresAdapter.softDeleteField cfg in
    (forall id, keeps_rows c (PostgresAdapter.deleteById cfg id) w) /\
    (forall f, keeps_rows c (PostgresAdapter.deleteMany cfg f) w) /\
    (forall id, keeps_rows c (PostgresAdapter.softDelete cfg id) w) /\
    (forall f, keeps_rows c (PostgresAdapter.softDeleteMany cfg f) w).
Proof.
  intros cfg w Hen c. unfold c.
  split; [intros id; apply deleteById_keeps, Hen | ].
  split; [intros f; apply deleteMany_keeps, Hen | ].
  split; [intros id; apply softDelete_keeps | ].
  intros f; apply softDeleteMany_keeps.
Qed.

Lemma soft_delete_removes_nothing_witness :
  keeps_rows "deleted_at" (PostgresAdapter.deleteById soft_config (IdNum 1))
    one_user /\
  keeps_rows "deleted_at" (PostgresAdapter.deleteMany soft_config [])
    one_user.
Proof.
  destruct (soft_delete_removes_nothing soft_config one_user eq_refl)
    as [Hid [Hmany _]].
  split; [exact (Hid (IdNum 1)) | exact (Hmany [])].
Defined.

(* ================================================================== *)
(** * Upsert *)
(* ================================================================== *)

Section UpsertRuns.
Variable cfg : PostgresAdapter.PostgresEntityConfig.
Variable caller : Filter.
Variable data : Payload.
Variable w : Db.
Hypothesis admitted : admits cfg (pg_effective cfg caller) = true.

Let ws : list Where := compile (pg_effective cfg caller).
Let hit : list Entity := filter (matches ws) (db_rows w).
Let lookup : Query :=
  filter_query cfg (pg_effective cfg caller) (First None).

Lemma upsert_insert_run :
  hd_error hit = None ->
  let payload := stamped (PostgresAdapter.timestampsEnabled cfg)
                   (PostgresAdapter.createdAtField cfg) (db_now w)
                   (obj_literal [caller; data]) in
  PostgresAdapter.upsert cfg caller data w
  = (Ok payload,
     wrote w (db_rows w ++ [payload])
       [Executed lookup; Executed (insert_of cfg payload)]).
Proof.
  intros Hnone payload.
  unfold PostgresAdapter.upsert. cbv zeta.
  pose proof admitted as Hok. unfold pg_effective in Hok.
  unfold bind at 1. rewrite (applyFilter_admitted cfg _ _ _ Hok).
  unfold bind at 1.
  unfold execute at 1, with_wheres, with_verb, kx.
  cbn [q_verb q_where q_table q_order q_limit q_offset app].
  rewrite sort_rows_unordered. unfold window.
  cbn [q_limit q_offset]. rewrite project_all.
  fold (pg_effective cfg caller). fold ws. fold hit. rewrite Hnone.
  cbn [as_first]. unfold bind at 1. rewrite addCreatedAt_run.
  cbn [db_now]. fold payload.
  unfold bind, execute, ret, wrote, insert_of, with_verb, kx, lookup,
    filter_query, PostgresAdapter.first_or_empty.
  cbn [q_verb q_where q_table q_order q_limit q_offset db_rows db_now db_log
    as_first hd_error or_default].
  fold ws. rewrite <- app_assoc. reflexivity.
Qed.

Lemma upsert_update_run (existing : Entity) :
  hd_error hit = Some existing ->
  let patch := stamped (PostgresAdapter.timestampsEnabled cfg)
                 (PostgresAdapter.updatedAtField cfg) (db_now w) data in
  let key := WhereEq (PostgresAdapter.pk cfg)
               (match column existing (PostgresAdapter.pk cfg) with
                | Lit v => v
                | Obj _ => JScalar SNull
                end) in
  PostgresAdapter.upsert cfg caller data w
  = (Ok (or_default
           (hd_error (map (fun r => spread r patch)
                        (filter (matches [key]) (db_rows w)))) []),
     wrote w (map (patch_row [key] patch) (db_rows w))
       [Executed lookup;
        Executed (mkQuery (PostgresAdapter.table cfg) (UpdateReturning patch)
                    [key] [] None None)]).
Proof.
  intros Hsome patch key.
  unfold PostgresAdapter.upsert. cbv zeta.
  pose proof admitted as Hok. unfold pg_effective in Hok.
  unfold bind at 1. rewrite (applyFilter_admitted cfg _ _ _ Hok).
  unfold bind at 1.
  unfold execute at 1, with_wheres, with_verb, kx.
  cbn [q_verb q_where q_table q_order q_limit q_offset app].
  rewrite sort_rows_unordered. unfold window.
  cbn [q_limit q_offset]. rewrite project_all.
  fold (pg_effective cfg caller). fold ws. fold hit. rewrite Hsome.
  cbn [as_first]. unfold bind at 1. rewrite addUpdatedAt_run.
  cbn [db_now]. fold patch.
  unfold bind, execute, ret, wrote, and_where, lookup, filter_query,
    PostgresAdapter.first_or_empty.
  cbn [q_verb q_where q_table q_order q_limit q_offset db_rows db_now db_log
    as_first app].
  fold key. fold ws. rewrite <- app_assoc. reflexivity.
Qed.

End UpsertRuns.

(** X11. A relational [upsert] whose merged filter passes the whitelist
    and compares each column with values of its own JavaScript type first
    looks for a row as [findOne] does.  When there is none it runs one
    insert of [{ ...filter, ...data }] (data winning on shared keys) with
    the creation timestamp added when timestamps are enabled, and resolves
    to that row.  When there is one and the patch ([data], with the update
    timestamp when enabled) is not empty, it runs one
    [UPDATE ... RETURNING] writing the patch on the rows whose primary key
    equals that row's, the key being the only condition of the statement;
    no row is added.  In both cases no hook is called. *)
Theorem upsert_inserts_or_updates :
  forall (cfg : PostgresAdapter.PostgresEntityConfig) (caller : Filter)
         (data : Payload) (w : Db),
    admits cfg (pg_effective cfg caller) = true ->
    typed_for (compile (pg_effective cfg caller)) (db_rows w) = true ->
    let call := PostgresAdapter.upsert cfg caller data in
    let lookup := filter_query cfg (pg_effective cfg caller) (First None) in
    (fst (PostgresAdapter.findOne cfg caller w) = Ok None ->
     let payload := stamped (PostgresAdapter.timestampsEnabled cfg)
                      (PostgresAdapter.createdAtField cfg) (db_now w)
                      (obj_literal [caller; data]) in
     fst (call w) = Ok payload /\
     logged call w = [Executed lookup; Executed (insert_of cfg payload)] /\
     hook_calls (logged call w) = [] /\
     db_rows (snd (call w)) = db_rows w ++ [payload] /\
     (forall k,
         k <> PostgresAdapter.createdAtField cfg
         \/ PostgresAdapter.timestampsEnabled cfg = false ->
         obj_get k payload
         = match obj_get k data with
           | Some v => Some v
           | None => obj_get k caller
           end)) /\
    (forall existing,
        fst (PostgresAdapter.findOne cfg caller w) = Ok (Some existing) ->
        let patch := stamped (PostgresAdapter.timestampsEnabled cfg)
                       (PostgresAdapter.updatedAtField cfg) (db_now w)
                       data in
        let key := WhereEq (PostgresAdapter.pk cfg)
                     (match column existing (PostgresAdapter.pk cfg) with
                      | Lit v => v
                      | Obj _ => JScalar SNull
                      end) in
        patch <> [] ->
        typed_for [key] (db_rows w) = true ->
        logged call w
        = [Executed lookup;
           Executed (mkQuery (PostgresAdapter.table cfg)
                       (UpdateReturning patch) [key] [] None None)] /\
        hook_calls (logged call w) = [] /\
        db_rows (snd (call w)) = map (patch_row [key] patch) (db_rows w) /\
        List.length (db_rows (snd (call w))) = List.length (db_rows w)).
Proof.
  intros cfg caller data w Hok _ call lookup.
  pose proof (findOne_run cfg caller w Hok) as Hone.
  split.
  - intros Hnone payload. rewrite Hone in Hnone.
    injection Hnone as Hnone.
    pose proof (upsert_insert_run cfg caller data w Hok Hnone) as Hrun.
    cbv zeta in Hrun. fold payload call lookup in Hrun.
    split; [rewrite Hrun; reflexivity | ].
    split; [apply (logged_wrote _ _ _ _ _ Hrun) | ].
    split; [rewrite (logged_wrote _ _ _ _ _ Hrun); reflexivity | ].
    split; [rewrite Hrun; reflexivity | ].
    intros k Hk. unfold payload, stamped.
    destruct (PostgresAdapter.timestampsEnabled cfg).
    + destruct Hk as [Hk | Hk]; [ | discriminate].
      rewrite obj_get_literal2. cbn [obj_get].
      destruct (String.eqb_spec k (PostgresAdapter.createdAtField cfg))
        as [E | _]; [contradiction | ].
      change (obj_get k (obj_literal [caller; data])
              = match obj_get k data with
                | Some v => Some v
                | None => obj_get k caller
                end).
      apply obj_get_literal2.
    + apply obj_get_literal2.
  - intros existing Hsome patch key _ _. rewrite Hone in Hsome.
    injection Hsome as Hsome.
    pose proof (upsert_update_run cfg caller data w Hok existing Hsome)
      as Hrun.
    cbv zeta in Hrun. fold patch key call lookup in Hrun.
    split; [apply (logged_wrote _ _ _ _ _ Hrun) | ].
    split; [rewrite (logged_wrote _ _ _ _ _ Hrun); reflexivity | ].
    split; [rewrite Hrun; reflexivity | ].
    rewrite Hrun. cbn [snd wrote db_rows]. apply length_map.
Qed.

Lemma upsert_inserts_or_updates_witness :
  let call := PostgresAdapter.upsert hard_config
                [("name", lit (SStr "Ann"))] [("age", lit (SNum 30))] in
  db_rows (snd (call empty_db))
  = [[("name", lit (SStr "Ann")); ("age", lit (SNum 30))]] /\
  db_rows (snd (call one_user))
  = [[("id", lit (SNum 1)); ("name", lit (SStr "Ann"));
      ("deleted_at", lit SNull); ("age", lit (SNum 30))]].
Proof.
  intros call.
  destruct (upsert_inserts_or_updates hard_config
              [("name", lit (SStr "Ann"))] [("age", lit (SNum 30))] empty_db
              eq_refl eq_refl) as [Hinsert _].
  destruct (upsert_inserts_or_updates hard_config
              [("name", lit (SStr "Ann"))] [("age", lit (SNum 30))] one_user
              eq_refl eq_refl) as [_ Hupdate].
  assert (Hpatch : [("age", lit (SNum 30))] <> @nil (string * Value))
    by discriminate.
  split.
  - exact (proj1 (proj2 (proj2 (proj2 (Hinsert eq_refl))))).
  - exact (proj1 (proj2 (proj2 (Hupdate _ eq_refl Hpatch eq_refl)))).
Defined.

(* ================================================================== *)
(** * Live and deleted rows *)
(* ================================================================== *)

Lemma filter_andb {A : Type} (p q : A -> bool) (l : list A) :
  filter (fun x => p x && q x) l = filter q (filter p l).
Proof.
  induction l as [ | x l IH]; [reflexivity | ].
  simpl. destruct (p x); simpl; [ | exact IH].
  destruct (q x); [f_equal | ]; exact IH.
Qed.

Lemma filter_split_length {A : Type} (p : A -> bool) (l : list A) :
  List.length l
  = (List.length (filter p l)
     + List.length (filter (fun x => negb (p x)) l))%nat.
Proof.
  induction l as [ | x l IH]; [reflexivity | ].
  simpl. destruct (p x); simpl; lia.
Qed.

Section Partition.
Variable cfg : PostgresAdapter.PostgresEntityConfig.
Variable caller : Filter.
Hypothesis enabled : PostgresAdapter.softDeleteEnabled cfg = true.
Hypothesis base_free :
  has_key (PostgresAdapter.softDeleteField cfg) (PostgresAdapter.baseFilter cfg)
  = false.
Hypothesis caller_free :
  has_key (PostgresAdapter.softDeleteField cfg) caller = false.

Let sdf : string := PostgresAdapter.softDeleteField cfg.

Lemma guard_lookup (guard : Value) (k : string) :
  obj_get k
    (obj_literal [PostgresAdapter.baseFilter cfg; [(sdf, guard)]; caller])
  = if String.eqb k sdf then Some guard
    else obj_get k (pg_with_deleted cfg caller).
Proof.
  unfold pg_with_deleted. rewrite obj_get_literal3, obj_get_literal2.
  cbn [obj_get].
  destruct (String.eqb_spec k sdf) as [-> | _].
  - unfold has_key in caller_free. fold sdf in caller_free.
    destruct (obj_get sdf caller); [discriminate | reflexivity].
  - reflexivity.
Qed.

Lemma with_deleted_free : obj_get sdf (pg_with_deleted cfg caller) = None.
Proof.
  unfold pg_with_deleted. rewrite obj_get_literal2.
  unfold has_key in caller_free, base_free.
  fold sdf in caller_free, base_free.
  destruct (obj_get sdf caller); [discriminate | ].
  destruct (obj_get sdf (PostgresAdapter.baseFilter cfg));
    [discriminate | reflexivity].
Qed.

Lemma guarded_matches (guard : Value) (r : Entity) :
  matches
    (compile
       (obj_literal [PostgresAdapter.baseFilter cfg; [(sdf, guard)]; caller]))
    r
  = matches (compile (pg_with_deleted cfg caller)) r
    && matches (PostgresAdapter.clauses sdf guard) r.
Proof.
  apply Bool.eq_iff_eq_true. rewrite Bool.andb_true_iff.
  rewrite !matches_compile_iff by apply NoDup_keys_literal.
  split.
  - intros H. split.
    + intros k v Hk. apply H. rewrite guard_lookup.
      destruct (String.eqb_spec k sdf) as [-> | _]; [ | exact Hk].
      rewrite with_deleted_free in Hk. discriminate.
    + apply H. rewrite guard_lookup, String.eqb_refl. reflexivity.
  - intros [Hall Hguard] k v Hk. rewrite guard_lookup in Hk.
    destruct (String.eqb_spec k sdf) as [-> | _].
    + injection Hk as <-. exact Hguard.
    + apply Hall, Hk.
Qed.

Lemma live_matches (r : Entity) :
  matches (compile (pg_effective cfg caller)) r
  = matches (compile (pg_with_deleted cfg caller)) r && not_deleted cfg r.
Proof.
  unfold pg_effective, PostgresAdapter.notDeletedFilter. rewrite enabled.
  fold sdf. rewrite guarded_matches, clauses_isNull. reflexivity.
Qed.

Lemma dead_matches (r : Entity) :
  matches (compile (pg_deleted cfg caller)) r
  = matches (compile (pg_with_deleted cfg caller)) r
    && negb (not_deleted cfg r).
Proof.
  unfold pg_deleted, PostgresAdapter.deletedFilter.
  fold sdf. rewrite guarded_matches, clauses_isNotNull. reflexivity.
Qed.

Hypothesis admitted : admits cfg (pg_effective cfg caller) = true.

Lemma admits_with_deleted_caller :
  admits cfg (pg_with_deleted cfg caller) = true.
Proof.
  apply admits_iff. intros k Hk.
  apply (admits_In cfg _ k admitted).
  unfold pg_with_deleted in Hk. apply keys_literal_In in Hk.
  destruct Hk as [part [Hpart Hin]].
  unfold pg_effective. apply keys_literal_In. exists part. split; [ | exact Hin].
  simpl in Hpart. simpl. tauto.
Qed.

Lemma admits_deleted_caller : admits cfg (pg_deleted cfg caller) = true.
Proof.
  apply admits_iff. intros k Hk.
  apply (admits_In cfg _ k admitted).
  unfold pg_deleted in Hk. apply keys_literal_In in Hk.
  destruct Hk as [part [Hpart Hin]].
  unfold pg_effective. apply keys_literal_In.
  simpl in Hpart. destruct Hpart as [<- | [<- | [<- | []]]].
  - eexists. split; [left; reflexivity | exact Hin].
  - exists (PostgresAdapter.notDeletedFilter cfg).
    split; [right; left; reflexivity | ].
    unfold PostgresAdapter.notDeletedFilter. rewrite enabled. exact Hin.
  - eexists. split; [right; right; left; reflexivity | exact Hin].
Qed.

Lemma findDeleted_run (w : Db) :
  fst (PostgresAdapter.findDeleted cfg (Some caller) w)
  = Ok (filter (matches (compile (pg_deleted cfg caller))) (db_rows w)).
Proof.
  unfold PostgresAdapter.findDeleted. cbv zeta. cbn [or_default].
  unfold bind at 1.
  pose proof admits_deleted_caller as Hok. unfold pg_deleted in Hok.
  rewrite (applyFilter_admitted cfg _ _ _ Hok).
  unfold bind, execute, ret, with_wheres, with_verb, kx, pg_deleted; simpl.
  rewrite sort_rows_unordered. unfold window; simpl.
  rewrite map_project_all. reflexivity.
Qed.

Lemma partition_run (w : Db) :
  let all := filter (matches (compile (pg_with_deleted cfg caller)))
               (db_rows w) in
  fst (PostgresAdapter.findAllWithDeleted cfg (Some caller) w) = Ok all /\
  fst (PostgresAdapter.findAll cfg (Some caller) w)
  = Ok (filter (not_deleted cfg) all) /\
  fst (PostgresAdapter.findDeleted cfg (Some caller) w)
  = Ok (filter (fun r => negb (not_deleted cfg r)) all).
Proof.
  intros all. split; [ | split].
  - apply (findAllWithDeleted_run cfg (Some caller) w
             admits_with_deleted_caller).
  - rewrite (findAll_rows cfg caller w admitted).
    unfold all. rewrite <- filter_andb. f_equal.
    apply filter_ext. intros r. apply live_matches.
  - rewrite findDeleted_run.
    unfold all. rewrite <- filter_andb. f_equal.
    apply filter_ext. intros r. apply dead_matches.
Qed.

End Partition.

(** X12. With soft delete enabled on the relational backend, when neither
    the default filter nor the caller's filter sets the soft-delete field
    and the merged filter passes the whitelist, [findAllWithDeleted] is
    split by the other two finders: [findAll] returns exactly its rows
    whose soft-delete column is null, [findDeleted] exactly those whose
    soft-delete column is not null, both in the same order, so the two
    results have no row in common and their sizes add up. *)
Theorem finders_split_by_deletion :
  forall (cfg : PostgresAdapter.PostgresEntityConfig) (caller : Filter)
         (w : Db),
    PostgresAdapter.softDeleteEnabled cfg = true ->
    has_key (PostgresAdapter.softDeleteField cfg)
      (PostgresAdapter.baseFilter cfg) = false ->
    has_key (PostgresAdapter.softDeleteField cfg) caller = false ->
    admits cfg (pg_effective cfg caller) = true ->
    exists all,
      fst (PostgresAdapter.findAllWithDeleted cfg (Some caller) w) = Ok all /\
      fst (PostgresAdapter.findAll cfg (Some caller) w)
      = Ok (filter (not_deleted cfg) all) /\
      fst (PostgresAdapter.findDeleted cfg (Some caller) w)
      = Ok (filter (fun r => negb (not_deleted cfg r)) all) /\
      List.length all
      = (List.length (filter (not_deleted cfg) all)
         + List.length (filter (fun r => negb (not_deleted cfg r)) all))%nat.
Proof.
  intros cfg caller w Hen Hbase Hcaller Hok.
  destruct (partition_run cfg caller Hen Hbase Hcaller Hok w)
    as [Hall [Hlive Hdead]].
  eexists. split; [exact Hall | ].
  split; [exact Hlive | ]. split; [exact Hdead | ].
  apply filter_split_length.
Qed.

Lemma finders_split_by_deletion_witness :
  exists all,
    fst (PostgresAdapter.findAllWithDeleted soft_config (Some []) two_users)
    = Ok all /\
    fst (PostgresAdapter.findAll soft_config (Some []) two_users)
    = Ok (filter (not_deleted soft_config) all) /\
    fst (PostgresAdapter.findDeleted soft_config (Some []) two_users)
    = Ok (filter (fun r => negb (not_deleted soft_config r)) all) /\
    List.length all
    = (List.length (filter (not_deleted soft_config) all)
       + List.length
           (filter (fun r => negb (not_deleted soft_config r)) all))%nat.
Proof.
  exact (finders_split_by_deletion soft_config [] two_users eq_refl eq_refl
           eq_refl eq_refl).
Defined.

(* ================================================================== *)
(** * Soft-deleted rows are out of reach of the writes *)
(* ================================================================== *)

Section Frame.
Variable cfg : PostgresAdapter.PostgresEntityConfig.
Variable w : Db.
Hypothesis enabled : PostgresAdapter.softDeleteEnabled cfg = true.

Lemma spares_same {A : Type} (call : M Db A) :
  db_rows (snd (call w)) = db_rows w -> spares_deleted cfg call w.
Proof.
  intros H. unfold spares_deleted. rewrite H.
  generalize (db_rows w). intros rows.
  induction rows as [ | r rows IH]; constructor; [reflexivity | exact IH].
Qed.

Lemma spares_patched {A : Type} (call : M Db A) (ws : list Where)
  (patch : Payload) :
  (forall r, matches ws r = true -> not_deleted cfg r = true) ->
  db_rows (snd (call w)) = map (patch_row ws patch) (db_rows w) ->
  spares_deleted cfg call w.
Proof.
  intros Hguard H. unfold spares_deleted. rewrite H.
  generalize (db_rows w). intros rows.
  induction rows as [ | r rows IH]; simpl; constructor; [ | exact IH].
  intros Hdel. unfold patch_row.
  destruct (matches ws r) eqn:Hm; [ | reflexivity].
  rewrite (Hguard r Hm) in Hdel. discriminate.
Qed.

Lemma by_id_needs_null (id : Id) (r : Entity) :
  matches (by_id cfg id (pg_effective_id cfg)) r = true ->
  not_deleted cfg r = true.
Proof.
  rewrite matches_by_id. intros H. apply Bool.andb_true_iff in H.
  destruct H as [_ H]. apply (not_deleted_matches cfg enabled) in H.
  apply H.
Qed.

Lemma updateById_spares (id : Id) (update : Payload) :
  spares_deleted cfg (PostgresAdapter.updateById cfg id update) w.
Proof.
  destruct (before_update_output cfg update) as [out | e] eqn:Hout.
  - destruct (admits cfg (pg_effective_id cfg)) eqn:Hok.
    + pose proof (updateById_run cfg id w update out Hout Hok) as Hrun.
      cbv zeta in Hrun.
      eapply spares_patched; [apply (by_id_needs_null id) | ].
      rewrite Hrun. reflexivity.
    + apply spares_same.
      unfold PostgresAdapter.updateById. cbv zeta. unfold bind at 1.
      rewrite runBeforeUpdate_run, Hout.
      unfold bind at 1. rewrite addUpdatedAt_run.
      unfold pg_effective_id in Hok.
      match goal with
      | |- context [bind (PostgresAdapter.applyFilter _ ?qb ?f) ?k ?w0] =>
          destruct (applyFilter_stops cfg f qb k w0 Hok) as [e He];
          rewrite He
      end.
      reflexivity.
  - apply spares_same. rewrite (updateById_vetoed cfg id w update e Hout).
    reflexivity.
Qed.

Lemma deleteById_spares (id : Id) :
  spares_deleted cfg (PostgresAdapter.deleteById cfg id) w.
Proof.
  destruct (before_delete_output cfg id) as [[] | e] eqn:Hout.
  - destruct (admits cfg (pg_effective_id cfg)) eqn:Hok.
    + pose proof (deleteById_run cfg id w Hout Hok) as Hrun.
      cbv zeta in Hrun. rewrite enabled in Hrun.
      eapply spares_patched; [apply (by_id_needs_null id) | ].
      rewrite Hrun. reflexivity.
    + apply spares_same.
      unfold PostgresAdapter.deleteById. cbv zeta. rewrite enabled.
      unfold bind at 1. rewrite runBeforeDelete_run, Hout.
      unfold bind at 1. unfold pg_effective_id in Hok.
      match goal with
      | |- context [bind (PostgresAdapter.applyFilter _ ?qb ?f) ?k ?w0] =>
          destruct (applyFilter_stops cfg f qb k w0 Hok) as [e He];
          rewrite He
      end.
      reflexivity.
  - apply spares_same. rewrite (deleteById_vetoed cfg id w e Hout).
    reflexivity.
Qed.

Lemma softDelete_spares (id : Id) :
  spares_deleted cfg (PostgresAdapter.softDelete cfg id) w.
Proof.
  destruct (admits cfg (pg_effective_id cfg)) eqn:Hok.
  - pose proof (softDelete_run cfg id w Hok) as Hrun. cbv zeta in Hrun.
    eapply spares_patched; [apply (by_id_needs_null id) | ].
    rewrite Hrun. reflexivity.
  - apply spares_same.
    unfold PostgresAdapter.softDelete. cbv zeta.
    unfold pg_effective_id in Hok.
    match goal with
    | |- context [bind (PostgresAdapter.applyFilter _ ?qb ?f) ?k ?w0] =>
        destruct (applyFilter_stops cfg f qb k w0 Hok) as [e He];
        rewrite He
    end.
    reflexivity.
Qed.

Variable caller : Filter.
Hypothesis caller_free :
  has_key (PostgresAdapter.softDeleteField cfg) caller = false.

Lemma many_spares {A : Type} (call : M Db A) (patch : Payload) :
  (admits cfg (pg_effective cfg caller) = true ->
   db_rows (snd (call w))
   = map (patch_row (compile (pg_effective cfg caller)) patch) (db_rows w)) ->
  (admits cfg (pg_effective cfg caller) = false ->
   db_rows (snd (call w)) = db_rows w) ->
  spares_deleted cfg call w.
Proof.
  intros Hyes Hno.
  destruct (admits cfg (pg_effective cfg caller)) eqn:Hok.
  - eapply spares_patched; [ | apply Hyes; reflexivity].
    apply (effective_needs_null cfg caller enabled caller_free).
  - apply spares_same, Hno. reflexivity.
Qed.

Lemma updateMany_spares (update : Payload) :
  spares_deleted cfg (PostgresAdapter.updateMany cfg caller update) w.
Proof.
  eapply many_spares.
  - intros Hok. rewrite (updateMany_run cfg w caller Hok). reflexivity.
  - intros Hok. unfold PostgresAdapter.updateMany. cbv zeta.
    unfold bind at 1. rewrite addUpdatedAt_run.
    unfold pg_effective in Hok.
    match goal with
    | |- context [bind (PostgresAdapter.applyFilter _ ?qb ?f) ?k ?w0] =>
        destruct (applyFilter_stops cfg f qb k w0 Hok) as [e He];
        rewrite He
    end.
    reflexivity.
Qed.

Lemma deleteMany_spares :
  spares_deleted cfg (PostgresAdapter.deleteMany cfg caller) w.
Proof.
  eapply many_spares.
  - intros Hok. rewrite (deleteMany_run cfg w caller Hok), enabled.
    reflexivity.
  - intros Hok. unfold PostgresAdapter.deleteMany. cbv zeta.
    rewrite enabled. unfold pg_effective in Hok.
    match goal with
    | |- context [bind (PostgresAdapter.applyFilter _ ?qb ?f) ?k ?w0] =>
        destruct (applyFilter_stops cfg f qb k w0 Hok) as [e He];
        rewrite He
    end.
    reflexivity.
Qed.

Lemma softDeleteMany_spares :
  spares_deleted cfg (PostgresAdapter.softDeleteMany cfg caller) w.
Proof.
  eapply many_spares.
  - intros Hok. rewrite (softDeleteMany_run cfg w caller Hok). reflexivity.
  - intros Hok. unfold PostgresAdapter.softDeleteMany. cbv zeta.
    unfold pg_effective in Hok.
    match goal with
    | |- context [bind (PostgresAdapter.applyFilter _ ?qb ?f) ?k ?w0] =>
        destruct (applyFilter_stops cfg f qb k w0 Hok) as [e He];
        rewrite He
    end.
    reflexivity.
Qed.

End Frame.

(** X13. With soft delete enabled on the relational backend, a row whose
    soft-delete column is not null is out of reach of the writes:
    [updateById], [deleteById] and [softDelete] leave every such row where
    and as it was, whatever the id, the payload, the whitelist and the hooks
    do, and so do [updateMany], [deleteMany] and [softDeleteMany] for every
    caller filter that does not itself set the soft-delete field. *)
Theorem writes_spare_deleted_rows :
  forall (cfg : PostgresAdapter.PostgresEntityConfig) (w : Db),
    PostgresAdapter.softDeleteEnabled cfg = true ->
    (forall id update,
        spares_deleted cfg (PostgresAdapter.updateById cfg id update) w) /\
    (forall id, spares_deleted cfg (PostgresAdapter.deleteById cfg id) w) /\
    (forall id, spares_deleted cfg (PostgresAdapter.softDelete cfg id) w) /\
    (forall caller,
        has_key (PostgresAdapter.softDeleteField cfg) caller = false ->
        (forall update,
            spares_deleted cfg
              (PostgresAdapter.updateMany cfg caller update) w) /\
        spares_deleted cfg (PostgresAdapter.deleteMany cfg caller) w /\
        spares_deleted cfg (PostgresAdapter.softDeleteMany cfg caller) w).
Proof.
  intros cfg w Hen.
  split; [intros id update; apply updateById_spares, Hen | ].
  split; [intros id; apply deleteById_spares, Hen | ].
  split; [intros id; apply softDelete_spares, Hen | ].
  intros caller Hfree.
  split; [intros update; apply updateMany_spares; assumption | ].
  split; [apply deleteMany_spares | apply softDeleteMany_spares];
    assumption.
Qed.

Lemma writes_spare_deleted_rows_witness :
  spares_deleted soft_config
    (PostgresAdapter.updateById soft_config (IdNum 2)
       [("name", lit (SStr "Rob"))]) two_users /\
  spares_deleted soft_config
    (PostgresAdapter.updateMany soft_config [] [("name", lit (SStr "Rob"))])
    two_users.
Proof.
  destruct (writes_spare_deleted_rows soft_config two_users eq_refl)
    as [Hid [_ [_ Hmany]]].
  split.
  - exact (Hid (IdNum 2) [("name", lit (SStr "Rob"))]).
  - exact (proj1 (Hmany [] eq_refl) [("name", lit (SStr "Rob"))]).
Defined.

(* ================================================================== *)
(** * More on the transaction coordinators *)
(* ================================================================== *)

Lemma tx_added_eq {T : Type} (run : M TxWorld T) (w : TxWorld)
  (l : list TxEvent) :
  tx_log (snd (run w)) = tx_log w ++ l -> tx_added run w = l.
Proof. intros H. unfold tx_added. rewrite H. apply skipn_past. Qed.

(** X14. A transaction that fails [j] times with an error its classifier
    accepts, in the callback or in the commit, and then goes through, with
    [j] not above [retries]: the relational coordinator resolves to the
    callback's result of attempt [j + 1], having opened [j + 1]
    transactions on handles of their own and slept
    [min (100 * 2 ^ attempt) 3000] after each of the first [j]; the
    document coordinator does the same with [j + 1] sessions, each ended
    before the next is started.  No attempt is made after the successful
    one. *)
Theorem retries_until_success :
  forall (T : Type) (pg mongo : TxClient T) (options : TransactionOptions)
         (N j n : nat) (v v' : T),
    retries options = Some (Z.of_nat N) ->
    (j <= N)%nat ->
    (forall i, (i < j)%nat ->
       exists e, attempt_outcome pg (n + i) = Throw e /\
                 PostgresAdapter.isRetryableError e = true) ->
    attempt_outcome pg (n + j) = Ok v ->
    (forall i, (i < j)%nat ->
       exists e, attempt_outcome mongo (n + i) = Throw e /\
                 MongoAdapter.isTransientError e = true) ->
    attempt_outcome mongo (n + j) = Ok v' ->
    let run_pg := PostgresAdapter.withTransaction pg options (mkTxWorld [] n) in
    let run_mongo :=
      MongoAdapter.withTransaction mongo options (mkTxWorld [] n) in
    fst run_pg = Ok v /\
    begun (tx_log (snd run_pg)) = seq n (j + 1) /\
    slept (tx_log (snd run_pg)) = map backoffMs (attempts j) /\
    (exists before, tx_log (snd run_pg) = before ++ [EvCommit (n + j)%nat]) /\
    fst run_mongo = Ok v' /\
    sessions_started (tx_log (snd run_mongo)) = seq n (j + 1) /\
    slept (tx_log (snd run_mongo)) = map backoffMs (attempts j) /\
    sessions_released None (tx_log (snd run_mongo)) = true /\
    (exists before,
        tx_log (snd run_mongo)
        = before ++ [EvCommit (n + j)%nat; EvEndSession (n + j)%nat]).
Proof.
  intros T pg mongo options N j n v v' Hret Hj Hpg Hv Hmongo Hv'
    run_pg run_mongo.
  assert (Rpg : run_pg
                = (Ok v,
                   mkTxWorld
                     (pg_retried_log pg
                        (or_default (isolationLevel options) ReadCommitted)
                        (or_default (timeout options)
                           DEFAULT_TRANSACTION_TIMEOUT) n 0 j
                      ++ pg_attempt_log pg
                           (or_default (isolationLevel options) ReadCommitted)
                           (or_default (timeout options)
                              DEFAULT_TRANSACTION_TIMEOUT) (n + j))
                     (S (n + j)))).
  { unfold run_pg.
    rewrite (pg_run pg options N j (mkTxWorld [] n) Hret Hj).
    - cbn [tx_next tx_log]. rewrite Hv. reflexivity.
    - exact Hpg.
    - cbn [tx_next]. rewrite Hv. exact I. }
  assert (Rmg : run_mongo
                = (Ok v',
                   mkTxWorld
                     ([EvConnect]
                      ++ mongo_retried_log mongo
                           (or_default (timeout options)
                              DEFAULT_TRANSACTION_TIMEOUT) n 0 j
                      ++ mongo_attempt_log mongo
                           (or_default (timeout options)
                              DEFAULT_TRANSACTION_TIMEOUT) (n + j)
                      ++ [EvEndSession (n + j)%nat])
                     (S (n + j)))).
  { unfold run_mongo.
    rewrite (mongo_run mongo options N j (mkTxWorld [] n) Hret Hj).
    - cbn [tx_next tx_log]. rewrite Hv'. reflexivity.
    - exact Hmongo.
    - cbn [tx_next]. rewrite Hv'. exact I. }
  assert (Cpg : exists x, callback pg (n + j) = Ok x).
  { unfold attempt_outcome in Hv.
    destruct (callback pg (n + j)) as [x | e]; [eauto | discriminate]. }
  assert (Cmg : callback mongo (n + j) = Ok v'
                /\ commit_error mongo (n + j) = None).
  { unfold attempt_outcome in Hv'.
    destruct (callback mongo (n + j)) as [x | e]; [ | discriminate].
    destruct (commit_error mongo (n + j)); [discriminate | ].
    split; [exact Hv' | reflexivity]. }
  split; [rewrite Rpg; reflexivity | ].
  split.
  { rewrite Rpg. cbn [snd tx_log].
    rewrite begun_app, begun_pg_retried, begun_pg_attempt.
    rewrite seq_app. reflexivity. }
  split.
  { rewrite Rpg. cbn [snd tx_log].
    rewrite slept_app, slept_pg_retried, slept_pg_attempt, app_nil_r.
    reflexivity. }
  split.
  { rewrite Rpg. cbn [snd tx_log]. unfold pg_attempt_log.
    destruct Cpg as [x ->].
    eexists. rewrite app_assoc.
    change [EvBegin (n + j)%nat
              (or_default (isolationLevel options) ReadCommitted);
            EvRaw (n + j)%nat
              (or_default (timeout options) DEFAULT_TRANSACTION_TIMEOUT);
            EvCallback (n + j)%nat]
      with ([EvBegin (n + j)%nat
               (or_default (isolationLevel options) ReadCommitted);
             EvRaw (n + j)%nat
               (or_default (timeout options) DEFAULT_TRANSACTION_TIMEOUT)]
            ++ [EvCallback (n + j)%nat]).
    rewrite !app_assoc. reflexivity. }
  split; [rewrite Rmg; reflexivity | ].
  split.
  { rewrite Rmg. cbn [snd tx_log].
    rewrite !sessions_started_app, started_mongo_retried,
      started_mongo_attempt. simpl. rewrite ?app_nil_r, seq_app.
    reflexivity. }
  split.
  { rewrite Rmg. cbn [snd tx_log].
    rewrite !slept_app, slept_mongo_retried, slept_mongo_attempt. simpl.
    rewrite ?app_nil_r. reflexivity. }
  split.
  { unfold run_mongo. apply mongo_run_releases. reflexivity. }
  rewrite Rmg. cbn [snd tx_log]. unfold mongo_attempt_log.
  destruct Cmg as [Hc Hn]. rewrite Hv', Hc.
  eexists. rewrite app_nil_r.
  rewrite !app_assoc. rewrite <- app_assoc.
  reflexivity.
Qed.

Lemma retries_until_success_witness :
  let run_pg :=
    PostgresAdapter.withTransaction (flaky 1 2 (pg_error "40P01"))
      (with_retries 3) (mkTxWorld [] 0) in
  let run_mongo :=
    MongoAdapter.withTransaction (flaky 1 2 (mongo_error 189))
      (with_retries 3) (mkTxWorld [] 0) in
  fst run_pg = Ok 2%nat /\
  begun (tx_log (snd run_pg)) = [0; 1; 2]%nat /\
  slept (tx_log (snd run_pg)) = [100; 200] /\
  fst run_mongo = Ok 2%nat /\
  sessions_started (tx_log (snd run_mongo)) = [0; 1; 2]%nat.
Proof.
  intros run_pg run_mongo.
  assert (Hpg : forall i, (i < 2)%nat ->
            exists e,
              attempt_outcome (flaky 1 2 (pg_error "40P01")) (0 + i)
              = Throw e /\
              PostgresAdapter.isRetryableError e = true).
  { intros [ | [ | i]] Hi; [ | | lia];
      exists (pg_error "40P01"); split; reflexivity. }
  assert (Hmg : forall i, (i < 2)%nat ->
            exists e,
              attempt_outcome (flaky 1 2 (mongo_error 189)) (0 + i)
              = Throw e /\
              MongoAdapter.isTransientError e = true).
  { intros [ | [ | i]] Hi; [ | | lia];
      exists (mongo_error 189); split; reflexivity. }
  destruct (retries_until_success nat (flaky 1 2 (pg_error "40P01"))
              (flaky 1 2 (mongo_error 189)) (with_retries 3) 3 2 0 2%nat
              2%nat eq_refl (le_S _ _ (le_n 2)) Hpg eq_refl Hmg eq_refl)
    as [H1 [H2 [H3 [_ [H5 [H6 _]]]]]].
  split; [exact H1 | ]. split; [exact H2 | ]. split; [exact H3 | ].
  split; [exact H5 | exact H6].
Defined.

(** X15. With a negative [retries] option the loop body never runs: the
    relational coordinator rejects with [Error('Transaction failed')]
    without opening a transaction, calling the callback or touching the
    log; the document coordinator connects and then rejects with the same
    error without starting a session. *)
Theorem negative_retries_no_attempt :
  forall (T : Type) (client : TxClient T) (options : TransactionOptions)
         (r : Z) (w : TxWorld),
    retries options = Some r ->
    r < 0 ->
    PostgresAdapter.withTransaction client options w
    = (Throw (new_Error "Transaction failed"), w) /\
    MongoAdapter.withTransaction client options w
    = (Throw (new_Error "Transaction failed"),
       mkTxWorld (tx_log w ++ [EvConnect]) (tx_next w)).
Proof.
  intros T client options r w Hret Hr.
  unfold PostgresAdapter.withTransaction, MongoAdapter.withTransaction.
  rewrite Hret. cbn [or_default].
  replace (Z.to_nat (r + 1)) with 0%nat by lia.
  split; reflexivity.
Qed.

Lemma negative_retries_no_attempt_witness :
  PostgresAdapter.withTransaction (throws_until 0 (pg_error "40001"))
    (with_retries (-1)) (mkTxWorld [] 0)
  = (Throw (new_Error "Transaction failed"), mkTxWorld [] 0).
Proof.
  exact (proj1 (negative_retries_no_attempt nat
                  (throws_until 0 (pg_error "40001")) (with_retries (-1))
                  (-1) (mkTxWorld [] 0) eq_refl eq_refl)).
Defined.

(** ** Effort of a run, whatever the callback does *)

Lemma called_back_app (l1 l2 : list TxEvent) :
  called_back (l1 ++ l2) = called_back l1 ++ called_back l2.
Proof.
  induction l1 as [ | e l1 IH]; [reflexivity | ].
  destruct e; simpl; rewrite IH; reflexivity.
Qed.

Lemma backoffMs_bounds (attempt : Z) :
  0 <= attempt -> 100 <= backoffMs attempt <= 3000.
Proof.
  intros Ha. unfold backoffMs.
  assert (1 <= 2 ^ attempt).
  { pose proof (Z.pow_pos_nonneg 2 attempt). lia. }
  lia.
Qed.

Lemma effort_last (n : Z) (handles : list TxEvent -> list nat)
  (l : list TxEvent) (h : nat) :
  0 <= n ->
  handles l = [h] -> called_back l = [h] -> slept l = [] ->
  bounded_effort n handles l.
Proof.
  intros Hb Hh Hc Hs. unfold bounded_effort. rewrite Hh, Hc, Hs.
  cbn [List.length total fold_right].
  split; [lia | ]. split; [reflexivity | ]. split; [lia | ].
  split; [apply Forall_nil | lia].
Qed.

Lemma effort_step (n : Z) (handles : list TxEvent -> list nat)
  (l1 l2 : list TxEvent) (h : nat) (ms : Z) :
  (forall a b, handles (a ++ b) = handles a ++ handles b) ->
  handles l1 = [h] -> called_back l1 = [h] -> slept l1 = [ms] ->
  100 <= ms <= 3000 ->
  bounded_effort (n - 1) handles l2 ->
  bounded_effort n handles (l1 ++ l2).
Proof.
  intros Happ Hh Hc Hs Hms [[E1 E2] [E3 [E4 [E5 E6]]]].
  unfold bounded_effort.
  rewrite Happ, called_back_app, slept_app, Hh, Hc, Hs, E3.
  cbn [app List.length total fold_right]. fold (total (slept l2)).
  split; [lia | ]. split; [reflexivity | ]. split; [lia | ].
  split; [apply Forall_cons; assumption | lia].
Qed.

Section Effort.
Context {T : Type}.
Variable client : TxClient T.
Variable level : TransactionIsolationLevel.
Variables tmo retries : Z.

Lemma called_back_pg_attempt h :
  called_back (pg_attempt_log client level tmo h) = [h].
Proof.
  unfold pg_attempt_log. destruct (callback client h); reflexivity.
Qed.

Lemma called_back_mongo_attempt h :
  called_back (mongo_attempt_log client tmo h) = [h].
Proof.
  unfold mongo_attempt_log.
  destruct (callback client h), (attempt_outcome client h); reflexivity.
Qed.

Lemma pg_loop_effort (fuel : nat) :
  forall (attempt : Z) (last : option Thrown) (w : TxWorld),
    0 <= attempt ->
    (1 <= fuel)%nat ->
    Z.of_nat fuel = retries + 1 - attempt ->
    exists l,
      tx_log (snd (PostgresAdapter.retry_loop client level tmo retries fuel
                     attempt last w))
      = tx_log w ++ l /\
      bounded_effort (Z.of_nat fuel - 1) begun l.
Proof.
  induction fuel as [ | fuel IH]; intros attempt last w Ha Hf Hfuel; [lia | ].
  assert (Hle : attempt <= retries) by lia.
  destruct (attempt_outcome client (tx_next w)) as [v | e] eqn:Ho.
  - rewrite pg_turn by exact Hle. cbv zeta. rewrite Ho. cbn [snd tx_log].
    eexists. split; [reflexivity | ].
    apply effort_last with (h := tx_next w); [lia | | | ].
    + apply begun_pg_attempt.
    + apply called_back_pg_attempt.
    + apply slept_pg_attempt.
  - rewrite (pg_turn_thrown client level tmo retries fuel attempt last w e
               Hle Ho). cbv zeta.
    destruct (PostgresAdapter.isRetryableError e && (attempt <? retries))
      eqn:Hgo.
    + apply andb_true_iff in Hgo as [_ Hlt]. apply Z.ltb_lt in Hlt.
      destruct (IH (attempt + 1) (Some e)
                  (mkTxWorld
                     ((tx_log w ++ pg_attempt_log client level tmo (tx_next w))
                      ++ [EvSleep (backoffMs attempt)]) (S (tx_next w))))
        as [l [Hl He]]; [lia | lia | lia | ].
      rewrite Hl. cbn [tx_log].
      exists ((pg_attempt_log client level tmo (tx_next w)
               ++ [EvSleep (backoffMs attempt)]) ++ l).
      split; [rewrite !app_assoc; reflexivity | ].
      apply effort_step with (h := tx_next w) (ms := backoffMs attempt).
      * apply begun_app.
      * rewrite begun_app, begun_pg_attempt. reflexivity.
      * rewrite called_back_app, called_back_pg_attempt. reflexivity.
      * rewrite slept_app, slept_pg_attempt. reflexivity.
      * apply backoffMs_bounds, Ha.
      * replace (Z.of_nat (S fuel) - 1 - 1) with (Z.of_nat fuel - 1) by lia.
        exact He.
    + cbn [snd tx_log]. eexists. split; [reflexivity | ].
      apply effort_last with (h := tx_next w); [lia | | | ].
      * apply begun_pg_attempt.
      * apply called_back_pg_attempt.
      * apply slept_pg_attempt.
Qed.

Lemma mongo_loop_effort (fuel : nat) :
  forall (attempt : Z) (last : option Thrown) (w : TxWorld),
    0 <= attempt ->
    (1 <= fuel)%nat ->
    Z.of_nat fuel = retries + 1 - attempt ->
    exists l,
      tx_log (snd (MongoAdapter.retry_loop client tmo retries fuel attempt
                     last w))
      = tx_log w ++ l /\
      bounded_effort (Z.of_nat fuel - 1) sessions_started l.
Proof.
  induction fuel as [ | fuel IH]; intros attempt last w Ha Hf Hfuel; [lia | ].
  assert (Hle : attempt <= retries) by lia.
  destruct (attempt_outcome client (tx_next w)) as [v | e] eqn:Ho.
  - rewrite mongo_turn by exact Hle. cbv zeta. rewrite Ho. cbn [snd tx_log].
    eexists. split; [rewrite <- app_assoc; reflexivity | ].
    apply effort_last with (h := tx_next w); [lia | | | ].
    + rewrite sessions_started_app, started_mongo_attempt. reflexivity.
    + rewrite called_back_app, called_back_mongo_attempt. reflexivity.
    + rewrite slept_app, slept_mongo_attempt. reflexivity.
  - rewrite (mongo_turn_thrown client tmo retries fuel attempt last w e
               Hle Ho). cbv zeta.
    destruct (MongoAdapter.isTransientError e && (attempt <? retries))
      eqn:Hgo.
    + apply andb_true_iff in Hgo as [_ Hlt]. apply Z.ltb_lt in Hlt.
      destruct (IH (attempt + 1) (Some e)
                  (mkTxWorld
                     ((tx_log w ++ mongo_attempt_log client tmo (tx_next w))
                      ++ [EvSleep (backoffMs attempt);
                          EvEndSession (tx_next w)]) (S (tx_next w))))
        as [l [Hl He]]; [lia | lia | lia | ].
      rewrite Hl. cbn [tx_log].
      exists ((mongo_attempt_log client tmo (tx_next w)
               ++ [EvSleep (backoffMs attempt); EvEndSession (tx_next w)])
              ++ l).
      split; [rewrite !app_assoc; reflexivity | ].
      apply effort_step with (h := tx_next w) (ms := backoffMs attempt).
      * apply sessions_started_app.
      * rewrite sessions_started_app, started_mongo_attempt. reflexivity.
      * rewrite called_back_app, called_back_mongo_attempt. reflexivity.
      * rewrite slept_app, slept_mongo_attempt. reflexivity.
      * apply backoffMs_bounds, Ha.
      * replace (Z.of_nat (S fuel) - 1 - 1) with (Z.of_nat fuel - 1) by lia.
        exact He.
    + cbn [snd tx_log]. eexists. split; [rewrite <- app_assoc; reflexivity | ].
      apply effort_last with (h := tx_next w); [lia | | | ].
      * rewrite sessions_started_app, started_mongo_attempt. reflexivity.
      * rewrite called_back_app, called_back_mongo_attempt. reflexivity.
      * rewrite slept_app, slept_mongo_attempt. reflexivity.
Qed.

End Effort.

(** X16. Whatever the callback and the commits do, a coordinator run with
    [retries = n >= 0] (0 when the option is absent) makes at least one and
    at most [n + 1] attempts, each on a fresh transaction (relational) or
    session (document); it invokes the callback exactly once per attempt,
    on that attempt's handle; it sleeps exactly once between two
    consecutive attempts, each time between 100 and 3000 ms, so at most
    [3000 * n] ms in all. *)
Theorem transaction_effort_bounded :
  forall (T : Type) (client : TxClient T) (options : TransactionOptions)
         (w : TxWorld),
    let n := or_default (retries options) 0 in
    0 <= n ->
    bounded_effort n begun
      (tx_added (PostgresAdapter.withTransaction client options) w) /\
    bounded_effort n sessions_started
      (tx_added (MongoAdapter.withTransaction client options) w).
Proof.
  intros T client options w n Hn.
  assert (Hfuel : Z.of_nat (Z.to_nat (n + 1)) = n + 1 - 0) by lia.
  assert (Hpos : (1 <= Z.to_nat (n + 1))%nat) by lia.
  split.
  - destruct (pg_loop_effort client
                (or_default (isolationLevel options) ReadCommitted)
                (or_default (timeout options) DEFAULT_TRANSACTION_TIMEOUT)
                n (Z.to_nat (n + 1)) 0 None w (Z.le_refl 0) Hpos Hfuel)
      as [l [Hl He]].
    rewrite (tx_added_eq _ w l).
    + replace (Z.of_nat (Z.to_nat (n + 1)) - 1) with n in He by lia.
      exact He.
    + exact Hl.
  - destruct (mongo_loop_effort client
                (or_default (timeout options) DEFAULT_TRANSACTION_TIMEOUT)
                n (Z.to_nat (n + 1)) 0 None
                (mkTxWorld (tx_log w ++ [EvConnect]) (tx_next w))
                (Z.le_refl 0) Hpos Hfuel) as [l [Hl He]].
    rewrite (tx_added_eq _ w ([EvConnect] ++ l)).
    + replace (Z.of_nat (Z.to_nat (n + 1)) - 1) with n in He by lia.
      exact He.
    + unfold MongoAdapter.withTransaction. fold n.
      unfold bind at 1. unfold emit at 1. cbn [tx_log tx_next].
      rewrite Hl. cbn [tx_log]. rewrite <- app_assoc. reflexivity.
Qed.

Lemma transaction_effort_bounded_witness :
  bounded_effort 3 begun
    (tx_added
       (PostgresAdapter.withTransaction (flaky 1 2 (pg_error "40P01"))
          (with_retries 3)) (mkTxWorld [] 0)).
Proof.
  refine (proj1 (transaction_effort_bounded nat
                   (flaky 1 2 (pg_error "40P01")) (with_retries 3)
                   (mkTxWorld [] 0) _)).
  cbn. discriminate.
Defined.

(* ================================================================== *)
(** * The document repository and its driver calls *)
(* ================================================================== *)

Section Tracing.
Variable opts : MongoAdapter.MongoRepositoryOptions (list Traced).
Variable session : option nat.
Hypothesis traced : MongoAdapter.opts_model opts = tracing_model.

Lemma traced_now (w : list Traced) :
  MongoAdapter.new_Date opts w = (Ok (lit (SDate tracing_now)), w).
Proof.
  unfold MongoAdapter.new_Date, MongoAdapter.model. rewrite traced.
  reflexivity.
Qed.

Lemma traced_addCreatedAt (data : Payload) (w : list Traced) :
  MongoAdapter.addCreatedAt opts data w
  = (Ok (stamped (MongoAdapter.timestampsEnabled opts)
           (MongoAdapter.createdAtField opts) tracing_now data), w).
Proof.
  unfold MongoAdapter.addCreatedAt, stamped.
  destruct (MongoAdapter.timestampsEnabled opts); [ | reflexivity].
  unfold bind. rewrite traced_now. reflexivity.
Qed.

Lemma traced_addUpdatedAt (data : Payload) (w : list Traced) :
  MongoAdapter.addUpdatedAt opts data w
  = (Ok (stamped (MongoAdapter.timestampsEnabled opts)
           (MongoAdapter.updatedAtField opts) tracing_now data), w).
Proof.
  unfold MongoAdapter.addUpdatedAt, stamped.
  destruct (MongoAdapter.timestampsEnabled opts); [ | reflexivity].
  unfold bind. rewrite traced_now. reflexivity.
Qed.

Ltac one_call :=
  unfold in_session, calls, MongoAdapter.model; rewrite ?traced;
  cbn; repeat constructor.

Lemma create_in_session data :
  in_session session (MongoAdapter.create opts session data).
Proof.
  unfold in_session, calls, MongoAdapter.create. unfold bind.
  rewrite traced_addCreatedAt. unfold MongoAdapter.model. rewrite traced.
  cbn. repeat constructor.
Qed.

Lemma findById_in_session id :
  in_session session (MongoAdapter.findById opts session id).
Proof. unfold MongoAdapter.findById. one_call. Qed.

Lemma findAll_in_session f :
  in_session session (MongoAdapter.findAll opts session f).
Proof. unfold MongoAdapter.findAll. one_call. Qed.

Lemma findOne_in_session f :
  in_session session (MongoAdapter.findOne opts session f).
Proof. unfold MongoAdapter.findOne. one_call. Qed.

Lemma findPage_in_session options :
  in_session session (MongoAdapter.findPage opts session options).
Proof.
  unfold MongoAdapter.findPage. cbv zeta.
  unfold in_session, calls, MongoAdapter.model. rewrite traced.
  unfold bind. cbn. repeat constructor.
Qed.

Lemma updateById_in_session id update :
  in_session session (MongoAdapter.updateById opts session id update).
Proof.
  unfold in_session, calls, MongoAdapter.updateById. cbv zeta. unfold bind.
  rewrite traced_addUpdatedAt. unfold MongoAdapter.model. rewrite traced.
  cbn. repeat constructor.
Qed.

Lemma deleteById_in_session id :
  in_session session (MongoAdapter.deleteById opts session id).
Proof.
  unfold in_session, calls, MongoAdapter.deleteById.
  destruct (MongoAdapter.softDeleteEnabled opts).
  - cbv zeta. unfold bind. rewrite traced_now.
    unfold MongoAdapter.model. rewrite traced. cbn. repeat constructor.
  - unfold bind, MongoAdapter.model. rewrite traced. cbn.
    repeat constructor.
Qed.

Lemma count_in_session f :
  in_session session (MongoAdapter.count opts session f).
Proof. unfold MongoAdapter.count. one_call. Qed.

Lemma exists_in_session f :
  in_session session (MongoAdapter.exists_ opts session f).
Proof.
  unfold MongoAdapter.exists_. destruct session; cbv zeta.
  - unfold in_session, calls, bind, MongoAdapter.model. rewrite traced.
    cbn. repeat constructor.
  - one_call.
Qed.

Lemma traced_stamps (data : list Payload) (w : list Traced) :
  mapM (MongoAdapter.addCreatedAt opts) data w
  = (Ok (map (stamped (MongoAdapter.timestampsEnabled opts)
                (MongoAdapter.createdAtField opts) tracing_now) data), w).
Proof.
  apply (mapM_pure (MongoAdapter.addCreatedAt opts)
           (fun _ => stamped (MongoAdapter.timestampsEnabled opts)
                       (MongoAdapter.createdAtField opts) tracing_now)).
  intros a. apply traced_addCreatedAt.
Qed.

Lemma insertMany_in_session data :
  in_session session (MongoAdapter.insertMany opts session data).
Proof.
  unfold in_session, calls, MongoAdapter.insertMany.
  destruct (Nat.eqb (List.length data) 0); [constructor | ].
  unfold bind. rewrite traced_stamps.
  unfold MongoAdapter.model. rewrite traced. cbn. repeat constructor.
Qed.

Lemma updateMany_in_session f update :
  in_session session (MongoAdapter.updateMany opts session f update).
Proof.
  unfold in_session, calls, MongoAdapter.updateMany. cbv zeta. unfold bind.
  rewrite traced_addUpdatedAt. unfold MongoAdapter.model. rewrite traced.
  cbn. repeat constructor.
Qed.

Lemma deleteMany_in_session f :
  in_session session (MongoAdapter.deleteMany opts session f).
Proof.
  unfold in_session, calls, MongoAdapter.deleteMany. cbv zeta.
  destruct (MongoAdapter.softDeleteEnabled opts).
  - unfold bind. rewrite traced_now.
    unfold MongoAdapter.model. rewrite traced. cbn. repeat constructor.
  - unfold MongoAdapter.model. rewrite traced. cbn. repeat constructor.
Qed.

Lemma upsert_in_session f data :
  in_session session (MongoAdapter.upsert opts session f data).
Proof.
  unfold in_session, calls, MongoAdapter.upsert, MongoAdapter.new_Date,
    MongoAdapter.model. cbv zeta. rewrite traced.
  destruct (MongoAdapter.timestampsEnabled opts); cbn; repeat constructor.
Qed.

Lemma distinct_in_session field f :
  in_session session (MongoAdapter.distinct opts session field f).
Proof. unfold MongoAdapter.distinct. one_call. Qed.

Lemma select_in_session f fields :
  in_session session (MongoAdapter.select opts session f fields).
Proof. unfold MongoAdapter.select. one_call. Qed.

Lemma softDelete_in_session id :
  in_session session (MongoAdapter.softDelete opts session id).
Proof.
  unfold in_session, calls, MongoAdapter.softDelete. cbv zeta. unfold bind.
  rewrite traced_now. unfold MongoAdapter.model. rewrite traced. cbn.
  repeat constructor.
Qed.

Lemma softDeleteMany_in_session f :
  in_session session (MongoAdapter.softDeleteMany opts session f).
Proof.
  unfold in_session, calls, MongoAdapter.softDeleteMany. cbv zeta.
  unfold bind. rewrite traced_now. unfold MongoAdapter.model.
  rewrite traced. cbn. repeat constructor.
Qed.

Lemma restore_in_session id :
  in_session session (MongoAdapter.restore opts session id).
Proof. unfold MongoAdapter.restore. one_call. Qed.

Lemma restoreMany_in_session f :
  in_session session (MongoAdapter.restoreMany opts session f).
Proof. unfold MongoAdapter.restoreMany. one_call. Qed.

Lemma findAllWithDeleted_in_session f :
  in_session session (MongoAdapter.findAllWithDeleted opts session f).
Proof. unfold MongoAdapter.findAllWithDeleted. one_call. Qed.

Lemma findDeleted_in_session f :
  in_session session (MongoAdapter.findDeleted opts session f).
Proof. unfold MongoAdapter.findDeleted. one_call. Qed.

End Tracing.

(** X17. A document repository reaches the driver only through calls that
    carry the session it was created with: for a repository created inside
    a transaction every driver call of every one of its twenty-one
    operations is made in that transaction's session, and for a repository
    created without a session none carries one.  ([exists] asks the driver's
    own [exists], which takes no session, only when the repository has
    none.) *)
Theorem session_on_every_driver_call :
  forall (opts : MongoAdapter.MongoRepositoryOptions (list Traced))
         (session : option nat),
    MongoAdapter.opts_model opts = tracing_model ->
    (forall data, in_session session (MongoAdapter.create opts session data)) /\
    (forall id, in_session session (MongoAdapter.findById opts session id)) /\
    (forall f, in_session session (MongoAdapter.findAll opts session f)) /\
    (forall f, in_session session (MongoAdapter.findOne opts session f)) /\
    (forall o, in_session session (MongoAdapter.findPage opts session o)) /\
    (forall id u,
        in_session session (MongoAdapter.updateById opts session id u)) /\
    (forall id, in_session session (MongoAdapter.deleteById opts session id)) /\
    (forall f, in_session session (MongoAdapter.count opts session f)) /\
    (forall f, in_session session (MongoAdapter.exists_ opts session f)) /\
    (forall data,
        in_session session (MongoAdapter.insertMany opts session data)) /\
    (forall f u,
        in_session session (MongoAdapter.updateMany opts session f u)) /\
    (forall f, in_session session (MongoAdapter.deleteMany opts session f)) /\
    (forall f data,
        in_session session (MongoAdapter.upsert opts session f data)) /\
    (forall field f,
        in_session session (MongoAdapter.distinct opts session field f)) /\
    (forall f fields,
        in_session session (MongoAdapter.select opts session f fields)) /\
    (forall id, in_session session (MongoAdapter.softDelete opts session id)) /\
    (forall f,
        in_session session (MongoAdapter.softDeleteMany opts session f)) /\
    (forall id, in_session session (MongoAdapter.restore opts session id)) /\
    (forall f, in_session session (MongoAdapter.restoreMany opts session f)) /\
    (forall f,
        in_session session (MongoAdapter.findAllWithDeleted opts session f)) /\
    (forall f, in_session session (MongoAdapter.findDeleted opts session f)).
Proof.
  intros opts session Ht.
  split; [intros; apply create_in_session, Ht | ].
  split; [intros; apply findById_in_session, Ht | ].
  split; [intros; apply findAll_in_session, Ht | ].
  split; [intros; apply findOne_in_session, Ht | ].
  split; [intros; apply findPage_in_session, Ht | ].
  split; [intros; apply updateById_in_session, Ht | ].
  split; [intros; apply deleteById_in_session, Ht | ].
  split; [intros; apply count_in_session, Ht | ].
  split; [intros; apply exists_in_session, Ht | ].
  split; [intros; apply insertMany_in_session, Ht | ].
  split; [intros; apply updateMany_in_session, Ht | ].
  split; [intros; apply deleteMany_in_session, Ht | ].
  split; [intros; apply upsert_in_session, Ht | ].
  split; [intros; apply distinct_in_session, Ht | ].
  split; [intros; apply select_in_session, Ht | ].
  split; [intros; apply softDelete_in_session, Ht | ].
  split; [intros; apply softDeleteMany_in_session, Ht | ].
  split; [intros; apply restore_in_session, Ht | ].
  split; [intros; apply restoreMany_in_session, Ht | ].
  split; [intros; apply findAllWithDeleted_in_session, Ht | ].
  intros; apply findDeleted_in_session, Ht.
Qed.

Lemma session_on_every_driver_call_witness :
  calls (MongoAdapter.findPage (tracing_options (Some true) None) (Some 7%nat)
           None)
  = [TFind [("deletedAt", Obj [("$eq", JScalar SNull)])]
       (MongoAdapter.mkFindOptions (Some 0) (Some 10) None None)
       (Some 7%nat);
     TCountDocuments [("deletedAt", Obj [("$eq", JScalar SNull)])]
       (Some 7%nat)] /\
  in_session (Some 7%nat)
    (MongoAdapter.findPage (tracing_options (Some true) None) (Some 7%nat)
       None).
Proof.
  split; [reflexivity | ].
  exact (proj1 (proj2 (proj2 (proj2 (proj2
           (session_on_every_driver_call (tracing_options (Some true) None)
              (Some 7%nat) eq_refl))))) None).
Defined.

(** X18. With soft delete enabled the document repository never asks the
    driver to remove a document: [deleteById] and [softDelete] make one
    [updateOne] call on [{ _id: id, [softDeleteField]: { $eq: null } }],
    [deleteMany] and [softDeleteMany] one [updateMany] call on the caller's
    filter with the same guard merged over it, each setting the soft-delete
    field to the current date.  Without soft delete [deleteById] makes one
    [findByIdAndDelete] call and [deleteMany] one [deleteMany] call on the
    caller's filter. *)
Theorem document_deletes :
  forall (opts : MongoAdapter.MongoRepositoryOptions (list Traced))
         (session : option nat) (id : Id) (f : Filter),
    MongoAdapter.opts_model opts = tracing_model ->
    let field := MongoAdapter.softDeleteField opts in
    let guard := [(field, Obj [("$eq", JScalar SNull)])] in
    let stamp := MongoAdapter.Fields [(field, lit (SDate tracing_now))] in
    let one :=
      [TUpdateOne (obj_literal [[("_id", lit (id_value id))]; guard]) stamp
         session] in
    let many := [TUpdateMany (obj_literal [f; guard]) stamp session] in
    (MongoAdapter.softDeleteEnabled opts = true ->
     calls (MongoAdapter.deleteById opts session id) = one /\
     calls (MongoAdapter.softDelete opts session id) = one /\
     calls (MongoAdapter.deleteMany opts session f) = many /\
     calls (MongoAdapter.softDeleteMany opts session f) = many /\
     existsb is_removal (one ++ many) = false) /\
    (MongoAdapter.softDeleteEnabled opts = false ->
     calls (MongoAdapter.deleteById opts session id)
     = [TFindByIdAndDelete id session] /\
     calls (MongoAdapter.deleteMany opts session f)
     = [TDeleteMany (obj_literal [f; []]) session]).
Proof.
  intros opts session id f Ht field guard stamp one many.
  split; intros Hen.
  - unfold calls, MongoAdapter.deleteById, MongoAdapter.softDelete,
      MongoAdapter.deleteMany, MongoAdapter.softDeleteMany,
      MongoAdapter.notDeletedFilter, MongoAdapter.new_Date,
      MongoAdapter.model.
    rewrite Hen, Ht. cbv zeta.
    repeat split.
  - unfold calls, MongoAdapter.deleteById, MongoAdapter.deleteMany,
      MongoAdapter.notDeletedFilter, MongoAdapter.model.
    rewrite Hen, Ht. cbv zeta.
    split; reflexivity.
Qed.

Lemma document_deletes_witness :
  calls (MongoAdapter.deleteById (tracing_options (Some true) None) None
           (IdNum 1))
  = [TUpdateOne
       [("_id", lit (SNum 1)); ("deletedAt", Obj [("$eq", JScalar SNull)])]
       (MongoAdapter.Fields [("deletedAt", lit (SDate 1000))]) None] /\
  calls (MongoAdapter.deleteById (tracing_options None None) None (IdNum 1))
  = [TFindByIdAndDelete (IdNum 1) None].
Proof.
  split.
  - exact (proj1 (proj1 (document_deletes (tracing_options (Some true) None)
                           None (IdNum 1) [] eq_refl) eq_refl)).
  - exact (proj1 (proj2 (document_deletes (tracing_options None None) None
                           (IdNum 1) [] eq_refl) eq_refl)).
Defined.

(* ================================================================== *)
(** * The relational adapter object *)
(* ================================================================== *)

Section PgObject.
Variable config : PostgresAdapterObject.PostgresDatabaseConfig.
Variable server : PostgresAdapterObject.Server.

Lemma connect_fresh (overrides : obj Setting)
  (w : PostgresAdapterObject.World) :
  PostgresAdapterObject.knexInstance w = None ->
  let i := PostgresAdapterObject.knex_next (PostgresAdapterObject.driver w) in
  PostgresAdapterObject.connect config overrides w
  = (Ok i,
     PostgresAdapterObject.mkWorld (Some i)
       (PostgresAdapterObject.mkDriver
          (PostgresAdapterObject.knex_log (PostgresAdapterObject.driver w)
           ++ [PostgresAdapterObject.KnexCreated i
                 (PostgresAdapterObject.knex_settings config overrides)])
          (S i)
          (PostgresAdapterObject.clock_reads
             (PostgresAdapterObject.driver w)))
       (PostgresAdapterObject.transactions w)).
Proof.
  intros Hnone i. unfold PostgresAdapterObject.connect. rewrite Hnone.
  reflexivity.
Qed.

Lemma connect_cached (overrides : obj Setting)
  (w : PostgresAdapterObject.World) (i : nat) :
  PostgresAdapterObject.knexInstance w = Some i ->
  PostgresAdapterObject.connect config overrides w = (Ok i, w).
Proof.
  intros H. unfold PostgresAdapterObject.connect. rewrite H. reflexivity.
Qed.

Lemma connect_connects (overrides : obj Setting)
  (w : PostgresAdapterObject.World) :
  exists i,
    fst (PostgresAdapterObject.connect config overrides w) = Ok i /\
    PostgresAdapterObject.knexInstance
      (snd (PostgresAdapterObject.connect config overrides w)) = Some i.
Proof.
  destruct (PostgresAdapterObject.knexInstance w) as [i | ] eqn:H.
  - exists i. rewrite (connect_cached overrides w i H).
    split; [reflexivity | exact H].
  - exists (PostgresAdapterObject.knex_next (PostgresAdapterObject.driver w)).
    rewrite (connect_fresh overrides w H). split; reflexivity.
Qed.

End PgObject.

(** X19. [PostgresAdapter.connect] creates the pool once and keeps it: on
    an adapter without an instance it asks the driver for one new instance,
    configured with client [pg], the connection string, the pool
    [{ min 0, max 10, idleTimeoutMillis 30000, acquireTimeoutMillis 60000 }]
    unless the configuration or the overrides say otherwise (an override
    wins on every key it sets), and returns it; on an adapter that has an
    instance it returns that instance and does nothing else, so the
    overrides of every later call are ignored. *)
Theorem pool_created_once :
  forall (config : PostgresAdapterObject.PostgresDatabaseConfig)
         (overrides later : obj Setting) (w : PostgresAdapterObject.World),
    PostgresAdapterObject.knexInstance w = None ->
    let i :=
      PostgresAdapterObject.knex_next (PostgresAdapterObject.driver w) in
    let first := PostgresAdapterObject.connect config overrides w in
    let settings := PostgresAdapterObject.knex_settings config in
    fst first = Ok i /\
    PostgresAdapterObject.knexInstance (snd first) = Some i /\
    PostgresAdapterObject.knex_log (PostgresAdapterObject.driver (snd first))
    = PostgresAdapterObject.knex_log (PostgresAdapterObject.driver w)
      ++ [PostgresAdapterObject.KnexCreated i (settings overrides)] /\
    PostgresAdapterObject.connect config later (snd first)
    = (Ok i, snd first) /\
    (forall k v,
        obj_get k overrides = Some v ->
        obj_get k (settings overrides) = Some v) /\
    (PostgresAdapterObject.pool config = None ->
     obj_get "pool" (settings [])
     = Some (SetObj [("min", 0); ("max", 10); ("idleTimeoutMillis", 30000);
                     ("acquireTimeoutMillis", 60000)]) /\
     obj_get "acquireConnectionTimeout" (settings [])
     = Some (SetNum 60000)) /\
    obj_get "client" (settings []) = Some (SetStr "pg") /\
    obj_get "connection" (settings [])
    = Some (SetStr (PostgresAdapterObject.connectionString config)).
Proof.
  intros config overrides later w Hnone i first settings.
  assert (Hfirst : first = PostgresAdapterObject.connect config overrides w)
    by reflexivity.
  rewrite (connect_fresh config overrides w Hnone) in Hfirst.
  fold i in Hfirst. rewrite Hfirst. unfold settings.
  cbn [fst snd PostgresAdapterObject.knexInstance
         PostgresAdapterObject.driver PostgresAdapterObject.knex_log].
  split; [reflexivity | ]. split; [reflexivity | ]. split; [reflexivity | ].
  split; [apply connect_cached; reflexivity | ].
  split.
  { intros k v Hk. unfold PostgresAdapterObject.knex_settings. cbv zeta.
    rewrite obj_get_literal2, Hk. reflexivity. }
  split.
  { intros Hpool. unfold PostgresAdapterObject.knex_settings.
    rewrite Hpool. split; reflexivity. }
  split; reflexivity.
Qed.

Lemma pool_created_once_witness :
  let config :=
    PostgresAdapterObject.mkPostgresDatabaseConfig "postgres://db" None in
  let first :=
    PostgresAdapterObject.connect config [("debug", SetNum 1)]
      PostgresAdapterObject.fresh in
  fst first = Ok 0%nat /\
  PostgresAdapterObject.connect config [("pool", SetObj [("max", 50)])]
    (snd first)
  = (Ok 0%nat, snd first).
Proof.
  intros config first.
  destruct (pool_created_once config [("debug", SetNum 1)]
              [("pool", SetObj [("max", 50)])] PostgresAdapterObject.fresh
              eq_refl)
    as [H1 [_ [_ [H4 _]]]].
  split; [exact H1 | exact H4].
Defined.

(** X20. [PostgresAdapter.disconnect] destroys the instance and forgets
    it: afterwards [isConnected] is false, [getKnex] throws
    [PostgreSQL not connected. Call connect() first.], a second
    [disconnect] does nothing, and the next [connect] creates a new
    instance.  When destroying the instance fails, [disconnect] rejects
    with that error and the adapter keeps the instance. *)
Theorem disconnect_forgets_pool :
  forall (config : PostgresAdapterObject.PostgresDatabaseConfig)
         (server : PostgresAdapterObject.Server) (overrides : obj Setting)
         (w : PostgresAdapterObject.World) (i : nat),
    PostgresAdapterObject.knexInstance w = Some i ->
    (i < PostgresAdapterObject.knex_next (PostgresAdapterObject.driver w))%nat ->
    let gone := PostgresAdapterObject.disconnect server w in
    fst (PostgresAdapterObject.isConnected w) = Ok true /\
    fst (PostgresAdapterObject.getKnex w) = Ok i /\
    PostgresAdapterObject.knex_log (PostgresAdapterObject.driver (snd gone))
    = PostgresAdapterObject.knex_log (PostgresAdapterObject.driver w)
      ++ [PostgresAdapterObject.KnexDestroyed i] /\
    (PostgresAdapterObject.destroy_error server i = None ->
     fst gone = Ok tt /\
     PostgresAdapterObject.knexInstance (snd gone) = None /\
     fst (PostgresAdapterObject.isConnected (snd gone)) = Ok false /\
     PostgresAdapterObject.getKnex (snd gone)
     = (Throw PostgresAdapterObject.not_connected, snd gone) /\
     PostgresAdapterObject.disconnect server (snd gone)
     = (Ok tt, snd gone) /\
     exists j,
       fst (PostgresAdapterObject.connect config overrides (snd gone))
       = Ok j /\ j <> i) /\
    (forall e,
        PostgresAdapterObject.destroy_error server i = Some e ->
        fst gone = Throw e /\
        PostgresAdapterObject.knexInstance (snd gone) = Some i /\
        fst (PostgresAdapterObject.isConnected (snd gone)) = Ok true).
Proof.
  intros config server overrides w i Hi Hlt gone.
  unfold gone, PostgresAdapterObject.disconnect,
    PostgresAdapterObject.isConnected, PostgresAdapterObject.getKnex.
  rewrite Hi.
  unfold bind, PostgresAdapterObject.knex_event, throw.
  cbn [fst snd].
  split; [reflexivity | ]. split; [reflexivity | ].
  destruct (PostgresAdapterObject.destroy_error server i) as [e | ] eqn:Hd;
    cbn [fst snd PostgresAdapterObject.set_instance
           PostgresAdapterObject.set_driver
           PostgresAdapterObject.knexInstance PostgresAdapterObject.driver
           PostgresAdapterObject.knex_log PostgresAdapterObject.knex_next
           PostgresAdapterObject.transactions
           PostgresAdapterObject.clock_reads].
  - split; [reflexivity | ]. split; [discriminate | ].
    intros e' He'. injection He' as <-.
    split; [reflexivity | ]. split; [exact Hi | ]. rewrite Hi. reflexivity.
  - split; [reflexivity | ]. split; [ | discriminate].
    intros _. repeat split.
    exists (PostgresAdapterObject.knex_next (PostgresAdapterObject.driver w)).
    split.
    + unfold PostgresAdapterObject.connect. cbn. reflexivity.
    + lia.
Qed.

Lemma disconnect_forgets_pool_witness :
  let config :=
    PostgresAdapterObject.mkPostgresDatabaseConfig "postgres://db" None in
  let server :=
    PostgresAdapterObject.mkServer (fun _ => None) (fun _ => Ok None)
      (fun _ => None) (fun n => Z.of_nat n) in
  let connected :=
    snd (PostgresAdapterObject.connect config []
           PostgresAdapterObject.fresh) in
  let gone := snd (PostgresAdapterObject.disconnect server connected) in
  PostgresAdapterObject.getKnex gone
  = (Throw PostgresAdapterObject.not_connected, gone).
Proof.
  intros config server connected gone.
  destruct (disconnect_forgets_pool config server [] connected 0%nat eq_refl
              (le_n 1)) as [_ [_ [_ [Hok _]]]].
  exact (proj1 (proj2 (proj2 (proj2 (Hok eq_refl))))).
Defined.

Section PgHealth.
Variable server : PostgresAdapterObject.Server.
Variable w : PostgresAdapterObject.World.

Let d : PostgresAdapterObject.Driver := PostgresAdapterObject.driver w.
Let elapsed : Z :=
  PostgresAdapterObject.clock server
    (S (PostgresAdapterObject.clock_reads d))
  - PostgresAdapterObject.clock server (PostgresAdapterObject.clock_reads d).

Lemma healthCheck_disconnected :
  PostgresAdapterObject.knexInstance w = None ->
  PostgresAdapterObject.healthCheck server w
  = (Ok (mkHealthCheckResult false elapsed "postgres"
           (Some "Not connected to PostgreSQL") None),
     PostgresAdapterObject.mkWorld None
       (PostgresAdapterObject.mkDriver (PostgresAdapterObject.knex_log d)
          (PostgresAdapterObject.knex_next d)
          (S (S (PostgresAdapterObject.clock_reads d))))
       (PostgresAdapterObject.transactions w)).
Proof.
  intros Hnone. unfold PostgresAdapterObject.healthCheck.
  unfold bind at 1. unfold PostgresAdapterObject.Date_now at 1.
  unfold try_catch.
  cbn [PostgresAdapterObject.set_driver PostgresAdapterObject.knexInstance].
  rewrite Hnone.
  unfold bind, PostgresAdapterObject.Date_now, ret,
    PostgresAdapterObject.set_driver.
  cbn [PostgresAdapterObject.knexInstance PostgresAdapterObject.driver
         PostgresAdapterObject.knex_log PostgresAdapterObject.knex_next
         PostgresAdapterObject.clock_reads
         PostgresAdapterObject.transactions].
  rewrite Hnone. reflexivity.
Qed.

Lemma healthCheck_connected (i : nat) :
  PostgresAdapterObject.knexInstance w = Some i ->
  let pool := PostgresAdapterObject.client_pool server i in
  PostgresAdapterObject.healthCheck server w
  = (Ok (match PostgresAdapterObject.raw_rows server i with
         | Ok rows =>
             mkHealthCheckResult true elapsed "postgres" None
               (Some (mkHealthDetails
                        (PostgresAdapterObject.short_version
                           (match rows with
                            | Some rs => hd_error rs
                            | None => None
                            end))
                        (Some (PostgresAdapterObject.used pool))
                        (Some (PostgresAdapterObject.used pool
                               + PostgresAdapterObject.free pool))))
         | Throw e =>
             mkHealthCheckResult false elapsed "postgres"
               (Some (error_message e)) None
         end),
     PostgresAdapterObject.mkWorld (Some i)
       (PostgresAdapterObject.mkDriver
          (PostgresAdapterObject.knex_log d
           ++ [PostgresAdapterObject.KnexRaw i
                 "SELECT version(), current_database()"])
          (PostgresAdapterObject.knex_next d)
          (S (S (PostgresAdapterObject.clock_reads d))))
       (PostgresAdapterObject.transactions w)).
Proof.
  intros Hi pool. unfold PostgresAdapterObject.healthCheck.
  unfold bind at 1. unfold PostgresAdapterObject.Date_now at 1.
  unfold try_catch.
  cbn [PostgresAdapterObject.set_driver PostgresAdapterObject.knexInstance].
  rewrite Hi.
  unfold PostgresAdapterObject.raw, bind, PostgresAdapterObject.knex_event,
    lift, PostgresAdapterObject.Date_now, ret,
    PostgresAdapterObject.set_driver.
  cbn [PostgresAdapterObject.knexInstance
         PostgresAdapterObject.driver PostgresAdapterObject.knex_log
         PostgresAdapterObject.knex_next PostgresAdapterObject.clock_reads
         PostgresAdapterObject.transactions].
  rewrite Hi.
  destruct (PostgresAdapterObject.raw_rows server i) as [rows | e];
    reflexivity.
Qed.

End PgHealth.

(** X21. [PostgresAdapter.healthCheck] never rejects and never changes the
    adapter: it always resolves to a result of type [postgres] whose
    response time is the difference of its two clock readings.  Without an
    instance the result is unhealthy with the error
    [Not connected to PostgreSQL] and the driver is not called.  With an
    instance it sends one [SELECT version(), current_database()]; when that
    resolves the result is healthy, with the first two words of the version
    and the pool counters (used, and used plus free, each 0 when the pool
    does not report it); when that rejects the result is unhealthy with the
    error's message, [Unknown error] if what was thrown is not an error
    object. *)
Theorem healthCheck_always_answers :
  forall (server : PostgresAdapterObject.Server)
         (w : PostgresAdapterObject.World),
    let d := PostgresAdapterObject.driver w in
    exists r w',
      PostgresAdapterObject.healthCheck server w = (Ok r, w') /\
      PostgresAdapterObject.knexInstance w'
      = PostgresAdapterObject.knexInstance w /\
      hc_type r = "postgres" /\
      responseTimeMs r
      = PostgresAdapterObject.clock server
          (S (PostgresAdapterObject.clock_reads d))
        - PostgresAdapterObject.clock server
            (PostgresAdapterObject.clock_reads d) /\
      (PostgresAdapterObject.knexInstance w = None ->
       healthy r = false /\
       hc_error r = Some "Not connected to PostgreSQL" /\
       PostgresAdapterObject.knex_log (PostgresAdapterObject.driver w')
       = PostgresAdapterObject.knex_log d) /\
      (forall i,
          PostgresAdapterObject.knexInstance w = Some i ->
          PostgresAdapterObject.knex_log (PostgresAdapterObject.driver w')
          = PostgresAdapterObject.knex_log d
            ++ [PostgresAdapterObject.KnexRaw i
                  "SELECT version(), current_database()"] /\
          (forall rows,
              PostgresAdapterObject.raw_rows server i = Ok rows ->
              let pool := PostgresAdapterObject.client_pool server i in
              healthy r = true /\ hc_error r = None /\
              hc_details r
              = Some (mkHealthDetails
                        (PostgresAdapterObject.short_version
                           (match rows with
                            | Some rs => hd_error rs
                            | None => None
                            end))
                        (Some (PostgresAdapterObject.used pool))
                        (Some (PostgresAdapterObject.used pool
                               + PostgresAdapterObject.free pool)))) /\
          (forall e,
              PostgresAdapterObject.raw_rows server i = Throw e ->
              healthy r = false /\ hc_error r = Some (error_message e) /\
              hc_details r = None)).
Proof.
  intros server w d.
  destruct (PostgresAdapterObject.knexInstance w) as [i | ] eqn:Hi.
  - pose proof (healthCheck_connected server w i Hi) as Hrun.
    cbv zeta in Hrun. fold d in Hrun.
    eexists. eexists. split; [exact Hrun | ].
    cbn [PostgresAdapterObject.knexInstance PostgresAdapterObject.driver
           PostgresAdapterObject.knex_log].
    split; [reflexivity | ].
    split; [destruct (PostgresAdapterObject.raw_rows server i); reflexivity | ].
    split; [destruct (PostgresAdapterObject.raw_rows server i); reflexivity | ].
    split; [discriminate | ].
    intros i' Hi'. injection Hi' as <-.
    split; [reflexivity | ].
    split.
    + intros rows Hrows. cbv zeta. rewrite Hrows. repeat split.
    + intros e He. rewrite He. repeat split.
  - pose proof (healthCheck_disconnected server w Hi) as Hrun.
    fold d in Hrun.
    eexists. eexists. split; [exact Hrun | ].
    cbn [PostgresAdapterObject.knexInstance PostgresAdapterObject.driver
           PostgresAdapterObject.knex_log healthy hc_error hc_type
           responseTimeMs].
    split; [reflexivity | ]. split; [reflexivity | ]. split; [reflexivity | ].
    split; [repeat split | discriminate].
Qed.

Example healthCheck_version :
  PostgresAdapterObject.short_version
    (Some (PostgresAdapterObject.mkRawRow
             (Some "PostgreSQL 15.3 on x86_64-pc-linux-gnu, compiled by gcc")))
  = Some "PostgreSQL 15.3".
Proof. reflexivity. Qed.

(* ================================================================== *)
(** * The document adapter object *)
(* ================================================================== *)

Section MongoObject.
Variable config : MongoAdapterObject.MongoDatabaseConfig.
Variable server : MongoAdapterObject.Server.

Lemma mongo_connect_cached (options : obj Setting)
  (w : MongoAdapterObject.World) (settled : Result unit) :
  MongoAdapterObject.connectionPromise w = Some settled ->
  MongoAdapterObject.connect config server options w = (settled, w).
Proof.
  intros H. unfold MongoAdapterObject.connect. rewrite H. reflexivity.
Qed.

Lemma mongo_connect_fresh (options : obj Setting)
  (w : MongoAdapterObject.World) :
  MongoAdapterObject.connectionPromise w = None ->
  let m := MongoAdapterObject.mongoose w in
  let settled :=
    match MongoAdapterObject.connect_error server
            (MongoAdapterObject.connects m) with
    | Some e => Throw e
    | None => Ok tt
    end in
  MongoAdapterObject.connect config server options w
  = (settled,
     MongoAdapterObject.mkWorld (Some settled)
       (MongoAdapterObject.mkMongoose
          (MongoAdapterObject.mg_log m
           ++ [MongoAdapterObject.MgConnect
                 (MongoAdapterObject.connectionString config)
                 (MongoAdapterObject.connect_options config options);
               MongoAdapterObject.MgOn "connected";
               MongoAdapterObject.MgOn "error";
               MongoAdapterObject.MgOn "disconnected"])
          (match MongoAdapterObject.connect_error server
                   (MongoAdapterObject.connects m) with
           | Some _ => 0
           | None => 1
           end)
          (S (MongoAdapterObject.connects m))
          (MongoAdapterObject.disconnects m)
          (MongoAdapterObject.clock_reads m))
       (MongoAdapterObject.transactions w)).
Proof.
  intros Hnone m settled. unfold MongoAdapterObject.connect. rewrite Hnone.
  unfold MongoAdapterObject.mongoose_connect, bind,
    MongoAdapterObject.mongoose_event, lift,
    MongoAdapterObject.set_mongoose, MongoAdapterObject.set_promise.
  cbn [MongoAdapterObject.mongoose MongoAdapterObject.mg_log
         MongoAdapterObject.readyState MongoAdapterObject.connects
         MongoAdapterObject.disconnects MongoAdapterObject.clock_reads
         MongoAdapterObject.connectionPromise
         MongoAdapterObject.transactions].
  fold m. unfold settled.
  destruct (MongoAdapterObject.connect_error server
              (MongoAdapterObject.connects m)) as [e | ];
    cbn [MongoAdapterObject.mongoose MongoAdapterObject.mg_log
           MongoAdapterObject.readyState MongoAdapterObject.connects
           MongoAdapterObject.disconnects MongoAdapterObject.clock_reads
           MongoAdapterObject.connectionPromise
           MongoAdapterObject.transactions];
    rewrite <- !app_assoc; reflexivity.
Qed.

Lemma mongo_disconnect_run (w : MongoAdapterObject.World) :
  let m := MongoAdapterObject.mongoose w in
  MongoAdapterObject.disconnect server w
  = match MongoAdapterObject.disconnect_error server
            (MongoAdapterObject.disconnects m) with
    | Some e =>
        (Throw e,
         MongoAdapterObject.mkWorld (MongoAdapterObject.connectionPromise w)
           (MongoAdapterObject.mkMongoose
              (MongoAdapterObject.mg_log m
               ++ [MongoAdapterObject.MgDisconnect])
              (MongoAdapterObject.readyState m)
              (MongoAdapterObject.connects m)
              (S (MongoAdapterObject.disconnects m))
              (MongoAdapterObject.clock_reads m))
           (MongoAdapterObject.transactions w))
    | None =>
        (Ok tt,
         MongoAdapterObject.mkWorld None
           (MongoAdapterObject.mkMongoose
              (MongoAdapterObject.mg_log m
               ++ [MongoAdapterObject.MgDisconnect])
              0
              (MongoAdapterObject.connects m)
              (S (MongoAdapterObject.disconnects m))
              (MongoAdapterObject.clock_reads m))
           (MongoAdapterObject.transactions w))
    end.
Proof.
  intros m. unfold MongoAdapterObject.disconnect,
    MongoAdapterObject.mongoose_disconnect, bind,
    MongoAdapterObject.mongoose_event,
    MongoAdapterObject.set_mongoose, MongoAdapterObject.set_promise.
  cbn [MongoAdapterObject.mongoose MongoAdapterObject.mg_log
         MongoAdapterObject.readyState MongoAdapterObject.connects
         MongoAdapterObject.disconnects MongoAdapterObject.clock_reads
         MongoAdapterObject.connectionPromise
         MongoAdapterObject.transactions].
  fold m.
  destruct (MongoAdapterObject.disconnect_error server
              (MongoAdapterObject.disconnects m)); reflexivity.
Qed.

End MongoObject.

(** X22. [MongoAdapter.connect] dials once and keeps the promise however
    it settles: on an adapter without a promise it calls
    [mongoose.connect] with the connection string and the options
    [{ maxPoolSize 10, minPoolSize 5, serverSelectionTimeoutMS 5000,
    socketTimeoutMS 45000, maxIdleTimeMS 30000 }] unless the configuration
    or the caller's options say otherwise, registers the three connection
    listeners, and settles as that call does; every later [connect]
    settles the same way without calling Mongoose again, also when the
    first attempt failed. *)
Theorem connection_promise_kept :
  forall (config : MongoAdapterObject.MongoDatabaseConfig)
         (server : MongoAdapterObject.Server) (options later : obj Setting)
         (w : MongoAdapterObject.World),
    MongoAdapterObject.connectionPromise w = None ->
    let m := MongoAdapterObject.mongoose w in
    let first := MongoAdapterObject.connect config server options w in
    fst first
    = match MongoAdapterObject.connect_error server
              (MongoAdapterObject.connects m) with
      | Some e => Throw e
      | None => Ok tt
      end /\
    MongoAdapterObject.mg_log (MongoAdapterObject.mongoose (snd first))
    = MongoAdapterObject.mg_log m
      ++ [MongoAdapterObject.MgConnect
            (MongoAdapterObject.connectionString config)
            (MongoAdapterObject.connect_options config options);
          MongoAdapterObject.MgOn "connected";
          MongoAdapterObject.MgOn "error";
          MongoAdapterObject.MgOn "disconnected"] /\
    MongoAdapterObject.connect config server later (snd first)
    = (fst first, snd first) /\
    (forall k v,
        obj_get k options = Some v ->
        obj_get k (MongoAdapterObject.connect_options config options)
        = Some v) /\
    (MongoAdapterObject.pool config = None ->
     MongoAdapterObject.serverSelectionTimeoutMS config = None ->
     MongoAdapterObject.socketTimeoutMS config = None ->
     MongoAdapterObject.connect_options config []
     = [("maxPoolSize", SetNum 10); ("minPoolSize", SetNum 5);
        ("serverSelectionTimeoutMS", SetNum 5000);
        ("socketTimeoutMS", SetNum 45000); ("maxIdleTimeMS", SetNum 30000)]).
Proof.
  intros config server options later w Hnone m first.
  assert (Hfirst : first = MongoAdapterObject.connect config server options w)
    by reflexivity.
  rewrite (mongo_connect_fresh config server options w Hnone) in Hfirst.
  fold m in Hfirst. rewrite Hfirst.
  cbn [fst snd MongoAdapterObject.mongoose MongoAdapterObject.mg_log].
  split; [reflexivity | ]. split; [reflexivity | ].
  split; [apply mongo_connect_cached; reflexivity | ].
  split.
  { intros k v Hk. unfold MongoAdapterObject.connect_options. cbv zeta.
    rewrite obj_get_literal2, Hk. reflexivity. }
  intros Hp Hs Hk. unfold MongoAdapterObject.connect_options.
  rewrite Hp, Hs, Hk. reflexivity.
Qed.

Lemma connection_promise_kept_witness :
  let config :=
    MongoAdapterObject.mkMongoDatabaseConfig "mongodb://db" None None None in
  let down :=
    MongoAdapterObject.mkServer (fun _ => Some (new_Error "unreachable"))
      (fun _ => None) false (Ok None) (Ok None) (fun n => Z.of_nat n) in
  let first := MongoAdapterObject.connect config down [] MongoAdapterObject.fresh in
  fst first = Throw (new_Error "unreachable") /\
  MongoAdapterObject.connect config down [] (snd first)
  = (Throw (new_Error "unreachable"), snd first).
Proof.
  intros config down first.
  destruct (connection_promise_kept config down [] []
              MongoAdapterObject.fresh eq_refl) as [H1 [_ [H3 _]]].
  split; [exact H1 | exact H3].
Defined.

(** X23. [MongoAdapter.disconnect] always asks Mongoose to disconnect,
    connected or not.  When that resolves the adapter forgets its promise,
    so that the next [connect] dials again; when it rejects, [disconnect]
    rejects with the same error and the adapter keeps its promise, so that
    [connect] still answers with the old outcome. *)
Theorem disconnect_clears_promise :
  forall (config : MongoAdapterObject.MongoDatabaseConfig)
         (server : MongoAdapterObject.Server) (options : obj Setting)
         (w : MongoAdapterObject.World),
    let m := MongoAdapterObject.mongoose w in
    let gone := MongoAdapterObject.disconnect server w in
    MongoAdapterObject.mg_log (MongoAdapterObject.mongoose (snd gone))
    = MongoAdapterObject.mg_log m ++ [MongoAdapterObject.MgDisconnect] /\
    (MongoAdapterObject.disconnect_error server
       (MongoAdapterObject.disconnects m) = None ->
     fst gone = Ok tt /\
     MongoAdapterObject.connectionPromise (snd gone) = None /\
     MongoAdapterObject.mg_log
       (MongoAdapterObject.mongoose
          (snd (MongoAdapterObject.connect config server options (snd gone))))
     = MongoAdapterObject.mg_log m
       ++ [MongoAdapterObject.MgDisconnect;
           MongoAdapterObject.MgConnect
             (MongoAdapterObject.connectionString config)
             (MongoAdapterObject.connect_options config options);
           MongoAdapterObject.MgOn "connected";
           MongoAdapterObject.MgOn "error";
           MongoAdapterObject.MgOn "disconnected"]) /\
    (forall e,
        MongoAdapterObject.disconnect_error server
          (MongoAdapterObject.disconnects m) = Some e ->
        fst gone = Throw e /\
        MongoAdapterObject.connectionPromise (snd gone)
        = MongoAdapterObject.connectionPromise w /\
        forall settled,
          MongoAdapterObject.connectionPromise w = Some settled ->
          MongoAdapterObject.connect config server options (snd gone)
          = (settled, snd gone)).
Proof.
  intros config server options w m gone.
  assert (Hgone : gone = MongoAdapterObject.disconnect server w)
    by reflexivity.
  rewrite (mongo_disconnect_run server w) in Hgone. cbv zeta in Hgone.
  fold m in Hgone.
  destruct (MongoAdapterObject.disconnect_error server
              (MongoAdapterObject.disconnects m)) as [e | ] eqn:Hd;
    rewrite Hgone;
    cbn [fst snd MongoAdapterObject.mongoose MongoAdapterObject.mg_log
           MongoAdapterObject.connectionPromise].
  - split; [reflexivity | ]. split; [discriminate | ].
    intros e' He'. injection He' as <-.
    split; [reflexivity | ]. split; [reflexivity | ].
    intros settled Hs. apply mongo_connect_cached. exact Hs.
  - split; [reflexivity | ]. split; [ | discriminate].
    intros _. split; [reflexivity | ]. split; [reflexivity | ].
    match goal with
    | |- context [MongoAdapterObject.connect config server options ?w0] =>
        rewrite (mongo_connect_fresh config server options w0 eq_refl)
    end.
    cbn [snd MongoAdapterObject.mongoose MongoAdapterObject.mg_log].
    rewrite <- app_assoc. reflexivity.
Qed.

(** X24. [MongoAdapter.healthCheck] never rejects and never changes the
    adapter: it always resolves to a result of type [mongo].  When
    Mongoose's ready state is not 1 the result is unhealthy with the error
    [Not connected to MongoDB] and Mongoose is not called.  Otherwise it is
    healthy exactly when the ping answers with a truthy [ok] and the server
    information is obtained; a missing [db], a missing or falsy ping answer
    give the error [Ping command failed], and a rejected ping or server
    information call gives the message of the error.  The result carries
    an error exactly when it is unhealthy. *)
Theorem mongo_healthCheck_always_answers :
  forall (server : MongoAdapterObject.Server) (w : MongoAdapterObject.World),
    let m := MongoAdapterObject.mongoose w in
    exists r w',
      MongoAdapterObject.healthCheck server w = (Ok r, w') /\
      MongoAdapterObject.connectionPromise w'
      = MongoAdapterObject.connectionPromise w /\
      hc_type r = "mongo" /\
      (MongoAdapterObject.readyState m <> 1 ->
       healthy r = false /\
       hc_error r = Some "Not connected to MongoDB" /\
       MongoAdapterObject.mg_log (MongoAdapterObject.mongoose w')
       = MongoAdapterObject.mg_log m) /\
      (MongoAdapterObject.readyState m = 1 ->
       hc_error r = mongo_complaint server /\
       (healthy r = true
        <-> ping_ok server = true /\
            exists info, MongoAdapterObject.serverInfo server = Ok info)) /\
      (healthy r = true <-> hc_error r = None).
Proof.
  intros server w m.
  unfold MongoAdapterObject.healthCheck, MongoAdapterObject.isConnected,
    MongoAdapterObject.admin_ping, MongoAdapterObject.admin_serverInfo,
    mongo_complaint, ping_ok.
  unfold bind, try_catch, MongoAdapterObject.Date_now, ret, lift,
    MongoAdapterObject.mongoose_event, MongoAdapterObject.set_mongoose.
  cbn [MongoAdapterObject.mongoose MongoAdapterObject.mg_log
         MongoAdapterObject.readyState MongoAdapterObject.connects
         MongoAdapterObject.disconnects MongoAdapterObject.clock_reads
         MongoAdapterObject.connectionPromise
         MongoAdapterObject.transactions].
  fold m.
  destruct (Z.eqb_spec (MongoAdapterObject.readyState m) 1) as [Hr | Hr];
    cbn [negb];
    [destruct (MongoAdapterObject.has_db server);
       [destruct (MongoAdapterObject.ping server) as [[ok | ] | e];
          [destruct (ok =? 0);
             [ | destruct (MongoAdapterObject.serverInfo server)
                   as [info | e]] | | ] | ] | ];
    cbn [negb andb MongoAdapterObject.mongoose MongoAdapterObject.mg_log
           MongoAdapterObject.readyState MongoAdapterObject.connects
           MongoAdapterObject.disconnects MongoAdapterObject.clock_reads
           MongoAdapterObject.connectionPromise
           MongoAdapterObject.transactions];
    (eexists; eexists; split; [reflexivity | ]);
    cbn [healthy hc_error hc_type MongoAdapterObject.connectionPromise
           MongoAdapterObject.mongoose MongoAdapterObject.mg_log];
    repeat split; intros; try congruence; try discriminate;
    try match goal with
        | Hc : _ /\ _ |- _ => destruct Hc as [Hc1 [x Hc2]]; discriminate
        end;
    eauto.
Qed.

(* ================================================================== *)
(** * Transactions on the adapter objects *)
(* ================================================================== *)

Lemma mongo_connect_transactions
  (config : MongoAdapterObject.MongoDatabaseConfig)
  (server : MongoAdapterObject.Server) (options : obj Setting)
  (w : MongoAdapterObject.World) :
  MongoAdapterObject.transactions
    (snd (MongoAdapterObject.connect config server options w))
  = MongoAdapterObject.transactions w.
Proof.
  destruct (MongoAdapterObject.connectionPromise w) as [settled | ] eqn:Hp.
  - rewrite (mongo_connect_cached config server options w settled Hp).
    reflexivity.
  - rewrite (mongo_connect_fresh config server options w Hp). reflexivity.
Qed.

Lemma object_tx_unconnected {T : Type} (client : TxClient T)
  (options : TransactionOptions) (w : PostgresAdapterObject.World) :
  PostgresAdapterObject.knexInstance w = None ->
  PostgresAdapterObject.withTransaction client options w
  = (Throw PostgresAdapterObject.not_connected, w).
Proof.
  intros Hnone.
  unfold PostgresAdapterObject.withTransaction, bind,
    PostgresAdapterObject.getKnex.
  rewrite Hnone. reflexivity.
Qed.

Lemma object_tx_connected {T : Type} (client : TxClient T)
  (options : TransactionOptions) (w : PostgresAdapterObject.World)
  (i : nat) :
  PostgresAdapterObject.knexInstance w = Some i ->
  let run :=
    PostgresAdapter.withTransaction client options
      (PostgresAdapterObject.transactions w) in
  PostgresAdapterObject.withTransaction client options w
  = (fst run, PostgresAdapterObject.set_transactions (snd run) w).
Proof.
  intros Hi run.
  unfold PostgresAdapterObject.withTransaction, bind,
    PostgresAdapterObject.getKnex, zoom.
  rewrite Hi. fold run. destruct run as [r t]. reflexivity.
Qed.

(** X25. A transaction needs a connection, and the two adapters get it
    differently.  [PostgresAdapter.withTransaction] asks [getKnex] first:
    on an adapter that was never connected (or was disconnected) it rejects
    with [PostgreSQL not connected. Call connect() first.] and neither
    opens a transaction nor invokes the callback; on a connected adapter it
    is the retry loop on that instance.  [MongoAdapter.withTransaction]
    connects by itself: when the connection attempt (or the kept promise)
    fails it rejects with that error before any session is started, and
    otherwise it is the retry loop. *)
Theorem transactions_need_connection :
  forall (T : Type) (client : TxClient T) (options : TransactionOptions),
    (forall w,
        PostgresAdapterObject.knexInstance w = None ->
        PostgresAdapterObject.withTransaction client options w
        = (Throw PostgresAdapterObject.not_connected, w)) /\
    (forall w i,
        PostgresAdapterObject.knexInstance w = Some i ->
        let run :=
          PostgresAdapter.withTransaction client options
            (PostgresAdapterObject.transactions w) in
        PostgresAdapterObject.withTransaction client options w
        = (fst run, PostgresAdapterObject.set_transactions (snd run) w)) /\
    (forall config server w,
        let dialled := MongoAdapterObject.connect config server [] w in
        MongoAdapterObject.transactions (snd dialled)
        = MongoAdapterObject.transactions w /\
        (forall e,
            fst dialled = Throw e ->
            MongoAdapterObject.withTransaction config server client options w
            = (Throw e, snd dialled)) /\
        (fst dialled = Ok tt ->
         let run :=
           MongoAdapter.withTransaction client options
             (MongoAdapterObject.transactions w) in
         MongoAdapterObject.withTransaction config server client options w
         = (fst run,
            MongoAdapterObject.set_transactions (snd run) (snd dialled)))).
Proof.
  intros T client options. split; [ | split].
  - intros w Hnone. apply object_tx_unconnected, Hnone.
  - intros w i Hi. apply (object_tx_connected client options w i Hi).
  - intros config server w dialled.
    split; [apply mongo_connect_transactions | ].
    split.
    + intros e He. unfold MongoAdapterObject.withTransaction, bind.
      fold dialled. destruct dialled as [r w']. cbn [fst] in He.
      rewrite He. reflexivity.
    + intros Hok run. unfold MongoAdapterObject.withTransaction, bind.
      pose proof (mongo_connect_transactions config server [] w) as Ht.
      fold dialled in Ht. fold dialled.
      destruct dialled as [r w']. cbn [fst snd] in *.
      rewrite Hok. unfold zoom. rewrite Ht. fold run.
      destruct run as [r' t]. reflexivity.
Qed.

Lemma transactions_need_connection_witness :
  PostgresAdapterObject.withTransaction
    (throws_until 0 (pg_error "40001")) (with_retries 2)
    PostgresAdapterObject.fresh
  = (Throw PostgresAdapterObject.not_connected, PostgresAdapterObject.fresh).
Proof.
  exact (proj1 (transactions_need_connection nat
                  (throws_until 0 (pg_error "40001")) (with_retries 2))
           PostgresAdapterObject.fresh eq_refl).
Defined.

(* ================================================================== *)
(** * The service facade *)
(* ================================================================== *)

Lemma eqb_other (a b : string) : a <> b -> String.eqb a b = false.
Proof. intros H. apply String.eqb_neq. exact H. Qed.

(** X26. The service refuses the methods of the backend it is not
    configured for, before touching anything.  On a service whose type is
    not [mongo], [createMongoRepository] and [withMongoTransaction] throw
    [Database type is "<type>". <method> can only be used when type ===
    "mongo".] and [getMongoAdapter] throws its own message; likewise for
    the three [postgres] methods on a service whose type is not
    [postgres].  On a service of any other type [connect] and
    [withTransaction] throw [Unsupported database type: <type>],
    [isConnected] is false and [healthCheck] resolves to an unhealthy
    result with that message and response time 0.  In all these cases the
    service, its adapters and the drivers are left as they were, and no
    callback is invoked. *)
Theorem wrong_backend_refused :
  forall (config : DatabaseService.DatabaseConfig)
         (postgres : PostgresAdapterObject.Server)
         (mongo : MongoAdapterObject.Server) (w : DatabaseService.World),
    (DatabaseService.type config <> "mongo" ->
     (forall (W : Type) (options : MongoAdapter.MongoRepositoryOptions W),
         DatabaseService.createMongoRepository config options w
         = (Throw (DatabaseService.wrong_type config "createMongoRepository"
                     "mongo"), w)) /\
     DatabaseService.getMongoAdapter config w
     = (Throw (new_Error
                 "getMongoAdapter() is only available for MongoDB connections"),
        w) /\
     (forall (T : Type) (client : TxClient T) options,
         DatabaseService.withMongoTransaction config mongo client options w
         = (Throw (DatabaseService.wrong_type config "withMongoTransaction"
                     "mongo"), w))) /\
    (DatabaseService.type config <> "postgres" ->
     (forall cfg,
         DatabaseService.createPostgresRepository config cfg w
         = (Throw (DatabaseService.wrong_type config
                     "createPostgresRepository" "postgres"), w)) /\
     DatabaseService.getPostgresAdapter config w
     = (Throw (new_Error
                 "getPostgresAdapter() is only available for PostgreSQL connections"),
        w) /\
     (forall (T : Type) (client : TxClient T) options,
         DatabaseService.withPostgresTransaction config client options w
         = (Throw (DatabaseService.wrong_type config
                     "withPostgresTransaction" "postgres"), w))) /\
    (DatabaseService.type config <> "mongo" ->
     DatabaseService.type config <> "postgres" ->
     DatabaseService.connect config mongo w
     = (Throw (DatabaseService.unsupported config), w) /\
     (forall (T : Type) (client : TxClient T) options,
         DatabaseService.withTransaction config mongo client options w
         = (Throw (DatabaseService.unsupported config), w)) /\
     DatabaseService.isConnected config w = (Ok false, w) /\
     DatabaseService.healthCheck config postgres mongo w
     = (Ok (mkHealthCheckResult false 0 (DatabaseService.type config)
              (Some ("Unsupported database type: "
                     ++ DatabaseService.type config)%string) None), w)).
Proof.
  intros config postgres mongo w.
  split; [ | split].
  - intros Hm. apply eqb_other in Hm.
    unfold DatabaseService.createMongoRepository,
      DatabaseService.getMongoAdapter, DatabaseService.withMongoTransaction.
    rewrite Hm. repeat split.
  - intros Hp. apply eqb_other in Hp.
    unfold DatabaseService.createPostgresRepository,
      DatabaseService.getPostgresAdapter,
      DatabaseService.withPostgresTransaction.
    rewrite Hp. repeat split.
  - intros Hm Hp. apply eqb_other in Hm. apply eqb_other in Hp.
    unfold DatabaseService.connect, DatabaseService.withTransaction,
      DatabaseService.isConnected, DatabaseService.healthCheck.
    rewrite Hm, Hp. repeat split.
Qed.

Lemma wrong_backend_refused_witness :
  let config :=
    DatabaseService.mkDatabaseConfig "postgres" "postgres://db" None None
      None in
  DatabaseService.getMongoAdapter config DatabaseService.fresh
  = (Throw (new_Error
              "getMongoAdapter() is only available for MongoDB connections"),
     DatabaseService.fresh) /\
  err_message
    (match DatabaseService.wrong_type config "createMongoRepository" "mongo"
     with
     | ThrownObject e => e
     | ThrownPrimitive _ => mkErrorObject EmptyString None None
     end)
  = ("Database type is " ++ dquote ++ "postgres" ++ dquote
     ++ ". createMongoRepository can only be used when type === "
     ++ dquote ++ "mongo" ++ dquote ++ ".")%string.
Proof.
  intros config.
  destruct (wrong_backend_refused config
              (PostgresAdapterObject.mkServer (fun _ => None)
                 (fun _ => Ok None) (fun _ => None) (fun n => Z.of_nat n))
              (MongoAdapterObject.mkServer (fun _ => None) (fun _ => None)
                 true (Ok None) (Ok None) (fun n => Z.of_nat n))
              DatabaseService.fresh) as [Hm _].
  split.
  - refine (proj1 (proj2 (Hm _))). discriminate.
  - reflexivity.
Defined.

Section PostgresService.
Variable config : DatabaseService.DatabaseConfig.
Variable postgres : PostgresAdapterObject.Server.
Variable mongo : MongoAdapterObject.Server.
Hypothesis relational : DatabaseService.type config = "postgres".

Lemma not_mongo : String.eqb (DatabaseService.type config) "mongo" = false.
Proof. rewrite relational. reflexivity. Qed.

Lemma is_postgres :
  String.eqb (DatabaseService.type config) "postgres" = true.
Proof. rewrite relational. reflexivity. Qed.

(** The world once the service has created its pool. *)
Lemma service_creates_pool (cfg : PostgresAdapter.PostgresEntityConfig)
  (w : DatabaseService.World) :
  DatabaseService.postgresAdapter w = None ->
  let i := PostgresAdapterObject.knex_next (DatabaseService.knex w) in
  DatabaseService.createPostgresRepository config cfg w
  = (Ok (PostgresAdapter.createRepository cfg),
     DatabaseService.mkWorld (DatabaseService.mongoAdapter w) (Some (Some i))
       (PostgresAdapterObject.mkDriver
          (PostgresAdapterObject.knex_log (DatabaseService.knex w)
           ++ [PostgresAdapterObject.KnexCreated i
                 (PostgresAdapterObject.knex_settings
                    (DatabaseService.as_postgres config) [])])
          (S i)
          (PostgresAdapterObject.clock_reads (DatabaseService.knex w)))
       (DatabaseService.mongoose w) (DatabaseService.transactions w)).
Proof.
  intros Hnone i. unfold DatabaseService.createPostgresRepository.
  rewrite is_postgres. cbn [negb]. unfold bind at 1. rewrite Hnone.
  unfold DatabaseService.ensure_postgresAdapter, bind,
    DatabaseService.on_postgres, DatabaseService.set_postgresAdapter.
  rewrite Hnone. reflexivity.
Qed.

Lemma service_reuses_pool (cfg : PostgresAdapter.PostgresEntityConfig)
  (w : DatabaseService.World) (i : nat) :
  DatabaseService.postgresAdapter w = Some (Some i) ->
  DatabaseService.createPostgresRepository config cfg w
  = (Ok (PostgresAdapter.createRepository cfg), w).
Proof.
  intros Hi. unfold DatabaseService.createPostgresRepository.
  rewrite is_postgres. cbn [negb]. unfold bind at 1. rewrite Hi.
  unfold DatabaseService.on_postgres. rewrite Hi.
  destruct w; cbn in *. rewrite Hi. reflexivity.
Qed.

Lemma service_unconnected_adapter (w : DatabaseService.World) :
  DatabaseService.postgresAdapter w = None ->
  DatabaseService.getPostgresAdapter config w
  = (Ok None, DatabaseService.set_postgresAdapter (Some None) w).
Proof.
  intros Hnone. unfold DatabaseService.getPostgresAdapter.
  rewrite is_postgres. cbn [negb].
  unfold bind, DatabaseService.ensure_postgresAdapter. rewrite Hnone.
  reflexivity.
Qed.

Lemma service_repository_unconnected
  (cfg : PostgresAdapter.PostgresEntityConfig) (w : DatabaseService.World) :
  DatabaseService.postgresAdapter w = Some None ->
  DatabaseService.createPostgresRepository config cfg w
  = (Throw PostgresAdapterObject.not_connected, w).
Proof.
  intros Hi. unfold DatabaseService.createPostgresRepository.
  rewrite is_postgres. cbn [negb]. unfold bind at 1. rewrite Hi.
  unfold DatabaseService.on_postgres. rewrite Hi.
  destruct w; cbn in *. rewrite Hi. reflexivity.
Qed.

Lemma service_transaction_unconnected {T : Type} (client : TxClient T)
  (options : option TransactionOptions) (w : DatabaseService.World) :
  DatabaseService.postgresAdapter w = None ->
  DatabaseService.withPostgresTransaction config client options w
  = (Throw PostgresAdapterObject.not_connected,
     DatabaseService.set_postgresAdapter (Some None) w).
Proof.
  intros Hnone. unfold DatabaseService.withPostgresTransaction.
  rewrite is_postgres. cbn [negb]. unfold bind at 1.
  rewrite (service_unconnected_adapter w Hnone).
  unfold DatabaseService.on_postgres, DatabaseService.set_postgresAdapter.
  reflexivity.
Qed.

Lemma service_transaction_connected {T : Type} (client : TxClient T)
  (options : option TransactionOptions) (w : DatabaseService.World)
  (i : nat) :
  DatabaseService.postgresAdapter w = Some (Some i) ->
  let run :=
    PostgresAdapter.withTransaction client (DatabaseService.given options)
      (DatabaseService.transactions w) in
  DatabaseService.withPostgresTransaction config client options w
  = (fst run,
     DatabaseService.mkWorld (DatabaseService.mongoAdapter w) (Some (Some i))
       (DatabaseService.knex w) (DatabaseService.mongoose w) (snd run)).
Proof.
  intros Hi run. unfold DatabaseService.withPostgresTransaction.
  rewrite is_postgres. cbn [negb]. unfold bind at 1.
  unfold DatabaseService.getPostgresAdapter. rewrite is_postgres.
  cbn [negb]. unfold bind at 1.
  unfold DatabaseService.ensure_postgresAdapter. rewrite Hi.
  unfold DatabaseService.on_postgres. rewrite Hi.
  match goal with
  | |- context [PostgresAdapterObject.withTransaction client ?o ?w0] =>
      rewrite (object_tx_connected client o w0 i eq_refl)
  end.
  reflexivity.
Qed.

End PostgresService.

(** X27. On a service configured for [postgres] that has no adapter yet,
    [createPostgresRepository] creates the adapter and connects it: one
    pool is created, with the default settings, and the repository is
    returned; with a connected adapter in place it creates nothing more.
    [getPostgresAdapter] creates the adapter without connecting it;
    after it, and until [connect] is called, [createPostgresRepository]
    throws [PostgreSQL not connected. Call connect() first.]. *)
Theorem postgres_adapter_on_demand :
  forall (config : DatabaseService.DatabaseConfig)
         (cfg : PostgresAdapter.PostgresEntityConfig)
         (w : DatabaseService.World),
    DatabaseService.type config = "postgres" ->
    DatabaseService.postgresAdapter w = None ->
    let i := PostgresAdapterObject.knex_next (DatabaseService.knex w) in
    let made := DatabaseService.createPostgresRepository config cfg w in
    let got := DatabaseService.getPostgresAdapter config w in
    fst made = Ok (PostgresAdapter.createRepository cfg) /\
    DatabaseService.postgresAdapter (snd made) = Some (Some i) /\
    PostgresAdapterObject.knex_log (DatabaseService.knex (snd made))
    = PostgresAdapterObject.knex_log (DatabaseService.knex w)
      ++ [PostgresAdapterObject.KnexCreated i
            (PostgresAdapterObject.knex_settings
               (DatabaseService.as_postgres config) [])] /\
    DatabaseService.createPostgresRepository config cfg (snd made)
    = (Ok (PostgresAdapter.createRepository cfg), snd made) /\
    fst got = Ok None /\
    DatabaseService.postgresAdapter (snd got) = Some None /\
    DatabaseService.knex (snd got) = DatabaseService.knex w /\
    DatabaseService.createPostgresRepository config cfg (snd got)
    = (Throw PostgresAdapterObject.not_connected, snd got).
Proof.
  intros config cfg w Htype Hnone i made got.
  unfold made, got.
  rewrite (service_creates_pool config Htype cfg w Hnone).
  rewrite (service_unconnected_adapter config Htype w Hnone).
  cbn [fst snd DatabaseService.postgresAdapter DatabaseService.knex
         PostgresAdapterObject.knex_log
         DatabaseService.set_postgresAdapter].
  split; [reflexivity | ]. split; [reflexivity | ]. split; [reflexivity | ].
  split.
  { apply (service_reuses_pool config Htype cfg _ i). reflexivity. }
  split; [reflexivity | ]. split; [reflexivity | ]. split; [reflexivity | ].
  apply (service_repository_unconnected config Htype cfg). reflexivity.
Qed.

Lemma postgres_adapter_on_demand_witness :
  let config :=
    DatabaseService.mkDatabaseConfig "postgres" "postgres://db" None None
      None in
  let got := DatabaseService.getPostgresAdapter config DatabaseService.fresh in
  PostgresAdapterObject.knex_log
    (DatabaseService.knex
       (snd (DatabaseService.createPostgresRepository config users_config
               DatabaseService.fresh)))
  = [PostgresAdapterObject.KnexCreated 0
       [("client", SetStr "pg"); ("connection", SetStr "postgres://db");
        ("pool", SetObj [("min", 0); ("max", 10);
                         ("idleTimeoutMillis", 30000);
                         ("acquireTimeoutMillis", 60000)]);
        ("acquireConnectionTimeout", SetNum 60000)]] /\
  DatabaseService.createPostgresRepository config users_config (snd got)
  = (Throw PostgresAdapterObject.not_connected, snd got).
Proof.
  intros config got.
  destruct (postgres_adapter_on_demand config users_config
              DatabaseService.fresh eq_refl eq_refl)
    as [_ [_ [H3 [_ [_ [_ [_ H8]]]]]]].
  split; [exact H3 | exact H8].
Defined.

(** X28. On a service configured for [postgres],
    [withPostgresTransaction] and [withTransaction] do not connect: called
    before [connect] or [createPostgresRepository] they create an
    unconnected adapter and reject with
    [PostgreSQL not connected. Call connect() first.], without opening a
    transaction or invoking the callback.  Once the adapter is connected
    both are the relational retry loop on the given options (none meaning
    the defaults), and leave the adapter and the pool as they were. *)
Theorem service_transaction_needs_connect :
  forall (config : DatabaseService.DatabaseConfig)
         (mongo : MongoAdapterObject.Server) (T : Type)
         (client : TxClient T) (options : option TransactionOptions)
         (w : DatabaseService.World),
    DatabaseService.type config = "postgres" ->
    DatabaseService.withTransaction config mongo client options w
    = DatabaseService.withPostgresTransaction config client options w /\
    (DatabaseService.postgresAdapter w = None ->
     DatabaseService.withPostgresTransaction config client options w
     = (Throw PostgresAdapterObject.not_connected,
        DatabaseService.set_postgresAdapter (Some None) w)) /\
    (forall i,
        DatabaseService.postgresAdapter w = Some (Some i) ->
        let run :=
          PostgresAdapter.withTransaction client
            (or_default options (mkTransactionOptions None None None))
            (DatabaseService.transactions w) in
        DatabaseService.withPostgresTransaction config client options w
        = (fst run,
           DatabaseService.mkWorld (DatabaseService.mongoAdapter w)
             (Some (Some i)) (DatabaseService.knex w)
             (DatabaseService.mongoose w) (snd run))).
Proof.
  intros config mongo T client options w Htype.
  split; [ | split].
  - unfold DatabaseService.withTransaction.
    rewrite (not_mongo config Htype), (is_postgres config Htype).
    reflexivity.
  - intros Hnone.
    apply (service_transaction_unconnected config Htype client options w
             Hnone).
  - intros i Hi.
    apply (service_transaction_connected config Htype client options w i Hi).
Qed.

Lemma service_transaction_needs_connect_witness :
  let config :=
    DatabaseService.mkDatabaseConfig "postgres" "postgres://db" None None
      None in
  let mongo :=
    MongoAdapterObject.mkServer (fun _ => None) (fun _ => None) true
      (Ok None) (Ok None) (fun n => Z.of_nat n) in
  let connected :=
    snd (DatabaseService.connect config mongo DatabaseService.fresh) in
  fst (DatabaseService.withTransaction config mongo
         (throws_until 0 (pg_error "40001")) None DatabaseService.fresh)
  = Throw PostgresAdapterObject.not_connected /\
  fst (DatabaseService.withPostgresTransaction config
         (throws_until 0 (pg_error "40001")) None connected)
  = Ok 0%nat.
Proof.
  intros config mongo connected.
  destruct (service_transaction_needs_connect config mongo nat
              (throws_until 0 (pg_error "40001")) None DatabaseService.fresh
              eq_refl) as [Hroute [Hnone _]].
  destruct (service_transaction_needs_connect config mongo nat
              (throws_until 0 (pg_error "40001")) None connected
              eq_refl) as [_ [_ Hsome]].
  split.
  - rewrite Hroute, (Hnone eq_refl). reflexivity.
  - rewrite (Hsome 0%nat eq_refl). reflexivity.
Defined.
